(* ===== verification/_CoqProject ===== *)
-Q . S2P
Prelude.v
Abi.v
Str.v
Pipe.v
FdTable.v
Vfs.v
Paths.v
FsCtl.v
Fops.v
FileApi.v
Stat.v
Console.v
Dents.v
Disk.v
DiskFs.v
MemBase.v
AddrSpace.v
AddrClone.v
Image.v
UserPtr.v
Alloc.v
Mmap.v
Tasks.v
Mutex.v
Futex.v
Process.v
Clone.v
Load.v
Time.v
Poll.v
PosixFd.v
Mpx.v
Signal.v
Syscall.v
Trap.v
Lifecycle.v
Asm.v
TrapPath.v
TaskSwitch.v
Riscv.v
RiscvFp.v
Loong.v
Aarch.v
X86.v
SockAddr.v
Net.v
Tcp.v
Udp.v
NetLocks.v
Io.v
