(* ===== verification/Prelude.v ===== *)
(** * StarryOS on ArceOS: a verification development

    The program is a monolithic kernel with Linux system calls ([src/api],
    [src/core], [src/src]) on top of the modules of ArceOS ([src/.arceos]):
    tasks and wait queues, a sleeping mutex, address spaces, and a virtual
    file system. This library translates its core into functions and step
    relations and proves what the parts promise each other and the user
    programs.

    ** Style of the model

    A Rust function becomes a function of the same name, prefixed by its type
    where two types share a name. A result is [Ok], [Err] or [Panic]; a panic
    (a failed assertion, an [unwrap], an index out of range) stops the kernel
    and is never confused with an error. Code that changes state is in the
    monad [st]. Machine integers are [Z] with the wrap-around of the release
    build written out. A loop that is not structural takes fuel; the fuel is
    the length of what the loop consumes, and the theorems prove that it is
    enough. Calls that wait are modelled one pass of their loop at a time, so
    that other tasks can run in between, and theorems about them quantify over
    all interleavings. What was read through a user pointer is an argument of
    the call, as the outcome of the check of the pointer; the checks
    themselves are in UserPtr. Crates that are not part of the repository are
    classes whose fields are the operations and the documented laws the code
    relies on; every class has a concrete instance, used by the witnesses.

    ** Files, in order of dependency

    - Prelude: results and monads, machine integers, little-endian bytes,
      lists, reachability, tactics, the hint database [kernel].
    - Abi: errors and constants. The class [AxErrno] is the [axerrno] crate.
    - Str: strings as lists of characters and the operations on them.
    - Pipe ([api/src/file/pipe.rs]): the ring buffer and the loops of [read]
      and [write]. The ring buffer refines a queue of at most 256 bytes; for
      any interleaving of readers and writers the bytes come out in order, no
      pass panics, and a write ends while readers take bytes.
    - FdTable ([api/src/file/mod.rs], [fd_ops.rs], [pipe.rs]): the table of
      descriptors; [dup], [dup2], [close], [fcntl], [pipe2]. Class
      [FlattenObjects].
    - Vfs ([axfs/src/root.rs]): mount table, routing of paths to the file
      system with the longest mount point, operations by path, the current
      directory. Class [AxfsVfs] is the file system below.
    - Paths ([api/src/path.rs]): canonical paths and the hard link manager,
      whose counts are the numbers of links in every reachable state.
    - FsCtl ([ctl.rs], [mount.rs]): [chdir], [mkdirat], [linkat], [unlinkat],
      [getcwd], [mount], [umount2].
    - Fops ([axfs/src/fops.rs]): opening, capabilities, the cursor of files.
    - FileApi ([axfs/src/api]): reading whole files, and the iterator over a
      directory, which yields every entry but the dots once.
    - Stat ([file/mod.rs], [imp/fs/stat.rs]): the metadata calls.
    - Console ([file/stdio.rs]): standard input returns what was typed, in
      order, in the first turn that finds some.
    - Dents ([ctl.rs]): [getdents64] delivers every entry once, in order,
      over any number of calls and buffer sizes.
    - Disk, DiskFs ([axfs/src/dev.rs], [fs]): the cursor over a block device
      refines a flat array of bytes; the adapters of the file systems.
    - MemBase, AddrSpace ([axmm/src]): areas, lazy and eager pages, faults,
      byte access, protection. Classes [MemoryAddr], [PageTable],
      [FrameAlloc], [MemorySet].
    - AddrClone: a cloned address space reads like the original.
    - Image: what is mapped and which bytes it shows, for the loader.
    - UserPtr ([api/src/ptr.rs]): when the kernel accepts a user buffer or
      string, every byte of it may be accessed.
    - Alloc ([axalloc/src]): the two-level allocator hands out disjoint
      memory. Classes of the byte and page allocators.
    - Mmap ([api/src/imp/mm]): [mmap], [munmap], [mprotect], [brk].
    - Tasks ([axtask/src]): task states, run queue, wait queues and timers of
      one CPU as a state machine. In every reachable state one task runs,
      ready tasks are scheduled once, and a blocked task can still be woken.
      Classes [Scheduler] and [TimerList].
    - Mutex ([axsync/src/mutex.rs]): the mutex on several CPUs, every access
      to the owner word and every section under the queue's lock a step.
      Mutual exclusion, and no lost wake-up.
    - Futex ([core/src/futex.rs], [api/src/imp/futex.rs]): the table with its
      reference counts; [FUTEX_WAIT], [FUTEX_WAKE], [FUTEX_REQUEUE].
    - Process ([core/src/task.rs], [imp/task]): the state of the kernel as a
      record [World] of the tree of processes, the CPU, the shared objects and
      the memory; threads, [exit] and [waitpid]. Classes [ProcTree] and
      [AxSignal].
    - Clone ([imp/task/clone.rs]): what a new thread or process shares.
    - Load ([core/src/mm.rs], [imp/task/execve.rs], [src/entry.rs]): the image
      of a program in memory, scripts and interpreters, [execve], and the
      first process. Class [ElfCrates].
    - Time ([core/src/time.rs], [api/src/time.rs], [imp/time.rs]): accounting,
      conversions, clock calls, [nanosleep].
    - Poll ([io_mpx/poll.rs]): [poll] and [ppoll] as turns of a loop between
      which other tasks run.
    - Signal ([api/src/signal.rs], [imp/signal.rs]): sending, masks, actions,
      and the way back to user space. Class [SignalManagers].
    - Syscall, Trap ([src/syscall.rs], [src/mm.rs]): the table of calls with
      the conversion of arguments, the handler of system calls on a [World],
      and the handler of page faults.
    - SockAddr ([api/src/sockaddr.rs]): bytes of socket addresses.
    - Net, Tcp, Udp ([axnet/src/smoltcp_impl], [file/net.rs]): the set of
      sockets, the table of listening ports, and every call of a socket. The
      invariant of TCP holds in every state that calls and frames lead to.
      The class [Smoltcp] is the protocol stack.
    - NetLocks: the order in which network operations take their locks.
    - Io ([api/src/imp/fs/io.rs]): [read], [write], [readv], [writev],
      [lseek], [sendfile], over the interface [FileOps] of an open object.

    Where the code does not do what it means to, the theorem states what it
    does: a write that exactly fills a pipe blocks; an address is never
    accepted by [SockAddr::read]; a waiter that timed out after a requeue
    swallows a wake-up; a futex wake-up between check and wait is lost; and
    others marked in the files.

    ** Bounds

    Integers keep their width. Fuel: [lookup_mounted_fs] the length of the
    path, [notify_all] the length of the queue, [check_events] the number of
    events, [getdents64] and the directory iterator the number of entries,
    [populate_area] one more than the number of pages of the region,
    [sendfile] one more than the bytes of the source, the disk loops the
    number of bytes, the growth of the heap the number of doublings up to the
    request, the search for a port the size of the range. The depth of
    [load_user_app] is the room on the kernel stack, and running out of it is
    a panic. The turns of [poll] and of a read of standard input are not
    bounded by the code; their theorems say after which turn they end.

    ** Not modelled

    Hardware (registers, trap entry, page-table entries), drivers, name
    lookup, start-up and logging, and the unikernel APIs and libraries, which
    are not linked into the kernel. The formats of FAT and ext4 are in crates;
    the file systems behind the VFS interface are modelled by their adapters.
    The task model has one CPU, and leaves out the counter of preemption
    guards, CPU affinity and reference counts of tasks; with the feature
    [preempt] off the operation [OPreempt] does not occur. Namespaces are the
    names in [ProcessData] of the shared tables and directories; the pointer
    arithmetic on linker sections below them is left out.

    ** Plan

    Next are several CPUs for the task model, the registers of trap frames
    and contexts, and the POSIX calls of the unikernel, of which [select] and
    [epoll] have no counterpart here. *)

From stdpp Require Export prelude gmap strings fin_maps.
From Stdlib Require Export ZArith Lia.

(** ** Outcomes of Rust code

    A fallible Rust function returns [Ok], returns [Err], or panics: an
    [unwrap] of the wrong variant, a failed [assert!], an index out of range.
    A panic stops the kernel, so it is an outcome of its own and never an
    error value a caller could handle. *)
Inductive res (E A : Type) : Type :=
  | Ok (a : A)
  | Err (e : E)
  | Panic.
Arguments Ok {E A} a.
Arguments Err {E A} e.
Arguments Panic {E A}.

#[global] Instance res_eq_dec `{EqDecision E, EqDecision A} : EqDecision (res E A).
Proof. solve_decision. Defined.

(** [?] on a result: errors and panics propagate. *)
#[global] Instance res_ret E : MRet (res E) := λ A a, Ok a.
#[global] Instance res_bind E : MBind (res E) := λ A B f m,
  match m with Ok a => f a | Err e => Err e | Panic => Panic end.
#[global] Instance res_fmap E : FMap (res E) := λ A B f m,
  match m with Ok a => Ok (f a) | Err e => Err e | Panic => Panic end.

(** [Result::map_err], also the [From] conversion [?] applies to an error. *)
Definition map_err {E F A} (f : E → F) (m : res E A) : res F A :=
  match m with Ok a => Ok a | Err e => Err (f e) | Panic => Panic end.
(** [Option::ok_or]. *)
Definition ok_or {E A} (o : option A) (e : E) : res E A :=
  match o with Some a => Ok a | None => Err e end.
(** [Result::unwrap] and [expect]: an error is a panic. *)
Definition unwrap {E F A} (m : res E A) : res F A :=
  match m with Ok a => Ok a | Err _ => Panic | Panic => Panic end.
(** [Option::unwrap]. *)
Definition unwrap_opt {E A} (o : option A) : res E A :=
  match o with Some a => Ok a | None => Panic end.
(** [Result::ok]; only used on outcomes that are not panics. *)
Definition res_ok {E A} (m : res E A) : option A :=
  match m with Ok a => Some a | _ => None end.
Definition is_ok {E A} (m : res E A) : bool :=
  match m with Ok _ => true | _ => false end.
(** [assert!(b)]. *)
Definition rassert {E} (b : bool) : res E () := if b then Ok () else Panic.

(** ** Stateful code

    A handler that threads state is a function from the state to an outcome
    and the state it leaves. The state survives an error: what a handler did
    before it returned [Err] stays done. *)
Definition st (S E A : Type) : Type := S → res E A * S.

#[global] Instance st_ret S E : MRet (st S E) := λ A a s, (Ok a, s).
#[global] Instance st_bind S E : MBind (st S E) := λ A B f m s,
  match m s with
  | (Ok a, s') => f a s'
  | (Err e, s') => (Err e, s')
  | (Panic, s') => (Panic, s')
  end.

Definition st_get {S E} : st S E S := λ s, (Ok s, s).
Definition st_put {S E} (s' : S) : st S E () := λ _, (Ok (), s').
Definition st_mod {S E} (f : S → S) : st S E () := λ s, (Ok (), f s).
Definition st_lift {S E A} (m : res E A) : st S E A := λ s, (m, s).
Definition st_err {S E A} (e : E) : st S E A := λ s, (Err e, s).
Definition st_panic {S E A} : st S E A := λ s, (Panic, s).
(** [Result::ok] on a step: the error is dropped, a panic is not. *)
Definition st_ok {S E F A} (m : st S E A) : st S F (option A) := λ s,
  match m s with
  | (Ok a, s') => (Ok (Some a), s')
  | (Err _, s') => (Ok None, s')
  | (Panic, s') => (Panic, s')
  end.
(** [?] with a conversion of the error. *)
Definition st_map_err {S E F A} (f : E → F) (m : st S E A) : st S F A := λ s,
  (map_err f (m s).1, (m s).2).
(** [unwrap] and [expect] on a step. *)
Definition st_unwrap {S E F A} (m : st S E A) : st S F A := λ s, (unwrap (m s).1, (m s).2).
(** A step on a component of the state. *)
Definition st_zoom {S T E A} (get : S → T) (set : T → S → S) (m : st T E A) : st S E A := λ s,
  ((m (get s)).1, set (m (get s)).2 s).
Definition st_gets {S E A} (f : S → A) : st S E A := λ s, (Ok (f s), s).

(** A sequence succeeds when both parts do. *)
Lemma st_bind_Ok {S E A B} (m : st S E A) (k : A → st S E B) s b s' :
  (m ≫= k) s = (Ok b, s') → ∃ a s1, m s = (Ok a, s1) ∧ k a s1 = (Ok b, s').
Proof.
  unfold mbind, st_bind. destruct (m s) as [[a|e|] s1]; [|done..]. intros Hk. by exists a, s1.
Qed.

(** What holds of the outcome of a step, as a rule per construct. *)
Definition wp {S E A} (m : st S E A) (Q : res E A → S → Prop) (s : S) : Prop := Q (m s).1 (m s).2.

Lemma wp_mono {S E A} (m : st S E A) (P Q : res E A → S → Prop) s :
  wp m P s → (∀ r s', P r s' → Q r s') → wp m Q s.
Proof. unfold wp. auto. Qed.
Lemma wp_bind {S E A B} (m : st S E A) (k : A → st S E B) (Q : res E B → S → Prop) s :
  wp m (λ r s', match r with
                | Ok a => wp (k a) Q s'
                | Err e => Q (Err e) s'
                | Panic => Q Panic s'
                end) s → wp (m ≫= k) Q s.
Proof. unfold wp, mbind, st_bind. by destruct (m s) as [[a|e|] s1]. Qed.
Lemma wp_zoom {S T E A} (get : S → T) (set : T → S → S) (m : st T E A) (Q : res E A → S → Prop) s :
  wp m (λ r t, Q r (set t s)) (get s) → wp (st_zoom get set m) Q s.
Proof. done. Qed.

(** ** Machine integers

    A value of a w-bit Rust integer type is a [Z] in the type's range. The
    kernel is built in release mode ([MODE ?= release]), where arithmetic
    wraps; [as] casts truncate and re-interpret. *)
#[local] Open Scope Z_scope.

Definition wrapu (w z : Z) : Z := z mod 2 ^ w.
Definition wraps (w z : Z) : Z := (z + 2 ^ (w - 1)) mod 2 ^ w - 2 ^ (w - 1).

Abbreviation as_u8 := (wrapu 8).
Abbreviation as_u16 := (wrapu 16).
Abbreviation as_u32 := (wrapu 32).
Abbreviation as_u64 := (wrapu 64).
Abbreviation as_usize := (wrapu 64).
Abbreviation as_i16 := (wraps 16).
Abbreviation as_i32 := (wraps 32).
Abbreviation as_i64 := (wraps 64).
Abbreviation as_isize := (wraps 64).

Definition in_u (w z : Z) : Prop := 0 ≤ z < 2 ^ w.
Definition in_s (w z : Z) : Prop := - 2 ^ (w - 1) ≤ z < 2 ^ (w - 1).

Lemma wrapu_range w z : 0 ≤ w → in_u w (wrapu w z).
Proof. intros Hw. apply Z.mod_pos_bound. lia. Qed.

Lemma wrapu_id w z : in_u w z → wrapu w z = z.
Proof. apply Z.mod_small. Qed.

Lemma wraps_id w z : 0 < w → in_s w z → wraps w z = z.
Proof.
  unfold in_s, wraps. intros Hw Hz.
  assert (2 ^ w = 2 * 2 ^ (w - 1)) as Hp.
  { rewrite <-Z.pow_succ_r by lia. f_equal. lia. }
  rewrite Z.mod_small; lia.
Qed.

Lemma wraps_range w z : 0 < w → in_s w (wraps w z).
Proof.
  unfold in_s, wraps. intros Hw.
  assert (2 ^ w = 2 * 2 ^ (w - 1)) as Hp.
  { rewrite <-Z.pow_succ_r by lia. f_equal. lia. }
  pose proof (Z.mod_pos_bound (z + 2 ^ (w - 1)) (2 ^ w)). lia.
Qed.

(** Casting to unsigned and back is the identity on the signed range. *)
Lemma wraps_wrapu w z : 0 < w → in_s w z → wraps w (wrapu w z) = z.
Proof.
  intros Hw Hz. rewrite <-(wraps_id w z) at 2 by done.
  unfold wraps, wrapu. by rewrite Z.add_mod_idemp_l by lia.
Qed.

(** [bitflags]: [x.contains(m)] and [x & m != 0]. *)
Definition contains (x m : Z) : bool := Z.land x m =? m.
Definition intersects (x m : Z) : bool := negb (Z.land x m =? 0).

Lemma contains_lor x a b : contains x (Z.lor a b) = true → contains x a = true ∧ contains x b = true.
Proof.
  unfold contains. rewrite !Z.eqb_eq. intros Hx.
  split; apply Z.bits_inj'; intros n Hn; apply (f_equal (λ z, Z.testbit z n)) in Hx;
    rewrite !Z.land_spec, !Z.lor_spec in Hx; rewrite Z.land_spec;
    destruct (Z.testbit x n), (Z.testbit a n), (Z.testbit b n); done.
Qed.

(** ** Lists and remainders *)

(** A cursor that advances by less than one turn. *)
Lemma mod_turn (a n : nat) :
  (a < 2 * n)%nat → (a `mod` n = if decide (a < n) then a else a - n)%nat.
Proof.
  intros Ha. case_decide; [by apply Nat.mod_small|].
  symmetry. apply (Nat.mod_unique a n 1); lia.
Qed.

Lemma seq_snoc (n k : nat) : seq n (S k) = seq n k ++ [(n + k)%nat].
Proof. apply seq_S. Qed.

(** Little-endian bytes of an integer, and back. *)
Fixpoint le_bytes (n : nat) (z : Z) : list Z :=
  match n with O => [] | S n => z mod 256 :: le_bytes n (z / 256) end.
Fixpoint le_value (bs : list Z) : Z :=
  match bs with [] => 0 | b :: bs => b + 256 * le_value bs end.

Lemma length_le_bytes n z : length (le_bytes n z) = n.
Proof. revert z. induction n; intros z; simpl; auto. Qed.

Lemma le_value_bytes n z : 0 ≤ z < 256 ^ Z.of_nat n → le_value (le_bytes n z) = z.
Proof.
  revert z. induction n as [|n IH]; intros z Hz; [simpl in *; lia|].
  rewrite Nat2Z.inj_succ, Z.pow_succ_r in Hz by lia. simpl.
  rewrite IH; [pose proof (Z_div_mod_eq_full z 256); lia|].
  split; [apply Z.div_pos; lia|]. apply Z.div_lt_upper_bound; lia.
Qed.

(** Overwriting part of a buffer. *)
Definition splice {A} (off : nat) (bs buf : list A) : list A :=
  take off buf ++ bs ++ drop (off + length bs) buf.

Lemma splice_mid {A} (off : nat) (a m c bs : list A) :
  off = length a → length bs = length m → splice off bs (a ++ m ++ c) = a ++ bs ++ c.
Proof.
  intros -> Hl. unfold splice. rewrite take_app_length. do 2 f_equal.
  rewrite (assoc_L (++)), drop_app_length'; [done|]. rewrite length_app. lia.
Qed.

Lemma length_splice {A} off (bs buf : list A) :
  (off + length bs ≤ length buf)%nat → length (splice off bs buf) = length buf.
Proof. intros Hl. unfold splice. rewrite !length_app, length_take, length_drop. lia. Qed.

Lemma splice_lookup {A} off (bs buf : list A) i :
  (off + length bs ≤ length buf)%nat →
  splice off bs buf !! i =
    if decide (off ≤ i < off + length bs)%nat then bs !! (i - off)%nat else buf !! i.
Proof.
  intros Hl. unfold splice. assert (length (take off buf) = off) as Ht by (rewrite length_take; lia).
  destruct (decide (i < off)%nat).
  - rewrite decide_False by lia. rewrite lookup_app_l by lia. by rewrite lookup_take_lt.
  - rewrite lookup_app_r by lia. rewrite Ht. case_decide.
    + by rewrite lookup_app_l by lia.
    + rewrite lookup_app_r by lia. rewrite lookup_drop. f_equal. lia.
Qed.

(** Cutting a list in two at a length. *)
Lemma cut_list {A} (n : nat) (l : list A) :
  (n ≤ length l)%nat → ∃ a b, l = a ++ b ∧ length a = n.
Proof.
  intros Hl. exists (take n l), (drop n l). rewrite take_drop, length_take. split; [done|lia].
Qed.

(** A property every step preserves holds in every reachable state. *)
Lemma rtc_preserved {A} (R : relation A) (P : A → Prop) (x y : A) :
  (∀ a b, R a b → P a → P b) → P x → rtc R x y → P y.
Proof. intros Hstep Hx Hr. induction Hr; eauto. Qed.

(** Updating an entry of a map that may be missing. *)
Lemma insert_as_alter {A} (f : A → A) (i : Z) (m : gmap Z A) :
  match m !! i with Some x => <[i := f x]> m | None => m end = alter f i m.
Proof.
  apply map_eq. intros j. destruct (decide (j = i)) as [->|Hne].
  - rewrite lookup_alter_eq. destruct (m !! i) eqn:Hi; [by rewrite lookup_insert_eq|by rewrite Hi].
  - rewrite lookup_alter_ne by done. destruct (m !! i); [by rewrite lookup_insert_ne|done].
Qed.

(** ** Shared tactics *)

(** Remove the casts that do not change a value, innermost ones included. *)
Ltac ints :=
  repeat match goal with
  | |- context [wrapu ?w ?z] => rewrite (wrapu_id w z) by (unfold in_u; lia)
  | |- context [wraps ?w ?z] => rewrite (wraps_id w z) by (unfold in_s; lia)
  end.

(** Facts that close side goals; every component adds its own. *)
Create HintDb kernel.
#[export] Hint Resolve wrapu_range wraps_range rtc_once : kernel.
#[export] Hint Constructors rtc NoDup Forall : kernel.

(** Case analysis on every [match] and [if] of the goal and the context. *)
Ltac cases := repeat (case_decide || case_bool_decide || case_match); simplify_eq/=.

(** Unfold the monad instances, so that a [←] chain computes. *)
Ltac monad :=
  repeat progress (unfold mret, mbind, res_ret, res_bind, st_ret, st_bind, st_get, st_put,
    st_mod, st_lift, st_err, st_panic, st_gets in *; simpl in * ).
