(* ===== verification/Abi.v ===== *)
(** * Errors and the Linux ABI constants the kernel tests

    The error types come from the [axerrno] crate and the constants from
    [linux_raw_sys]; neither is part of the repository. The errors are the
    variants the kernel names, with one constructor for all others; how an
    [AxError] becomes a [LinuxError], and the number of a [LinuxError], are
    the operations of the class [AxErrno]. The constants are the Linux ABI
    values, which the C headers under [src/.arceos/ulib/axlibc/include]
    repeat. *)

From S2P Require Import Prelude.

#[local] Open Scope Z_scope.

(** Errors of the ArceOS modules. *)
Inductive AxError : Type :=
  | AddrInUse | AlreadyExists | BadAddress | BadState | ConnectionRefused
  | ConnectionReset | DirectoryNotEmpty | InvalidData | InvalidInput | Io
  | IsADirectory | NoMemory | NotADirectory | NotConnected | NotFound
  | PermissionDenied | StorageFull | UnexpectedEof | Unsupported | WouldBlock
  | WriteZero
  | AxOther (code : Z).

#[global] Instance AxError_eq_dec : EqDecision AxError.
Proof. solve_decision. Defined.

(** Errors of the system calls. *)
Inductive LinuxError : Type :=
  | EAFNOSUPPORT | EAGAIN | EBADF | ECHILD | EFAULT | EILSEQ | EINTR | EINVAL
  | EISCONN | EISDIR | EMFILE | ENODEV | ENOENT | ENOMEM | ENOSYS | ENOTDIR
  | EOPNOTSUPP | EPERM | EPIPE | ERANGE | ESPIPE | ESRCH
  | LinuxOther (code : Z).

#[global] Instance LinuxError_eq_dec : EqDecision LinuxError.
Proof. solve_decision. Defined.

Abbreviation AxResult := (res AxError).
Abbreviation LinuxResult := (res LinuxError).

(** The part of [axerrno] the system calls rely on: an [AxError] turns into
    a [LinuxError] ([From], applied by [?]), and every error has a number,
    which is a positive value below 4096 as the Linux return convention needs. *)
Class AxErrno := {
  ax_to_linux : AxError → LinuxError;
  errno_code : LinuxError → Z;
  errno_code_range : ∀ e, 0 < errno_code e < 4096;
}.

(** [Ok(x?)] in a function that returns a [LinuxResult]. *)
Definition into_linux `{AxErrno} {A} (m : AxResult A) : LinuxResult A :=
  map_err ax_to_linux m.

(** ** Constants *)
Definition AT_FDCWD : Z := -100.
Definition AT_EMPTY_PATH : Z := 4096.
Definition AT_REMOVEDIR : Z := 512.

Definition O_RDONLY : Z := 0.
Definition O_WRONLY : Z := 1.
Definition O_CREAT : Z := 64.
Definition O_TRUNC : Z := 512.
Definition O_APPEND : Z := 1024.
Definition O_NONBLOCK : Z := 2048.
Definition O_DIRECTORY : Z := 65536.
Definition O_PATH : Z := 2097152.

Definition F_DUPFD : Z := 0.
Definition F_SETFL : Z := 4.
Definition F_DUPFD_CLOEXEC : Z := 1030.

Definition S_IFIFO : Z := 4096.
Definition S_IFCHR : Z := 8192.
Definition S_IFDIR : Z := 16384.
Definition S_IFSOCK : Z := 49152.

Definition POLLIN : Z := 1.
Definition POLLOUT : Z := 4.
Definition POLLERR : Z := 8.
Definition POLLNVAL : Z := 32.

(** An instance with the numbers of the Linux ABI, for closed examples. *)
Definition linux_code (e : LinuxError) : Z :=
  match e with
  | EPERM => 1 | ENOENT => 2 | ESRCH => 3 | EINTR => 4 | EBADF => 9 | ECHILD => 10
  | EAGAIN => 11 | ENOMEM => 12 | EFAULT => 14 | ENODEV => 19 | ENOTDIR => 20 | EISDIR => 21
  | EINVAL => 22 | EMFILE => 24 | ESPIPE => 29 | EPIPE => 32 | ERANGE => 34 | ENOSYS => 38
  | EILSEQ => 84 | EOPNOTSUPP => 95 | EAFNOSUPPORT => 97 | EISCONN => 106
  | LinuxOther code => Z.max 1 (Z.min code 4095)
  end.
Definition sample_to_linux (e : AxError) : LinuxError :=
  match e with
  | AddrInUse => LinuxOther 98
  | AlreadyExists => LinuxOther 17
  | BadAddress => EFAULT
  | BadState => EFAULT
  | ConnectionRefused => LinuxOther 111
  | ConnectionReset => LinuxOther 104
  | DirectoryNotEmpty => LinuxOther 39
  | InvalidData | InvalidInput => EINVAL
  | IsADirectory => EISDIR
  | NoMemory => ENOMEM
  | NotADirectory => ENOTDIR
  | NotConnected => LinuxOther 107
  | NotFound => ENOENT
  | PermissionDenied => LinuxOther 13
  | StorageFull => LinuxOther 28
  | Io | UnexpectedEof | WriteZero => LinuxOther 5
  | Unsupported => ENOSYS
  | WouldBlock => EAGAIN
  | AxOther code => LinuxOther code
  end.
Definition SampleErrno : AxErrno.
Proof.
  refine {| ax_to_linux := sample_to_linux; errno_code := linux_code |}.
  intros []; simpl; lia.
Defined.
