(* ===== verification/Str.v ===== *)
(** * Rust strings

    The [str] and [String] methods the path code uses, on lists of characters.
    Paths are taken to be ASCII text: the separators the code looks for are
    ASCII, so on UTF-8 text the byte offsets would be the same; only
    [trim], which also removes non-ASCII white space in Rust, is exact for
    ASCII text alone. *)

From Stdlib Require Export Ascii.
From Stdlib Require String.
From S2P Require Import Prelude.

Abbreviation str := (list ascii).

Declare Scope str_scope.
Delimit Scope str_scope with str.
(** A string literal as a [str]. *)
Notation "$ x" := (String.list_ascii_of_string x%string) (at level 1, format "$ x") : str_scope.
#[global] Open Scope str_scope.

Definition slash : ascii := "/"%char.

(** [s.strip_prefix(p)]. *)
Fixpoint strip_prefix (s p : str) {struct p} : option str :=
  match p, s with
  | [], _ => Some s
  | c :: p', d :: s' => if decide (c = d) then strip_prefix s' p' else None
  | _ :: _, [] => None
  end.

(** [s.starts_with(p)], [s.ends_with(p)]. *)
Definition starts_with (s p : str) : bool :=
  match strip_prefix s p with Some _ => true | None => false end.
Definition ends_with (s p : str) : bool := starts_with (reverse s) (reverse p).

(** [s.trim_start_matches(pred)], [s.trim_end_matches(pred)] and
    [s.trim_matches(pred)]. *)
Fixpoint trim_start_matches (f : ascii → bool) (s : str) : str :=
  match s with
  | c :: s' => if f c then trim_start_matches f s' else s
  | [] => []
  end.
Definition trim_end_matches (f : ascii → bool) (s : str) : str :=
  reverse (trim_start_matches f (reverse s)).
Definition trim_matches (f : ascii → bool) (s : str) : str :=
  trim_end_matches f (trim_start_matches f s).

Definition is_slash (c : ascii) : bool := bool_decide (c = slash).
(** [char::is_whitespace] on ASCII: space and U+0009 to U+000D. *)
Definition is_whitespace (c : ascii) : bool :=
  bool_decide (c = " "%char) || (9 <=? nat_of_ascii c)%nat && (nat_of_ascii c <=? 13)%nat.
Definition trim (s : str) : str := trim_matches is_whitespace s.

(** [s.rfind(c)]: the index of the last occurrence. *)
Fixpoint rfind (s : str) (c : ascii) : option nat :=
  match s with
  | [] => None
  | d :: s' => match rfind s' c with
               | Some i => Some (S i)
               | None => if decide (d = c) then Some 0%nat else None
               end
  end.

(** [s.split(c)]: the pieces between the occurrences of [c]. *)
Fixpoint split_on (c : ascii) (s : str) : list str :=
  match s with
  | [] => [[]]
  | d :: s' => if decide (d = c) then [] :: split_on c s' else
      match split_on c s' with
      | x :: xs => (d :: x) :: xs
      | [] => [[d]]
      end
  end.

(** ** Facts *)

Lemma strip_prefix_Some s p r : strip_prefix s p = Some r ↔ s = p ++ r.
Proof.
  revert s. induction p as [|c p IH]; intros s; simpl; [split; congruence|].
  destruct s as [|d s]; [done|]. case_decide; subst; [rewrite IH|]; split; congruence.
Qed.

Lemma starts_with_spec s p : starts_with s p = true ↔ ∃ r, s = p ++ r.
Proof.
  unfold starts_with. destruct (strip_prefix s p) as [r|] eqn:Hr.
  - apply strip_prefix_Some in Hr. naive_solver.
  - split; [done|]. intros [r Hs%strip_prefix_Some]. congruence.
Qed.

Lemma ends_with_spec s p : ends_with s p = true ↔ ∃ r, s = r ++ p.
Proof.
  unfold ends_with. rewrite starts_with_spec. split; intros [r Hr].
  - exists (reverse r). by rewrite <-(reverse_involutive s), Hr, reverse_app, reverse_involutive.
  - exists (reverse r). by rewrite Hr, reverse_app.
Qed.

Lemma starts_with_app p r : starts_with (p ++ r) p = true.
Proof. apply starts_with_spec. by exists r. Qed.

Lemma ends_with_app r p : ends_with (r ++ p) p = true.
Proof. apply ends_with_spec. by exists r. Qed.

(** What is trimmed satisfies the predicate, what is left does not begin or
    end with such a character. *)
Lemma trim_start_spec f s :
  ∃ a, s = a ++ trim_start_matches f s ∧ Forall (λ c, f c = true) a ∧
    ∀ c r, trim_start_matches f s = c :: r → f c = false.
Proof.
  induction s as [|c s (a & Hs & Ha & Hr)]; simpl; [by exists []|].
  destruct (f c) eqn:Hc.
  - exists (c :: a). rewrite Hs at 1. auto.
  - exists []. split_and!; [done|done|naive_solver].
Qed.

Lemma trim_end_spec f s :
  ∃ b, s = trim_end_matches f s ++ b ∧ Forall (λ c, f c = true) b ∧
    ∀ c r, trim_end_matches f s = r ++ [c] → f c = false.
Proof.
  unfold trim_end_matches.
  destruct (trim_start_spec f (reverse s)) as (a & Hs & Ha & Hr).
  exists (reverse a). split_and!.
  - by rewrite <-reverse_app, <-Hs, reverse_involutive.
  - by apply Forall_reverse.
  - intros c r Hc. apply (Hr c (reverse r)).
    rewrite <-(reverse_involutive (trim_start_matches _ _)), Hc. by rewrite reverse_snoc.
Qed.

Lemma trim_matches_spec f s :
  ∃ a b, s = a ++ trim_matches f s ++ b ∧ Forall (λ c, f c = true) a ∧
    Forall (λ c, f c = true) b ∧
    ∀ c r, trim_matches f s = r ++ [c] → f c = false.
Proof.
  unfold trim_matches.
  destruct (trim_start_spec f s) as (a & Hs & Ha & _).
  destruct (trim_end_spec f (trim_start_matches f s)) as (b & Ht & Hb & Hr).
  exists a, b. split_and!; [by rewrite <-Ht|done..].
Qed.

(** A string whose ends the predicate rejects is left as it is. *)
Lemma trim_start_id f c s : f c = false → trim_start_matches f (c :: s) = c :: s.
Proof. intros Hc. simpl. by rewrite Hc. Qed.

Lemma trim_end_id f c s : f c = false → trim_end_matches f (s ++ [c]) = s ++ [c].
Proof.
  intros Hc. unfold trim_end_matches. rewrite reverse_snoc, trim_start_id by done.
  by rewrite reverse_cons, reverse_involutive.
Qed.

Lemma trim_matches_length f s : (length (trim_matches f s) ≤ length s)%nat.
Proof.
  destruct (trim_matches_spec f s) as (a & b & Hs & _). rewrite Hs at 2.
  rewrite !length_app. lia.
Qed.

(** Trimming does not turn a string with a first character that stays into
    one with another first character. *)
Lemma trim_start_head f c s :
  f c = false → ∀ d r, trim_end_matches f (c :: s) = d :: r → d = c.
Proof.
  intros Hc d r Hd. destruct (trim_end_spec f (c :: s)) as (b & Hs & _ & _).
  rewrite Hd in Hs. by simplify_eq/=.
Qed.

Lemma trim_end_nonempty f c s : f c = false → trim_end_matches f (c :: s) ≠ [].
Proof.
  intros Hc Hn. destruct (trim_end_spec f (c :: s)) as (b & Hs & Hb & _).
  rewrite Hn in Hs. simpl in Hs. rewrite <-Hs in Hb. apply Forall_cons in Hb as [Hb _]. congruence.
Qed.

Lemma trim_matches_head f s c r : trim_matches f s = c :: r → f c = false.
Proof.
  unfold trim_matches. intros Ht.
  destruct (trim_start_spec f s) as (_ & _ & _ & Hh).
  destruct (trim_start_matches f s) as [|d u] eqn:Hu; [done|].
  specialize (Hh d u eq_refl). by rewrite <-(trim_start_head f d u Hh c r Ht) in Hh.
Qed.

(** [rfind] finds the last occurrence: nothing after it is [c]. *)
Lemma rfind_Some s c i :
  rfind s c = Some i ↔ ∃ a b, s = a ++ c :: b ∧ length a = i ∧ c ∉ b.
Proof.
  revert i. induction s as [|d s IH]; intros i; simpl.
  { split; [done|]. by intros ([] & b & ? & _). }
  destruct (rfind s c) as [j|] eqn:Hj.
  - split.
    + intros [= <-]. destruct (proj1 (IH j) eq_refl) as (a & b & -> & <- & Hb).
      by exists (d :: a), b.
    + intros (a & b & Hs & <- & Hb). destruct a as [|e a]; simplify_eq/=.
      * exfalso. destruct (proj1 (IH j) eq_refl) as (a & b' & -> & _). clear IH. set_solver.
      * f_equal. assert (Some j = Some (length a)) as [= ->]; [|done].
        apply IH. by exists a, b.
  - assert (c ∉ s) as Hns.
    { intros (a & b & -> & Hb)%list_elem_of_split_r.
      enough (None = Some (length a)) by done. apply IH. by exists a, b. }
    case_decide; subst.
    + split; [intros [= <-]; by exists [], s|].
      intros (a & b & Hs & <- & Hb). destruct a; simplify_eq/=; [done|]. set_solver.
    + split; [done|]. intros (a & b & Hs & _). destruct a; simplify_eq/=. set_solver.
Qed.

Lemma rfind_None s c : rfind s c = None ↔ c ∉ s.
Proof.
  split.
  - intros Hn (a & b & -> & Hb)%list_elem_of_split_r.
    assert (rfind (a ++ c :: b) c = Some (length a)) by (apply rfind_Some; by exists a, b).
    congruence.
  - intros Hs. destruct (rfind s c) eqn:Hr; [|done].
    apply rfind_Some in Hr as (a & b & -> & _). set_solver.
Qed.

(** Joining the pieces of [split] with the separator gives the string back. *)
Fixpoint join_with (c : ascii) (xs : list str) : str :=
  match xs with
  | [] => []
  | [x] => x
  | x :: xs' => x ++ c :: join_with c xs'
  end.

Lemma split_on_join c s : join_with c (split_on c s) = s.
Proof.
  induction s as [|d s IH]; [done|]. simpl. case_decide; subst.
  - destruct (split_on c s) eqn:E; simpl in *; [by subst|]. by rewrite IH.
  - destruct (split_on c s) as [|x [|y xs]]; simpl in *; by subst.
Qed.

Lemma split_on_pieces c s : Forall (λ x, c ∉ x) (split_on c s).
Proof.
  induction s as [|d s IH]; simpl; [constructor; [set_solver|done]|].
  case_decide; [constructor; [set_solver|done]|].
  destruct (split_on c s) as [|x xs]; [repeat constructor; set_solver|].
  apply Forall_cons in IH as [Hx Hxs]. constructor; [set_solver|done].
Qed.
