(* ===== verification/Pipe.v ===== *)
(** * Pipes ([src/api/src/file/pipe.rs])

    A pipe is two ends that share one 256-byte ring buffer behind a sleeping
    mutex. The first part models the ring buffer and shows that it refines a
    bounded FIFO queue. The second part models the blocking loops of [read]
    and [write], one loop iteration at a time: an iteration runs under the
    buffer's lock, so it is atomic, and everything else can happen between
    two iterations. *)

From S2P Require Import Prelude Abi.

(** ** The ring buffer *)

Inductive RingBufferStatus : Type := Full | Empty | Normal.

#[global] Instance RingBufferStatus_eq_dec : EqDecision RingBufferStatus.
Proof. solve_decision. Defined.

Definition RING_BUFFER_SIZE : nat := 256.

Record PipeRingBuffer : Type := {
  arr : list Z;
  head : nat;
  tail : nat;
  status : RingBufferStatus;
}.

Definition PipeRingBuffer_new : PipeRingBuffer :=
  {| arr := replicate RING_BUFFER_SIZE 0%Z; head := 0; tail := 0; status := Empty |}.

(** Stores a byte at [tail]. The index is out of range only for a [tail] no
    operation produces; Rust panics there. *)
Definition write_byte (rb : PipeRingBuffer) (byte : Z) : LinuxResult PipeRingBuffer :=
  if decide (rb.(tail) < length rb.(arr)) then
    let tail' := (rb.(tail) + 1) `mod` RING_BUFFER_SIZE in
    Ok {| arr := <[rb.(tail) := byte]> rb.(arr);
          head := rb.(head);
          tail := tail';
          status := if decide (tail' = rb.(head)) then Full else Normal |}
  else Panic.

Definition read_byte (rb : PipeRingBuffer) : LinuxResult (Z * PipeRingBuffer) :=
  match rb.(arr) !! rb.(head) with
  | Some c =>
      let head' := (rb.(head) + 1) `mod` RING_BUFFER_SIZE in
      Ok (c, {| arr := rb.(arr);
                head := head';
                tail := rb.(tail);
                status := if decide (head' = rb.(tail)) then Empty else Normal |})
  | None => Panic
  end.

Definition available_read (rb : PipeRingBuffer) : nat :=
  if decide (rb.(status) = Empty) then 0
  else if decide (rb.(head) < rb.(tail)) then rb.(tail) - rb.(head)
  else rb.(tail) + RING_BUFFER_SIZE - rb.(head).

Definition available_write (rb : PipeRingBuffer) : nat :=
  if decide (rb.(status) = Full) then 0
  else RING_BUFFER_SIZE - available_read rb.

(** *** Well-formedness and abstraction *)

(** Both cursors are in range and the status separates the two cases in
    which they coincide. *)
Record rb_wf (rb : PipeRingBuffer) : Prop := {
  wf_arr : length rb.(arr) = RING_BUFFER_SIZE;
  wf_head : rb.(head) < RING_BUFFER_SIZE;
  wf_tail : rb.(tail) < RING_BUFFER_SIZE;
  wf_status : if decide (rb.(status) = Normal) then rb.(head) ≠ rb.(tail) else rb.(head) = rb.(tail);
}.

Definition slot (rb : PipeRingBuffer) (i : nat) : Z :=
  default 0%Z (rb.(arr) !! ((rb.(head) + i) `mod` RING_BUFFER_SIZE)).

(** The bytes in the buffer, oldest first. *)
Definition contents (rb : PipeRingBuffer) : list Z :=
  slot rb <$> seq 0 (available_read rb).

(** *** The abstract queue

    What the ring buffer promises: a FIFO queue of at most
    [RING_BUFFER_SIZE] bytes. *)
Definition fifo_push (q : list Z) (b : Z) : option (list Z) :=
  if decide (length q < RING_BUFFER_SIZE) then Some (q ++ [b]) else None.

Definition fifo_pop (q : list Z) : option (Z * list Z) :=
  match q with [] => None | c :: q' => Some (c, q') end.

(** ** Pipe ends

    The two ends share the buffer through an [Arc]; its strong count is the
    number of ends still alive, which is what [closed] looks at. *)
Record PipeShared : Type := {
  buffer : PipeRingBuffer;
  strong : nat;
}.

Record Pipe : Type := { readable : bool }.

Definition set_buffer (rb : PipeRingBuffer) (sh : PipeShared) : PipeShared :=
  {| buffer := rb; strong := sh.(strong) |}.

(** [Pipe::new]: read end, write end and what they share. *)
Definition Pipe_new : Pipe * Pipe * PipeShared :=
  ({| readable := true |}, {| readable := false |},
   {| buffer := PipeRingBuffer_new; strong := 2 |}).

Definition writable (p : Pipe) : bool := negb p.(readable).

Definition closed (sh : PipeShared) : bool := bool_decide (sh.(strong) = 1).

(** How a pass through a [loop] body ends: with a [return], with
    [axtask::yield_now(); continue], or by falling through to the next pass. *)
Inductive pass (S A : Type) : Type :=
  | Return (r : A)
  | Yield (s : S)
  | Again (s : S).
Arguments Return {S A} r.
Arguments Yield {S A} s.
Arguments Again {S A} s.

(** The [for c in buf.iter_mut().take(n)] loop of [read]. *)
Fixpoint read_bytes (n : nat) (rb : PipeRingBuffer) : LinuxResult (list Z * PipeRingBuffer) :=
  match n with
  | 0 => Ok ([], rb)
  | S n' =>
      '(c, rb1) ← read_byte rb;
      '(cs, rb2) ← read_bytes n' rb1;
      Ok (c :: cs, rb2)
  end.

(** One pass of [read]'s loop, for a buffer of [buf_len] bytes. The bytes
    that land in the caller's buffer are the result; their number is what
    the call returns. *)
Definition Pipe_read_pass (sh : PipeShared) (buf_len : nat) :
    LinuxResult (pass () (list Z) * PipeShared) :=
  let read_size := available_read sh.(buffer) `min` buf_len in
  if decide (read_size = 0) then
    Ok (if closed sh then Return [] else Yield (), sh)
  else
    '(cs, rb) ← read_bytes read_size sh.(buffer);
    Ok (Return cs, set_buffer rb sh).

(** [read] up to its loop: [None] means that the loop is entered. *)
Definition Pipe_read_enter (p : Pipe) (buf_len : nat) : option (LinuxResult (list Z)) :=
  if negb p.(readable) then Some (Err EPERM)
  else if decide (buf_len = 0) then Some (Ok [])
  else None.

(** The [for _ in 0..loop_write] loop of [write]: the new buffer, the new
    [write_size], and whether it returned. *)
Fixpoint write_bytes (n : nat) (rb : PipeRingBuffer) (buf : list Z) (write_size : nat) :
    LinuxResult (PipeRingBuffer * nat * bool) :=
  match n with
  | 0 => Ok (rb, write_size, false)
  | S n' =>
      if decide (write_size = length buf) then Ok (rb, write_size, true)
      else
        b ← unwrap_opt (buf !! write_size);
        rb' ← write_byte rb b;
        write_bytes n' rb' buf (write_size + 1)
  end.

(** One pass of [write]'s loop; the loop variable is [write_size]. *)
Definition Pipe_write_pass (sh : PipeShared) (buf : list Z) (write_size : nat) :
    LinuxResult (pass nat nat * PipeShared) :=
  let loop_write := available_write sh.(buffer) in
  if decide (loop_write = 0) then
    Ok (if closed sh then Return write_size else Yield write_size, sh)
  else
    '(rb, write_size', returned) ← write_bytes loop_write sh.(buffer) buf write_size;
    Ok (if (returned : bool) then Return write_size' else Again write_size', set_buffer rb sh).

Definition Pipe_write_enter (p : Pipe) (sh : PipeShared) (buf : list Z) :
    option (LinuxResult nat) :=
  if negb (writable p) then Some (Err EPERM)
  else if closed sh then Some (Err EPIPE)
  else if decide (buf = []) then Some (Ok 0)
  else None.

Record PollState : Type := { poll_readable : bool; poll_writable : bool }.

Definition Pipe_poll (p : Pipe) (sh : PipeShared) : LinuxResult PollState :=
  Ok {| poll_readable := p.(readable) && bool_decide (0 < available_read sh.(buffer));
        poll_writable := writable p && bool_decide (0 < available_write sh.(buffer)) |}.

(** *** Ring buffer lemmas *)

Lemma RBS_pos : 0 < RING_BUFFER_SIZE.
Proof. unfold RING_BUFFER_SIZE. lia. Qed.

#[local] Opaque RING_BUFFER_SIZE.

(** Arithmetic on cursors: a remainder is one conditional subtraction. *)
Ltac cursor :=
  pose proof RBS_pos;
  rewrite ?mod_turn in * by lia;
  repeat case_decide; try lia.

Lemma rb_new_wf : rb_wf PipeRingBuffer_new.
Proof.
  pose proof RBS_pos. split; cbn; rewrite ?length_replicate; try done.
Qed.

Lemma contents_new : contents PipeRingBuffer_new = [].
Proof. reflexivity. Qed.

Lemma length_contents rb : length (contents rb) = available_read rb.
Proof. unfold contents. by rewrite length_fmap, length_seq. Qed.

Lemma available_read_bound rb : rb_wf rb → available_read rb ≤ RING_BUFFER_SIZE.
Proof. intros []. unfold available_read. cursor. Qed.

Lemma available_read_full rb :
  rb_wf rb → available_read rb = RING_BUFFER_SIZE ↔ rb.(status) = Full.
Proof.
  intros [? Hh Ht Hs]. unfold available_read. pose proof RBS_pos.
  destruct (status rb); repeat case_decide; split; intros; try congruence; lia.
Qed.

Lemma available_write_spec rb :
  rb_wf rb → available_write rb = RING_BUFFER_SIZE - available_read rb.
Proof.
  intros Hwf. unfold available_write. case_decide as Hs; [|done].
  apply available_read_full in Hs; [lia|done].
Qed.

(** The next free slot is [available_read] slots after [head]. *)
Lemma tail_slot rb :
  rb_wf rb → (rb.(head) + available_read rb) `mod` RING_BUFFER_SIZE = rb.(tail).
Proof.
  intros Hwf. pose proof (available_read_bound _ Hwf). destruct Hwf as [? Hh Ht Hs].
  rewrite mod_turn by lia. revert Hs. unfold available_read in *.
  destruct (status rb); repeat case_decide; intros; try congruence; lia.
Qed.

(** The occupied slots are not the next free one. *)
Lemma slot_not_tail rb i :
  rb_wf rb → i < available_read rb → available_read rb < RING_BUFFER_SIZE →
  (rb.(head) + i) `mod` RING_BUFFER_SIZE ≠ rb.(tail).
Proof.
  intros Hwf Hi Hr. rewrite <-(tail_slot rb) by done. destruct Hwf as [? Hh Ht _].
  rewrite !mod_turn by lia. repeat case_decide; lia.
Qed.

Lemma write_byte_wf rb b :
  rb_wf rb → available_read rb < RING_BUFFER_SIZE →
  ∃ rb', write_byte rb b = Ok rb' ∧ rb_wf rb' ∧
    available_read rb' = S (available_read rb) ∧
    contents rb' = contents rb ++ [b].
Proof.
  intros Hwf Hr. pose proof (tail_slot _ Hwf) as Htail. pose proof RBS_pos.
  pose proof (slot_not_tail rb) as Hne.
  pose proof Hwf as [Ha Hh Ht Hs]. unfold write_byte. rewrite decide_True by lia.
  eexists. split; [done|].
  set (rb' := {| arr := _ |}).
  assert (available_read rb' = S (available_read rb)) as Hav.
  { clear Hne. revert Hs Hr. unfold available_read; subst rb'; cbn. rewrite mod_turn by lia.
    destruct (status rb); repeat case_decide; intros; try congruence; lia. }
  split_and!; [|done|].
  - split; cbn; rewrite ?length_insert; try done; [apply Nat.mod_upper_bound; lia|].
    repeat case_decide; congruence.
  - unfold contents. rewrite Hav, seq_snoc, fmap_app. f_equal; cbn.
    + apply list_fmap_ext. intros j x [-> Hj]%lookup_seq. unfold slot; cbn.
      rewrite list_lookup_insert_ne; [done|]. apply not_eq_sym, Hne; auto.
    + unfold slot; cbn. rewrite Htail, list_lookup_insert_eq by lia. done.
Qed.

Lemma read_byte_wf rb :
  rb_wf rb → 0 < available_read rb →
  ∃ c rb', read_byte rb = Ok (c, rb') ∧ rb_wf rb' ∧
    available_read rb = S (available_read rb') ∧
    contents rb = c :: contents rb'.
Proof.
  intros Hwf Hr. pose proof RBS_pos. pose proof Hwf as [Ha Hh Ht Hs].
  destruct (lookup_lt_is_Some_2 (arr rb) (head rb)) as [c Hc]; [lia|].
  unfold read_byte. rewrite Hc. eexists c, _. split; [done|].
  set (rb' := {| arr := _ |}).
  assert (available_read rb = S (available_read rb')) as Hav.
  { revert Hs Hr. unfold available_read; subst rb'; cbn. rewrite mod_turn by lia.
    destruct (status rb); repeat case_decide; intros; try congruence; lia. }
  split_and!; [|done|].
  - split; cbn; try done; [apply Nat.mod_upper_bound; lia|].
    repeat case_decide; congruence.
  - unfold contents. rewrite Hav. rewrite <-cons_seq, fmap_cons. f_equal.
    + unfold slot. rewrite Nat.add_0_r, Nat.mod_small, Hc by lia. done.
    + rewrite <-fmap_S_seq, <-list_fmap_compose. apply list_fmap_ext.
      intros j x _. unfold slot; cbn. f_equal. f_equal.
      rewrite Nat.Div0.add_mod_idemp_l. f_equal. lia.
Qed.

Lemma contents_nil rb : available_read rb = 0 → contents rb = [].
Proof. intros H. unfold contents. by rewrite H. Qed.

Lemma read_bytes_spec n rb :
  rb_wf rb → n ≤ available_read rb →
  ∃ rb', read_bytes n rb = Ok (take n (contents rb), rb') ∧ rb_wf rb' ∧
    contents rb' = drop n (contents rb).
Proof.
  revert rb. induction n as [|n IH]; intros rb Hwf Hn; cbn.
  { exists rb. by rewrite take_0, drop_0. }
  destruct (read_byte_wf rb) as (c & rb1 & -> & Hwf1 & Hav & Hc); [done|lia|].
  destruct (IH rb1) as (rb2 & Hrd & Hwf2 & Hc2); [done|lia|].
  monad. rewrite Hrd, Hc. by exists rb2.
Qed.

(** [write_bytes] copies as much of the rest of the caller's buffer as it
    was asked to, in order, and says whether it ran out of bytes first. *)
Lemma write_bytes_spec n rb buf ws :
  rb_wf rb → n + available_read rb ≤ RING_BUFFER_SIZE → ws ≤ length buf →
  ∃ rb', write_bytes n rb buf ws =
      Ok (rb', ws + n `min` (length buf - ws), bool_decide (length buf - ws < n)) ∧
    rb_wf rb' ∧ contents rb' = contents rb ++ take n (drop ws buf).
Proof.
  revert rb ws. induction n as [|n IH]; intros rb ws Hwf Hn Hws; cbn.
  { exists rb. rewrite take_0, app_nil_r, Nat.add_0_r. by rewrite bool_decide_false by lia. }
  case_decide as Hfull.
  { exists rb. rewrite bool_decide_true by lia. rewrite drop_ge by lia.
    rewrite take_nil, app_nil_r. replace (length buf - ws) with 0 by lia.
    by rewrite Nat.add_0_r. }
  destruct (lookup_lt_is_Some_2 buf ws) as [b Hb]; [lia|]. rewrite Hb.
  destruct (write_byte_wf rb b) as (rb1 & Hw & Hwf1 & Hav & Hc); [done|lia|].
  destruct (IH rb1 (ws + 1)) as (rb2 & Hw2 & Hwf2 & Hc2); [done|lia|lia|].
  monad. rewrite Hw, Hw2. exists rb2. split_and!; [|done|].
  - assert (ws + 1 + n `min` (length buf - (ws + 1)) = ws + S n `min` (length buf - ws)) as -> by lia.
    do 2 f_equal. apply bool_decide_ext. lia.
  - rewrite Hc2, Hc, (drop_S buf b ws) by done. by rewrite <-app_assoc, Nat.add_1_r.
Qed.

(** What one pass of [write] does, on each branch. *)
Lemma Pipe_write_pass_spec sh buf ws :
  rb_wf sh.(buffer) → ws ≤ length buf →
  let free := RING_BUFFER_SIZE - length (contents sh.(buffer)) in
  ∃ out sh', Pipe_write_pass sh buf ws = Ok (out, sh') ∧
    rb_wf sh'.(buffer) ∧ sh'.(strong) = sh.(strong) ∧
    contents sh'.(buffer) = contents sh.(buffer) ++ take free (drop ws buf) ∧
    out = if decide (free = 0) then if closed sh then Return ws else Yield ws
          else if decide (length buf - ws < free) then Return (length buf)
          else Again (ws + free).
Proof.
  intros Hwf Hws free. unfold Pipe_write_pass. rewrite available_write_spec by done.
  rewrite <-length_contents. fold free. case_decide as Hf.
  { eexists _, sh. split; [done|]. rewrite Hf, take_0, app_nil_r. done. }
  pose proof (available_read_bound _ Hwf) as Hb.
  destruct (write_bytes_spec free (buffer sh) buf ws) as (rb & -> & Hwf' & Hc); [done| |done|].
  { subst free. rewrite length_contents. lia. }
  monad. eexists _, _. split_and!; [done|done|done|done|].
  case_decide; [rewrite bool_decide_true by done|rewrite bool_decide_false by done]; f_equal; lia.
Qed.

Lemma Pipe_read_pass_spec sh n :
  rb_wf sh.(buffer) →
  let size := length (contents sh.(buffer)) `min` n in
  ∃ out sh', Pipe_read_pass sh n = Ok (out, sh') ∧
    rb_wf sh'.(buffer) ∧ sh'.(strong) = sh.(strong) ∧
    contents sh'.(buffer) = drop size (contents sh.(buffer)) ∧
    out = if decide (size = 0) then if closed sh then Return [] else Yield ()
          else Return (take size (contents sh.(buffer))).
Proof.
  intros Hwf size. unfold Pipe_read_pass. rewrite <-length_contents. fold size.
  case_decide as Hs.
  { eexists _, sh. split; [done|]. by rewrite Hs, drop_0. }
  destruct (read_bytes_spec size (buffer sh)) as (rb & -> & Hwf' & Hc); [done| |].
  { subst size. rewrite length_contents. lia. }
  monad. by eexists _, _.
Qed.

(** ** Any number of readers and writers

    A state of the system: the shared part, the [read] and [write] calls
    inside their loops, and two histories, of the bytes the writers stored
    and of the bytes the readers were given. *)
Inductive call : Type :=
  | CRead (buf_len : nat)
  | CWrite (buf : list Z) (write_size : nat).

Record pipe_sys : Type := {
  shared : PipeShared;
  calls : list call;
  written : list Z;
  delivered : list Z;
}.

Definition pipe_init : pipe_sys :=
  {| shared := Pipe_new.2; calls := []; written := []; delivered := [] |}.

(** The bytes of [buf] between two values of [write_size]. *)
Definition slice (buf : list Z) (from to : nat) : list Z := drop from (take to buf).

Inductive pipe_step : pipe_sys → pipe_sys → Prop :=
  | step_read_call s p n :
      Pipe_read_enter p n = None →
      pipe_step s {| shared := s.(shared); calls := s.(calls) ++ [CRead n];
                     written := s.(written); delivered := s.(delivered) |}
  | step_write_call s p buf :
      Pipe_write_enter p s.(shared) buf = None →
      pipe_step s {| shared := s.(shared); calls := s.(calls) ++ [CWrite buf 0];
                     written := s.(written); delivered := s.(delivered) |}
  | step_read_return s i n cs sh :
      s.(calls) !! i = Some (CRead n) →
      Pipe_read_pass s.(shared) n = Ok (Return cs, sh) →
      pipe_step s {| shared := sh; calls := delete i s.(calls);
                     written := s.(written); delivered := s.(delivered) ++ cs |}
  | step_read_yield s i n u sh :
      s.(calls) !! i = Some (CRead n) →
      Pipe_read_pass s.(shared) n = Ok (Yield u, sh) →
      pipe_step s {| shared := sh; calls := s.(calls);
                     written := s.(written); delivered := s.(delivered) |}
  | step_write_return s i buf ws ws' sh :
      s.(calls) !! i = Some (CWrite buf ws) →
      Pipe_write_pass s.(shared) buf ws = Ok (Return ws', sh) →
      pipe_step s {| shared := sh; calls := delete i s.(calls);
                     written := s.(written) ++ slice buf ws ws'; delivered := s.(delivered) |}
  | step_write_again s i buf ws ws' sh :
      s.(calls) !! i = Some (CWrite buf ws) →
      Pipe_write_pass s.(shared) buf ws = Ok (Again ws', sh) →
      pipe_step s {| shared := sh; calls := <[i := CWrite buf ws']> s.(calls);
                     written := s.(written) ++ slice buf ws ws'; delivered := s.(delivered) |}
  | step_write_yield s i buf ws ws' sh :
      s.(calls) !! i = Some (CWrite buf ws) →
      Pipe_write_pass s.(shared) buf ws = Ok (Yield ws', sh) →
      pipe_step s {| shared := sh; calls := <[i := CWrite buf ws']> s.(calls);
                     written := s.(written); delivered := s.(delivered) |}
  | step_drop s :
      s.(shared).(strong) = 2 →
      pipe_step s {| shared := {| buffer := s.(shared).(buffer); strong := 1 |};
                     calls := s.(calls); written := s.(written); delivered := s.(delivered) |}.

Definition call_ok (c : call) : Prop :=
  match c with CRead n => 0 < n | CWrite buf ws => ws ≤ length buf end.

Record pipe_inv (s : pipe_sys) : Prop := {
  inv_wf : rb_wf s.(shared).(buffer);
  inv_calls : Forall call_ok s.(calls);
  inv_fifo : s.(written) = s.(delivered) ++ contents s.(shared).(buffer);
}.

Lemma slice_take buf from to : slice buf from to = take (to - from) (drop from buf).
Proof. unfold slice. by rewrite skipn_firstn_comm. Qed.

Lemma pipe_init_inv : pipe_inv pipe_init.
Proof. split; [apply rb_new_wf|constructor|reflexivity]. Qed.

(** Replace a pass in the context by what its specification says it did. *)
Ltac known_pass Hwf Hok :=
  let Hp := fresh "Hpass" in
  match goal with
  | H : Pipe_read_pass ?sh ?n = Ok _ |- _ =>
      destruct (Pipe_read_pass_spec sh n Hwf) as (out & sh1 & Hp & Hwf1 & Hstr & Hcont & Hout)
  | Hc : _ !! _ = Some (CWrite ?b ?w), H : Pipe_write_pass ?sh ?b ?w = Ok _ |- _ =>
      destruct (Pipe_write_pass_spec sh b w Hwf (Hok _ _ Hc))
        as (out & sh1 & Hp & Hwf1 & Hstr & Hcont & Hout); apply Hok in Hc; cbn in Hc
  end;
  match goal with H : _ = Ok _ |- _ => rewrite Hp in H; injection H as ? ?; subst end.

(** Case analysis on whether the pass found nothing to do. *)
Ltac idle_pass Hz :=
  match goal with H : context [decide (?n = 0)] |- _ => destruct (decide (n = 0)) as [Hz|Hz] end;
  cases.

Lemma pipe_step_inv s s' : pipe_step s s' → pipe_inv s → pipe_inv s'.
Proof.
  intros Hstep [Hwf Hcalls Hfifo].
  assert (∀ i c, s.(calls) !! i = Some c → call_ok c) as Hok.
  { intros i c. by apply Forall_lookup_1. }
  inversion Hstep; subst; clear Hstep; try known_pass Hwf Hok;
    split; cbn in *; try done; auto using Forall_delete;
    rewrite ?Hcont, ?Hfifo, <-?app_assoc; rewrite ?slice_take.
  - apply Forall_app_2; [done|]. repeat constructor. unfold Pipe_read_enter in *. cbn. cases. lia.
  - apply Forall_app_2; [done|]. repeat constructor. cbn. lia.
  - f_equal. idle_pass Hz; [by rewrite Hz, drop_0|]. by rewrite take_drop.
  - f_equal. idle_pass Hz. by rewrite Hz, drop_0.
  - do 2 f_equal. idle_pass Hz; [by rewrite Hz, Nat.sub_diag|].
    rewrite !take_ge; [done|rewrite length_drop; lia..].
  - apply Forall_insert; [done|]. cbn. cases. lia.
  - do 2 f_equal. cases. f_equal. lia.
  - apply Forall_insert; [done|]. cbn. by cases.
  - f_equal. idle_pass Hz. by rewrite Hz, take_0, app_nil_r.
Qed.

Lemma pipe_reachable_inv s : rtc pipe_step pipe_init s → pipe_inv s.
Proof. apply rtc_preserved; [apply pipe_step_inv|apply pipe_init_inv]. Qed.

(** ** The loops run to completion

    [write] as the kernel runs it: passes of the loop, with the rest of the
    system ([env]) running whenever the loop yields. [fuel] bounds the number
    of passes; [None] is a call that has not returned yet. *)
Fixpoint Pipe_write_loop (fuel : nat) (env : PipeShared → PipeShared)
    (sh : PipeShared) (buf : list Z) (write_size : nat) : option (LinuxResult nat * PipeShared) :=
  match fuel with
  | 0 => None
  | S fuel' =>
      match Pipe_write_pass sh buf write_size with
      | Ok (Return n, sh') => Some (Ok n, sh')
      | Ok (Yield ws, sh') => Pipe_write_loop fuel' env (env sh') buf ws
      | Ok (Again ws, sh') => Pipe_write_loop fuel' env sh' buf ws
      | Err e => Some (Err e, sh)
      | Panic => Some (Panic, sh)
      end
  end.

Definition Pipe_write (fuel : nat) (env : PipeShared → PipeShared)
    (p : Pipe) (sh : PipeShared) (buf : list Z) : option (LinuxResult nat * PipeShared) :=
  match Pipe_write_enter p sh buf with
  | Some r => Some (r, sh)
  | None => Pipe_write_loop fuel env sh buf 0
  end.

Fixpoint Pipe_read_loop (fuel : nat) (env : PipeShared → PipeShared)
    (sh : PipeShared) (buf_len : nat) : option (LinuxResult (list Z) * PipeShared) :=
  match fuel with
  | 0 => None
  | S fuel' =>
      match Pipe_read_pass sh buf_len with
      | Ok (Return cs, sh') => Some (Ok cs, sh')
      | Ok (Yield _, sh') => Pipe_read_loop fuel' env (env sh') buf_len
      | Ok (Again _, sh') => Pipe_read_loop fuel' env sh' buf_len
      | Err e => Some (Err e, sh)
      | Panic => Some (Panic, sh)
      end
  end.

Definition Pipe_read (fuel : nat) (env : PipeShared → PipeShared)
    (p : Pipe) (sh : PipeShared) (buf_len : nat) : option (LinuxResult (list Z) * PipeShared) :=
  match Pipe_read_enter p buf_len with
  | Some r => Some (r, sh)
  | None => Pipe_read_loop fuel env sh buf_len
  end.

(** A system that keeps reading: whenever the buffer is not empty it takes
    at least one byte, from the front, and it keeps both ends open. *)
Definition keeps_reading (env : PipeShared → PipeShared) : Prop :=
  ∀ sh, rb_wf sh.(buffer) → contents sh.(buffer) ≠ [] →
    rb_wf (env sh).(buffer) ∧ (env sh).(strong) = sh.(strong) ∧
    ∃ k, 0 < k ∧ contents (env sh).(buffer) = drop k (contents sh.(buffer)).

(** Passes still needed, at most: each byte costs two, and a full buffer one
    more. *)
Definition write_measure (sh : PipeShared) (buf : list Z) (ws : nat) : nat :=
  2 * (length buf - ws) +
  (if decide (RING_BUFFER_SIZE ≤ length (contents sh.(buffer))) then 1 else 0).

Lemma Pipe_write_loop_returns env fuel sh buf ws :
  keeps_reading env → rb_wf sh.(buffer) → sh.(strong) = 2 → ws ≤ length buf →
  write_measure sh buf ws < fuel →
  ∃ sh', Pipe_write_loop fuel env sh buf ws = Some (Ok (length buf), sh').
Proof.
  intros Henv. revert sh ws.
  induction fuel as [|fuel IH]; intros sh ws Hwf Hst Hws Hm; [lia|]. cbn.
  destruct (Pipe_write_pass_spec sh buf ws) as (out & sh1 & -> & Hwf1 & Hst1 & Hc & ->); [done..|].
  pose proof (available_read_bound _ Hwf) as Hbd. pose proof (available_read_bound _ Hwf1) as Hbd1.
  pose proof RBS_pos. rewrite <-length_contents in Hbd, Hbd1.
  unfold write_measure in Hm. assert (length (contents (buffer sh1)) =
    length (contents (buffer sh)) + (RING_BUFFER_SIZE - length (contents (buffer sh))) `min` (length buf - ws)) as Hl1.
  { rewrite Hc, length_app, length_take, length_drop. lia. }
  unfold closed. rewrite Hst, bool_decide_false by lia.
  destruct (decide (RING_BUFFER_SIZE - length (contents (buffer sh)) = 0)) as [Hfree|Hfree].
  - destruct (Henv sh1 Hwf1) as (Hwf2 & Hst2 & k & Hk & Hc2).
    { intros He. rewrite He in Hl1. cbn in Hl1. lia. }
    apply IH; [done|lia|done|]. unfold write_measure.
    rewrite Hc2, length_drop. repeat case_decide; lia.
  - destruct (decide (length buf - ws < _)) as [Hfit|Hfit]; [by eexists|].
    apply IH; [done|lia|lia|]. unfold write_measure. repeat case_decide; lia.
Qed.

(** ** Properties *)

(** C1: the ring buffer implements a FIFO queue of 256 bytes. A new buffer is
    the empty queue; the two [available] counts are the length of the queue
    and the room left in it; and whenever the queue accepts a push (a pop),
    [write_byte] ([read_byte]) succeeds without a panic, keeps the buffer
    well formed and performs exactly that push (pop). *)
Theorem ring_buffer_refines_fifo :
  rb_wf PipeRingBuffer_new ∧ contents PipeRingBuffer_new = [] ∧
  ∀ rb, rb_wf rb →
    available_read rb = length (contents rb) ∧
    available_write rb = RING_BUFFER_SIZE - length (contents rb) ∧
    (∀ b q, fifo_push (contents rb) b = Some q →
       ∃ rb', write_byte rb b = Ok rb' ∧ rb_wf rb' ∧ contents rb' = q) ∧
    (∀ c q, fifo_pop (contents rb) = Some (c, q) →
       ∃ rb', read_byte rb = Ok (c, rb') ∧ rb_wf rb' ∧ contents rb' = q).
Proof.
  split_and!; [apply rb_new_wf|apply contents_new|]. intros rb Hwf.
  rewrite available_write_spec, !length_contents by done. split_and!; [done..| |].
  - unfold fifo_push. intros b q Hq. case_decide as Hl; simplify_eq.
    rewrite length_contents in Hl.
    destruct (write_byte_wf rb b Hwf Hl) as (rb' & ? & ? & _ & ?). by exists rb'.
  - unfold fifo_pop. intros c q Hq. destruct (contents rb) as [|c' q'] eqn:Hc; simplify_eq.
    destruct (read_byte_wf rb Hwf) as (c1 & rb' & ? & ? & _ & Hc').
    { rewrite <-length_contents, Hc. cbn. lia. }
    rewrite Hc in Hc'. simplify_eq. by exists rb'.
Qed.

(** C2: bytes cross a pipe in order, none lost, none duplicated and none
    invented, whatever the readers and writers do and however their loops
    interleave: in every reachable state the bytes written so far are the
    bytes delivered so far followed by the bytes in the buffer. *)
Theorem pipe_delivers_in_order (s : pipe_sys) :
  rtc pipe_step pipe_init s →
  s.(written) = s.(delivered) ++ contents s.(shared).(buffer) ∧
  length (contents s.(shared).(buffer)) ≤ RING_BUFFER_SIZE.
Proof.
  intros [Hwf _ Hf]%pipe_reachable_inv. split; [done|].
  rewrite length_contents. by apply available_read_bound.
Qed.

(** C17: no call panics: in every reachable state the next pass of every
    pending call succeeds (the buffer index and the slice index are in
    range), and a [write] that returns either stored its whole buffer or
    found the read end closed. *)
Theorem pipe_calls_never_panic (s : pipe_sys) :
  rtc pipe_step pipe_init s →
  ∀ i c, s.(calls) !! i = Some c →
  match c with
  | CRead n => ∃ out sh, Pipe_read_pass s.(shared) n = Ok (out, sh)
  | CWrite buf ws => ∃ out sh, Pipe_write_pass s.(shared) buf ws = Ok (out, sh) ∧
      (∀ k, out = Return k → k = length buf ∨ closed s.(shared) = true)
  end.
Proof.
  intros [Hwf Hcalls _]%pipe_reachable_inv i c Hc.
  pose proof (Forall_lookup_1 _ _ _ _ Hcalls Hc) as Hok. destruct c as [n|buf ws]; cbn in Hok.
  - destruct (Pipe_read_pass_spec (shared s) n Hwf) as (out & sh & H & _). by eexists _, _.
  - destruct (Pipe_write_pass_spec (shared s) buf ws Hwf Hok) as (out & sh & H & _ & _ & _ & ->).
    eexists _, _. split; [done|]. intros k Hk. cases; auto.
Qed.


(** a [write] that exactly fills the buffer does not return until some
    byte is read. Its first pass stores the whole of [buf], but the loop only
    tests [write_size == total_len] inside the copy loop, so the next pass
    finds no room and yields: while nobody reads, the call never returns,
    for any number of passes. *)
Theorem pipe_write_exact_fill_blocks (sh : PipeShared) (buf : list Z) :
  rb_wf sh.(buffer) → sh.(strong) = 2 → buf ≠ [] →
  length (contents sh.(buffer)) + length buf = RING_BUFFER_SIZE →
  (∃ sh', Pipe_write_pass sh buf 0 = Ok (Again (length buf), sh') ∧
     contents sh'.(buffer) = contents sh.(buffer) ++ buf) ∧
  ∀ fuel, Pipe_write fuel (λ sh, sh) {| readable := false |} sh buf = None.
Proof.
  intros Hwf Hst Hb Hlen. assert (length buf ≠ 0) by by destruct buf.
  destruct (Pipe_write_pass_spec sh buf 0 Hwf) as (out & sh1 & Hp & Hwf1 & Hst1 & Hc & ->); [lia|].
  replace (RING_BUFFER_SIZE - length (contents (buffer sh))) with (length buf) in * by lia.
  rewrite drop_0, firstn_all in Hc. rewrite decide_False, decide_False in Hp by lia.
  split; [by exists sh1|]. intros fuel.
  unfold Pipe_write, Pipe_write_enter, writable, closed; cbn.
  rewrite bool_decide_false, decide_False by (done || lia).
  destruct fuel as [|fuel]; [done|]. cbn. rewrite Hp. cbn.
  induction fuel as [|fuel IH]; [done|]. cbn.
  destruct (Pipe_write_pass_spec sh1 buf (length buf) Hwf1) as (out & sh2 & Hp2 & _ & _ & _ & ->); [done|].
  unfold Pipe_write_pass in *. rewrite available_write_spec, <-length_contents in * by done.
  rewrite Hc, length_app, decide_True in * by lia. simplify_eq.
  unfold closed. by rewrite Hst1, Hst, bool_decide_false by lia.
Qed.

#[local] Transparent RING_BUFFER_SIZE.

(** A run of two calls: three bytes are written, two of them are read, and
    a third call has just entered its loop. *)
Definition demo_sh : PipeShared :=
  match Pipe_write_pass Pipe_new.2 [1; 2; 3]%Z 0 with
  | Ok (_, sh) => match Pipe_read_pass sh 2 with Ok (_, sh') => sh' | _ => sh end
  | _ => Pipe_new.2
  end.

Definition demo_sys : pipe_sys :=
  {| shared := demo_sh; calls := [CWrite [4]%Z 0]; written := [1; 2; 3]%Z; delivered := [1; 2]%Z |}.

Lemma demo_reachable : rtc pipe_step pipe_init demo_sys.
Proof.
  eapply rtc_l; [apply (step_write_call pipe_init {| readable := false |} [1; 2; 3]%Z); reflexivity|].
  eapply rtc_l; [eapply (step_write_return _ 0 _ 0 3); [reflexivity|vm_compute; reflexivity]|].
  eapply rtc_l; [eapply (step_read_call _ {| readable := true |} 2); reflexivity|].
  eapply rtc_l; [eapply (step_read_return _ 0 2 [1; 2]%Z); [reflexivity|vm_compute; reflexivity]|].
  eapply rtc_l; [eapply (step_write_call _ {| readable := false |} [4]%Z); reflexivity|].
  apply rtc_refl.
Qed.

Lemma pipe_delivers_in_order_witness :
  demo_sys.(written) = demo_sys.(delivered) ++ contents demo_sys.(shared).(buffer) ∧
  length (contents demo_sys.(shared).(buffer)) ≤ RING_BUFFER_SIZE.
Proof. apply (pipe_delivers_in_order demo_sys), demo_reachable. Defined.

Lemma pipe_calls_never_panic_witness :
  ∃ out sh, Pipe_write_pass demo_sys.(shared) [4]%Z 0 = Ok (out, sh) ∧
    (∀ k, out = Return k → k = length [4]%Z ∨ closed demo_sys.(shared) = true).
Proof. exact (pipe_calls_never_panic demo_sys demo_reachable 0 (CWrite [4]%Z 0) eq_refl). Defined.

(** The readers of the witness: one pass of a 16-byte [read]. *)
Definition read16 (sh : PipeShared) : PipeShared :=
  match Pipe_read_pass sh 16 with Ok (_, sh') => sh' | _ => sh end.

Lemma read16_keeps_reading : keeps_reading read16.
Proof.
  intros sh Hwf Hne. unfold read16.
  destruct (Pipe_read_pass_spec sh 16 Hwf) as (out & sh' & -> & Hwf' & Hst & Hc & _).
  split_and!; [done..|]. exists (length (contents (buffer sh)) `min` 16). split; [|done].
  destruct (contents (buffer sh)); [done|]. cbn [length]. lia.
Qed.


Lemma pipe_write_exact_fill_blocks_witness :
  (∃ sh', Pipe_write_pass Pipe_new.2 (replicate 256 7%Z) 0 = Ok (Again 256, sh') ∧
     contents sh'.(buffer) = contents Pipe_new.2.(buffer) ++ replicate 256 7%Z) ∧
  ∀ fuel, Pipe_write fuel (λ sh, sh) {| readable := false |} Pipe_new.2 (replicate 256 7%Z) = None.
Proof.
  apply (pipe_write_exact_fill_blocks Pipe_new.2 (replicate 256 7%Z));
    [apply rb_new_wf|reflexivity|discriminate|reflexivity].
Defined.
