(* ===== verification/FdTable.v ===== *)
(** * File descriptors ([src/api/src/file/mod.rs], [src/api/src/imp/fs/fd_ops.rs])

    The descriptor table of a process holds shared references to file
    objects. It is a [FlattenObjects] container, which comes from a crate
    outside the repository: the class of that name states what the kernel
    relies on, and [SlotTable] below is an implementation of it. The
    descriptor calls are proved against the class. *)

From S2P Require Import Prelude Abi Str Pipe.

#[local] Open Scope Z_scope.

Definition AX_FILE_LIMIT : Z := 1024.

(** [flatten_objects::FlattenObjects<T, CAP>]: at most [CAP] objects, each
    under an id below [CAP]. [add] picks a free id and fails when there is
    none; [add_at] fails when the id is taken or out of range; [remove]
    returns the object it took out. *)
Class FlattenObjects (T : Type) (CAP : Z) := {
  table : Type;
  fo_new : table;
  fo_get : table → Z → option T;
  fo_add : table → T → option (Z * table);
  fo_add_at : table → Z → T → option table;
  fo_remove : table → Z → option (T * table);
  fo_ids : table → list Z;
  fo_get_new i : fo_get fo_new i = None;
  fo_get_range t i : is_Some (fo_get t i) → 0 ≤ i < CAP;
  fo_add_Some t x i t' : fo_add t x = Some (i, t') →
    0 ≤ i < CAP ∧ fo_get t i = None ∧
    ∀ j, fo_get t' j = if decide (j = i) then Some x else fo_get t j;
  fo_add_None t x : fo_add t x = None ↔ ∀ i, 0 ≤ i < CAP → is_Some (fo_get t i);
  fo_add_at_Some t i x t' : fo_add_at t i x = Some t' →
    ∀ j, fo_get t' j = if decide (j = i) then Some x else fo_get t j;
  fo_add_at_None t i x : fo_add_at t i x = None ↔ ¬ (0 ≤ i < CAP) ∨ is_Some (fo_get t i);
  fo_remove_Some t i x t' : fo_remove t i = Some (x, t') →
    fo_get t i = Some x ∧
    ∀ j, fo_get t' j = if decide (j = i) then None else fo_get t j;
  fo_remove_None t i : fo_remove t i = None ↔ fo_get t i = None;
  fo_ids_spec t i : i ∈ fo_ids t ↔ is_Some (fo_get t i);
}.
Arguments table T CAP {FlattenObjects}.

(** The kinds of file object behind the [FileLike] trait; files and
    directories remember the path they were opened with. An object is one
    [Arc]: [obj_id] is its address, so that two descriptors of the same
    object can be told from two objects of the same kind. *)
Inductive FileKind : Type :=
  | KFile (path : str) | KDirectory (path : str) | KPipe (p : Pipe) | KSocket | KStdin | KStdout.

Record FileLike : Type := { obj_id : Z; obj_kind : FileKind }.

Section FdTable.
Context `{FO : FlattenObjects FileLike AX_FILE_LIMIT}.

Abbreviation fd_table := (table FileLike AX_FILE_LIMIT).

(** ** The table ([file/mod.rs]) *)

(** [fd as usize]: a negative descriptor becomes a huge index. *)
Definition get_file_like (t : fd_table) (fd : Z) : LinuxResult FileLike :=
  ok_or (fo_get t (as_usize fd)) EBADF.

Definition add_file_like (f : FileLike) : st fd_table LinuxError Z := λ t,
  match fo_add t f with
  | Some (id, t') => (Ok (as_i32 id), t')
  | None => (Err EMFILE, t)
  end.

Definition close_file_like (fd : Z) : st fd_table LinuxError () := λ t,
  match fo_remove t (as_usize fd) with
  | Some (_, t') => (Ok (), t')
  | None => (Err EBADF, t)
  end.

(** [FileLike::from_fd] with a downcast; the error of a failed downcast is
    the implementation's. *)
Definition from_fd (is_self : FileKind → bool) (mismatch : LinuxError)
    (t : fd_table) (fd : Z) : LinuxResult FileLike :=
  f ← get_file_like t fd;
  if is_self f.(obj_kind) then Ok f else Err mismatch.

Definition is_KFile (k : FileKind) : bool := match k with KFile _ => true | _ => false end.
Definition is_KDirectory (k : FileKind) : bool :=
  match k with KDirectory _ => true | _ => false end.

Definition File_from_fd : fd_table → Z → LinuxResult FileLike := from_fd is_KFile EINVAL.
Definition Directory_from_fd : fd_table → Z → LinuxResult FileLike :=
  from_fd is_KDirectory ENOTDIR.

(** [File::path] and [Directory::path]. *)
Definition kind_path (k : FileKind) : str :=
  match k with KFile p | KDirectory p => p | _ => [] end.

(** [copy_inner], used by [clone] without [CLONE_FILES]. *)
Fixpoint copy_ids (t : fd_table) (ids : list Z) (acc : fd_table) : res LinuxError fd_table :=
  match ids with
  | [] => Ok acc
  | id :: ids' =>
      f ← unwrap_opt (fo_get t id);
      copy_ids t ids' (default acc (fo_add_at acc id f))
  end.

Definition copy_inner (t : fd_table) : res LinuxError fd_table := copy_ids t (fo_ids t) fo_new.

Fixpoint remove_ids (ids : list Z) (t : fd_table) : fd_table :=
  match ids with
  | [] => t
  | id :: ids' => remove_ids ids' (match fo_remove t id with Some (_, t') => t' | None => t end)
  end.

(** [FD_TABLE.clear()], run when a process exits. *)
Definition clear (t : fd_table) : fd_table := remove_ids (fo_ids t) t.

(** [init_stdio]; [stdin], [stdout] and [stderr] are the three objects it
    allocates. *)
Definition init_stdio (stdin stdout stderr : Z) : res LinuxError fd_table :=
  t0 ← unwrap_opt (fo_add_at fo_new 0 {| obj_id := stdin; obj_kind := KStdin |});
  t1 ← unwrap_opt (fo_add_at t0 1 {| obj_id := stdout; obj_kind := KStdout |});
  unwrap_opt (fo_add_at t1 2 {| obj_id := stderr; obj_kind := KStdout |}).

(** ** The calls ([imp/fs/fd_ops.rs]) *)

Definition sys_close (fd : Z) : st fd_table LinuxError Z :=
  _ ← close_file_like fd;
  mret 0.

Definition dup_fd (old_fd : Z) : st fd_table LinuxError Z :=
  t ← st_get;
  f ← st_lift (get_file_like t old_fd);
  new_fd ← add_file_like f;
  mret new_fd.

Definition sys_dup (old_fd : Z) : st fd_table LinuxError Z := dup_fd old_fd.

(** The table is write-locked for the whole call. *)
Definition sys_dup2 (old_fd new_fd : Z) : st fd_table LinuxError Z := λ t,
  match fo_get t (as_usize old_fd) with
  | None => (Err EBADF, t)
  | Some f =>
      if decide (old_fd = new_fd) then (Ok new_fd, t)
      else
        let t1 := match fo_remove t (as_usize new_fd) with Some (_, t') => t' | None => t end in
        match fo_add_at t1 (as_usize new_fd) f with
        | Some t2 => (Ok new_fd, t2)
        | None => (Panic, t1)
        end
  end.

(** [fcntl]; [set_nonblocking] is the trait method, whose effect is on the
    file object and not on the table. *)
Definition sys_fcntl (set_nonblocking : FileLike → bool → LinuxResult ())
    (fd cmd arg : Z) : st fd_table LinuxError Z :=
  let cmd := as_u32 cmd in
  if cmd =? F_DUPFD then dup_fd fd
  else if cmd =? F_DUPFD_CLOEXEC then dup_fd fd
  else if cmd =? F_SETFL then
    if (fd =? 0) || (fd =? 1) || (fd =? 2) then mret 0
    else
      t ← st_get;
      f ← st_lift (get_file_like t fd);
      _ ← st_lift (set_nonblocking f (Z.land arg O_NONBLOCK >? 0));
      mret 0
  else mret 0.

(** [add_to_fd_table().inspect_err(|_| close_file_like(read_fd).unwrap())]. *)
Definition add_write_end (read_fd : Z) (f : FileLike) : st fd_table LinuxError Z := λ t,
  match add_file_like f t with
  | (Err e, t') =>
      match close_file_like read_fd t' with
      | (Ok _, t'') => (Err e, t'')
      | (_, t'') => (Panic, t'')
      end
  | r => r
  end.

(** [sys_pipe2] ([imp/fs/pipe.rs]): [fds] is the outcome of validating the
    user pointer, and the two objects are the ends [Pipe::new] allocated. On
    success the result is the pair stored through [fds]. *)
Definition sys_pipe2 (fds : LinuxResult ()) (read_obj write_obj : Z) : st fd_table LinuxError (Z * Z) :=
  _ ← st_lift fds;
  let '(read_end, write_end, _) := Pipe_new in
  read_fd ← add_file_like {| obj_id := read_obj; obj_kind := KPipe read_end |};
  write_fd ← add_write_end read_fd {| obj_id := write_obj; obj_kind := KPipe write_end |};
  mret (read_fd, write_fd).

(** ** Lemmas on the table operations *)

Lemma as_usize_nonneg fd : 0 ≤ as_usize fd.
Proof. apply (wrapu_range 64 fd). lia. Qed.

(** A descriptor in the table's range is its own index. *)
Lemma as_usize_fd fd : 0 ≤ fd < AX_FILE_LIMIT → as_usize fd = fd.
Proof. intros. apply wrapu_id. unfold AX_FILE_LIMIT, in_u in *. lia. Qed.

(** Descriptors are [i32]s, so only one in the range indexes the table. *)
Lemma as_usize_out fd : in_s 32 fd → ¬ (0 ≤ fd < AX_FILE_LIMIT) → ¬ (0 ≤ as_usize fd < AX_FILE_LIMIT).
Proof.
  unfold in_s, AX_FILE_LIMIT. intros Hs Hr.
  destruct (decide (0 ≤ fd)).
  - rewrite (wrapu_id 64 fd) by (unfold in_u; lia). lia.
  - unfold wrapu. rewrite <-(Z.mod_add _ 1) by lia. rewrite Z.mod_small by lia. lia.
Qed.

Lemma as_i32_id id : 0 ≤ id < AX_FILE_LIMIT → as_i32 id = id.
Proof. intros. apply wraps_id; [lia|]. unfold AX_FILE_LIMIT, in_s in *. lia. Qed.

Lemma add_file_like_Ok f t fd t' :
  add_file_like f t = (Ok fd, t') →
  0 ≤ fd < AX_FILE_LIMIT ∧ fo_get t fd = None ∧
  ∀ j, fo_get t' j = if decide (j = fd) then Some f else fo_get t j.
Proof.
  unfold add_file_like. destruct (fo_add t f) as [[id t1]|] eqn:E; intros; simplify_eq.
  apply fo_add_Some in E as (Hid & Hn & Hj). by rewrite as_i32_id.
Qed.

Lemma add_file_like_cases f t :
  (∃ fd t', add_file_like f t = (Ok fd, t')) ∨
  add_file_like f t = (Err EMFILE, t) ∧ ∀ i, 0 ≤ i < AX_FILE_LIMIT → is_Some (fo_get t i).
Proof.
  unfold add_file_like. destruct (fo_add t f) as [[id t1]|] eqn:E; [left; eauto|right].
  by rewrite fo_add_None in E.
Qed.

Lemma copy_ids_get t ids acc :
  (∀ i, i ∈ ids → is_Some (fo_get t i)) → (∀ i, is_Some (fo_get acc i) → fo_get acc i = fo_get t i) →
  ∃ t', copy_ids t ids acc = Ok t' ∧
    ∀ i, fo_get t' i = if decide (i ∈ ids) then fo_get t i else fo_get acc i.
Proof.
  revert acc. induction ids as [|id ids IH]; intros acc Hids Hacc; cbn.
  { exists acc. split; [done|]. intros. by rewrite decide_False by apply not_elem_of_nil. }
  destruct (Hids id) as [f Hf]; [apply elem_of_cons; auto|]. rewrite Hf; cbn.
  assert (∀ j, fo_get (default acc (fo_add_at acc id f)) j = if decide (j = id) then Some f else fo_get acc j) as Hj.
  { intros j. destruct (fo_add_at acc id f) eqn:E; cbn; [by eapply fo_add_at_Some in E|].
    apply fo_add_at_None in E as [E|E].
    - exfalso. apply E. eapply fo_get_range. by rewrite Hf.
    - case_decide; [|done]. subst. by rewrite Hacc, Hf. }
  destruct (IH (default acc (fo_add_at acc id f))) as (t' & Ht' & Hg).
  - intros i Hi. apply Hids, elem_of_cons. by right.
  - intros i. rewrite Hj. case_decide; subst; [done|]. apply Hacc.
  - exists t'. split; [done|]. intros i. rewrite Hg, Hj.
    repeat case_decide; subst; rewrite ?elem_of_cons in *; naive_solver.
Qed.

Lemma remove_ids_get ids t i :
  fo_get (remove_ids ids t) i = if decide (i ∈ ids) then None else fo_get t i.
Proof.
  revert t. induction ids as [|id ids IH]; intros t; cbn.
  { by rewrite decide_False by apply not_elem_of_nil. }
  rewrite IH. destruct (fo_remove t id) as [[x t']|] eqn:E.
  - apply fo_remove_Some in E as [_ Hj]. rewrite Hj.
    repeat case_decide; subst; rewrite ?elem_of_cons in *; naive_solver.
  - apply fo_remove_None in E. repeat case_decide; subst; rewrite ?elem_of_cons in *; naive_solver.
Qed.

End FdTable.

(** ** An implementation of the container

    A finite map restricted to the ids in range; [add] takes the lowest free
    one. *)
Section SlotTable.
Context {T : Type} {CAP : Z}.

Definition slot_get (t : gmap Z T) (i : Z) : option T :=
  if decide (0 ≤ i < CAP) then t !! i else None.

Definition slot_free (t : gmap Z T) : list Z :=
  filter (λ i, slot_get t i = None) (seqZ 0 CAP).

Definition slot_add (t : gmap Z T) (x : T) : option (Z * gmap Z T) :=
  match slot_free t with [] => None | i :: _ => Some (i, <[i := x]> t) end.

Definition slot_add_at (t : gmap Z T) (i : Z) (x : T) : option (gmap Z T) :=
  if decide (0 ≤ i < CAP) then
    match t !! i with None => Some (<[i := x]> t) | Some _ => None end
  else None.

Definition slot_remove (t : gmap Z T) (i : Z) : option (T * gmap Z T) :=
  match slot_get t i with Some x => Some (x, delete i t) | None => None end.

Definition slot_ids (t : gmap Z T) : list Z :=
  filter (λ i, is_Some (slot_get t i)) (seqZ 0 CAP).

Lemma slot_get_insert t i j x :
  0 ≤ i < CAP → slot_get (<[i := x]> t) j = if decide (j = i) then Some x else slot_get t j.
Proof.
  unfold slot_get. intros Hi. repeat case_decide; subst; try done; try lia.
  - apply lookup_insert_eq.
  - by rewrite lookup_insert_ne by done.
Qed.

Lemma slot_free_spec t i : i ∈ slot_free t ↔ 0 ≤ i < CAP ∧ slot_get t i = None.
Proof. unfold slot_free. rewrite list_elem_of_filter, elem_of_seqZ. split; intros []; split; lia || done. Qed.

#[global] Instance SlotTable : FlattenObjects T CAP.
Proof.
  refine {| table := gmap Z T; fo_new := ∅; fo_get := slot_get; fo_add := slot_add;
    fo_add_at := slot_add_at; fo_remove := slot_remove; fo_ids := slot_ids |}.
  - intros i. unfold slot_get. case_decide; [apply lookup_empty|done].
  - intros t i [x Hx]. unfold slot_get in Hx. by case_decide.
  - intros t x i t'. unfold slot_add. destruct (slot_free t) as [|k l] eqn:E; intros; simplify_eq.
    assert (i ∈ slot_free t) as [Hr Hn]%slot_free_spec by (rewrite E; apply elem_of_cons; auto).
    split; [done|split; [done|]]. intros. by apply slot_get_insert.
  - intros t x. unfold slot_add. destruct (slot_free t) as [|k l] eqn:E.
    + split; [|done]. intros _ i Hi. destruct (slot_get t i) eqn:Hg; [done|]. exfalso.
      apply (not_elem_of_nil i). rewrite <-E. by apply slot_free_spec.
    + split; [done|]. intros Hall. exfalso.
      assert (k ∈ slot_free t) as [Hr Hn]%slot_free_spec by (rewrite E; apply elem_of_cons; auto).
      specialize (Hall k Hr). rewrite Hn in Hall. by destruct Hall.
  - intros t i x t'. unfold slot_add_at. destruct (decide (0 ≤ i < CAP)); [|done].
    destruct (t !! i); intros; simplify_eq. by apply slot_get_insert.
  - intros t i x. unfold slot_add_at, slot_get. case_decide; [|by split; [left|]].
    destruct (t !! i); split; intros; try done; [by right; eexists|]. naive_solver.
  - intros t i x t'. unfold slot_remove. destruct (slot_get t i) eqn:E; intros; simplify_eq.
    split; [done|]. intros j. unfold slot_get in *. repeat case_decide; subst; try done.
    + apply lookup_delete_eq.
    + by rewrite lookup_delete_ne by done.
  - intros t i. unfold slot_remove. by destruct (slot_get t i).
  - intros t i. unfold slot_ids. rewrite list_elem_of_filter, elem_of_seqZ.
    split; [tauto|]. intros Hs. split; [done|]. destruct Hs as [x Hx]. unfold slot_get in Hx. case_decide; [lia|done].
Defined.
End SlotTable.

(** ** Properties *)
Section Properties.
Context `{FO : FlattenObjects FileLike AX_FILE_LIMIT}.

(** C27: [dup2] on every branch. A closed [old_fd] is [EBADF]; an open one
    equal to [new_fd] is left alone; otherwise [new_fd] afterwards refers to
    the same object as [old_fd] and no other descriptor changes. But a
    [new_fd] outside [0, 1024) is not refused: the call panics, so a user
    program stops the kernel with [dup2(0, 1024)]. *)
Theorem sys_dup2_spec (t : table FileLike AX_FILE_LIMIT) (old_fd new_fd : Z) :
  in_s 32 new_fd →
  match get_file_like t old_fd with
  | Ok f =>
      if decide (old_fd = new_fd) then sys_dup2 old_fd new_fd t = (Ok new_fd, t)
      else if decide (0 ≤ new_fd < AX_FILE_LIMIT) then
        ∃ t', sys_dup2 old_fd new_fd t = (Ok new_fd, t') ∧
          ∀ j, fo_get t' j = if decide (j = new_fd) then Some f else fo_get t j
      else (sys_dup2 old_fd new_fd t).1 = Panic
  | Err e => e = EBADF ∧ sys_dup2 old_fd new_fd t = (Err EBADF, t)
  | Panic => False
  end.
Proof.
  intros Hs. unfold get_file_like, sys_dup2.
  destruct (fo_get t (as_usize old_fd)) as [f|] eqn:Hf; cbn; [|done].
  destruct (decide (old_fd = new_fd)) as [->|Hne]; [done|].
  destruct (decide (0 ≤ new_fd < AX_FILE_LIMIT)) as [Hr|Hr].
  - rewrite (as_usize_fd new_fd) by done.
    destruct (fo_remove t new_fd) as [[x t1]|] eqn:Erm.
    + apply fo_remove_Some in Erm as [_ Hj].
      destruct (fo_add_at t1 new_fd f) as [t2|] eqn:Ead.
      * exists t2. split; [done|]. intros j. rewrite (fo_add_at_Some _ _ _ _ Ead j), Hj. by case_decide.
      * apply fo_add_at_None in Ead as [|Ead]; [done|]. rewrite Hj, decide_True in Ead by done. by destruct Ead.
    + apply fo_remove_None in Erm. destruct (fo_add_at t new_fd f) as [t2|] eqn:Ead.
      * exists t2. split; [done|]. apply (fo_add_at_Some _ _ _ _ Ead).
      * apply fo_add_at_None in Ead as [|Ead]; [done|]. rewrite Erm in Ead. by destruct Ead.
  - pose proof (as_usize_out new_fd Hs Hr) as Ho.
    destruct (fo_remove t (as_usize new_fd)) as [[x t1]|] eqn:Erm.
    { apply fo_remove_Some in Erm as [Hg _]. exfalso. apply Ho. eapply fo_get_range. by rewrite Hg. }
    destruct (fo_add_at t (as_usize new_fd) f) eqn:Ead; [|done].
    assert (fo_add_at t (as_usize new_fd) f = None) by (apply fo_add_at_None; by left). congruence.
Qed.

(** [dup] returns a descriptor that was free, makes it refer to the very
    object of [old_fd], and changes no other descriptor; a closed descriptor
    is [EBADF] and a full table [EMFILE], both without effect. *)
Theorem sys_dup_spec (t : table FileLike AX_FILE_LIMIT) (old_fd : Z) :
  match sys_dup old_fd t with
  | (Ok fd, t') => ∃ f, get_file_like t old_fd = Ok f ∧ get_file_like t' fd = Ok f ∧
      get_file_like t fd = Err EBADF ∧ 0 ≤ fd < AX_FILE_LIMIT ∧
      ∀ j, j ≠ fd → fo_get t' j = fo_get t j
  | (Err e, t') => t' = t ∧
      (e = EBADF ∧ get_file_like t old_fd = Err EBADF ∨
       e = EMFILE ∧ ∀ i, 0 ≤ i < AX_FILE_LIMIT → is_Some (fo_get t i))
  | (Panic, _) => False
  end.
Proof.
  unfold sys_dup, dup_fd. monad. unfold get_file_like.
  destruct (fo_get t (as_usize old_fd)) as [f|] eqn:Hf; cbn; [|auto].
  destruct (add_file_like_cases f t) as [(fd & t' & Ha)|[Ha Hfull]]; rewrite Ha; [|auto].
  apply add_file_like_Ok in Ha as (Hr & Hn & Hj). exists f. rewrite (as_usize_fd fd), Hj, Hn by done.
  rewrite decide_True by done. split_and!; try done; [lia..|]. intros j Hne. by rewrite Hj, decide_False.
Qed.

(** the table a forked process gets is an exact copy, descriptor by
    descriptor, of the objects of its parent, and the one a dying process
    leaves is empty. *)
Theorem copy_and_clear_spec (t : table FileLike AX_FILE_LIMIT) :
  (∃ t', copy_inner t = Ok t' ∧ ∀ i, fo_get t' i = fo_get t i) ∧
  ∀ i, fo_get (clear t) i = None.
Proof.
  split.
  - destruct (copy_ids_get t (fo_ids t) fo_new) as (t' & Ht & Hg).
    + intros i. apply fo_ids_spec.
    + intros i. rewrite fo_get_new. by intros [].
    + exists t'. split; [done|]. intros i. rewrite Hg, fo_get_new.
      case_decide as Hi; [done|]. rewrite fo_ids_spec in Hi. symmetry. by apply eq_None_not_Some.
  - intros i. unfold clear. rewrite remove_ids_get. case_decide as Hi; [done|].
    rewrite fo_ids_spec in Hi. by apply eq_None_not_Some.
Qed.

(** [pipe2] is atomic in the table. On success the two descriptors are
    different, were free, and name the read end and the write end of one
    pipe; on any error, also when only the second descriptor is missing, the
    table is as it was, and the call never panics in its cleanup. *)
Theorem sys_pipe2_atomic (t : table FileLike AX_FILE_LIMIT) (fds : LinuxResult ()) (r w : Z) :
  fds ≠ Panic →
  match sys_pipe2 fds r w t with
  | (Ok (rfd, wfd), t') => rfd ≠ wfd ∧
      fo_get t rfd = None ∧ fo_get t wfd = None ∧
      get_file_like t' rfd = Ok {| obj_id := r; obj_kind := KPipe {| readable := true |} |} ∧
      get_file_like t' wfd = Ok {| obj_id := w; obj_kind := KPipe {| readable := false |} |} ∧
      ∀ j, j ≠ rfd → j ≠ wfd → fo_get t' j = fo_get t j
  | (Err _, t') => ∀ j, fo_get t' j = fo_get t j
  | (Panic, _) => False
  end.
Proof.
  intros Hp. unfold sys_pipe2. monad. destruct fds as [[]|e|]; [|done..].
  set (fr := {| obj_id := r; obj_kind := _ |}). set (fw := {| obj_id := w; obj_kind := _ |}).
  destruct (add_file_like_cases fr t) as [(rfd & t1 & Ha)|[Ha _]]; rewrite Ha; [|done].
  apply add_file_like_Ok in Ha as (Hr & Hn & Hj). unfold add_write_end.
  destruct (add_file_like_cases fw t1) as [(wfd & t2 & Hb)|[Hb _]]; rewrite Hb.
  - apply add_file_like_Ok in Hb as (Hr2 & Hn2 & Hj2). rewrite Hj in Hn2.
    case_decide; [done|]. unfold get_file_like. rewrite !as_usize_fd, !Hj2, !Hj by done.
    rewrite (decide_False (P := rfd = wfd)), !decide_True by done. split_and!; try done.
    intros j ??. by rewrite Hj2, decide_False, Hj, decide_False.
  - unfold close_file_like. rewrite as_usize_fd by done.
    destruct (fo_remove t1 rfd) as [[x t2]|] eqn:Erm.
    + apply fo_remove_Some in Erm as [_ Hj2]. intros j. rewrite Hj2, Hj. case_decide; by subst.
    + apply fo_remove_None in Erm. by rewrite Hj, decide_True in Erm.
Qed.

End Properties.

(** ** Witnesses, on the concrete table *)

Definition stdio_table : table FileLike AX_FILE_LIMIT :=
  match init_stdio 10 11 12 with Ok t => t | _ => fo_new end.

Lemma sys_dup2_spec_witness :
  (∃ t', sys_dup2 1 5 stdio_table = (Ok 5, t') ∧
    ∀ j, fo_get t' j = if decide (j = 5) then Some {| obj_id := 11; obj_kind := KStdout |}
                       else fo_get stdio_table j) ∧
  (sys_dup2 1 1024 stdio_table).1 = Panic.
Proof.
  split.
  - exact (sys_dup2_spec stdio_table 1 5 ltac:(vm_compute; split; discriminate || reflexivity)).
  - exact (sys_dup2_spec stdio_table 1 1024 ltac:(vm_compute; split; discriminate || reflexivity)).
Defined.

Lemma sys_dup_spec_witness :
  match sys_dup 1 stdio_table with
  | (Ok fd, t') => ∃ f, get_file_like stdio_table 1 = Ok f ∧ get_file_like t' fd = Ok f ∧
      get_file_like stdio_table fd = Err EBADF ∧ 0 ≤ fd < AX_FILE_LIMIT ∧
      ∀ j, j ≠ fd → fo_get t' j = fo_get stdio_table j
  | _ => False
  end.
Proof. exact (sys_dup_spec stdio_table 1). Defined.

Lemma copy_and_clear_spec_witness :
  (∃ t', copy_inner stdio_table = Ok t' ∧ ∀ i, fo_get t' i = fo_get stdio_table i) ∧
  ∀ i, fo_get (clear stdio_table) i = None.
Proof. exact (copy_and_clear_spec stdio_table). Defined.

Lemma sys_pipe2_atomic_witness :
  match sys_pipe2 (Ok ()) 20 21 stdio_table with
  | (Ok (rfd, wfd), t') => rfd ≠ wfd ∧
      fo_get stdio_table rfd = None ∧ fo_get stdio_table wfd = None ∧
      get_file_like t' rfd = Ok {| obj_id := 20; obj_kind := KPipe {| readable := true |} |} ∧
      get_file_like t' wfd = Ok {| obj_id := 21; obj_kind := KPipe {| readable := false |} |} ∧
      ∀ j, j ≠ rfd → j ≠ wfd → fo_get t' j = fo_get stdio_table j
  | _ => False
  end.
Proof. exact (sys_pipe2_atomic stdio_table (Ok ()) 20 21 ltac:(discriminate)). Defined.
