(* ===== verification/Vfs.v ===== *)
(** * The root directory and the mounted file systems

    Model of [src/.arceos/modules/axfs/src/root.rs]: the table of mount
    points, the routing of a path to the file system that serves it, the
    operations on paths relative to the root or to the current directory,
    and the current directory itself. The file systems (FAT, ext4, the RAM
    and device file systems) live outside these files: they are the
    operations of the class [AxfsVfs], the [VfsOps] and [VfsNodeOps] traits
    of the [axfs_vfs] crate. *)

From S2P Require Import Prelude Abi Str.

#[local] Open Scope Z_scope.

(** [VfsNodeType]: the kinds of nodes the kernel tells apart, and the others
    (devices, links, sockets) by their code. *)
Inductive VfsNodeType : Type := NodeFile | NodeDir | NodeOther (code : Z).

#[global] Instance VfsNodeType_eq_dec : EqDecision VfsNodeType.
Proof. solve_decision. Defined.

(** [VfsDirEntry]: the kind and the name, as bytes, of a directory entry. *)
Record DirEntry := mkDirEntry { entry_type : VfsNodeType; name_as_bytes : list Z }.

(** The [axfs_vfs] crate. [D] is the contents of all file systems and
    devices, [FS] a mounted file system, [N] a node, [A] the attributes of a
    node. Looking up a node, reading its attributes and listing a directory
    leave the contents as they are. [node_read_at] is asked for a number of
    bytes and [node_read_dir] for a number of entries from an index on, and
    neither gives more. [canonicalize] turns an absolute path into an
    absolute path. *)
Class AxfsVfs (D FS N A : Type) := {
  root_dir : FS → N;
  fs_mount : FS → str → N → st D AxError ();
  fs_umount : FS → st D AxError ();
  node_lookup : N → str → D → AxResult N;
  node_get_attr : N → D → AxResult A;
  node_create : N → str → VfsNodeType → st D AxError ();
  node_remove : N → str → st D AxError ();
  node_rename : N → str → str → st D AxError ();
  node_open : N → st D AxError ();
  node_truncate : N → Z → st D AxError ();
  node_read_at : N → Z → nat → st D AxError (list Z);
  node_write_at : N → Z → list Z → st D AxError Z;
  node_fsync : N → st D AxError ();
  node_release : N → st D AxError ();
  node_read_dir : N → Z → nat → D → AxResult (list DirEntry);
  attr_is_dir : A → bool;
  attr_is_file : A → bool;
  attr_size : A → Z;
  attr_blocks : A → Z;
  owner_readable : A → bool;
  owner_writable : A → bool;
  owner_executable : A → bool;
  canonicalize : str → str;
  canonicalize_absolute : ∀ p, starts_with p $"/" = true →
    starts_with (canonicalize p) $"/" = true;
  node_read_at_len : ∀ n off len d bs d', node_read_at n off len d = (Ok bs, d') →
    (length bs ≤ len)%nat;
  node_read_dir_len : ∀ n i k d es, node_read_dir n i k d = Ok es → (length es ≤ k)%nat;
}.

Section vfs.
Context {D FS N A : Type} `{V : !AxfsVfs D FS N A}.

(** ** State *)

Record MountPoint := mkMountPoint { mp_path : str; mp_fs : FS }.
Record RootDirectory := mkRootDirectory { main_fs : FS; mounts : list MountPoint }.

(** A [VfsNodeRef] is the root directory or a node of a file system. *)
Inductive VfsNodeRef : Type := RootNode | FsNode (n : N).

(** [ROOT_DIR], [CURRENT_DIR], [CURRENT_DIR_PATH] and the contents of the
    file systems. *)
Record Vfs := mkVfs {
  ROOT_DIR : RootDirectory;
  CURRENT_DIR : VfsNodeRef;
  CURRENT_DIR_PATH : str;
  disk : D;
}.

Definition set_disk (d : D) (v : Vfs) : Vfs :=
  mkVfs (ROOT_DIR v) (CURRENT_DIR v) (CURRENT_DIR_PATH v) d.
Definition set_cwd (n : VfsNodeRef) (p : str) (v : Vfs) : Vfs :=
  mkVfs (ROOT_DIR v) n p (disk v).

(** Run an operation of a file system. *)
Definition on_disk {T} (m : st D AxError T) : st Vfs AxError T := λ v,
  let '(r, d) := m (disk v) in (r, set_disk d v).
(** A read-only computation as a step that keeps the state. *)
Definition reading {S E T} (m : S → res E T) : st S E T := λ s, (m s, s).

(** ** Mount points *)

Definition RootDirectory_new (fs : FS) : RootDirectory := mkRootDirectory fs [].

(** [RootDirectory::mount]. The directory is created first, then the file
    system is told, and only then is the mount point recorded. *)
Definition RootDirectory_mount (r : RootDirectory) (path : str) (fs : FS) :
    st D AxError RootDirectory :=
  if decide (path = $"/") then st_err InvalidInput else
  if negb (starts_with path $"/") then st_err InvalidInput else
  if existsb (λ mp, bool_decide (mp_path mp = path)) (mounts r) then st_err InvalidInput else
  node_create (root_dir (main_fs r)) path NodeDir;;
  n ← reading (node_lookup (root_dir (main_fs r)) path);
  fs_mount fs path n;;
  mret (mkRootDirectory (main_fs r) (mounts r ++ [mkMountPoint path fs])).

(** Dropping mount points calls [umount] on each and ignores the outcome. *)
Fixpoint drop_mounts (mps : list MountPoint) (d : D) : D :=
  match mps with
  | [] => d
  | mp :: mps' => drop_mounts mps' (fs_umount (mp_fs mp) d).2
  end.

(** [RootDirectory::_umount]. *)
Definition RootDirectory_umount (r : RootDirectory) (path : str) (d : D) : RootDirectory * D :=
  (mkRootDirectory (main_fs r) (filter (λ mp, mp_path mp ≠ path) (mounts r)),
   drop_mounts (filter (λ mp, mp_path mp = path) (mounts r)) d).

Definition RootDirectory_contains (r : RootDirectory) (path : str) : bool :=
  existsb (λ mp, bool_decide (mp_path mp = path)) (mounts r).

(** The search loop of [lookup_mounted_fs]: the index and the length of the
    longest mount path that starts [path]; the leading ['/'] is skipped. *)
Fixpoint longest_mount (path : str) (i : nat) (mps : list MountPoint) (idx max_len : nat) :
    nat * nat :=
  match mps with
  | [] => (idx, max_len)
  | mp :: mps' =>
      if starts_with path (drop 1 (mp_path mp)) && (max_len <? length (mp_path mp) - 1)%nat
      then longest_mount path (S i) mps' i (length (mp_path mp) - 1)%nat
      else longest_mount path (S i) mps' idx max_len
  end.

(** [RootDirectory::lookup_mounted_fs]: hands the file system that serves
    [path] and the rest of the path to [f]. A leading [./] restarts the
    search on what follows it, so the recursion is bounded by the length of
    the path; [None] stands for an index out of range, which is a panic. *)
Fixpoint lookup_mounted_fs_rec {T} (fuel : nat) (r : RootDirectory) (path : str)
    (f : FS → str → T) : option T :=
  match fuel with
  | O => None
  | S fuel' =>
      let path := trim_matches is_slash path in
      match strip_prefix path $"./" with
      | Some rest => lookup_mounted_fs_rec fuel' r rest f
      | None =>
          let '(idx, max_len) := longest_mount path 0 (mounts r) 0 0 in
          if decide (max_len = 0%nat) then Some (f (main_fs r) path)
          else mp ← mounts r !! idx; Some (f (mp_fs mp) (drop max_len path))
      end
  end.
Definition lookup_mounted_fs {T} (r : RootDirectory) (path : str) (f : FS → str → T) :
    option T :=
  lookup_mounted_fs_rec (S (length path)) r path f.

(** ** The root directory as a node *)

Definition RootDirectory_get_attr (r : RootDirectory) (d : D) : AxResult A :=
  node_get_attr (root_dir (main_fs r)) d.

Definition RootDirectory_lookup (r : RootDirectory) (path : str) (d : D) : AxResult N :=
  default Panic (lookup_mounted_fs r path (λ fs rest, node_lookup (root_dir fs) rest d)).

Definition RootDirectory_create (r : RootDirectory) (path : str) (ty : VfsNodeType) :
    st D AxError () :=
  default st_panic (lookup_mounted_fs r path (λ fs rest,
    if decide (rest = []) then mret () else node_create (root_dir fs) rest ty)).

Definition RootDirectory_remove (r : RootDirectory) (path : str) : st D AxError () :=
  default st_panic (lookup_mounted_fs r path (λ fs rest,
    if decide (rest = []) then st_err PermissionDenied else node_remove (root_dir fs) rest)).

Definition RootDirectory_rename (r : RootDirectory) (src_path dst_path : str) :
    st D AxError () :=
  default st_panic (lookup_mounted_fs r src_path (λ fs rest,
    if decide (rest = []) then st_err PermissionDenied
    else node_rename (root_dir fs) rest dst_path)).

(** Dynamic dispatch on a [VfsNodeRef]. What a lookup finds is always a node
    of a file system, never the root directory object. *)
Definition ref_lookup (n : VfsNodeRef) (path : str) (v : Vfs) : AxResult N :=
  match n with
  | RootNode => RootDirectory_lookup (ROOT_DIR v) path (disk v)
  | FsNode n => node_lookup n path (disk v)
  end.
Definition ref_get_attr (n : VfsNodeRef) (v : Vfs) : AxResult A :=
  match n with
  | RootNode => RootDirectory_get_attr (ROOT_DIR v) (disk v)
  | FsNode n => node_get_attr n (disk v)
  end.
Definition ref_create (n : VfsNodeRef) (path : str) (ty : VfsNodeType) : st Vfs AxError () := λ v,
  on_disk match n with
          | RootNode => RootDirectory_create (ROOT_DIR v) path ty
          | FsNode n => node_create n path ty
          end v.
Definition ref_remove (n : VfsNodeRef) (path : str) : st Vfs AxError () := λ v,
  on_disk match n with
          | RootNode => RootDirectory_remove (ROOT_DIR v) path
          | FsNode n => node_remove n path
          end v.
Definition ref_rename (n : VfsNodeRef) (src dst : str) : st Vfs AxError () := λ v,
  on_disk match n with
          | RootNode => RootDirectory_rename (ROOT_DIR v) src dst
          | FsNode n => node_rename n src dst
          end v.

(** ** Operations on paths *)

(** [init_rootfs] with the default features: the main file system and the
    four others, in the order of the source; a failure is a panic. *)
Definition init_rootfs (main devfs ramfs procfs sysfs : FS) : D → res AxError Vfs := λ d,
  let m := (r ← RootDirectory_mount (RootDirectory_new main) $"/dev" devfs;
            r ← RootDirectory_mount r $"/tmp" ramfs;
            r ← RootDirectory_mount r $"/proc" procfs;
            RootDirectory_mount r $"/sys" sysfs) in
  match m d with
  | (Ok r, d') => Ok (mkVfs r RootNode $"/" d')
  | _ => Panic
  end.

Definition parent_node_of (dir : option VfsNodeRef) (path : str) (v : Vfs) : VfsNodeRef :=
  if starts_with path $"/" then RootNode else default (CURRENT_DIR v) dir.

Definition absolute_path (path : str) (v : Vfs) : AxResult str :=
  if starts_with path $"/" then Ok (canonicalize path)
  else Ok (canonicalize (CURRENT_DIR_PATH v ++ path)).

Definition lookup (dir : option VfsNodeRef) (path : str) (v : Vfs) : AxResult N :=
  if decide (path = []) then Err NotFound else
  node ← ref_lookup (parent_node_of dir path v) path v;
  if ends_with path $"/" then
    attr ← ref_get_attr (FsNode node) v;
    if negb (attr_is_dir attr) then Err NotADirectory else Ok node
  else Ok node.

Definition create_file (dir : option VfsNodeRef) (path : str) : st Vfs AxError N :=
  if decide (path = []) then st_err NotFound
  else if ends_with path $"/" then st_err NotADirectory
  else
    v ← st_get;
    let parent := parent_node_of dir path v in
    ref_create parent path NodeFile;;
    reading (ref_lookup parent path).

Definition create_dir (dir : option VfsNodeRef) (path : str) : st Vfs AxError () := λ v,
  match lookup dir path v with
  | Ok _ => (Err AlreadyExists, v)
  | Err NotFound => ref_create (parent_node_of dir path v) path NodeDir v
  | Err e => (Err e, v)
  | Panic => (Panic, v)
  end.

Definition remove_file (dir : option VfsNodeRef) (path : str) : st Vfs AxError () :=
  node ← reading (lookup dir path);
  attr ← reading (ref_get_attr (FsNode node));
  if attr_is_dir attr then st_err IsADirectory
  else if negb (owner_writable attr) then st_err PermissionDenied
  else v ← st_get; ref_remove (parent_node_of dir path v) path.

Definition remove_dir (dir : option VfsNodeRef) (path : str) : st Vfs AxError () :=
  if decide (path = []) then st_err NotFound else
  let path_check := trim_matches is_slash path in
  if decide (path_check = []) then st_err DirectoryNotEmpty
  else if bool_decide (path_check = $".") || bool_decide (path_check = $"..")
          || ends_with path_check $"/." || ends_with path_check $"/.."
  then st_err InvalidInput else
  v ← st_get;
  abs ← reading (absolute_path path);
  if RootDirectory_contains (ROOT_DIR v) abs then st_err PermissionDenied else
  node ← reading (lookup dir path);
  attr ← reading (ref_get_attr (FsNode node));
  if negb (attr_is_dir attr) then st_err NotADirectory
  else if negb (owner_writable attr) then st_err PermissionDenied
  else ref_remove (parent_node_of dir path v) path.

Definition current_dir (v : Vfs) : AxResult str := Ok (CURRENT_DIR_PATH v).

Definition set_current_dir (path : str) : st Vfs AxError () :=
  abs_path ← reading (absolute_path path);
  let abs_path := if negb (ends_with abs_path $"/") then abs_path ++ $"/" else abs_path in
  if decide (abs_path = $"/") then st_mod (set_cwd RootNode $"/") else
  node ← reading (lookup None abs_path);
  attr ← reading (ref_get_attr (FsNode node));
  if negb (attr_is_dir attr) then st_err NotADirectory
  else if negb (owner_executable attr) then st_err PermissionDenied
  else st_mod (set_cwd (FsNode node) abs_path).

Definition rename (old new : str) : st Vfs AxError () :=
  v ← st_get;
  match ref_lookup (parent_node_of None new v) new v with
  | Ok _ => remove_file None new
  | Err _ => mret ()
  | Panic => st_panic
  end;;
  v ← st_get;
  ref_rename (parent_node_of None old v) old new.

(** ** Routing *)

(** The mount table keeps distinct paths that start with ['/'] and are not
    the root. *)
Definition mounts_wf (r : RootDirectory) : Prop :=
  NoDup (mp_path <$> mounts r) ∧
  Forall (λ mp, ∃ c q, mp_path mp = slash :: c :: q) (mounts r).

(** [strips path p]: [p] is [path] without outer slashes and leading [./]. *)
Inductive strips : str → str → Prop :=
  | strips_done path :
      strip_prefix (trim_matches is_slash path) $"./" = None →
      strips path (trim_matches is_slash path)
  | strips_dot path rest p :
      trim_matches is_slash path = $"./" ++ rest → strips rest p → strips path p.

(** A mount point covers a stripped path whose text its name starts. *)
Definition covers (p : str) (mp : MountPoint) : Prop := drop 1 (mp_path mp) `prefix_of` p.

(** [serves r p fs rest]: the file system of the longest mount point that
    covers [p], with the rest of the path; the main file system if none does. *)
Definition serves (r : RootDirectory) (p : str) (fs : FS) (rest : str) : Prop :=
  (fs = main_fs r ∧ rest = p ∧ ∀ mp, mp ∈ mounts r → ¬ covers p mp) ∨
  ∃ mp, mp ∈ mounts r ∧ fs = mp_fs mp ∧ p = drop 1 (mp_path mp) ++ rest ∧
    ∀ mp', mp' ∈ mounts r → covers p mp' →
      (length (mp_path mp') ≤ length (mp_path mp))%nat.

Lemma starts_with_covers p mp : starts_with p (drop 1 (mp_path mp)) = true ↔ covers p mp.
Proof. apply starts_with_spec. Qed.

(** The search keeps the candidate it has or finds a longer one. *)
Lemma longest_mount_spec p mps i idx ml idx' ml' :
  longest_mount p i mps idx ml = (idx', ml') →
  (∀ mp, mp ∈ mps → covers p mp → (length (mp_path mp) - 1 ≤ ml')%nat) ∧
  ((idx' = idx ∧ ml' = ml) ∨
   ∃ j mp, mps !! j = Some mp ∧ idx' = (i + j)%nat ∧ covers p mp ∧
     ml' = (length (mp_path mp) - 1)%nat ∧ (ml < ml')%nat).
Proof.
  revert i idx ml. induction mps as [|mp mps IH]; intros i idx ml; simpl.
  { intros [= <- <-]. split; [set_solver|by left]. }
  destruct (starts_with p (drop 1 (mp_path mp))) eqn:Hc; simpl;
    [destruct (Nat.ltb_spec ml (length (mp_path mp) - 1))|].
  - intros [Hmax Hcase]%IH. apply starts_with_covers in Hc. split.
    + intros mp' [->|Hin]%elem_of_cons Hp; [|by apply Hmax].
      destruct Hcase as [[-> ->]|(j & m & _ & _ & _ & -> & ?)]; lia.
    + right. destruct Hcase as [[-> ->]|(j & m & ? & -> & ? & ? & ?)].
      * exists 0%nat, mp. split_and!; [done|lia|done|done|done].
      * exists (S j), m. split_and!; [done|lia|done|done|lia].
  - intros [Hmax Hcase]%IH. split.
    + intros mp' [->|Hin]%elem_of_cons Hp; [|by apply Hmax].
      destruct Hcase as [[-> ->]|(j & m & _ & _ & _ & -> & ?)]; lia.
    + destruct Hcase as [?|(j & m & ? & -> & ?)]; [by left|right].
      exists (S j), m. split_and!; [done|lia|naive_solver..].
  - intros [Hmax Hcase]%IH. split.
    + intros mp' [->|Hin]%elem_of_cons Hp; [|by apply Hmax].
      apply starts_with_covers in Hp. congruence.
    + destruct Hcase as [?|(j & m & ? & -> & ?)]; [by left|right].
      exists (S j), m. split_and!; [done|lia|naive_solver..].
Qed.

(** The two prefixes of one length of a path are the same. *)
Lemma covers_same_length p mp mp' c q c' q' :
  mp_path mp = slash :: c :: q → mp_path mp' = slash :: c' :: q' →
  covers p mp → covers p mp' → length (mp_path mp) = length (mp_path mp') →
  mp_path mp = mp_path mp'.
Proof.
  unfold covers. intros -> ->; simpl. intros [r ->] [r' He] Hl.
  apply (app_inj_1 (c :: q) (c' :: q')) in He as [-> _]; [done|simpl in *; lia].
Qed.

Lemma mounts_wf_path r mp : mounts_wf r → mp ∈ mounts r → ∃ c q, mp_path mp = slash :: c :: q.
Proof. intros [_ Hf] Hin. by apply (proj1 (Forall_forall _ _) Hf). Qed.

Lemma mounts_wf_inj r mp mp' :
  mounts_wf r → mp ∈ mounts r → mp' ∈ mounts r → mp_path mp = mp_path mp' → mp = mp'.
Proof.
  intros [Hnd _] [i Hi]%list_elem_of_lookup_1 [j Hj]%list_elem_of_lookup_1 He.
  assert (i = j) as ->.
  { eapply (NoDup_lookup _ i j (mp_path mp)); [done|..]; rewrite list_lookup_fmap.
    - by rewrite Hi. - rewrite Hj; simpl. by rewrite He. }
  congruence.
Qed.

Lemma serves_unique r p fs rest fs' rest' :
  mounts_wf r → serves r p fs rest → serves r p fs' rest' → fs = fs' ∧ rest = rest'.
Proof.
  intros Hwf [(-> & -> & Hno)|(mp & Hin & -> & Hp & Hmax)]
    [(-> & -> & Hno')|(mp' & Hin' & -> & Hp' & Hmax')].
  - done.
  - destruct (Hno mp' Hin'). by eexists.
  - destruct (Hno' mp Hin). by eexists.
  - assert (covers p mp) as Hc by by eexists. assert (covers p mp') as Hc' by by eexists.
    destruct (mounts_wf_path r mp) as (c & q & Hq); [done..|].
    destruct (mounts_wf_path r mp') as (c' & q' & Hq'); [done..|].
    assert (mp = mp') as <-.
    { apply (mounts_wf_inj r); [done..|]. eapply (covers_same_length p); [done..|].
      specialize (Hmax _ Hin' Hc'). specialize (Hmax' _ Hin Hc). lia. }
    rewrite Hp in Hp'. by apply app_inv_head in Hp'.
Qed.

(** One round of the search, on a stripped path. *)
Lemma longest_mount_serves r p idx ml :
  mounts_wf r → longest_mount p 0 (mounts r) 0 0 = (idx, ml) →
  ∃ fs rest, serves r p fs rest ∧
    ∀ T (f : FS → str → T),
      (if decide (ml = 0%nat) then Some (f (main_fs r) p)
       else mp ← mounts r !! idx; Some (f (mp_fs mp) (drop ml p))) = Some (f fs rest).
Proof.
  intros Hwf [Hmax Hcase]%longest_mount_spec.
  destruct Hcase as [[-> ->]|(j & mp & Hj & -> & [r' Hr] & -> & Hml)].
  - exists (main_fs r), p. split; [left|done]. split_and!; [done..|].
    intros mp Hin Hc. specialize (Hmax mp Hin Hc).
    destruct (mounts_wf_path r mp) as (c & q & Hq); [done..|].
    rewrite Hq in Hmax; simpl in Hmax. lia.
  - exists (mp_fs mp), r'. split.
    + right. exists mp. split_and!; [by eapply list_elem_of_lookup_2|done..|].
      intros mp' Hin Hc. specialize (Hmax mp' Hin Hc).
      destruct (mounts_wf_path r mp') as (c & q & Hq); [done..|].
      rewrite Hq in *; simpl in *. lia.
    + intros T f. rewrite decide_False by lia. simpl. rewrite Hj; simpl. do 2 f_equal.
      rewrite Hr, drop_app_length'; [done|]. rewrite length_drop. lia.
Qed.

Lemma lookup_mounted_fs_fuel r fuel path :
  mounts_wf r → (length path < fuel)%nat →
  ∃ p fs rest, strips path p ∧ serves r p fs rest ∧
    ∀ T (f : FS → str → T), lookup_mounted_fs_rec fuel r path f = Some (f fs rest).
Proof.
  intros Hwf. revert path. induction fuel as [|fuel IH]; intros path Hl; [lia|].
  destruct (strip_prefix (trim_matches is_slash path) $"./") as [rest|] eqn:Hs.
  - destruct (IH rest) as (p & fs & r' & Hp & Hserve & Hf).
    { pose proof (trim_matches_length is_slash path) as Ht.
      apply strip_prefix_Some in Hs. rewrite Hs in Ht. simpl in Ht. lia. }
    exists p, fs, r'. split_and!; [|done|].
    + eapply strips_dot; [by apply strip_prefix_Some|done].
    + intros T f. cbn [lookup_mounted_fs_rec]. by rewrite Hs.
  - destruct (longest_mount (trim_matches is_slash path) 0 (mounts r) 0 0) as [idx ml] eqn:Hm.
    destruct (longest_mount_serves r _ idx ml Hwf Hm) as (fs & rest & Hserve & Hf).
    exists (trim_matches is_slash path), fs, rest. split_and!; [by constructor|done|].
    intros T f. cbn [lookup_mounted_fs_rec]. rewrite Hs, Hm. apply Hf.
Qed.

(** The stripped path is determined by the path. *)
Lemma strips_fun path p p' : strips path p → strips path p' → p = p'.
Proof.
  intros H1. revert p'. induction H1 as [path Hn|path rest p Ht H1 IH]; intros p' H2.
  - inversion H2 as [|? ? ? Ht]; subst; [done|].
    apply strip_prefix_Some in Ht. congruence.
  - inversion H2 as [? Hn|? rest' ? Ht' H2']; subst.
    + apply strip_prefix_Some in Ht. congruence.
    + apply IH. rewrite Ht in Ht'. by apply app_inv_head in Ht' as ->.
Qed.

(** C20: [lookup_mounted_fs] ends on every path and calls its closure exactly
    on the file system of the longest mount point whose name starts the
    stripped path, with the remaining text, or on the main file system when
    no mount point matches; that choice is unique. *)
Theorem mount_routing (r : RootDirectory) (path : str) :
  mounts_wf r →
  ∃ p fs rest, strips path p ∧ serves r p fs rest ∧
    (∀ fs' rest', serves r p fs' rest' → fs' = fs ∧ rest' = rest) ∧
    (∀ T (f : FS → str → T), lookup_mounted_fs r path f = Some (f fs rest)).
Proof.
  intros Hwf. destruct (lookup_mounted_fs_fuel r (S (length path)) path) as
    (p & fs & rest & Hp & Hs & Hf); [done|lia|].
  exists p, fs, rest. split_and!; [done..| |intros T f; apply Hf].
  intros fs' rest' Hs'. by destruct (serves_unique r p fs rest fs' rest').
Qed.

Lemma lookup_mounted_fs_serves {T} r path p fs rest (f : FS → str → T) :
  mounts_wf r → strips path p → serves r p fs rest →
  lookup_mounted_fs r path f = Some (f fs rest).
Proof.
  intros Hwf Hp Hs. destruct (lookup_mounted_fs_fuel r (S (length path)) path) as
    (p' & fs' & rest' & Hp' & Hs' & Hf); [done|lia|].
  assert (p' = p) as -> by by eapply strips_fun.
  destruct (serves_unique r p fs' rest' fs rest) as [-> ->]; [done..|]. apply Hf.
Qed.

(** what the root directory does with a path served by [fs] as [rest]:
    a lookup is forwarded; creating the mount point itself succeeds and
    changes nothing, removing or renaming it is refused; every other path
    is forwarded to [fs]. The destination of a rename is forwarded as it
    is, without the mount point being taken off. *)
Theorem root_node_ops (r : RootDirectory) (path p rest dst : str) (fs : FS)
    (ty : VfsNodeType) (d : D) :
  mounts_wf r → strips path p → serves r p fs rest →
  RootDirectory_lookup r path d = node_lookup (root_dir fs) rest d ∧
  (rest = [] →
     RootDirectory_create r path ty d = (Ok (), d) ∧
     RootDirectory_remove r path d = (Err PermissionDenied, d) ∧
     RootDirectory_rename r path dst d = (Err PermissionDenied, d)) ∧
  (rest ≠ [] →
     RootDirectory_create r path ty d = node_create (root_dir fs) rest ty d ∧
     RootDirectory_remove r path d = node_remove (root_dir fs) rest d ∧
     RootDirectory_rename r path dst d = node_rename (root_dir fs) rest dst d).
Proof.
  intros Hwf Hp Hs.
  unfold RootDirectory_lookup, RootDirectory_create, RootDirectory_remove, RootDirectory_rename.
  rewrite !(lookup_mounted_fs_serves r path p fs rest) by done. simpl.
  case_decide; naive_solver.
Qed.

(** ** The mount table *)

Lemma RootDirectory_mount_Ok r path fs d r' d' :
  RootDirectory_mount r path fs d = (Ok r', d') →
  path ≠ $"/" ∧ starts_with path $"/" = true ∧ (path ∉ mp_path <$> mounts r) ∧
  r' = mkRootDirectory (main_fs r) (mounts r ++ [mkMountPoint path fs]).
Proof.
  unfold RootDirectory_mount. case_decide; [done|].
  destruct (starts_with path $"/"); [|done]; simpl.
  destruct (existsb _ _) eqn:Hex; [done|]. monad. intros Hm. split_and!; [done..| |].
  - intros (mp & -> & Hin)%list_elem_of_fmap. enough (false = true) by done.
    rewrite <-Hex. apply existsb_exists. exists mp.
    split; [by apply list_elem_of_In|by apply bool_decide_eq_true].
  - unfold reading in Hm. repeat case_match; simplify_eq. done.
Qed.

Lemma mounts_wf_mount r path fs d r' d' :
  mounts_wf r → RootDirectory_mount r path fs d = (Ok r', d') → mounts_wf r'.
Proof.
  intros [Hnd Hf] (Hne & Hs & Hnew & ->)%RootDirectory_mount_Ok. split; simpl.
  - rewrite fmap_app. apply NoDup_app. split_and!; [done| |apply NoDup_singleton].
    intros x Hx ->%list_elem_of_singleton. done.
  - apply Forall_app. split; [done|]. apply Forall_singleton. simpl.
    apply starts_with_spec in Hs as [[|c q] ->]; [done|]. by exists c, q.
Qed.

Lemma mounts_wf_umount r path d : mounts_wf r → mounts_wf (RootDirectory_umount r path d).1.
Proof.
  intros [Hnd Hf]. split; simpl.
  - eapply sublist_NoDup; [done|]. apply fmap_sublist, sublist_filter.
  - apply Forall_forall. intros mp [_ Hin]%list_elem_of_filter.
    by apply (proj1 (Forall_forall _ _) Hf).
Qed.

(** Mounting, failing to mount and unmounting. *)
Inductive root_step : RootDirectory * D → RootDirectory * D → Prop :=
  | root_mount r d path fs r' d' :
      RootDirectory_mount r path fs d = (Ok r', d') → root_step (r, d) (r', d')
  | root_mount_err r d path fs e d' :
      RootDirectory_mount r path fs d = (Err e, d') → root_step (r, d) (r, d')
  | root_umount r d path : root_step (r, d) (RootDirectory_umount r path d).

(** in every state that mounting and unmounting can reach, the mount
    points have distinct names, each of which starts with a slash and is not
    the root, as the routing needs. *)
Theorem mount_table_invariant (fs : FS) (d d' : D) (r : RootDirectory) :
  rtc root_step (RootDirectory_new fs, d) (r, d') → mounts_wf r.
Proof.
  apply (rtc_preserved root_step (λ s, mounts_wf s.1) (RootDirectory_new fs, d) (r, d')).
  - intros a b Hs Hwf. destruct Hs as [r0 d0 path fs0 r1 d1 Hm|r0 d0 path fs0 e d1 Hm|r0 d0 path].
    + by eapply mounts_wf_mount.
    + done.
    + by apply mounts_wf_umount.
  - split; [apply NoDup_nil_2|apply Forall_nil_2].
Qed.

(** ** After boot *)

Definition boot_mounts (devfs ramfs procfs sysfs : FS) : list MountPoint :=
  [mkMountPoint $"/dev" devfs; mkMountPoint $"/tmp" ramfs;
   mkMountPoint $"/proc" procfs; mkMountPoint $"/sys" sysfs].

Lemma init_rootfs_Ok main devfs ramfs procfs sysfs d v :
  init_rootfs main devfs ramfs procfs sysfs d = Ok v →
  ROOT_DIR v = mkRootDirectory main (boot_mounts devfs ramfs procfs sysfs) ∧
  CURRENT_DIR v = RootNode ∧ CURRENT_DIR_PATH v = $"/".
Proof.
  unfold init_rootfs. unfold mbind, st_bind. intros Hi.
  destruct (RootDirectory_mount (RootDirectory_new main) _ _ _) as [[r1|e|] d1] eqn:H1; [|done..].
  destruct (RootDirectory_mount r1 _ _ _) as [[r2|e|] d2] eqn:H2; [|done..].
  destruct (RootDirectory_mount r2 _ _ _) as [[r3|e|] d3] eqn:H3; [|done..].
  destruct (RootDirectory_mount r3 _ _ _) as [[r4|e|] d4] eqn:H4; [|done..].
  apply RootDirectory_mount_Ok in H1 as (_ & _ & _ & ->).
  apply RootDirectory_mount_Ok in H2 as (_ & _ & _ & ->).
  apply RootDirectory_mount_Ok in H3 as (_ & _ & _ & ->).
  apply RootDirectory_mount_Ok in H4 as (_ & _ & _ & ->).
  by injection Hi as <-.
Qed.

Lemma boot_mounts_wf main devfs ramfs procfs sysfs :
  mounts_wf (mkRootDirectory main (boot_mounts devfs ramfs procfs sysfs)).
Proof.
  split; simpl; [|repeat constructor; simpl; eauto].
  apply (bool_decide_unpack _). vm_compute. exact I.
Qed.

(** A path that starts with one slash and does not end with one is stripped
    of that slash only. *)
Lemma trim_absolute c s :
  c ≠ slash → ends_with (slash :: c :: s) $"/" = false →
  trim_matches is_slash (slash :: c :: s) = c :: s.
Proof.
  intros Hc He. unfold trim_matches.
  replace (trim_start_matches is_slash (slash :: c :: s)) with (c :: s).
  2:{ cbn [trim_start_matches]. change (is_slash slash) with true. cbn.
      unfold is_slash. by rewrite bool_decide_false. }
  destruct (exists_last (l := c :: s)) as (l & x & Hs); [done|]. rewrite Hs in *.
  apply trim_end_id. unfold is_slash. apply bool_decide_eq_false. intros ->.
  enough (false = true) by done. rewrite <-He. apply (ends_with_app (slash :: l)).
Qed.

(** after boot, every path whose text starts with the name of one of the
    four mount points is served by that file system, also when the name goes
    on: [/development] is looked up as [elopment] in the device file system
    and never reaches the directory of the main file system. *)
Theorem mount_names_match_by_prefix (main devfs ramfs procfs sysfs : FS) (d : D) (v : Vfs)
    (mp : MountPoint) (s : str) :
  init_rootfs main devfs ramfs procfs sysfs d = Ok v →
  mp ∈ boot_mounts devfs ramfs procfs sysfs → ends_with (mp_path mp ++ s) $"/" = false →
  ∀ T (f : FS → str → T),
    lookup_mounted_fs (ROOT_DIR v) (mp_path mp ++ s) f = Some (f (mp_fs mp) s).
Proof.
  intros (-> & _ & _)%init_rootfs_Ok Hmp He T f.
  assert (∃ c q, mp_path mp = slash :: c :: q ∧ c ≠ slash ∧
    strip_prefix (drop 1 (mp_path mp) ++ s) $"./" = None) as (c & q & Hq & Hc & Hd).
  { set_unfold in Hmp. destruct_or! Hmp; subst mp; simpl; by do 2 eexists. }
  apply (lookup_mounted_fs_serves _ _ (drop 1 (mp_path mp) ++ s)).
  - apply boot_mounts_wf.
  - rewrite Hq in *. simpl in He. simpl app. simpl drop in *.
    pose proof (trim_absolute c (q ++ s) Hc He) as Ht.
    pose proof (strips_done (slash :: c :: q ++ s)) as Hs. rewrite Ht in Hs. by apply Hs.
  - right. exists mp. split_and!; [done..|]. intros mp' Hin [r Hr]. simpl in Hin.
    set_unfold in Hmp. set_unfold in Hin.
    destruct_or! Hmp; destruct_or! Hin; subst mp mp'; simpl in *; lia || discriminate.
Qed.

(** ** The current directory *)

(** The current directory path is absolute and ends with a slash, and names
    the current directory. *)
Definition cwd_ok (v : Vfs) : Prop :=
  starts_with (CURRENT_DIR_PATH v) $"/" = true ∧ ends_with (CURRENT_DIR_PATH v) $"/" = true ∧
  (CURRENT_DIR_PATH v = $"/" ∧ CURRENT_DIR v = RootNode ∨
   ∃ n, lookup None (CURRENT_DIR_PATH v) v = Ok n ∧ CURRENT_DIR v = FsNode n).

Lemma absolute_path_absolute path v :
  starts_with (CURRENT_DIR_PATH v) $"/" = true →
  ∃ p, absolute_path path v = Ok p ∧ starts_with p $"/" = true.
Proof.
  intros Hw. unfold absolute_path. destruct (starts_with path $"/") eqn:Hs; eexists; split; try done.
  - by apply canonicalize_absolute.
  - apply canonicalize_absolute. apply starts_with_spec in Hw as [r ->].
    apply starts_with_spec. by eexists.
Qed.

Lemma lookup_set_cwd n p path v : starts_with path $"/" = true →
  lookup None path (set_cwd n p v) = lookup None path v.
Proof.
  intros Hs. unfold lookup, parent_node_of. rewrite Hs. case_decide; [done|].
  unfold ref_lookup, ref_get_attr. simpl. done.
Qed.

(** changing the current directory either fails and leaves the state as
    it was, or moves to a directory that the new path names, which the owner
    may search; the path stays absolute and slash-terminated, so a relative
    path can be appended to it. *)
Theorem set_current_dir_spec (path : str) (v : Vfs) :
  cwd_ok v →
  match set_current_dir path v with
  | (Ok _, v') => cwd_ok v' ∧ ROOT_DIR v' = ROOT_DIR v ∧ disk v' = disk v ∧
      (CURRENT_DIR v' = RootNode ∨
       ∃ attr, ref_get_attr (CURRENT_DIR v') v = Ok attr ∧
         attr_is_dir attr = true ∧ owner_executable attr = true)
  | (_, v') => v' = v
  end.
Proof.
  intros (Hw & _ & _). destruct (absolute_path_absolute path v Hw) as (p & Hp & Hps).
  unfold set_current_dir, reading. monad. rewrite Hp.
  change ["/"%char] with $"/" in *.
  set (q := if negb (ends_with p $"/") then p ++ $"/" else p).
  assert (starts_with q $"/" = true ∧ ends_with q $"/" = true) as [Hqs Hqe].
  { subst q. destruct (ends_with p $"/") eqn:He; simpl; [done|]. split; [|apply ends_with_app].
    apply starts_with_spec in Hps as [r ->]. apply starts_with_spec. by eexists. }
  clearbody q. destruct (decide (q = $"/")) as [->|Hq].
  { split_and!; [|done|done|by left]. split; [done|]. split; [done|by left]. }
  destruct (lookup None q v) as [node|e|] eqn:Hl; [|done..].
  destruct (node_get_attr node (disk v)) as [attr|e|] eqn:Ha; [|done..].
  destruct (attr_is_dir attr) eqn:Hd; [|done]; simpl.
  destruct (owner_executable attr) eqn:Hx; [|done]; simpl.
  simpl. split; [|split_and!; [done..|right; by exists attr]].
  split; [done|]. split; [done|right]. simpl.
  exists node. by rewrite lookup_set_cwd.
Qed.

(** ** Removing and renaming *)

(** [remove_dir] never touches the root, a mount point or a path that
    ends in a dot component, whatever the file system would do; it fails on
    those without any effect, and it removes only a directory that its owner
    may write. *)
Theorem remove_dir_guards (dir : option VfsNodeRef) (path : str) (v : Vfs) :
  (trim_matches is_slash path = [] ∨
   trim_matches is_slash path = $"." ∨ trim_matches is_slash path = $".." ∨
   ends_with (trim_matches is_slash path) $"/." = true ∨
   ends_with (trim_matches is_slash path) $"/.." = true ∨
   (∃ abs, absolute_path path v = Ok abs ∧ RootDirectory_contains (ROOT_DIR v) abs = true) ∨
   (∃ node attr, lookup dir path v = Ok node ∧ ref_get_attr (FsNode node) v = Ok attr ∧
      (attr_is_dir attr = false ∨ owner_writable attr = false))) →
  ∃ e, remove_dir dir path v = (Err e, v).
Proof.
  intros Hg. unfold remove_dir, reading. monad.
  destruct (decide (path = [])) as [->|Hp]; [by eexists|].
  destruct (decide (trim_matches is_slash path = [])) as [Ht|Ht]; [by eexists|].
  destruct (_ || _ || _ || _) eqn:Hdots; [by eexists|].
  rewrite !orb_false_iff, !bool_decide_eq_false in Hdots.
  destruct Hdots as [[[H1 H2] H3] H4].
  destruct Hg as [?|[?|[?|[Hg|[Hg|[(abs & Ha & Hc)|(node & attr & Hl & Ha & Hb)]]]]]];
    try congruence.
  - rewrite Ha, Hc. by eexists.
  - assert (∃ abs, absolute_path path v = Ok abs) as [abs Habs]
      by (unfold absolute_path; case_match; by eexists).
    rewrite Habs. destruct (RootDirectory_contains _ _); [by eexists|].
    rewrite Hl, Ha. destruct (attr_is_dir attr); [|by eexists]. simpl.
    destruct Hb as [?| ->]; [done|]. by eexists.
Qed.

(** renaming onto an existing path removes that path before the file
    system is asked to rename, so the rename of a file onto itself deletes
    the file first. *)
Theorem rename_removes_destination_first (old new : str) (v v' : Vfs) :
  is_ok (ref_lookup (parent_node_of None new v) new v) = true →
  remove_file None new v = (Ok (), v') →
  rename old new v = ref_rename (parent_node_of None old v') old new v'.
Proof.
  unfold rename. monad. intros Hok Hrm.
  destruct (ref_lookup _ new v); [|done..]. by rewrite Hrm.
Qed.

End vfs.

Arguments MountPoint : clear implicits.
Arguments RootDirectory : clear implicits.
Arguments VfsNodeRef : clear implicits.
Arguments Vfs : clear implicits.
Arguments RootNode {N}.

(** ** An in-memory file system

    An instance of the class: every file system is a table from stripped
    paths to nodes, each node a kind and its bytes, all permissions granted. *)

Definition mem_disk : Type := list ((Z * str) * (VfsNodeType * list Z)).
Fixpoint mem_find (d : mem_disk) (k : Z * str) : option (VfsNodeType * list Z) :=
  match d with
  | [] => None
  | (k', x) :: d' => if decide (k = k') then Some x else mem_find d' k
  end.
Definition mem_delete (k : Z * str) (d : mem_disk) : mem_disk := filter (λ e, e.1 ≠ k) d.
Definition mem_insert (k : Z * str) (x : VfsNodeType * list Z) (d : mem_disk) : mem_disk :=
  (k, x) :: mem_delete k d.
Definition mem_key (n : Z * str) (path : str) : Z * str :=
  let p := trim_matches is_slash path in
  (n.1, if decide (n.2 = []) then p else n.2 ++ slash :: p).

Definition mem_lookup (n : Z * str) (path : str) (d : mem_disk) : AxResult (Z * str) :=
  let k := mem_key n path in
  if decide (k.2 = []) then Ok k else
  match mem_find d k with Some _ => Ok k | None => Err NotFound end.
Definition mem_get_attr (n : Z * str) (d : mem_disk) : AxResult (VfsNodeType * list Z) :=
  if decide (n.2 = []) then Ok (NodeDir, []) else ok_or (mem_find d n) NotFound.
Definition mem_create (n : Z * str) (path : str) (ty : VfsNodeType) : st mem_disk AxError () := λ d,
  match mem_find d (mem_key n path) with
  | Some _ => (Err AlreadyExists, d)
  | None => (Ok (), mem_insert (mem_key n path) (ty, []) d)
  end.
Definition mem_remove (n : Z * str) (path : str) : st mem_disk AxError () := λ d,
  match mem_find d (mem_key n path) with
  | Some _ => (Ok (), mem_delete (mem_key n path) d)
  | None => (Err NotFound, d)
  end.
Definition mem_rename (n : Z * str) (src dst : str) : st mem_disk AxError () := λ d,
  match mem_find d (mem_key n src) with
  | Some x => (Ok (), mem_insert (mem_key n dst) x (mem_delete (mem_key n src) d))
  | None => (Err NotFound, d)
  end.
(** The entries of the root directory of a file system. *)
Definition mem_read_dir (n : Z * str) (i : Z) (k : nat) (d : mem_disk) : AxResult (list DirEntry) :=
  let es := filter (λ e, e.1.1 = n.1 ∧ slash ∉ e.1.2) d in
  let es := (λ e, mkDirEntry e.2.1 ((λ c, Z.of_N (N_of_ascii c)) <$> e.1.2)) <$> es in
  Ok (take k (drop (Z.to_nat i) es)).
Definition mem_truncate (n : Z * str) (size : Z) : st mem_disk AxError () := λ d,
  match mem_find d n with
  | Some (ty, bs) =>
      let k := Z.to_nat size in
      (Ok (), mem_insert n (ty, take k bs ++ replicate (k - length bs) 0) d)
  | None => (Err NotFound, d)
  end.
Definition mem_read_at (n : Z * str) (off : Z) (len : nat) : st mem_disk AxError (list Z) := λ d,
  match mem_find d n with
  | Some (_, bs) => (Ok (take len (drop (Z.to_nat off) bs)), d)
  | None => (Err NotFound, d)
  end.
Definition mem_write_at (n : Z * str) (off : Z) (data : list Z) : st mem_disk AxError Z := λ d,
  match mem_find d n with
  | Some (ty, bs) =>
      let k := Z.to_nat off in
      (Ok (Z.of_nat (length data)),
       mem_insert n (ty, take k bs ++ replicate (k - length bs) 0 ++ data ++ drop (k + length data) bs) d)
  | None => (Err NotFound, d)
  end.

#[global, program] Instance MemVfs : AxfsVfs mem_disk Z (Z * str) (VfsNodeType * list Z) := {|
  root_dir fs := (fs, []);
  fs_mount _ _ _ d := (Ok (), d);
  fs_umount _ d := (Ok (), d);
  node_lookup := mem_lookup;
  node_get_attr := mem_get_attr;
  node_create := mem_create;
  node_remove := mem_remove;
  node_rename := mem_rename;
  node_open _ d := (Ok (), d);
  node_truncate := mem_truncate;
  node_read_at := mem_read_at;
  node_write_at := mem_write_at;
  node_fsync _ d := (Ok (), d);
  node_release _ d := (Ok (), d);
  node_read_dir := mem_read_dir;
  attr_is_dir a := bool_decide (a.1 = NodeDir);
  attr_is_file a := bool_decide (a.1 = NodeFile);
  attr_size a := Z.of_nat (length a.2);
  attr_blocks a := (Z.of_nat (length a.2) + 511) / 512;
  owner_readable _ := true;
  owner_writable _ := true;
  owner_executable _ := true;
  canonicalize p := p;
|}.
Next Obligation. done. Qed.
Next Obligation.
  unfold mem_read_at. intros. repeat case_match; simplify_eq. rewrite length_take. lia.
Qed.
Next Obligation.
  unfold mem_read_dir. intros. simplify_eq. rewrite length_take. lia.
Qed.

(** The state after boot on an empty disk, and with a regular file [/a]. *)
Definition mem_boot : Vfs mem_disk Z (Z * str) :=
  mkVfs (mkRootDirectory 0 (boot_mounts 1 2 3 4)) RootNode $"/"
    [((0, $"sys"), (NodeDir, [])); ((0, $"proc"), (NodeDir, []));
     ((0, $"tmp"), (NodeDir, [])); ((0, $"dev"), (NodeDir, []))].
Definition mem_boot_a : Vfs mem_disk Z (Z * str) :=
  set_disk (mem_insert (0, $"a") (NodeFile, [104; 105]) (disk mem_boot)) mem_boot.

(** ** Witnesses *)

Lemma mount_routing_witness :
  mounts_wf (ROOT_DIR mem_boot) ∧
  ∃ p fs rest, strips $"/tmp/x" p ∧ serves (ROOT_DIR mem_boot) p fs rest ∧
    (∀ fs' rest', serves (ROOT_DIR mem_boot) p fs' rest' → fs' = fs ∧ rest' = rest) ∧
    (∀ T (f : Z → str → T), lookup_mounted_fs (ROOT_DIR mem_boot) $"/tmp/x" f = Some (f fs rest)).
Proof.
  split; [apply boot_mounts_wf|]. apply (mount_routing (ROOT_DIR mem_boot) $"/tmp/x").
  apply boot_mounts_wf.
Defined.

Lemma root_node_ops_witness :
  RootDirectory_remove (ROOT_DIR mem_boot) $"/tmp" (disk mem_boot)
    = (Err PermissionDenied, disk mem_boot).
Proof.
  apply (root_node_ops (ROOT_DIR mem_boot) $"/tmp" $"tmp" [] $"/x" 2 NodeFile (disk mem_boot)).
  - apply boot_mounts_wf.
  - apply (strips_done $"/tmp"). reflexivity.
  - right. exists (mkMountPoint $"/tmp" 2). split_and!; [set_solver|done|done|].
    intros mp Hin [r Hr]. set_unfold in Hin.
    destruct_or! Hin; subst mp; simpl in *; lia || discriminate.
  - done.
Defined.

Lemma mount_table_invariant_witness :
  mounts_wf (mkRootDirectory 0 [mkMountPoint $"/dev" 1] : RootDirectory Z).
Proof.
  apply (mount_table_invariant 0 ([] : mem_disk) [((0, $"dev"), (NodeDir, []))]).
  eapply rtc_l; [|apply rtc_refl]. apply (root_mount _ _ $"/dev" 1). vm_compute. reflexivity.
Defined.

Lemma mount_names_match_by_prefix_witness :
  lookup_mounted_fs (ROOT_DIR mem_boot) ($"/dev" ++ $"elopment") (λ fs rest, (fs, rest))
    = Some (1, $"elopment").
Proof.
  apply (mount_names_match_by_prefix 0 1 2 3 4 ([] : mem_disk) mem_boot
    (mkMountPoint $"/dev" 1) $"elopment").
  - vm_compute. reflexivity.
  - set_solver.
  - vm_compute. reflexivity.
Defined.

Lemma set_current_dir_spec_witness :
  cwd_ok mem_boot ∧ cwd_ok (set_current_dir $"/tmp" mem_boot).2.
Proof.
  assert (cwd_ok mem_boot) as Hw by (split_and!; [done|done|by left]).
  split; [done|]. pose proof (set_current_dir_spec $"/tmp" mem_boot Hw) as Hs.
  destruct (set_current_dir $"/tmp" mem_boot) as [r v'] eqn:Hr.
  vm_compute in Hr. injection Hr as <- <-. apply Hs.
Defined.

Lemma remove_dir_guards_witness :
  RootDirectory_contains (ROOT_DIR mem_boot) $"/dev" = true ∧
  ∃ e, remove_dir None $"/dev" mem_boot = (Err e, mem_boot).
Proof.
  split; [reflexivity|]. apply (remove_dir_guards None $"/dev" mem_boot).
  do 5 right. left. exists $"/dev". split; vm_compute; reflexivity.
Defined.

(** Renaming [/a] to [/a] fails with [NotFound] and the file is gone. *)
Lemma rename_removes_destination_first_witness :
  rename $"/a" $"/a" mem_boot_a = (Err NotFound, mem_boot).
Proof.
  transitivity (ref_rename (parent_node_of None $"/a" mem_boot) $"/a" $"/a" mem_boot).
  - apply (rename_removes_destination_first $"/a" $"/a" mem_boot_a mem_boot);
      vm_compute; reflexivity.
  - vm_compute. reflexivity.
Defined.
