(* ===== verification/Paths.v ===== *)
(** * Canonical paths and hard links ([src/api/src/path.rs])

    [FilePath] is a canonical absolute path, in which a path that is a hard
    link has been replaced by its target. Hard links are kept in memory by
    [HARDLINK_MANAGER]: a table from link names to targets, and a table of
    the number of links of each target. *)

From S2P Require Import Prelude Abi Str Pipe FdTable Vfs.

#[local] Open Scope Z_scope.

(** [FilePath], a wrapper of its text. *)
Abbreviation FilePath := str.

(** ** The text of a path *)

Definition is_root (p : FilePath) : bool := bool_decide (p = $"/").
Definition is_dir (p : FilePath) : bool := ends_with p $"/".
Definition is_file (p : FilePath) : bool := negb (is_dir p).

(** [&path[a..b]]: a panic when the bounds are out of order or of range. *)
Definition slice {E} (p : str) (a b : nat) : res E str :=
  if decide (a ≤ b ≤ length p)%nat then Ok (take (b - a) (drop a p)) else Panic.

(** The common start of [parent] and [name]: one trailing slash is dropped. *)
Definition drop_trailing_slash (p : FilePath) : res AxError str :=
  if ends_with p $"/" then
    unwrap_opt (reverse <$> strip_prefix (reverse p) (reverse $"/"))
  else Ok p.

Definition parent (p : FilePath) : AxResult str :=
  if is_root p then Ok $"/" else
  path ← drop_trailing_slash p;
  pos ← ok_or (rfind path slash) NotFound;
  slice path 0 (S pos).

Definition name (p : FilePath) : AxResult str :=
  if is_root p then Ok $"/" else
  path ← drop_trailing_slash p;
  start_pos ← ok_or (rfind path slash) NotFound;
  let end_pos := if ends_with path $"/" then (length path - 1)%nat else length path in
  slice path (S start_pos) end_pos.

Definition FilePath_starts_with (p prefix : FilePath) : bool := starts_with p prefix.
Definition FilePath_ends_with (p suffix : FilePath) : bool := ends_with p suffix.
Definition components (p : FilePath) : list str := split_on slash (trim_matches is_slash p).

(** ** Hard links *)

Inductive LinkError : Type := LinkExists | InvalidPath | LinkNotFound | NotFile.

Definition LinkError_to_AxError (e : LinkError) : AxError :=
  match e with
  | LinkExists => AlreadyExists
  | InvalidPath => InvalidInput
  | LinkNotFound => NotFound
  | NotFile => InvalidInput
  end.
Definition LinkError_to_LinuxError `{AxErrno} (e : LinkError) : LinuxError :=
  ax_to_linux (LinkError_to_AxError e).

Record LinkManagerInner := mkLinks {
  links : gmap str str;
  ref_counts : gmap str Z;
}.
Definition HardlinkManager_new : LinkManagerInner := mkLinks ∅ ∅.

(** ** Counting links *)

(** The number of links to [d]. *)
Definition refs (m : gmap str str) (d : str) : Z :=
  Z.of_nat (size (filter (λ kd, kd.2 = d) m)).

Lemma refs_empty d : refs ∅ d = 0.
Proof. unfold refs. by rewrite map_filter_empty, map_size_empty. Qed.

Lemma refs_insert m k v d :
  m !! k = None → refs (<[k := v]> m) d = refs m d + (if decide (v = d) then 1 else 0).
Proof.
  intros Hk. unfold refs. case_decide.
  - rewrite map_filter_insert_True by done. rewrite map_size_insert_None; [lia|].
    apply map_lookup_filter_None_2. by left.
  - rewrite map_filter_insert_False by done. rewrite delete_id by done. lia.
Qed.

Lemma refs_delete m k v d :
  m !! k = Some v → refs (delete k m) d = refs m d - (if decide (v = d) then 1 else 0).
Proof.
  intros Hk. assert (refs m d = refs (<[k := v]> (delete k m)) d) as Hr
    by by rewrite insert_delete_id.
  rewrite Hr, refs_insert by apply lookup_delete_eq. lia.
Qed.

Lemma refs_replace m k v v' d :
  m !! k = Some v → refs (<[k := v']> m) d
    = refs m d - (if decide (v = d) then 1 else 0) + (if decide (v' = d) then 1 else 0).
Proof.
  intros Hk. rewrite <-insert_delete_eq, refs_insert by apply lookup_delete_eq.
  by rewrite (refs_delete m k v) by done.
Qed.

Lemma refs_bound m d : 0 ≤ refs m d ≤ Z.of_nat (size m).
Proof.
  unfold refs. split; [lia|]. apply inj_le. apply map_subseteq_size, map_filter_subseteq.
Qed.

Lemma refs_pos m k d : m !! k = Some d → 0 < refs m d.
Proof.
  intros Hk. pose proof (refs_delete m k d d Hk) as Hd. rewrite decide_True in Hd by done.
  pose proof (refs_bound (delete k m) d). lia.
Qed.

(** Counts that agree with a table of links: one entry per target, never a
    zero, and no count near the end of [usize]. *)
Definition counts_ok (m : gmap str str) (rc : gmap str Z) : Prop :=
  ∀ d, rc !! d = if decide (refs m d = 0) then None else Some (refs m d).
Definition links_wf (m : LinkManagerInner) : Prop :=
  counts_ok (links m) (ref_counts m) ∧ Z.of_nat (size (links m)) < 2 ^ 64.

(** The effect of [decrease_ref_count] on the counts. *)
Definition decrease (path : str) (rc : gmap str Z) : gmap str Z :=
  match rc !! path with
  | Some c => if decide (as_usize (c - 1) = 0) then delete path rc
              else <[path := as_usize (c - 1)]> rc
  | None => rc
  end.

Lemma usize_small z : 0 ≤ z < 2 ^ 64 → as_usize z = z.
Proof. apply wrapu_id. Qed.

Lemma decrease_lookup m rc src dst d :
  counts_ok m rc → Z.of_nat (size m) < 2 ^ 64 → m !! src = Some dst →
  decrease dst rc !! d = if decide (refs m d - (if decide (dst = d) then 1 else 0) = 0)
    then None else Some (refs m d - (if decide (dst = d) then 1 else 0)).
Proof.
  intros Hrc Hsz Hsrc. pose proof (refs_pos m src dst Hsrc) as Hpos.
  pose proof (refs_bound m dst) as Hb. unfold decrease. rewrite (Hrc dst).
  rewrite decide_False by lia. rewrite usize_small by lia.
  destruct (decide (dst = d)) as [<-|Hne].
  - destruct (decide (refs m dst - 1 = 0)); [apply lookup_delete_eq|apply lookup_insert_eq].
  - rewrite Z.sub_0_r. rewrite <-Hrc. case_decide.
    + by rewrite lookup_delete_ne.
    + by rewrite lookup_insert_ne.
Qed.

Lemma counts_ok_insert m rc k d0 (cnt : str → Z) :
  (∀ d, rc !! d = if decide (cnt d = 0) then None else Some (cnt d)) →
  0 ≤ cnt d0 → cnt d0 + 1 < 2 ^ 64 →
  (∀ d, refs (<[k := d0]> m) d = cnt d + (if decide (d0 = d) then 1 else 0)) →
  counts_ok (<[k := d0]> m) (<[d0 := as_usize (default 0 (rc !! d0) + 1)]> rc).
Proof.
  intros Hrc H0 Hb Hrefs d. rewrite Hrefs.
  assert (default 0 (rc !! d0) = cnt d0) as -> by (rewrite Hrc; case_decide; simpl; lia).
  rewrite usize_small by lia. destruct (decide (d0 = d)) as [<-|Hne].
  - rewrite lookup_insert_eq, decide_False by lia. done.
  - rewrite lookup_insert_ne, Z.add_0_r by done. apply Hrc.
Qed.

Section paths.
Context {D FS N A : Type} `{V : !AxfsVfs D FS N A}.

(** The state the path operations share: the link tables and the file
    systems. *)
Record PathState := mkPathState { lm : LinkManagerInner; fsys : Vfs D FS N }.
Definition set_fsys (v : Vfs D FS N) (s : PathState) : PathState := mkPathState (lm s) v.
Definition set_lm (m : LinkManagerInner) (s : PathState) : PathState := mkPathState m (fsys s).
Definition on_vfs {E T} (m : st (Vfs D FS N) E T) : st PathState E T := st_zoom fsys set_fsys m.

(** [axfs::api::absolute_path_exists] ([axfs/src/api/mod.rs]). *)
Definition absolute_path_exists (p : str) (v : Vfs D FS N) : res LinkError bool :=
  match lookup None p v with Ok _ => Ok true | Err _ => Ok false | Panic => Panic end.
Definition exists_path (p : FilePath) (s : PathState) : res LinkError bool :=
  absolute_path_exists p (fsys s).

(** [*count -= 1]; at zero the entry is dropped and the file removed. The
    outcome is [None] when the file could not be removed or there was no
    count. *)
Definition decrease_ref_count (path : str) : st PathState LinkError (option ()) :=
  s ← st_get;
  match ref_counts (lm s) !! path with
  | Some count =>
      let count := as_usize (count - 1) in
      if decide (count = 0) then
        st_mod (λ s, set_lm (mkLinks (links (lm s)) (delete path (ref_counts (lm s)))) s);;
        st_ok (on_vfs (remove_file None path))
      else
        st_mod (λ s, set_lm (mkLinks (links (lm s)) (<[path := count]> (ref_counts (lm s)))) s);;
        mret (Some ())
  | None => mret None
  end.

(** The tail of [atomic_link_update]: record the link and count it. *)
Definition insert_link (src dst : FilePath) (m : LinkManagerInner) : LinkManagerInner :=
  mkLinks (<[src := dst]> (links m))
    (<[dst := as_usize (default 0 (ref_counts m !! dst) + 1)]> (ref_counts m)).

Definition atomic_link_update (src dst : FilePath) : st PathState LinkError () :=
  s ← st_get;
  match links (lm s) !! src with
  | Some old_dst =>
      if decide (old_dst = dst) then mret ()
      else decrease_ref_count old_dst;; st_mod (λ s, set_lm (insert_link src dst (lm s)) s)
  | None => st_mod (λ s, set_lm (insert_link src dst (lm s)) s)
  end.

Definition atomic_link_remove (src : FilePath) : st PathState LinkError (option str) :=
  s ← st_get;
  match links (lm s) !! src with
  | Some dst =>
      st_put (set_lm (mkLinks (delete src (links (lm s))) (ref_counts (lm s))) s);;
      decrease_ref_count dst;;
      mret (Some dst)
  | None => mret None
  end.

Definition create_link (src dst : FilePath) : st PathState LinkError () :=
  e ← reading (exists_path dst);
  if negb e then st_err LinkNotFound
  else if negb (is_dir dst) then st_err NotFile
  else atomic_link_update src dst.

Definition remove_link (src : FilePath) : st PathState LinkError (option str) :=
  o ← atomic_link_remove src;
  match o with
  | Some dst => mret (Some dst)
  | None =>
      o ← st_ok (on_vfs (remove_file None src));
      mret ((λ _, src) <$> o)
  end.

Definition real_path (m : LinkManagerInner) (path : str) : str :=
  default path (links m !! path).

Definition link_count (path : FilePath) (s : PathState) : res LinkError Z :=
  match ref_counts (lm s) !! path with
  | Some c => Ok c
  | None => e ← exists_path path s; Ok (if e : bool then 1 else 0)
  end.

(** ** Making paths *)

Definition FilePath_new (path : str) (s : PathState) : AxResult FilePath :=
  canonical ← map_err (λ _, NotFound) (absolute_path path (fsys s));
  let new_path := trim canonical in
  let new_path := if ends_with path $"/" && negb (ends_with new_path $"/")
                  then new_path ++ $"/" else new_path in
  _ ← rassert (starts_with new_path $"/");
  Ok (real_path (lm s) new_path).

Definition join (p : FilePath) (path : str) (s : PathState) : AxResult FilePath :=
  let new_path := if negb (ends_with p $"/") then p ++ $"/" else p in
  FilePath_new (new_path ++ path) s.

(** ** Invariant of the link tables *)

Lemma decrease_ref_count_lm path s :
  lm (decrease_ref_count path s).2
    = mkLinks (links (lm s)) (decrease path (ref_counts (lm s))) ∧
  ∀ e, (decrease_ref_count path s).1 ≠ Err e.
Proof.
  unfold decrease_ref_count, decrease, st_ok, on_vfs, st_zoom. monad.
  destruct (ref_counts (lm s) !! path) as [c|] eqn:Hc; simpl.
  - case_decide; simpl; [|done].
    by destruct (remove_file None path (fsys s)) as [[] ?].
  - split; [|done]. by destruct (lm s).
Qed.

(** A count that stays positive leaves the file systems alone; otherwise the
    target is removed, and a failure to remove it is ignored. *)
Lemma decrease_ref_count_fsys path s c :
  ref_counts (lm s) !! path = Some c →
  let s' := (decrease_ref_count path s).2 in
  if decide (as_usize (c - 1) = 0) then
    fsys s' = (remove_file None path (fsys s)).2 ∧
    ((remove_file None path (fsys s)).1 ≠ Panic → ∃ o, (decrease_ref_count path s).1 = Ok o)
  else fsys s' = fsys s ∧ (decrease_ref_count path s).1 = Ok (Some ()).
Proof.
  intros Hc. unfold decrease_ref_count, st_ok, on_vfs, st_zoom. monad. rewrite Hc.
  case_decide; simpl; [|done].
  destruct (remove_file None path (fsys s)) as [[] ?]; simpl; naive_solver.
Qed.

Lemma links_wf_update src dst s r s' :
  links_wf (lm s) → Z.of_nat (size (links (lm s))) + 1 < 2 ^ 64 →
  atomic_link_update src dst s = (r, s') → r ≠ Panic → links_wf (lm s').
Proof.
  intros [Hrc Hsz] Hb. unfold atomic_link_update. monad.
  destruct (links (lm s) !! src) as [old|] eqn:Hsrc.
  - case_decide; monad; [by intros [= <- <-] _|].
    destruct (decrease_ref_count_lm old s) as [Hlm Herr].
    destruct (decrease_ref_count old s) as [[o|e|] s1]; simpl in *; intros [= <- <-] Hp;
      [|by destruct (Herr e)|done].
    rewrite Hlm. split; simpl.
    + apply (counts_ok_insert _ _ _ _ (λ d, refs (links (lm s)) d - (if decide (old = d) then 1 else 0))).
      * intros d. by apply (decrease_lookup (links (lm s)) (ref_counts (lm s)) src).
      * rewrite decide_False by done. pose proof (refs_bound (links (lm s)) dst). lia.
      * rewrite decide_False by done. pose proof (refs_bound (links (lm s)) dst). lia.
      * intros d. by apply refs_replace.
    + rewrite map_size_insert_Some by by eexists. done.
  - intros [= <- <-] _. split; simpl.
    + apply (counts_ok_insert _ _ _ _ (refs (links (lm s)))); [done| | |].
      * pose proof (refs_bound (links (lm s)) dst). lia.
      * pose proof (refs_bound (links (lm s)) dst). lia.
      * intros d. by apply refs_insert.
    + rewrite map_size_insert_None by done. lia.
Qed.

Lemma links_wf_remove src s r s' :
  links_wf (lm s) → atomic_link_remove src s = (r, s') → links_wf (lm s').
Proof.
  intros [Hrc Hsz]. unfold atomic_link_remove. monad.
  destruct (links (lm s) !! src) as [dst|] eqn:Hsrc; [|by intros [= <- <-]].
  set (s1 := set_lm _ s). destruct (decrease_ref_count_lm dst s1) as [Hlm _].
  destruct (decrease_ref_count dst s1) as [o s2]; simpl in *. intros Hr.
  assert (s' = s2) as -> by (destruct o; by simplify_eq). rewrite Hlm. split; simpl.
  - intros d. rewrite (decrease_lookup (links (lm s)) (ref_counts (lm s)) src) by done.
    by rewrite (refs_delete _ src dst).
  - rewrite map_size_delete_Some by by eexists. lia.
Qed.

Lemma remove_link_lm src s r s' :
  remove_link src s = (r, s') → lm s' = lm (atomic_link_remove src s).2.
Proof.
  unfold remove_link, st_ok, on_vfs, st_zoom. monad.
  destruct (atomic_link_remove src s) as [[[dst|]|e|] s1]; simpl; intros Hr;
    repeat case_match; by simplify_eq.
Qed.

(** One operation of the link manager that returns, or any change of the
    file systems by other code. *)
Inductive link_step : PathState → PathState → Prop :=
  | step_create src dst s r s' :
      Z.of_nat (size (links (lm s))) + 1 < 2 ^ 64 →
      create_link src dst s = (r, s') → r ≠ Panic → link_step s s'
  | step_remove src s r s' : remove_link src s = (r, s') → link_step s s'
  | step_files v s : link_step s (set_fsys v s).

Lemma link_step_wf s s' : link_step s s' → links_wf (lm s) → links_wf (lm s').
Proof.
  intros Hs Hwf. destruct Hs as [src dst s r s' Hb Hc Hp|src s r s' Hr|v s]; [| |done].
  - unfold create_link, reading in Hc. monad.
    destruct (exists_path dst s) as [[]|e|]; simpl in Hc; simplify_eq; try done.
    destruct (is_dir dst); simpl in Hc; simplify_eq; [|done]. by eapply links_wf_update.
  - apply remove_link_lm in Hr. rewrite Hr.
    destruct (atomic_link_remove src s) as [o s1] eqn:Ho. by eapply links_wf_remove.
Qed.


(** [remove_link] of a link takes that link out of the table; while
    other links to the target remain no file is touched, and with the last
    link the target file is removed. On a path that is no link the file of
    that path is removed and the tables stay as they are. *)
Theorem remove_link_spec (src : FilePath) (s : PathState) :
  links_wf (lm s) →
  match links (lm s) !! src with
  | Some dst =>
      let v' := if decide (refs (links (lm s)) dst = 1)
                then remove_file None dst (fsys s) else (Ok (), fsys s) in
      v'.1 ≠ Panic →
      ∃ s', remove_link src s = (Ok (Some dst), s') ∧ fsys s' = v'.2 ∧
        links (lm s') = delete src (links (lm s)) ∧ links_wf (lm s')
  | None =>
      let '(r, v') := remove_file None src (fsys s) in
      r ≠ Panic →
      remove_link src s = (Ok (if is_ok r then Some src else None), set_fsys v' s)
  end.
Proof.
  intros Hwf. destruct (links (lm s) !! src) as [dst|] eqn:Hsrc.
  - set (s1 := set_lm (mkLinks (delete src (links (lm s))) (ref_counts (lm s))) s).
    assert (atomic_link_remove src s =
      (decrease_ref_count dst;; mret (Some dst) : st PathState LinkError (option str)) s1) as Ha.
    { unfold atomic_link_remove. monad. by rewrite Hsrc. }
    destruct Hwf as [Hrc Hsz]. pose proof (refs_pos _ _ _ Hsrc). pose proof (refs_bound (links (lm s)) dst).
    assert (ref_counts (lm s1) !! dst = Some (refs (links (lm s)) dst)) as Hc.
    { simpl. rewrite Hrc. by rewrite decide_False by lia. }
    pose proof (decrease_ref_count_fsys dst s1 _ Hc) as Hf.
    destruct (decrease_ref_count_lm dst s1) as [Hlm _].
    rewrite usize_small in Hf by lia. intros v' Hp.
    assert (∃ o s2, decrease_ref_count dst s1 = (Ok o, s2) ∧ fsys s2 = v'.2) as (o & s2 & Hd & Hv).
    { destruct (decrease_ref_count dst s1) as [r s2]. subst v'. simpl in Hf.
      destruct (decide (refs (links (lm s)) dst = 1)).
      - rewrite decide_True in Hf by lia. destruct Hf as [Hv Ho].
        destruct (Ho Hp) as [o ->]. by exists o, s2.
      - rewrite decide_False in Hf by lia. destruct Hf as [Hv ->]. by eexists _, s2. }
    rewrite Hd in Hlm. monad. rewrite Hd in Ha.
    exists s2. split_and!; [|done|by rewrite Hlm|by eapply links_wf_remove].
    unfold remove_link. monad. by rewrite Ha.
  - destruct (remove_file None src (fsys s)) as [r v'] eqn:Hr. intros Hp.
    unfold remove_link, atomic_link_remove, st_ok, on_vfs, st_zoom. monad. rewrite Hsrc, Hr.
    by destruct r.
Qed.

(** the guard of [create_link] is the other way round from its comment:
    a target whose path is that of a regular file (no trailing slash) is
    always refused, and nothing is recorded. *)
Theorem create_link_rejects_files (src dst : FilePath) (s : PathState) :
  is_file dst = true →
  (create_link src dst s).2 = s ∧ ∀ u, (create_link src dst s).1 ≠ Ok u.
Proof.
  unfold is_file, create_link, reading. monad. intros Hf.
  destruct (exists_path dst s) as [[]|e|]; simpl; [|done..].
  by destruct (is_dir dst).
Qed.

(** ** Text of canonical paths *)

(** Every path in the state is absolute. *)
Definition paths_absolute (s : PathState) : Prop :=
  starts_with (CURRENT_DIR_PATH (fsys s)) $"/" = true ∧
  map_Forall (λ _ d, starts_with d $"/" = true) (links (lm s)).

Lemma trim_absolute_path p : starts_with p $"/" = true → starts_with (trim p) $"/" = true.
Proof.
  intros [r ->]%starts_with_spec. unfold trim, trim_matches. simpl app.
  rewrite trim_start_id by done. change ("/"%char :: r) with (slash :: r).
  destruct (trim_end_matches is_whitespace (slash :: r)) as [|c q] eqn:Ht.
  - by destruct (trim_end_nonempty is_whitespace slash r).
  - apply trim_start_head in Ht as ->; done.
Qed.

(** making a path from any text never hits the assertion in
    [FilePath::new] and gives an absolute path, also through a link. *)
Theorem FilePath_new_absolute (path : str) (s : PathState) :
  paths_absolute s →
  ∃ p, FilePath_new path s = Ok p ∧ starts_with p $"/" = true.
Proof.
  intros [Hw Hl]. destruct (absolute_path_absolute path (fsys s) Hw) as (q & Hq & Hqs).
  unfold FilePath_new. rewrite Hq. unfold mbind, res_bind, map_err.
  set (n := if _ && _ then _ else _).
  assert (starts_with n $"/" = true) as Hn.
  { apply trim_absolute_path in Hqs. subst n. destruct (_ && _); [|done].
    apply starts_with_spec in Hqs as [r ->]. apply starts_with_spec. by eexists. }
  rewrite Hn. simpl. eexists. split; [done|]. unfold real_path.
  destruct (links (lm s) !! n) as [d|] eqn:Hd; simpl; [|done]. by apply (Hl n).
Qed.

Context `{FO : !FlattenObjects FileLike AX_FILE_LIMIT} `{AxErrno}.

Definition handle_file_path (t : table FileLike AX_FILE_LIMIT) (dirfd : Z) (path : str)
    (s : PathState) : LinuxResult FilePath :=
  if starts_with path $"/" then into_linux (FilePath_new path s)
  else if decide (path = []) then
    f ← File_from_fd t dirfd;
    into_linux (FilePath_new (kind_path (obj_kind f)) s)
  else
    base ← (if decide (dirfd = AT_FDCWD) then into_linux (FilePath_new [] s)
            else f ← Directory_from_fd t dirfd;
                 into_linux (FilePath_new (kind_path (obj_kind f)) s));
    into_linux (join base path s).

End paths.
Arguments PathState : clear implicits.

(** Dropping a trailing slash. *)
Lemma drop_trailing_slash_spec p :
  starts_with p $"/" = true → p ≠ $"/" → ends_with p $"//" = false →
  ∃ q, drop_trailing_slash p = Ok q ∧ p = q ++ (if is_dir p then $"/" else []) ∧
    ends_with q $"/" = false ∧ slash ∈ q.
Proof.
  intros [r Hr]%starts_with_spec Hne Hdd. unfold drop_trailing_slash, is_dir.
  destruct (ends_with p $"/") eqn:He.
  - pose proof (proj1 (ends_with_spec p $"/") He) as [q Hq]. exists q. split_and!; [|done| |].
    + assert (strip_prefix (reverse p) (reverse $"/") = Some (reverse q)) as ->.
      { apply strip_prefix_Some. by rewrite Hq, reverse_app. }
      simpl. by rewrite reverse_involutive.
    + destruct (ends_with q $"/") eqn:Hqe; [|done]. apply ends_with_spec in Hqe as [u Hu].
      assert (ends_with p $"//" = true); [|congruence].
      apply ends_with_spec. exists u. by rewrite Hq, Hu, <-(assoc_L (++)).
    + destruct q as [|c q]; [done|]. rewrite Hr in Hq. simplify_eq/=. set_solver.
  - exists p. rewrite app_nil_r. split_and!; [done..|]. rewrite Hr. set_solver.
Qed.

(** on an absolute path other than the root, [parent] and [name] cut the
    path in two: the parent up to and with its last slash, then the name,
    which has no slash and is not empty, then the slash that marks a
    directory. *)
Theorem parent_name_split (p : FilePath) :
  starts_with p $"/" = true → p ≠ $"/" → ends_with p $"//" = false →
  ∃ a b, parent p = Ok a ∧ name p = Ok b ∧
    p = a ++ b ++ (if is_dir p then $"/" else []) ∧
    ends_with a $"/" = true ∧ (slash ∉ b) ∧ b ≠ [].
Proof.
  intros Hs Hne Hdd.
  destruct (drop_trailing_slash_spec p Hs Hne Hdd) as (q & Hq & Hp & Hqe & Hin).
  destruct (rfind q slash) as [i|] eqn:Hi; [|by apply rfind_None in Hi].
  pose proof (proj1 (rfind_Some _ _ _) Hi) as (a & b & Hab & Hlen & Hb).
  assert (b ≠ []) as Hbn.
  { intros ->. enough (false = true) by done. rewrite <-Hqe, Hab. apply ends_with_app. }
  exists (a ++ [slash]), b. unfold parent, name, is_root, slice.
  rewrite bool_decide_false by done. rewrite Hq. unfold mbind, res_bind. rewrite Hi.
  cbn [ok_or]. rewrite Hqe. assert (length q = S i + length b)%nat as Hlq.
  { rewrite Hab, length_app. simpl. lia. }
  rewrite !decide_True by lia. split_and!; [| |rewrite Hp at 1|apply ends_with_app|done..].
  - f_equal. rewrite Hab. change (slash :: b) with ([slash] ++ b).
    rewrite (assoc_L (++)). rewrite drop_0, take_app_length'; [done|]. rewrite length_app. simpl. lia.
  - f_equal. rewrite Hab at 2. change (slash :: b) with ([slash] ++ b).
    rewrite (assoc_L (++)), drop_app_length' by (rewrite length_app; simpl; lia).
    apply take_ge. lia.
  - rewrite Hab. by rewrite <-!(assoc_L (++)).
Qed.

(** ** Witnesses *)

(** A disk with a directory [/d] and a file [/f], and two links to [/d/]. *)
Definition mem_links_vfs : Vfs mem_disk Z (Z * str) :=
  set_disk (mem_insert (0, $"d") (NodeDir, []) (mem_insert (0, $"f") (NodeFile, []) (disk mem_boot)))
    mem_boot.
Definition mem_links : PathState mem_disk Z (Z * str) :=
  mkPathState HardlinkManager_new mem_links_vfs.
Definition mem_links1 : PathState mem_disk Z (Z * str) :=
  (create_link $"/x" $"/d/" mem_links).2.


Lemma mem_links1_wf : links_wf (lm mem_links1).
Proof.
  eapply link_step_wf.
  - apply (step_create $"/x" $"/d/" mem_links (create_link $"/x" $"/d/" mem_links).1).
    + reflexivity.
    + apply surjective_pairing.
    + vm_compute. discriminate.
  - split; [|done]. intros d. simpl. by rewrite refs_empty, lookup_empty.
Qed.

Lemma remove_link_spec_witness :
  ∃ s', remove_link $"/x" mem_links1 = (Ok (Some $"/d/"), s') ∧
    links (lm s') = delete $"/x" (links (lm mem_links1)).
Proof.
  pose proof (remove_link_spec $"/x" mem_links1 mem_links1_wf) as Hs.
  assert (links (lm mem_links1) !! $"/x" = Some $"/d/") as Hl by (vm_compute; reflexivity).
  rewrite Hl in Hs. destruct Hs as (s' & Hr & _ & Hd & _); [|by exists s'].
  case_decide; [vm_compute|simpl]; discriminate.
Defined.

Lemma create_link_rejects_files_witness :
  exists_path $"/f" mem_links = Ok true ∧
  create_link $"/x" $"/f" mem_links = (Err NotFile, mem_links).
Proof.
  split; [vm_compute; reflexivity|].
  destruct (create_link $"/x" $"/f" mem_links) as [r s] eqn:Hc.
  destruct (create_link_rejects_files $"/x" $"/f" mem_links) as [Hs _]; [reflexivity|].
  rewrite Hc in Hs. simpl in Hs. subst s. f_equal.
  assert (r = (create_link $"/x" $"/f" mem_links).1) as -> by by rewrite Hc.
  vm_compute. reflexivity.
Defined.

Lemma FilePath_new_absolute_witness :
  ∃ p, FilePath_new $"a/b/" mem_links = Ok p ∧ starts_with p $"/" = true.
Proof.
  apply (FilePath_new_absolute $"a/b/" mem_links). split; [reflexivity|].
  apply map_Forall_empty.
Defined.

Lemma parent_name_split_witness :
  parent $"/usr/lib/" = Ok $"/usr/" ∧ name $"/usr/lib/" = Ok $"lib".
Proof.
  destruct (parent_name_split $"/usr/lib/") as (a & b & Ha & Hb & _);
    [reflexivity|discriminate|reflexivity|].
  rewrite Ha, Hb. vm_compute in Ha, Hb. by simplify_eq.
Defined.
