(* ===== verification/FsCtl.v ===== *)
(** * Calls on directory entries and mounts

    Model of [src/api/src/imp/fs/ctl.rs] (except [getdents64], which is in
    [Dents.v]) and of [src/api/src/imp/fs/mount.rs]. An argument that the
    call reads through a user pointer is the outcome of that read. *)

From S2P Require Import Prelude Abi Str Pipe FdTable Vfs Paths.

#[local] Open Scope Z_scope.

(** A directory recorded as mounted. *)
Record MountedFs := mkMountedFs { device : FilePath; mnt_dir : FilePath }.

(** The bytes of a string. *)
Definition bytes_of (s : str) : list Z := (λ c, Z.of_N (N_of_ascii c)) <$> s.

Section fsctl.
Context {D FS N A : Type} `{V : !AxfsVfs D FS N A}.
Context `{FO : !FlattenObjects FileLike AX_FILE_LIMIT} `{AxErrno}.

Abbreviation fds := (table FileLike AX_FILE_LIMIT).
Abbreviation PathState := (PathState D FS N).

Implicit Types (s : PathState) (t : fds).

(** ** [ctl.rs] *)

Definition sys_ioctl (fd op argp : Z) : st PathState LinuxError Z := mret 0.

Definition sys_chdir (path : LinuxResult str) : st PathState LinuxError Z :=
  path ← st_lift path;
  _ ← st_map_err ax_to_linux (on_vfs (set_current_dir path));
  mret 0.

Definition sys_mkdirat t (dirfd : Z) (path : LinuxResult str) (mode : Z) :
    st PathState LinuxError Z :=
  path ← st_lift path;
  path ← reading (handle_file_path t dirfd path);
  _ ← st_map_err ax_to_linux (on_vfs (create_dir None path));
  mret 0.

Definition sys_linkat t (old_dirfd : Z) (old_path : LinuxResult str) (new_dirfd : Z)
    (new_path : LinuxResult str) (flags : Z) : st PathState LinuxError Z :=
  old_path ← st_lift old_path;
  new_path ← st_lift new_path;
  old_path ← reading (handle_file_path t old_dirfd old_path);
  new_path ← reading (handle_file_path t new_dirfd new_path);
  _ ← st_map_err LinkError_to_LinuxError (create_link new_path old_path);
  mret 0.

Definition sys_link t (old_path new_path : LinuxResult str) : st PathState LinuxError Z :=
  sys_linkat t AT_FDCWD old_path AT_FDCWD new_path 0.

(** [axfs::api::metadata] ([axfs/src/api/mod.rs]). *)
Definition metadata (path : str) (v : Vfs D FS N) : AxResult A :=
  node ← lookup None path v; ref_get_attr (FsNode node) v.

Definition sys_unlinkat t (dirfd : Z) (path : LinuxResult str) (flags : Z) :
    st PathState LinuxError Z :=
  path ← st_lift path;
  path ← reading (handle_file_path t dirfd path);
  if decide (flags = AT_REMOVEDIR) then
    _ ← st_map_err ax_to_linux (on_vfs (remove_dir None path));
    mret 0
  else
    metadata ← reading (λ s, into_linux (metadata path (fsys s)));
    if attr_is_dir metadata then st_err EISDIR
    else
      o ← st_map_err LinkError_to_LinuxError (remove_link path);
      _ ← st_lift (ok_or o ENOENT);
      mret 0.

Definition sys_unlink t (path : LinuxResult str) : st PathState LinuxError Z :=
  sys_unlinkat t AT_FDCWD path 0.

(** [CString::new]: text with a NUL byte inside is refused. *)
Definition cstring (s : str) : LinuxResult (list Z) :=
  let b := bytes_of s in if decide (0 ∈ b) then Err EINVAL else Ok (b ++ [0]).

(** [sys_getcwd]: [buf] is the user buffer, its address and its bytes, or
    [None] for a null pointer. The result is the value returned and the
    bytes of the buffer afterwards. *)
Definition sys_getcwd (buf : LinuxResult (option (Z * list Z))) s :
    LinuxResult (Z * list Z) :=
  buf ← buf;
  match buf with
  | None => Ok (0, [])
  | Some (ptr, buf) =>
      cwd ← into_linux (current_dir (fsys s));
      cwd ← cstring cwd;
      if decide (length cwd ≤ length buf)%nat
      then Ok (as_isize ptr, cwd ++ drop (length cwd) buf)
      else Err ERANGE
  end.

(** ** [mount.rs] *)

(** [MOUNTED] beside the paths. *)
Record MountState := mkMountState { MOUNTED : list MountedFs; paths : PathState }.

Definition mount_fat_fs (device_path mount_path : FilePath) (m : MountState) :
    res LinkError (bool * MountState) :=
  e ← exists_path mount_path (paths m);
  Ok (if e : bool
      then (true, mkMountState (MOUNTED m ++ [mkMountedFs device_path mount_path]) (paths m))
      else (false, m)).

Definition umount_fat_fs (mount_path : FilePath) (m : MountState) : bool * MountState :=
  let mounted := filter (λ x, mnt_dir x ≠ mount_path) (MOUNTED m) in
  (bool_decide (length mounted < length (MOUNTED m))%nat, mkMountState mounted (paths m)).

Definition check_mounted (path : FilePath) (m : MountState) : bool :=
  existsb (λ x, FilePath_starts_with path (mnt_dir x)) (MOUNTED m).

Definition sys_mount t (source target fs_type : LinuxResult str) (flags : Z) :
    st MountState LinuxError Z :=
  source ← st_lift source;
  target ← st_lift target;
  fs_type ← st_lift fs_type;
  device_path ← reading (λ m, handle_file_path t AT_FDCWD source (paths m));
  mount_path ← reading (λ m, handle_file_path t AT_FDCWD target (paths m));
  if decide (fs_type ≠ $"vfat") then st_err EPERM else
  e ← reading (λ m, map_err LinkError_to_LinuxError (exists_path mount_path (paths m)));
  if negb e then st_err EPERM else
  m ← st_get;
  if check_mounted mount_path m then st_err EPERM else
  '(ok, m') ← st_lift (map_err LinkError_to_LinuxError (mount_fat_fs device_path mount_path m));
  st_put m';;
  if negb ok then st_err EPERM else mret 0.

Definition sys_umount2 t (target : LinuxResult str) (flags : Z) : st MountState LinuxError Z :=
  target ← st_lift target;
  mount_path ← reading (λ m, handle_file_path t AT_FDCWD target (paths m));
  if decide (flags ≠ 0) then st_err EPERM else
  e ← reading (λ m, map_err LinkError_to_LinuxError (exists_path mount_path (paths m)));
  if negb e then st_err EPERM else
  m ← st_get;
  let '(ok, m') := umount_fat_fs mount_path m in
  st_put m';;
  if negb ok then st_err EPERM else mret 0.

(** ** Unlinking *)

(** No link points at another link. *)
Definition no_chains s : Prop :=
  ∀ q d, links (lm s) !! q = Some d → links (lm s) !! d = None.

(** A resolved path is no link name. *)
Lemma FilePath_new_resolved path s p :
  no_chains s → FilePath_new path s = Ok p → links (lm s) !! p = None.
Proof.
  intros Hc. unfold FilePath_new, real_path, mbind, res_bind.
  destruct (map_err _ _); [|done..]. set (n := if _ && _ then _ else _).
  destruct (rassert _); [|done..]. intros [= <-].
  destruct (links (lm s) !! n) as [d|] eqn:Hn; simpl; [by eapply Hc|done].
Qed.

Lemma handle_file_path_resolved t dirfd path s p :
  no_chains s → handle_file_path t dirfd path s = Ok p → links (lm s) !! p = None.
Proof.
  intros Hc. unfold handle_file_path, join, into_linux, mbind, res_bind.
  intros Hp. repeat case_match; simplify_eq; simpl in *;
    match goal with
    | Hm : map_err _ (FilePath_new ?x _) = Ok p |- _ =>
        destruct (FilePath_new x s) eqn:Hf; simplify_eq/=; by eapply FilePath_new_resolved
    | _ => idtac
    end.
Qed.

(** Removing a path that is no link only reaches the file systems. *)
Lemma remove_link_no_link p s : links (lm s) !! p = None → lm (remove_link p s).2 = lm s.
Proof.
  intros Hp. unfold remove_link, atomic_link_remove, st_ok, on_vfs, st_zoom. monad.
  rewrite Hp. by destruct (remove_file None p (fsys s)) as [[] ?].
Qed.

(** [unlinkat] can never remove a link. The path is resolved through the
    link table first, so it is the target that is looked up in the table of
    link names and then removed as a file; the link itself stays behind. *)
Theorem unlinkat_keeps_links t (dirfd : Z) (path : LinuxResult str) (flags : Z) s :
  no_chains s → lm (sys_unlinkat t dirfd path flags s).2 = lm s.
Proof.
  intros Hc. unfold sys_unlinkat, reading. monad.
  destruct path as [path|e|]; [|done..].
  destruct (handle_file_path t dirfd path s) as [p|e|] eqn:Hp; [|done..].
  apply handle_file_path_resolved in Hp; [|done].
  case_decide; unfold st_map_err, on_vfs, st_zoom; simpl.
  - by destruct (map_err _ _).
  - destruct (into_linux (metadata p (fsys s))) as [a|e|]; [|done..]. simpl.
    destruct (attr_is_dir a); [done|]. pose proof (remove_link_no_link p s Hp) as Hr.
    destruct (remove_link p s) as [[o|e|] s']; simpl in *; [|done..]. by destruct o.
Qed.

(** ** Mounting *)

Lemma check_mounted_false path m :
  check_mounted path m = false → ∀ x, x ∈ MOUNTED m → starts_with path (mnt_dir x) = false.
Proof.
  intros Hc x Hx. apply not_true_iff_false. intros Hs. enough (false = true) by done.
  rewrite <-Hc. apply existsb_exists. exists x. by rewrite <-list_elem_of_In.
Qed.

Lemma starts_with_refl p : starts_with p p = true.
Proof. apply starts_with_spec. exists []. by rewrite app_nil_r. Qed.

(** Appending a mount and unmounting it gives the list back. *)
Lemma filter_mounted l d p :
  (∀ x, x ∈ l → starts_with p (mnt_dir x) = false) →
  filter (λ x, mnt_dir x ≠ p) (l ++ [mkMountedFs d p]) = l.
Proof.
  intros Hl. rewrite filter_app, filter_cons_False, app_nil_r by (simpl; tauto).
  induction l as [|x l IH]; [done|].
  rewrite filter_cons_True, IH; [done|set_solver|].
  intros <-. specialize (Hl x ltac:(set_solver)). by rewrite starts_with_refl in Hl.
Qed.

(** a mount that succeeds is recorded, and unmounting the same target
    succeeds and restores the list of mounts. *)
Theorem mount_umount_roundtrip t (source target fs_type : LinuxResult str) (flags r : Z)
    (m m' : MountState) :
  sys_mount t source target fs_type flags m = (Ok r, m') →
  length (MOUNTED m') = S (length (MOUNTED m)) ∧ sys_umount2 t target 0 m' = (Ok 0, m).
Proof.
  unfold sys_mount, sys_umount2, reading. monad.
  destruct source as [source|?|]; [|done..]. destruct target as [target|?|]; [|done..].
  destruct fs_type as [ft|?|]; [|done..].
  destruct (handle_file_path t AT_FDCWD source (paths m)) as [d|?|]; [|done..].
  destruct (handle_file_path t AT_FDCWD target (paths m)) as [p|?|] eqn:Hp; [|done..].
  destruct (decide (ft ≠ _)); [done|].
  destruct (exists_path p (paths m)) as [[]|?|] eqn:He; [|done..]. simpl.
  destruct (check_mounted p m) eqn:Hc; [done|].
  unfold mount_fat_fs, mbind, res_bind. rewrite He. simpl. intros [= <- <-]. simpl.
  split; [by rewrite length_app, Nat.add_comm|].
  rewrite Hp. destruct (decide (0 ≠ 0)); [done|]. rewrite He. simpl.
  unfold umount_fat_fs. simpl. rewrite filter_mounted by by apply check_mounted_false.
  rewrite bool_decide_true by (rewrite length_app; simpl; lia). by destruct m.
Qed.

(** while a directory is mounted, every path whose text merely starts
    with its name is refused as a mount point, also the name of another
    directory, as [/mnt2] beside [/mnt]. *)
Theorem mount_refuses_name_extensions t (source target fs_type dev rest : str) (flags : Z)
    (x : MountedFs) (m : MountState) :
  x ∈ MOUNTED m →
  handle_file_path t AT_FDCWD source (paths m) = Ok dev →
  handle_file_path t AT_FDCWD target (paths m) = Ok (mnt_dir x ++ rest) →
  exists_path (mnt_dir x ++ rest) (paths m) ≠ Panic →
  sys_mount t (Ok source) (Ok target) (Ok fs_type) flags m = (Err EPERM, m).
Proof.
  intros Hx Hs Ht He. unfold sys_mount, reading. monad. rewrite Hs, Ht.
  destruct (decide (fs_type ≠ _)); [done|].
  destruct (exists_path (mnt_dir x ++ rest) (paths m)) as [[]|e|] eqn:Hp; simpl; try done.
  - destruct (check_mounted (mnt_dir x ++ rest) m) eqn:Hc; [done|].
    apply (check_mounted_false _ _) with (x := x) in Hc; [|done].
    by rewrite starts_with_app in Hc.
  - by unfold exists_path, absolute_path_exists in Hp; destruct (lookup _ _ _).
Qed.

End fsctl.
Arguments MountState : clear implicits.

(** ** Witnesses *)

#[local] Existing Instance SampleErrno.

Abbreviation mem_fds := (fo_new : table FileLike AX_FILE_LIMIT).

(** A disk with two directories [/mnt] and [/mnt2], and a link. *)
Definition mem_mnt : PathState mem_disk Z (Z * str) :=
  mkPathState (mkLinks {[ $"/l" := $"/f" ]} {[ $"/f" := 1 ]})
    (set_disk (mem_insert (0, $"mnt") (NodeDir, []) (mem_insert (0, $"mnt2") (NodeDir, [])
       (mem_insert (0, $"f") (NodeFile, []) (disk mem_boot)))) mem_boot).

Lemma unlinkat_keeps_links_witness :
  no_chains mem_mnt ∧
  (sys_unlinkat mem_fds AT_FDCWD (Ok $"/l") 0 mem_mnt).1 = Ok 0 ∧
  lm (sys_unlinkat mem_fds AT_FDCWD (Ok $"/l") 0 mem_mnt).2 = lm mem_mnt.
Proof.
  assert (no_chains mem_mnt) as Hc.
  { intros q d Hq. change (({[ $"/l" := $"/f" ]} : gmap str str) !! q = Some d) in Hq.
    apply lookup_singleton_Some in Hq as [<- <-]. vm_compute. reflexivity. }
  split; [done|]. split; [vm_compute; reflexivity|].
  apply (unlinkat_keeps_links mem_fds AT_FDCWD (Ok $"/l") 0 mem_mnt Hc).
Defined.

Definition mem_unmounted : MountState mem_disk Z (Z * str) := mkMountState [] mem_mnt.
Definition mem_mounted : MountState mem_disk Z (Z * str) :=
  mkMountState [mkMountedFs $"/f" $"/mnt"] mem_mnt.

Lemma mount_umount_roundtrip_witness :
  length (MOUNTED mem_mounted) = 1%nat ∧
  sys_umount2 mem_fds (Ok $"/mnt") 0 mem_mounted = (Ok 0, mem_unmounted).
Proof.
  apply (mount_umount_roundtrip mem_fds (Ok $"/f") (Ok $"/mnt") (Ok $"vfat") 0 0
    mem_unmounted mem_mounted).
  vm_compute. reflexivity.
Defined.

Lemma mount_refuses_name_extensions_witness :
  sys_mount mem_fds (Ok $"/f") (Ok $"/mnt2") (Ok $"vfat") 0 mem_mounted = (Err EPERM, mem_mounted).
Proof.
  apply (mount_refuses_name_extensions mem_fds $"/f" $"/mnt2" $"vfat" $"/f" $"2" 0
    (mkMountedFs $"/f" $"/mnt") mem_mounted).
  - set_solver.
  - vm_compute. reflexivity.
  - vm_compute. reflexivity.
  - vm_compute. discriminate.
Defined.
