(* ===== verification/Fops.v ===== *)
(** * Opened files and directories ([src/.arceos/modules/axfs/src/fops.rs])

    A file is opened with a set of options, keeps the access rights it was
    opened with, and has a cursor. The options of the [open] call come from
    [flags_to_options] of [src/api/src/imp/fs/fd_ops.rs]. *)

From S2P Require Import Prelude Abi Str Vfs.

#[local] Open Scope Z_scope.

(** ** Capabilities

    [cap_access::Cap] is a set of three rights; [WithCap] guards a value with
    the rights it was made with, and [access_or_err] gives the value out when
    they contain the ones asked for. *)
Definition CAP_READ : Z := 1.
Definition CAP_WRITE : Z := 2.
Definition CAP_EXECUTE : Z := 4.

(** ** Options *)

Record OpenOptions := mkOpts {
  o_read : bool; o_write : bool; o_execute : bool; o_append : bool;
  o_truncate : bool; o_create : bool; o_create_new : bool; o_directory : bool;
  o_custom_flags : Z; o_mode : Z;
}.

Definition OpenOptions_new : OpenOptions :=
  mkOpts false false false false false false false false 0 438.

Definition set_create (create create_new : bool) (o : OpenOptions) : OpenOptions :=
  mkOpts (o_read o) (o_write o) (o_execute o) (o_append o) (o_truncate o) create create_new
    (o_directory o) (o_custom_flags o) (o_mode o).
Definition set_read (read : bool) (o : OpenOptions) : OpenOptions :=
  mkOpts read (o_write o) (o_execute o) (o_append o) (o_truncate o) (o_create o) (o_create_new o)
    (o_directory o) (o_custom_flags o) (o_mode o).
Definition set_write (write : bool) (o : OpenOptions) : OpenOptions :=
  mkOpts (o_read o) write (o_execute o) (o_append o) (o_truncate o) (o_create o) (o_create_new o)
    (o_directory o) (o_custom_flags o) (o_mode o).

Definition is_valid (o : OpenOptions) : bool :=
  if negb (o_read o) && negb (o_write o) && negb (o_append o) && negb (o_directory o) then false
  else match o_write o, o_append o with
       | true, false => true
       | false, false => negb (o_truncate o || o_create o || o_create_new o)
       | _, true => negb (o_truncate o && negb (o_create_new o))
       end.

(** [impl From<&OpenOptions> for Cap]. *)
Definition opts_cap (o : OpenOptions) : Z :=
  let cap := 0 in
  let cap := if o_read o then Z.lor cap CAP_READ else cap in
  let cap := if o_write o || o_append o then Z.lor cap CAP_WRITE else cap in
  if o_execute o then Z.lor cap CAP_EXECUTE else cap.

(** [flags_to_options]: the two access bits, then one option per flag. *)
Definition flags_to_options (flags mode : Z) : OpenOptions :=
  let flags := as_u32 flags in
  let acc := Z.land flags 3 in
  {| o_read := negb (acc =? O_WRONLY);
     o_write := negb (acc =? O_RDONLY);
     o_execute := negb (Z.land flags O_PATH =? 0);
     o_append := negb (Z.land flags O_APPEND =? 0);
     o_truncate := negb (Z.land flags O_TRUNC =? 0);
     o_create := negb (Z.land flags O_CREAT =? 0);
     o_create_new := false;
     o_directory := negb (Z.land flags O_DIRECTORY =? 0);
     o_custom_flags := 0;
     o_mode := 438 |}.

(** The flags [is_valid] turns away: creating or truncating without write
    access, and truncating in append mode. *)
Definition refused_flags (flags : Z) : bool :=
  let has f := negb (Z.land (as_u32 flags) f =? 0) in
  if has O_APPEND then has O_TRUNC
  else (Z.land (as_u32 flags) 3 =? O_RDONLY) && (has O_CREAT || has O_TRUNC).

Lemma is_valid_flags flags mode : is_valid (flags_to_options flags mode) = negb (refused_flags flags).
Proof.
  unfold is_valid, refused_flags, flags_to_options, O_RDONLY, O_WRONLY; simpl.
  destruct (Z.eqb_spec (Z.land (as_u32 flags) 3) 0) as [->|]; simpl;
    destruct (Z.land (as_u32 flags) O_APPEND =? 0), (Z.land (as_u32 flags) O_TRUNC =? 0),
      (Z.land (as_u32 flags) O_CREAT =? 0), (Z.land (as_u32 flags) 3 =? 1),
      (Z.land (as_u32 flags) O_DIRECTORY =? 0); done.
Qed.

(** What the rights of a set of options contain. *)
Lemma opts_cap_contains o :
  contains (opts_cap o) CAP_READ = o_read o ∧
  contains (opts_cap o) CAP_WRITE = (o_write o || o_append o) ∧
  contains (opts_cap o) CAP_EXECUTE = o_execute o.
Proof. unfold opts_cap. by destruct (o_read o), (o_write o), (o_append o), (o_execute o). Qed.

(** [axio::SeekFrom]. *)
Inductive SeekFrom : Type := SeekStart (pos : Z) | SeekEnd (off : Z) | SeekCurrent (off : Z).

(** [u64::checked_add_signed]. *)
Definition checked_add_signed (a b : Z) : option Z :=
  if decide (0 ≤ a + b < 2 ^ 64) then Some (a + b) else None.

Section fops.
Context {D FS N A : Type} `{V : !AxfsVfs D FS N A}.

Definition perm_to_cap (attr : A) : Z :=
  let cap := 0 in
  let cap := if owner_readable attr then Z.lor cap CAP_READ else cap in
  let cap := if owner_writable attr then Z.lor cap CAP_WRITE else cap in
  if owner_executable attr then Z.lor cap CAP_EXECUTE else cap.

(** ** Files *)

Record File := mkFile { f_node : N; f_cap : Z; f_append : bool; f_offset : Z }.

(** [File::_open_at]. *)
Definition File_open_at (dir : option (VfsNodeRef N)) (path : str) (opts : OpenOptions) :
    st (Vfs D FS N) AxError File :=
  if negb (is_valid opts) then st_err InvalidInput else
  v ← st_get;
  node ← (if o_create opts || o_create_new opts then
            match lookup dir path v with
            | Ok node => if o_create_new opts then st_err AlreadyExists else mret node
            | Err NotFound => create_file dir path
            | Err e => st_err e
            | Panic => st_panic
            end
          else st_lift (lookup dir path v));
  attr ← reading (ref_get_attr (FsNode node));
  if attr_is_dir attr then st_err IsADirectory else
  let access_cap := opts_cap opts in
  if negb (contains (perm_to_cap attr) access_cap) then st_err PermissionDenied else
  on_disk (node_open node);;
  (if o_truncate opts then on_disk (node_truncate node 0) else mret ());;
  mret (mkFile node access_cap (o_append opts) 0).

Definition File_open (path : str) (opts : OpenOptions) : st (Vfs D FS N) AxError File :=
  File_open_at None path opts.

(** [access_node]. *)
Definition File_access (f : File) (cap : Z) : AxResult N :=
  if contains (f_cap f) cap then Ok (f_node f) else Err PermissionDenied.

Definition File_get_attr (f : File) (d : D) : AxResult A :=
  node ← File_access f 0; node_get_attr node d.

Definition set_offset (o : Z) (f : File) : File := mkFile (f_node f) (f_cap f) (f_append f) o.

(** The methods run on the file object and the disk. *)
Definition fst_disk {T} (m : st D AxError T) : st (File * D) AxError T :=
  st_zoom snd (λ d s, (s.1, d)) m.

Definition File_truncate (f : File) (size : Z) : st D AxError () :=
  node ← st_lift (File_access f CAP_WRITE);
  node_truncate node size;;
  mret ().

Definition File_read (len : nat) : st (File * D) AxError (list Z) :=
  s ← st_get;
  node ← st_lift (File_access s.1 CAP_READ);
  buf ← fst_disk (node_read_at node (f_offset s.1) len);
  st_mod (λ s, (set_offset (as_u64 (f_offset s.1 + Z.of_nat (length buf))) s.1, s.2));;
  mret buf.

Definition File_read_at (f : File) (offset : Z) (len : nat) : st D AxError (list Z) :=
  node ← st_lift (File_access f CAP_READ);
  node_read_at node offset len.

Definition File_write (buf : list Z) : st (File * D) AxError Z :=
  s ← st_get;
  offset ← st_lift (if f_append s.1
                    then attr ← File_get_attr s.1 s.2; Ok (attr_size attr)
                    else Ok (f_offset s.1));
  node ← st_lift (File_access s.1 CAP_WRITE);
  write_len ← fst_disk (node_write_at node offset buf);
  st_mod (λ s, (set_offset (as_u64 (offset + write_len)) s.1, s.2));;
  mret write_len.

Definition File_write_at (f : File) (offset : Z) (buf : list Z) : st D AxError Z :=
  node ← st_lift (File_access f CAP_WRITE);
  node_write_at node offset buf.

Definition File_flush (f : File) : st D AxError () :=
  node ← st_lift (File_access f CAP_WRITE);
  node_fsync node;;
  mret ().

Definition File_seek (pos : SeekFrom) : st (File * D) AxError Z :=
  s ← st_get;
  attr ← st_lift (File_get_attr s.1 s.2);
  let size := attr_size attr in
  new_offset ← st_lift (ok_or match pos with
                              | SeekStart pos => Some pos
                              | SeekCurrent off => checked_add_signed (f_offset s.1) off
                              | SeekEnd off => checked_add_signed size off
                              end InvalidInput);
  st_mod (λ s, (set_offset new_offset s.1, s.2));;
  mret new_offset.

(** [Drop]: the node is released and the outcome ignored. *)
Definition File_drop (f : File) (d : D) : D := (node_release (f_node f) d).2.

(** ** Directories *)

Record Directory := mkDirectory { d_node : N; d_cap : Z; d_entry_idx : Z }.

Definition Directory_access (d : Directory) (cap : Z) : AxResult N :=
  if contains (d_cap d) cap then Ok (d_node d) else Err PermissionDenied.

(** [Directory::_open_dir_at]: the directory keeps every right its
    permissions give, not only the ones asked for. *)
Definition Directory_open_dir_at_ref (dir : option (VfsNodeRef N)) (path : str)
    (opts : OpenOptions) : st (Vfs D FS N) AxError Directory :=
  if negb (o_read opts) then st_err InvalidInput else
  if o_create opts || o_create_new opts || o_write opts || o_append opts || o_truncate opts
  then st_err InvalidInput else
  node ← reading (lookup dir path);
  attr ← reading (ref_get_attr (FsNode node));
  if negb (attr_is_dir attr) then st_err NotADirectory else
  let access_cap := opts_cap opts in
  let cap := perm_to_cap attr in
  if negb (contains cap access_cap) then st_err PermissionDenied else
  on_disk (node_open node);;
  mret (mkDirectory node cap 0).

Definition access_at (d : Directory) (path : str) : AxResult (option (VfsNodeRef N)) :=
  if starts_with path $"/" then Ok None
  else node ← Directory_access d CAP_EXECUTE; Ok (Some (FsNode node)).

Definition Directory_open_dir (path : str) (opts : OpenOptions) :
    st (Vfs D FS N) AxError Directory :=
  Directory_open_dir_at_ref None path opts.
Definition Directory_open_dir_at (d : Directory) (path : str) (opts : OpenOptions) :
    st (Vfs D FS N) AxError Directory :=
  r ← st_lift (access_at d path); Directory_open_dir_at_ref r path opts.
Definition Directory_open_file_at (d : Directory) (path : str) (opts : OpenOptions) :
    st (Vfs D FS N) AxError File :=
  r ← st_lift (access_at d path); File_open_at r path opts.
Definition Directory_create_file (d : Directory) (path : str) : st (Vfs D FS N) AxError N :=
  r ← st_lift (access_at d path); create_file r path.
Definition Directory_create_dir (d : Directory) (path : str) : st (Vfs D FS N) AxError () :=
  r ← st_lift (access_at d path); create_dir r path.
Definition Directory_remove_file (d : Directory) (path : str) : st (Vfs D FS N) AxError () :=
  r ← st_lift (access_at d path); remove_file r path.
Definition Directory_remove_dir (d : Directory) (path : str) : st (Vfs D FS N) AxError () :=
  r ← st_lift (access_at d path); remove_dir r path.
Definition Directory_rename (d : Directory) (old new : str) : st (Vfs D FS N) AxError () :=
  rename old new.

(** [read_dir] into a buffer of [k] entries. *)
Definition Directory_read_dir (k : nat) (d : Directory) (disk : D) :
    AxResult (list DirEntry * Directory) :=
  node ← Directory_access d CAP_READ;
  es ← node_read_dir node (d_entry_idx d) k disk;
  Ok (es, mkDirectory (d_node d) (d_cap d) (as_usize (d_entry_idx d + Z.of_nat (length es)))).

Definition Directory_drop (f : Directory) (d : D) : D := (node_release (d_node f) d).2.

(** ** Opening *)

(** [open] turns away exactly the flag combinations of [refused_flags],
    before it looks at the path. Among them is reading with [O_CREAT], which
    POSIX allows. *)
Theorem open_refuses_flags (flags mode : Z) (dir : option (VfsNodeRef N)) (path : str)
    (v : Vfs D FS N) :
  is_valid (flags_to_options flags mode) = negb (refused_flags flags) ∧
  (refused_flags flags = true →
     File_open_at dir path (flags_to_options flags mode) v = (Err InvalidInput, v)).
Proof.
  pose proof (is_valid_flags flags mode) as Hv. split; [done|].
  intros Hr. unfold File_open_at. by rewrite Hv, Hr.
Qed.

(** The node an open works on: found, or created because it was not there. *)
Definition open_node (dir : option (VfsNodeRef N)) (path : str) (opts : OpenOptions)
    (v : Vfs D FS N) : AxResult N * Vfs D FS N :=
  if o_create opts || o_create_new opts then
    match lookup dir path v with
    | Ok node => if o_create_new opts then (Err AlreadyExists, v) else (Ok node, v)
    | Err NotFound => create_file dir path v
    | Err e => (Err e, v)
    | Panic => (Panic, v)
    end
  else (lookup dir path v, v).

Lemma File_open_at_Ok dir path opts v f v' :
  File_open_at dir path opts v = (Ok f, v') →
  is_valid opts = true ∧
  ∃ v1 attr, open_node dir path opts v = (Ok (f_node f), v1) ∧
    node_get_attr (f_node f) (disk v1) = Ok attr ∧ attr_is_dir attr = false ∧
    contains (perm_to_cap attr) (opts_cap opts) = true ∧
    f = mkFile (f_node f) (opts_cap opts) (o_append opts) 0.
Proof.
  unfold File_open_at. destruct (is_valid opts); [|done]. simpl. monad.
  intros Ho. split; [done|].
  assert (∀ r, r = open_node dir path opts v → (match r with
      | (Ok n, v1) => ∃ attr, node_get_attr n (disk v1) = Ok attr ∧ attr_is_dir attr = false ∧
          contains (perm_to_cap attr) (opts_cap opts) = true ∧
          f = mkFile n (opts_cap opts) (o_append opts) 0
      | _ => False end)) as Hr.
  { intros r ->. revert Ho. unfold open_node, reading.
    match goal with |- context [if o_create opts || o_create_new opts then ?a else ?b] =>
      assert ((if o_create opts || o_create_new opts then a else b) v = open_node dir path opts v) as ->
        by (unfold open_node; repeat case_match; done) end.
    fold (open_node dir path opts v).
    destruct (open_node dir path opts v) as [[n|e|] v1]; [|done..]. simpl.
    destruct (node_get_attr n (disk v1)) as [attr|e|] eqn:Ha; [|done..].
    destruct (attr_is_dir attr) eqn:Hd; [done|].
    destruct (contains (perm_to_cap attr) (opts_cap opts)) eqn:Hc; [|done]. simpl.
    intros Ho. exists attr. split_and!; [done..|].
    unfold on_disk in Ho. repeat case_match; by simplify_eq. }
  specialize (Hr _ eq_refl). destruct (open_node dir path opts v) as [[n|e|] v1]; [|done..].
  destruct Hr as (attr & Ha & Hd & Hc & ->). by exists v1, attr.
Qed.


(** ** Rights *)

(** A write without the right fails before the disk is reached, once the
    offset of an append is known. *)
Lemma File_write_denied f d buf :
  contains (f_cap f) CAP_WRITE = false → f_append f = false →
  File_write buf (f, d) = (Err PermissionDenied, (f, d)).
Proof. intros Hc Ha. unfold File_write, File_access. monad. by rewrite Ha, Hc. Qed.

(** a file opened read-only cannot change the disk or its own cursor
    through any of the writing methods, and a file opened write-only gives no
    bytes out; both are refused with [PermissionDenied]. *)
Theorem open_mode_is_enforced (dir : option (VfsNodeRef N)) (path : str) (flags mode : Z)
    (v v' : Vfs D FS N) (f : File) (d : D) (buf : list Z) (off : Z) (len : nat) :
  File_open_at dir path (flags_to_options flags mode) v = (Ok f, v') →
  (Z.land (as_u32 flags) 3 = O_RDONLY → Z.land (as_u32 flags) O_APPEND = 0 →
     File_write buf (f, d) = (Err PermissionDenied, (f, d)) ∧
     File_write_at f off buf d = (Err PermissionDenied, d) ∧
     File_truncate f off d = (Err PermissionDenied, d) ∧
     File_flush f d = (Err PermissionDenied, d)) ∧
  (Z.land (as_u32 flags) 3 = O_WRONLY →
     File_read len (f, d) = (Err PermissionDenied, (f, d)) ∧
     File_read_at f off len d = (Err PermissionDenied, d)).
Proof.
  intros (_ & v1 & attr & _ & _ & _ & _ & Hf)%File_open_at_Ok. rewrite Hf.
  destruct (opts_cap_contains (flags_to_options flags mode)) as (Hr & Hw & _). split.
  - intros Hacc Happ.
    assert (contains (opts_cap (flags_to_options flags mode)) CAP_WRITE = false) as Hc.
    { rewrite Hw. unfold flags_to_options; simpl. by rewrite Hacc, Happ. }
    assert (o_append (flags_to_options flags mode) = false) as Ha
      by (unfold flags_to_options; simpl; by rewrite Happ).
    split; [by apply File_write_denied|].
    unfold File_write_at, File_truncate, File_flush, File_access. monad. by rewrite Hc.
  - intros Hacc.
    assert (contains (opts_cap (flags_to_options flags mode)) CAP_READ = false) as Hc.
    { rewrite Hr. unfold flags_to_options; simpl. by rewrite Hacc. }
    unfold File_read, File_read_at, File_access. monad. by rewrite Hc.
Qed.

(** ** The cursor *)

(** What a regular file promises: [size] is the number of bytes, reading
    gives bytes from the offset on, writing replaces bytes or extends the
    file. *)
Definition regular (n : N) (contents : D → option (list Z)) : Prop :=
  (∀ d bs, contents d = Some bs → ∃ a, node_get_attr n d = Ok a ∧ attr_size a = Z.of_nat (length bs)) ∧
  (∀ d bs off len, contents d = Some bs → 0 ≤ off →
     node_read_at n off len d = (Ok (take len (drop (Z.to_nat off) bs)), d)) ∧
  (∀ d bs off data, contents d = Some bs → 0 ≤ off ≤ Z.of_nat (length bs) →
     ∃ d', node_write_at n off data d = (Ok (Z.of_nat (length data)), d') ∧
       contents d' = Some (take (Z.to_nat off) bs ++ data ++ drop (Z.to_nat off + length data) bs)).

(** a write in append mode adds its bytes at the end of the file, wherever
    the cursor was, and leaves the cursor after them; bytes written by
    somebody else in between are kept. Without append mode it overwrites
    from the cursor on. *)
Theorem write_follows_cursor (f : File) (contents : D → option (list Z)) (d : D)
    (bs data : list Z) :
  regular (f_node f) contents → contents d = Some bs →
  contains (f_cap f) CAP_WRITE = true → Z.of_nat (length bs + length data) < 2 ^ 64 →
  0 ≤ f_offset f ≤ Z.of_nat (length bs) →
  let at_ := if f_append f then length bs else Z.to_nat (f_offset f) in
  ∃ d', File_write data (f, d) =
      (Ok (Z.of_nat (length data)), (set_offset (Z.of_nat (at_ + length data)) f, d')) ∧
    contents d' = Some (take at_ bs ++ data ++ drop (at_ + length data) bs).
Proof.
  intros (Hsz & _ & Hwr) Hbs Hcap Hlen Hoff.
  assert (contains (f_cap f) 0 = true) as H0 by (unfold contains; by rewrite Z.land_0_r).
  assert (∀ o, 0 ≤ o ≤ Z.of_nat (length bs) →
    (o = if f_append f then Z.of_nat (length bs) else f_offset f) →
    ∃ d', File_write data (f, d) =
        (Ok (Z.of_nat (length data)), (set_offset (o + Z.of_nat (length data)) f, d')) ∧
      contents d' = Some (take (Z.to_nat o) bs ++ data ++ drop (Z.to_nat o + length data) bs)) as Hgo.
  { intros o Ho Heq. destruct (Hwr d bs o data Hbs Ho) as (d' & Hw & Hd').
    exists d'. split; [|done]. unfold File_write, fst_disk, st_zoom, File_get_attr, File_access.
    monad. rewrite H0, Hcap. destruct (Hsz d bs Hbs) as (a & Ha & Has).
    assert ((if f_append f then
               match node_get_attr (f_node f) d with Ok a => Ok (attr_size a) | Err e => Err e | Panic => Panic end
             else Ok (f_offset f)) = Ok (E := AxError) o) as ->.
    { rewrite Ha, Has, Heq. by destruct (f_append f). }
    rewrite Hw. simpl. unfold wrapu. rewrite Z.mod_small by lia. done. }
  destruct (f_append f).
  - destruct (Hgo (Z.of_nat (length bs))) as (d' & Hw & Hd'); [lia|done|].
    exists d'. rewrite Nat2Z.inj_add. by rewrite Nat2Z.id in Hd'.
  - destruct (Hgo (f_offset f)) as (d' & Hw & Hd'); [lia|done|].
    exists d'. rewrite Nat2Z.inj_add, Z2Nat.id by lia. done.
Qed.

(** [seek] moves the cursor to the exact sum of base and offset when that
    is a [u64], and otherwise fails and leaves the cursor where it was. *)
Theorem seek_spec (pos : SeekFrom) (f : File) (d : D) (a : A) :
  node_get_attr (f_node f) d = Ok a →
  let target := match pos with
                | SeekStart p => p
                | SeekCurrent o => f_offset f + o
                | SeekEnd o => attr_size a + o
                end in
  in_u 64 (match pos with SeekStart p => p | _ => 0 end) →
  File_seek pos (f, d) =
    if decide (0 ≤ target < 2 ^ 64) then (Ok target, (set_offset target f, d))
    else (Err InvalidInput, (f, d)).
Proof.
  intros Ha target Hp. subst target.
  assert (contains (f_cap f) 0 = true) as H0 by (unfold contains; by rewrite Z.land_0_r).
  unfold File_seek, File_get_attr, File_access. monad. rewrite H0, Ha. simpl.
  destruct pos; unfold checked_add_signed; simpl; repeat case_decide; done.
Qed.

End fops.
Arguments File : clear implicits.
Arguments Directory : clear implicits.

(** ** Witnesses *)

Lemma open_refuses_flags_witness :
  File_open_at None $"/a" (flags_to_options (Z.lor O_RDONLY O_CREAT) 0) mem_boot_a
    = (Err InvalidInput, mem_boot_a).
Proof.
  apply (open_refuses_flags (Z.lor O_RDONLY O_CREAT) 0 None $"/a" mem_boot_a).
  vm_compute. reflexivity.
Defined.

Definition mem_opened (flags : Z) : File (Z * str) :=
  mkFile (0, $"a") (opts_cap (flags_to_options flags 0)) (o_append (flags_to_options flags 0)) 0.


Lemma open_mode_is_enforced_witness :
  File_write [1] (mem_opened O_RDONLY, disk mem_boot_a)
    = (Err PermissionDenied, (mem_opened O_RDONLY, disk mem_boot_a)).
Proof.
  apply (open_mode_is_enforced None $"/a" O_RDONLY 0 mem_boot_a mem_boot_a (mem_opened O_RDONLY)
    (disk mem_boot_a) [1] 0 0); vm_compute; reflexivity.
Defined.

(** The in-memory files are regular. *)
Lemma mem_regular (n : Z * str) :
  n.2 ≠ [] → regular n (λ d : mem_disk, snd <$> mem_find d n).
Proof.
  intros Hn. split_and!.
  - intros d bs Hd. simpl. unfold mem_get_attr. rewrite decide_False by done.
    destruct (mem_find d n) as [[ty bs']|]; simplify_eq/=. by eexists.
  - intros d bs off len Hd Ho. simpl. unfold mem_read_at.
    by destruct (mem_find d n) as [[ty bs']|]; simplify_eq/=.
  - intros d bs off data Hd Ho. simpl. unfold mem_write_at.
    destruct (mem_find d n) as [[ty bs']|]; simplify_eq/=. eexists. split; [done|].
    unfold mem_insert; cbn [mem_find]. rewrite decide_True by done. simpl.
    by replace (Z.to_nat off - length bs)%nat with 0%nat by lia.
Qed.

Lemma write_follows_cursor_witness :
  (File_write [33] (mem_opened (Z.lor O_WRONLY O_APPEND), disk mem_boot_a)).1 = Ok 1 ∧
  ∃ d', (File_write [33] (mem_opened (Z.lor O_WRONLY O_APPEND), disk mem_boot_a)).2.2 = d' ∧
    snd <$> mem_find d' (0, $"a") = Some [104; 105; 33].
Proof.
  destruct (write_follows_cursor (mem_opened (Z.lor O_WRONLY O_APPEND))
    (λ d, snd <$> mem_find d (0, $"a")) (disk mem_boot_a) [104; 105] [33]) as (d' & Hw & Hd').
  - by apply mem_regular.
  - vm_compute. reflexivity.
  - vm_compute. reflexivity.
  - vm_compute. reflexivity.
  - vm_compute. split; discriminate.
  - rewrite Hw. split; [reflexivity|]. exists d'. by rewrite Hd'.
Defined.

Lemma seek_spec_witness :
  File_seek (SeekEnd (-2)) (mem_opened O_RDONLY, disk mem_boot_a)
    = (Ok 0, (mem_opened O_RDONLY, disk mem_boot_a)).
Proof.
  rewrite (seek_spec (SeekEnd (-2)) (mem_opened O_RDONLY) (disk mem_boot_a) (NodeFile, [104; 105])).
  - vm_compute. reflexivity.
  - vm_compute. reflexivity.
  - split; [lia|reflexivity].
Defined.
