(* ===== verification/FileApi.v ===== *)
(** * The file API of ArceOS ([src/.arceos/modules/axfs/src/api/])

    The functions in the style of [std::fs] the kernel loads programs with:
    opening, reading whole files, metadata, and the iterator over the entries
    of a directory with its buffer of 31 entries. [default_read_to_end] is in
    the crate [axio]; the class [ReadToEnd] states what it does. *)

From S2P Require Import Prelude Abi Str Vfs Fops.

#[local] Open Scope Z_scope.

(** A reader in state [s] that has [rest] left: a read gives some of the next
    bytes, at least one if there is one and room for it. *)
Definition reads {S} (read : nat → st S AxError (list Z)) (I : S → list Z → Prop) : Prop :=
  ∀ s rest n, I s rest → ∃ k s', read n s = (Ok (take k rest), s') ∧ I s' (drop k rest) ∧
    (k ≤ n)%nat ∧ ((0 < n)%nat → rest ≠ [] → (0 < k)%nat).

(** [axio::default_read_to_end] appends what is left to a vector, which holds
    less than [2^63] bytes; the result is the bytes appended. *)
Class ReadToEnd := {
  default_read_to_end : ∀ {S}, (nat → st S AxError (list Z)) → option Z → st S AxError (list Z);
  read_to_end_all {S} (read : nat → st S AxError (list Z)) (I : S → list Z → Prop) s rest hint :
    reads read I → I s rest → Z.of_nat (length rest) < 2 ^ 63 →
    ∃ s', default_read_to_end read hint s = (Ok rest, s') ∧ I s' [];
}.

(** The setters of the options ([OpenOptions::append] and the others). *)
Definition opt_append (b : bool) (o : OpenOptions) : OpenOptions :=
  mkOpts (o_read o) (o_write o) (o_execute o) b (o_truncate o) (o_create o) (o_create_new o)
    (o_directory o) (o_custom_flags o) (o_mode o).
Definition opt_truncate (b : bool) (o : OpenOptions) : OpenOptions :=
  mkOpts (o_read o) (o_write o) (o_execute o) (o_append o) b (o_create o) (o_create_new o)
    (o_directory o) (o_custom_flags o) (o_mode o).
Definition opt_create (b : bool) (o : OpenOptions) : OpenOptions := set_create b (o_create_new o) o.
Definition opt_create_new (b : bool) (o : OpenOptions) : OpenOptions := set_create (o_create o) b o.

Section fileapi.
Context {D FS N A : Type} `{V : !AxfsVfs D FS N A} `{RE : !ReadToEnd}.
Abbreviation Vfs := (Vfs D FS N).
Abbreviation Vst := (st Vfs AxError).

(** ** Files *)

Definition api_open (path : str) : Vst (File N) := File_open path (set_read true OpenOptions_new).
Definition api_create (path : str) : Vst (File N) :=
  File_open path (opt_truncate true (opt_create true (set_write true OpenOptions_new))).
Definition api_create_new (path : str) : Vst (File N) :=
  File_open path (opt_create_new true (set_write true (set_read true OpenOptions_new))).

(** [File::read_to_end], the size as a hint. *)
Definition api_read_to_end : st (File N * D) AxError (list Z) := λ s,
  default_read_to_end File_read (attr_size <$> res_ok (File_get_attr s.1 s.2)) s.

(** [read]: the vector is made with the size the file has; the file is closed
    when the function returns. *)
Definition api_read (path : str) : Vst (list Z) :=
  f ← api_open path;
  v ← st_get;
  let size := match File_get_attr f (disk v) with Ok a => attr_size a | _ => 0 end in
  if 2 ^ 63 <=? as_usize size then st_panic else
  λ v, let '(r, (f', d)) := api_read_to_end (f, disk v) in (r, set_disk (File_drop f' d) v).

Definition api_metadata (path : str) : Vst A :=
  n ← reading (lookup None path); reading (ref_get_attr (FsNode n)).
Definition absolute_path_exists (path : str) (v : Vfs) : bool := is_ok (lookup None path v).

(** ** Directories *)

Record ReadDir := mkReadDir {
  rd_path : str; rd_inner : Directory N; buf_pos : nat; buf_end : nat; end_of_stream : bool;
  dirent_buf : list DirEntry;
}.
Record ApiEntry := mkApiEntry { dir_path : str; api_entry : DirEntry }.

(** The entry the buffer is filled with at first. *)
Variable EMPTY : DirEntry.

Definition ReadDir_new (path : str) : Vst ReadDir :=
  inner ← Directory_open_dir path (set_read true OpenOptions_new);
  mret (mkReadDir path inner 0 0 false (replicate 31 EMPTY)).

Abbreviation Item := (option (AxResult ApiEntry)).

(** The next entries into the buffer, or what [next] returns instead. *)
Definition refill (d : D) (r : ReadDir) : ReadDir + (res Empty_set Item * ReadDir) :=
  let ended inner := mkReadDir (rd_path r) inner (buf_pos r) (buf_end r) true (dirent_buf r) in
  match Directory_read_dir 31 (rd_inner r) d with
  | Ok ([], inner) => inr (Ok None, ended inner)
  | Ok (es, inner) =>
      inl (mkReadDir (rd_path r) inner 0 (length es) (end_of_stream r)
             (es ++ drop (length es) (dirent_buf r)))
  | Err e => inr (Ok (Some (Err e)), ended (rd_inner r))
  | Panic => inr (Panic, r)
  end.

Definition is_dots (name : list Z) : bool := bool_decide (name = [46]) || bool_decide (name = [46; 46]).

(** The loop of [next]; every turn takes an entry of the directory. *)
Fixpoint next_loop (fuel : nat) (d : D) (r : ReadDir) : res Empty_set Item * ReadDir :=
  match fuel with
  | O => (Panic, r)
  | S fuel' =>
      match (if (buf_end r <=? buf_pos r)%nat then refill d r else inl r) with
      | inr out => out
      | inl r =>
          match dirent_buf r !! buf_pos r with
          | None => (Panic, r)
          | Some e =>
              let r' := mkReadDir (rd_path r) (rd_inner r) (S (buf_pos r)) (buf_end r)
                          (end_of_stream r) (dirent_buf r) in
              if is_dots (name_as_bytes e) then next_loop fuel' d r'
              else (Ok (Some (Ok (mkApiEntry (rd_path r') e))), r')
          end
      end
  end.
Definition next (fuel : nat) (d : D) (r : ReadDir) : res Empty_set Item * ReadDir :=
  if end_of_stream r then (Ok None, r) else next_loop fuel d r.

(** [DirEntry::path]. *)
Definition to_str (bs : list Z) : str := (λ z, ascii_of_N (Z.to_N z)) <$> bs.
Definition entry_path (e : ApiEntry) : str :=
  trim_end_matches is_slash (dir_path e) ++ $"/" ++ to_str (name_as_bytes (api_entry e)).

(** [DirBuilder::create]. *)
Definition DirBuilder_create (recursive : bool) (path : str) : Vst () :=
  if recursive then st_err Unsupported else create_dir None path.

(** Every item up to the end or an error, as a [for] loop takes them. *)
Fixpoint items (k fuel : nat) (d : D) (r : ReadDir) : list ApiEntry * ReadDir :=
  match k with
  | O => ([], r)
  | S k' =>
      match next fuel d r with
      | (Ok (Some (Ok e)), r') => let '(es, r'') := items k' fuel d r' in (e :: es, r'')
      | (_, r') => ([], r')
      end
  end.

(** ** What the iterator gives *)

(** The directory lists [ents], and nothing changes it meanwhile. *)
Record rd_ok (ents : list DirEntry) (d : D) (r : ReadDir) : Prop := {
  rd_cap : contains (d_cap (rd_inner r)) CAP_READ = true;
  rd_lists i k : 0 ≤ i → node_read_dir (d_node (rd_inner r)) i k d = Ok (take k (drop (Z.to_nat i) ents));
  rd_idx : 0 ≤ d_entry_idx (rd_inner r) ≤ Z.of_nat (length ents) ∧ Z.of_nat (length ents) < 2 ^ 64;
  rd_buf : (buf_end r ≤ length (dirent_buf r))%nat;
}.
(** The entries still to come: those in the buffer and the rest. *)
Definition pending (ents : list DirEntry) (r : ReadDir) : list DirEntry :=
  take (buf_end r - buf_pos r) (drop (buf_pos r) (dirent_buf r)) ++
  drop (Z.to_nat (d_entry_idx (rd_inner r))) ents.
Definition visible (es : list DirEntry) : list DirEntry :=
  filter (λ e, is_dots (name_as_bytes e) = false) es.

Lemma refill_spec ents d r :
  rd_ok ents d r → (buf_end r ≤ buf_pos r)%nat →
  match pending ents r with
  | [] => ∃ r', refill d r = inr (Ok None, r') ∧ end_of_stream r' = true
  | _ => ∃ r', refill d r = inl r' ∧ rd_ok ents d r' ∧ pending ents r' = pending ents r ∧
      (buf_pos r' < buf_end r')%nat ∧ end_of_stream r' = end_of_stream r ∧ rd_path r' = rd_path r
  end.
Proof.
  intros [Hc Hl Hi Hb] He. unfold pending. replace (buf_end r - buf_pos r)%nat with 0%nat by lia.
  rewrite take_0. cbn [app]. unfold refill, Directory_read_dir, Directory_access. rewrite Hc. monad.
  set (i := d_entry_idx (rd_inner r)) in *. rewrite Hl by lia.
  set (rest := drop (Z.to_nat i) ents).
  assert (length rest = length ents - Z.to_nat i)%nat as Hlen by apply length_drop.
  destruct rest as [|e rest'] eqn:Hr; [simpl; eauto|]. rewrite <-Hr in *.
  assert (length (take 31 rest) = 31 `min` length rest)%nat as Ht by apply length_take.
  destruct (take 31 rest) as [|e' es] eqn:Hes; [rewrite Hr in Hes; done|]. rewrite <-Hes in *.
  eexists. split; [reflexivity|]. rewrite wrapu_id by (unfold in_u; lia).
  assert (Z.to_nat (i + Z.of_nat (length (take 31 rest))) = Z.to_nat i + length (take 31 rest))%nat as Hz by lia.
  assert (0 < length (take 31 rest))%nat by (rewrite Hes; simpl; lia).
  split_and!; [| |simpl; lia|done|done].
  - split; simpl; [done|done| |rewrite length_app; lia]. lia.
  - unfold pending; simpl. rewrite Hz, drop_0, Nat.sub_0_r, take_app_length, <-drop_drop.
    fold rest. rewrite Ht. destruct (Nat.min_spec 31 (length rest)) as [[? ->]|[? ->]].
    + apply take_drop.
    + rewrite take_ge by lia. rewrite drop_all. apply app_nil_r.
Qed.

Lemma next_loop_spec ents d fuel r :
  rd_ok ents d r → end_of_stream r = false → (length (pending ents r) < fuel)%nat →
  match visible (pending ents r) with
  | [] => ∃ r', next_loop fuel d r = (Ok None, r') ∧ end_of_stream r' = true
  | e :: rest => ∃ r', next_loop fuel d r = (Ok (Some (Ok (mkApiEntry (rd_path r) e))), r') ∧
      rd_ok ents d r' ∧ end_of_stream r' = false ∧ rd_path r' = rd_path r ∧
      visible (pending ents r') = rest ∧ (length (pending ents r') < length (pending ents r))%nat
  end.
Proof.
  revert r. induction fuel as [|fuel IH]; intros r Hok Heos Hf; [lia|]. cbn [next_loop].
  assert (∀ r1, rd_ok ents d r1 → pending ents r1 = pending ents r → (buf_pos r1 < buf_end r1)%nat →
    end_of_stream r1 = false → rd_path r1 = rd_path r →
    ∃ e es r2, dirent_buf r1 !! buf_pos r1 = Some e ∧ pending ents r = e :: es ∧
      r2 = mkReadDir (rd_path r1) (rd_inner r1) (S (buf_pos r1)) (buf_end r1) (end_of_stream r1) (dirent_buf r1) ∧
      rd_ok ents d r2 ∧ pending ents r2 = es) as Hstep.
  { intros r1 [Hc Hl Hi Hb] Hp Hlt _ _. destruct (lookup_lt_is_Some_2 (dirent_buf r1) (buf_pos r1)) as [e He]; [lia|].
    eexists e, _, _. split_and!; [done| |done|by split|done]. rewrite <-Hp. unfold pending; simpl.
    rewrite (drop_S _ e) by done. replace (buf_end r1 - buf_pos r1)%nat with (S (buf_end r1 - S (buf_pos r1))) by lia.
    done. }
  assert (pending ents r ≠ [] → ∃ r1, (if (buf_end r <=? buf_pos r)%nat then refill d r else inl r) = inl r1 ∧
    rd_ok ents d r1 ∧ pending ents r1 = pending ents r ∧ (buf_pos r1 < buf_end r1)%nat ∧
    end_of_stream r1 = false ∧ rd_path r1 = rd_path r) as Hfill.
  { intros Hne. destruct (Nat.leb_spec (buf_end r) (buf_pos r)); [|by exists r].
    pose proof (refill_spec ents d r Hok) as Hr. destruct (pending ents r); [done|].
    destruct Hr as (r1 & ? & ? & ? & ? & ? & ?); [lia|]. exists r1. by rewrite <-Heos. }
  destruct (pending ents r) as [|e0 es0] eqn:Hp.
  - pose proof (refill_spec ents d r Hok) as Hr. rewrite Hp in Hr. simpl.
    destruct (Nat.leb_spec (buf_end r) (buf_pos r)).
    + by destruct Hr as (r1 & -> & ?); [lia|exists r1].
    + destruct (Hstep r) as (e & es & _ & _ & ? & _); done.
  - destruct Hfill as (r1 & -> & Hok1 & Hp1 & Hlt & He1 & Hpa); [done|].
    destruct (Hstep r1) as (e & es & r2 & Hb & He & -> & Hok2 & Hp2); [done..|]. rewrite Hb.
    injection He as <- <-. unfold visible; rewrite filter_cons. simpl in Hf.
    destruct (is_dots (name_as_bytes e0)) eqn:Hd.
    + rewrite decide_False by done. match goal with |- context [next_loop fuel d ?r2] => specialize (IH r2 Hok2) end.
      rewrite Hp2 in IH. specialize (IH He1 ltac:(lia)). unfold visible in IH. simpl.
      destruct (filter _ es0); [done|]. destruct IH as (r' & ? & ? & ? & Hpr & ? & ?).
      exists r'. simpl in Hpr. rewrite Hpa in *. split_and!; [done..|lia].
    + rewrite decide_True by done. eexists. split; [by rewrite <-Hpa|]. split_and!; [done..| |].
      * by rewrite Hp2.
      * rewrite Hp2. simpl. lia.
Qed.

(** the iterator over a directory gives every entry except [.] and [..]
    exactly once, in the order of the directory, and then nothing more,
    however the entries fall into its buffer. *)
Theorem read_dir_lists (ents : list DirEntry) (d : D) (r : ReadDir) (fuel k : nat) :
  rd_ok ents d r → end_of_stream r = false → (buf_end r ≤ buf_pos r)%nat →
  d_entry_idx (rd_inner r) = 0 → (length ents < fuel)%nat → (length ents < k)%nat →
  ∃ r', items k fuel d r = (mkApiEntry (rd_path r) <$> visible ents, r') ∧
    ∀ fuel', next fuel' d r' = (Ok None, r').
Proof.
  intros Hok Heos Hbuf Hidx Hf Hk.
  assert (pending ents r = ents) as Hp.
  { unfold pending. rewrite Hidx. by replace (buf_end r - buf_pos r)%nat with 0%nat by lia. }
  replace (visible ents) with (visible (pending ents r)) by (by rewrite Hp).
  assert (length (pending ents r) < fuel)%nat as Hf' by (by rewrite Hp).
  assert (length (pending ents r) < k)%nat as Hk' by (by rewrite Hp).
  clear Hbuf Hidx Hp Hf Hk. rename Hf' into Hf, Hk' into Hk. revert r Hok Heos Hf Hk. induction k as [|k IH]; intros r Hok Heos Hf Hk; [lia|].
  cbn [items]. unfold next. rewrite Heos. pose proof (next_loop_spec ents d fuel r Hok Heos Hf) as Hn.
  destruct (visible (pending ents r)) as [|e rest].
  - destruct Hn as (r' & -> & He). exists r'. split; [done|]. intros fuel'. by rewrite He.
  - destruct Hn as (r1 & -> & Hok1 & He1 & Hpa & Hv & Hl).
    destruct (IH r1) as (r' & Hi & Hend); [done|done|lia..|]. rewrite Hi, Hv, Hpa. eauto.
Qed.

(** ** Reading a whole file *)

Lemma File_read_reads n contents cap app bs :
  regular n contents → contains cap CAP_READ = true → Z.of_nat (length bs) < 2 ^ 64 →
  reads File_read (λ s rest, contents s.2 = Some bs ∧
    ∃ o, s.1 = mkFile n cap app o ∧ 0 ≤ o ≤ Z.of_nat (length bs) ∧ rest = drop (Z.to_nat o) bs).
Proof.
  intros (_ & Hrd & _) Hcap Hlt [f d] rest len (Hc & o & Hf & Ho & ->). simpl in *. subst f.
  exists (len `min` length (drop (Z.to_nat o) bs))%nat. rewrite length_drop.
  eexists. split_and!; [| | |lia|].
  - unfold File_read, File_access, fst_disk, st_zoom. monad. rewrite Hcap, (Hrd d bs) by (done || lia). simpl.
    f_equal. f_equal. destruct (Nat.min_spec len (length bs - Z.to_nat o)) as [[? ->]|[? ->]]; [done|].
    rewrite !take_ge by (rewrite length_drop; lia). done.
  - done.
  - exists (o + Z.of_nat (len `min` (length bs - Z.to_nat o)))%Z. simpl. split_and!; [|lia..|].
    + unfold set_offset; simpl. f_equal. rewrite length_take, length_drop. apply wrapu_id. unfold in_u. lia.
    + rewrite drop_drop. f_equal. lia.
  - intros Hn Hne. destruct (decide (length bs ≤ Z.to_nat o)%nat); [|lia].
    by rewrite drop_ge in Hne by done.
Qed.

(** [read] gives the whole contents of a readable regular file, and
    leaves the file as closing it does. *)
Theorem api_read_spec (path : str) (v : Vfs) (n : N) (a : A) (d1 : D)
    (contents : D → option (list Z)) (bs : list Z) :
  lookup None path v = Ok n → node_get_attr n (disk v) = Ok a → attr_is_dir a = false →
  owner_readable a = true → node_open n (disk v) = (Ok (), d1) →
  regular n contents → contents d1 = Some bs → Z.of_nat (length bs) < 2 ^ 63 →
  ∃ d2, contents d2 = Some bs ∧ api_read path v = (Ok bs, set_disk (node_release n d2).2 v).
Proof.
  intros Hl Ha Hd Hr Ho Hreg Hbs Hlen.
  assert (api_open path v = (Ok (mkFile n CAP_READ false 0), set_disk d1 v)) as Hopen.
  { unfold api_open, File_open, File_open_at, reading. monad. rewrite Hl. simpl. rewrite Ha, Hd.
    assert (contains (perm_to_cap a) (opts_cap (set_read true OpenOptions_new)) = true) as ->.
    { unfold perm_to_cap. rewrite Hr. by destruct (owner_writable a), (owner_executable a). }
    unfold on_disk. simpl. rewrite Ho. done. }
  assert (contains CAP_READ 0 = true) as H0 by done.
  destruct Hreg as (Hsz & Hreg). destruct (Hsz d1 bs Hbs) as (a1 & Ha1 & Hs1).
  unfold api_read. unfold mbind at 1, st_bind at 1. rewrite Hopen. monad.
  unfold File_get_attr, File_access. simpl. rewrite Ha1. monad. rewrite Hs1, wrapu_id by (unfold in_u; lia).
  destruct (Z.leb_spec (2 ^ 63) (Z.of_nat (length bs))) as [|_]; [lia|].
  destruct (read_to_end_all File_read _ (mkFile n CAP_READ false 0, d1) bs
    (attr_size <$> res_ok (File_get_attr (mkFile n CAP_READ false 0) d1))
    (File_read_reads n contents CAP_READ false bs (conj Hsz Hreg) eq_refl ltac:(lia)))
    as ([f2 d2] & Hre & Hc2 & o2 & Hf2 & _); [|done|].
  { split; [done|]. exists 0. split_and!; simpl; try done; lia. }
  exists d2. split; [done|]. unfold api_read_to_end. cbn [fst snd disk set_disk]. rewrite Hre. simpl in *. by subst f2.
Qed.
End fileapi.

(** ** Witnesses *)

(** A loop of reads of 32 bytes, [p] of them at most; it stops early. *)
Section loop.
Context {S : Type} (read : nat → st S AxError (list Z)).
Definition read_turn (x : list Z * S) : list Z * S + res AxError (list Z) * S :=
  match read 32%nat x.2 with
  | (Ok [], s') => inr (Ok x.1, s')
  | (Ok bs, s') => inl (x.1 ++ bs, s')
  | (Err e, s') => inr (Err e, s')
  | (Panic, s') => inr (Panic, s')
  end.
Definition turn_on (f : list Z * S → list Z * S + res AxError (list Z) * S)
    (x : list Z * S + res AxError (list Z) * S) : list Z * S + res AxError (list Z) * S :=
  match x with inl x => f x | inr r => inr r end.
Fixpoint read_turns (p : positive) (x : list Z * S) : list Z * S + res AxError (list Z) * S :=
  match p with
  | xH => read_turn x
  | xO p => turn_on (read_turns p) (read_turns p x)
  | xI p => turn_on (read_turns p) (turn_on (read_turns p) (read_turn x))
  end.
Definition read_loop (p : positive) (s : S) : res AxError (list Z) * S :=
  match read_turns p ([], s) with inl x => (Panic, x.2) | inr r => r end.

Lemma iter_done k r : Nat.iter k (turn_on read_turn) (inr r) = inr r.
Proof. induction k as [|k IH]; [done|]. rewrite Nat.iter_succ, IH. done. Qed.

Lemma turn_on_iter p x : turn_on (read_turns p) x = Nat.iter (Pos.to_nat p) (turn_on read_turn) x.
Proof.
  revert x. induction p as [p IH|p IH|]; intros x.
  - rewrite Pos2Nat.inj_xI. destruct x as [x|r]; cbn [turn_on read_turns].
    + rewrite !IH. rewrite <-Nat.iter_add, <-Nat.iter_succ_r with (x := inl x). f_equal. lia.
    + symmetry. apply iter_done.
  - rewrite Pos2Nat.inj_xO. destruct x as [x|r]; cbn [turn_on read_turns].
    + rewrite IH. change (read_turns p x) with (turn_on (read_turns p) (inl x)). rewrite IH.
      rewrite <-Nat.iter_add. f_equal. lia.
    + symmetry. apply iter_done.
  - by destruct x.
Qed.

Lemma read_iter_all (I : S → list Z → Prop) k acc s rest :
  reads read I → I s rest → (length rest < k)%nat →
  ∃ s', Nat.iter k (turn_on read_turn) (inl (acc, s)) = inr (Ok (acc ++ rest), s') ∧ I s' [].
Proof.
  intros Hr. revert acc s rest. induction k as [|k IH]; intros acc s rest Hi Hf; [lia|].
  rewrite Nat.iter_succ_r. cbn [turn_on].
  destruct (Hr s rest 32%nat Hi) as (n & s' & Hs & Hi' & Hn & Hpos).
  destruct rest as [|b rest].
  - rewrite take_nil in Hs. rewrite drop_nil in Hi'. exists s'. split; [|done].
    replace (read_turn (acc, s)) with (inr (Ok acc, s') : list Z * S + res AxError (list Z) * S)
      by (unfold read_turn; cbn [fst snd]; by rewrite Hs). rewrite app_nil_r. apply iter_done.
  - assert (0 < n)%nat by (apply Hpos; [lia|done]). destruct n as [|n]; [lia|]. cbn [take] in Hs.
    replace (read_turn (acc, s)) with (inl (acc ++ b :: take n rest, s') : list Z * S + res AxError (list Z) * S)
      by (unfold read_turn; cbn [fst snd]; by rewrite Hs).
    cbn [drop] in Hi'. destruct (IH (acc ++ b :: take n rest) s' (drop n rest) Hi') as (s'' & -> & ?).
    { rewrite length_drop. simpl in Hf. lia. }
    exists s''. split; [|done]. rewrite <-(assoc_L (++)). simpl. by rewrite take_drop.
Qed.

Lemma read_loop_all (I : S → list Z → Prop) p s rest :
  reads read I → I s rest → Z.of_nat (length rest) < Z.pos p → ∃ s', read_loop p s = (Ok rest, s') ∧ I s' [].
Proof.
  intros Hr Hi Hl. unfold read_loop.
  change (read_turns p ([], s)) with (turn_on (read_turns p) (inl ([], s))).
  rewrite turn_on_iter. destruct (read_iter_all I (Pos.to_nat p) [] s rest Hr Hi) as (s' & -> & ?).
  - lia.
  - by exists s'.
Qed.
End loop.

#[local, program] Instance LoopRead : ReadToEnd := {|
  default_read_to_end _ read _ := read_loop read (2 ^ 63);
|}.
Next Obligation.
  intros S read I s rest hint Hr Hi Hl. by apply read_loop_all.
Qed.

Lemma api_read_spec_witness :
  (api_read $"/a" mem_boot_a).1 = Ok [104; 105].
Proof.
  destruct (api_read_spec $"/a" mem_boot_a (0, $"a") (NodeFile, [104; 105]) (disk mem_boot_a)
    (λ d, snd <$> mem_find d (0, $"a")) [104; 105]) as (d2 & _ & ->); try (vm_compute; reflexivity).
  by apply mem_regular.
Defined.

(** [.], a file and a directory. *)
Definition mem_three : mem_disk :=
  [((0, $"."), (NodeDir, [])); ((0, $"ab"), (NodeFile, [])); ((0, $"c"), (NodeDir, []))].
Definition mem_names : list DirEntry :=
  [mkDirEntry NodeDir [46]; mkDirEntry NodeFile [97; 98]; mkDirEntry NodeDir [99]].
Definition mem_listing : ReadDir (N:=Z * str) :=
  mkReadDir $"/" (mkDirectory (0, []) CAP_READ 0) 0 0 false (replicate 31 (mkDirEntry NodeFile [])).
Lemma read_dir_lists_witness :
  (items 4 4 mem_three mem_listing).1 =
    mkApiEntry $"/" <$> [mkDirEntry NodeFile [97; 98]; mkDirEntry NodeDir [99]].
Proof.
  destruct (read_dir_lists mem_names mem_three mem_listing 4 4) as (r' & -> & _).
  - split; [reflexivity|intros; reflexivity|simpl; lia|simpl; lia].
  - reflexivity.
  - simpl. lia.
  - reflexivity.
  - simpl. lia.
  - simpl. lia.
  - reflexivity.
Defined.
