(* ===== verification/Stat.v ===== *)
(** * File metadata

    The [stat] of every kind of file object ([src/api/src/file/mod.rs],
    [fs.rs], [pipe.rs], [net.rs], [stdio.rs]) and the calls [stat], [fstat],
    [lstat], [fstatat] and [statx] ([src/api/src/imp/fs/stat.rs]). *)

From S2P Require Import Prelude Abi Str Pipe FdTable Vfs Paths Fops.

#[local] Open Scope Z_scope.

(** The attributes a file system gives, as far as [stat] uses them: the type
    is the code of [VfsNodeType] and the permissions are nine bits. *)
Class AxfsAttr (D FS N A : Type) `{!AxfsVfs D FS N A} := {
  attr_type : A → Z;
  attr_perm : A → Z;
  attr_type_range a : 0 ≤ attr_type a < 16;
  attr_perm_range a : 0 ≤ attr_perm a < 512;
  attr_type_dir a : attr_is_dir a = true ↔ attr_type a = 4;
}.

(** ** [Kstat]

    Size and block count of a node are [u64]. *)

Record Kstat := mkKstat {
  ino : Z; nlink : Z; uid : Z; gid : Z; k_mode : Z; k_size : Z; k_blocks : Z; k_blksize : Z
}.
Definition Kstat_default : Kstat := mkKstat 1 1 1 1 0 0 0 4096.
Definition with_mode (m : Z) : Kstat := mkKstat 1 1 1 1 m 0 0 4096.


(** The fields of the C structures that are set; the others are zero. *)
Record stat := mkStat {
  st_ino : Z; st_nlink : Z; st_mode : Z; st_uid : Z; st_gid : Z; st_size : Z; st_blksize : Z; st_blocks : Z
}.
Record statx := mkStatx {
  stx_mask : Z; stx_blksize : Z; stx_attributes : Z; stx_nlink : Z; stx_uid : Z; stx_gid : Z;
  stx_mode : Z; stx_ino : Z; stx_size : Z; stx_blocks : Z
}.
Definition stat_from (k : Kstat) : stat :=
  mkStat (as_u64 (ino k)) (as_u32 (nlink k)) (as_u32 (k_mode k)) (as_u32 (uid k)) (as_u32 (gid k))
    (as_i64 (k_size k)) (as_i32 (k_blksize k)) (as_i64 (k_blocks k)).
Definition statx_from (k : Kstat) : statx :=
  mkStatx 0 (as_u32 (k_blksize k)) (as_u64 (k_mode k)) (as_u32 (nlink k)) (as_u32 (uid k)) (as_u32 (gid k))
    (as_u16 (k_mode k)) (as_u64 (ino k)) (as_u64 (k_size k)) (as_u64 (k_blocks k)).

(** The values of the fields are values of their types. *)
Definition kstat_ok (k : Kstat) : Prop :=
  in_u 64 (ino k) ∧ in_u 32 (nlink k) ∧ in_u 32 (uid k) ∧ in_u 32 (gid k) ∧ in_u 16 (k_mode k) ∧
  in_u 64 (k_size k) ∧ in_u 64 (k_blocks k) ∧ 0 ≤ k_blksize k < 2 ^ 31.

Section stat.
Context {D FS N A : Type} `{V : !AxfsVfs D FS N A} `{HA : !AxfsAttr D FS N A}.
Context `{FO : !FlattenObjects FileLike AX_FILE_LIMIT} `{AxErrno}.
Abbreviation Vst := (st (Vfs D FS N) LinuxError).
Abbreviation PathState := (PathState D FS N).

Definition File_stat (f : File N) (d : D) : LinuxResult Kstat :=
  a ← into_linux (File_get_attr f d);
  Ok (mkKstat 1 1 1 1 (Z.lor (as_u32 (Z.shiftl (as_u8 (attr_type a)) 12)) (attr_perm a))
    (as_u64 (attr_size a)) (as_u64 (attr_blocks a)) 512).
Definition Directory_stat : Kstat := with_mode (Z.lor S_IFDIR 0x1ed).

(** [stat] of an object; [files] holds the open file of every [KFile]. *)
Definition fl_stat (files : gmap Z (File N)) (o : FileLike) (d : D) : LinuxResult Kstat :=
  match obj_kind o with
  | KFile _ => f ← unwrap_opt (files !! obj_id o); File_stat f d
  | KDirectory _ => Ok Directory_stat
  | KPipe _ => Ok (with_mode (Z.lor S_IFIFO 0x180))
  | KSocket => Ok (with_mode (Z.lor S_IFSOCK 0x1ff))
  | KStdin => Ok (with_mode (Z.lor S_IFCHR 0x124))
  | KStdout => Ok (with_mode (Z.lor S_IFCHR 0x90))
  end.

(** ** The calls *)

(** The file is opened for reading and closed again. *)
Definition stat_at_path (path : str) : Vst Kstat := λ v,
  let opts := set_read true OpenOptions_new in
  match File_open path opts v with
  | (Ok f, v') => (File_stat f (disk v'), set_disk (File_drop f (disk v')) v')
  | (Err IsADirectory, v') =>
      match Directory_open_dir path opts v' with
      | (Ok d, v'') => (Ok Directory_stat, set_disk (Directory_drop d (disk v'')) v'')
      | (Err e, v'') => (Err (ax_to_linux e), v'')
      | (Panic, v'') => (Panic, v'')
      end
  | (Err e, v') => (Err (ax_to_linux e), v')
  | (Panic, v') => (Panic, v')
  end.

(** An assignment evaluates its right side first: the buffer of the caller is
    checked when the metadata is there. *)
Definition fill {X Y} (into : X → Y) (k : X) (buf : LinuxResult ()) : st PathState LinuxError (Z * Y) :=
  st_lift buf;; mret (0, into k).

Definition sys_stat (path : LinuxResult str) (statbuf : LinuxResult ()) : st PathState LinuxError (Z * stat) :=
  path ← st_lift path;
  k ← on_vfs (stat_at_path path);
  fill stat_from k statbuf.
Definition sys_lstat (path : LinuxResult str) (statbuf : LinuxResult ()) : st PathState LinuxError (Z * stat) :=
  sys_stat path statbuf.

Variables (t : table FileLike AX_FILE_LIMIT) (files : gmap Z (File N)).

Definition sys_fstat (fd : Z) (statbuf : LinuxResult ()) : st PathState LinuxError (Z * stat) :=
  o ← st_lift (get_file_like t fd);
  s ← st_get;
  k ← st_lift (fl_stat files o (disk (fsys s)));
  fill stat_from k statbuf.

(** The part [fstatat] and [statx] have in common. *)
Definition stat_at (dirfd : Z) (path : option str) (flags : Z) : st PathState LinuxError Kstat :=
  match path with
  | None | Some [] =>
      if Z.land flags AT_EMPTY_PATH =? 0 then st_err ENOENT else
      o ← st_lift (get_file_like t dirfd);
      s ← st_get;
      st_lift (fl_stat files o (disk (fsys s)))
  | Some path =>
      p ← reading (handle_file_path t dirfd path);
      on_vfs (stat_at_path p)
  end.
Definition sys_fstatat (dirfd : Z) (path : LinuxResult (option str)) (statbuf : LinuxResult ()) (flags : Z) :
    st PathState LinuxError (Z * stat) :=
  path ← st_lift path;
  k ← stat_at dirfd path flags;
  fill stat_from k statbuf.
Definition sys_statx (dirfd : Z) (path : LinuxResult (option str)) (flags mask : Z) (statxbuf : LinuxResult ()) :
    st PathState LinuxError (Z * statx) :=
  path ← st_lift path;
  k ← stat_at dirfd path flags;
  fill statx_from k statxbuf.

(** ** Types of the values *)

(** The mode of a file: its type above the nine bits of its permissions. *)
Lemma file_mode_eq a :
  Z.lor (as_u32 (Z.shiftl (as_u8 (attr_type a)) 12)) (attr_perm a) = attr_type a * 4096 + attr_perm a.
Proof.
  pose proof (attr_type_range a). pose proof (attr_perm_range a).
  rewrite (wrapu_id 8) by (unfold in_u; lia). rewrite Z.shiftl_mul_pow2 by lia.
  change (2 ^ 12) with 4096. rewrite wrapu_id by (unfold in_u; lia).
  rewrite <-Z.lxor_lor, Z.add_nocarry_lxor; [done|..];
    (apply Z.bits_inj'; intros i Hi; rewrite Z.land_spec, Z.bits_0;
     change 4096 with (2 ^ 12); rewrite <-Z.shiftl_mul_pow2, Z.shiftl_spec by lia;
     destruct (decide (i < 12)); [by rewrite Z.testbit_neg_r by lia|];
     rewrite (Z.bits_above_log2 (attr_perm a)), andb_false_r by
       (lia || (destruct (decide (attr_perm a = 0)) as [->|]; [simpl; lia|];
                apply Z.log2_lt_pow2; [lia|]; apply Z.lt_le_trans with (2 ^ 9); [lia|]; apply Z.pow_le_mono_r; lia));
     done).
Qed.

Lemma File_stat_ok f d k : File_stat f d = Ok k → kstat_ok k.
Proof.
  unfold File_stat, into_linux. monad. destruct (File_get_attr f d) as [a|?|]; simpl; [|done..].
  intros [= <-]. rewrite file_mode_eq.
  pose proof (attr_type_range a). pose proof (attr_perm_range a).
  pose proof (wrapu_range 64 (attr_size a) ltac:(lia)). pose proof (wrapu_range 64 (attr_blocks a) ltac:(lia)).
  unfold kstat_ok, in_u in *; simpl. lia.
Qed.

Lemma fl_stat_ok files' o d k : fl_stat files' o d = Ok k → kstat_ok k.
Proof.
  unfold fl_stat. destruct (obj_kind o); monad;
    [destruct (files' !! _); [apply File_stat_ok|done]|intros [= <-]; vm_compute; intuition discriminate..].
Qed.

Lemma stat_at_path_ok path v k v' : stat_at_path path v = (Ok k, v') → kstat_ok k.
Proof.
  unfold stat_at_path. destruct (File_open path _ v) as [[f|e|] v1]; [|destruct e; try done|done].
  - intros [= Hf _]. by eapply File_stat_ok.
  - destruct (Directory_open_dir path _ v1) as [[d|e|] v2]; [|done..]. intros [= <- _].
    vm_compute. intuition discriminate.
Qed.

Lemma stat_at_ok dirfd path flags s k s' : stat_at dirfd path flags s = (Ok k, s') → kstat_ok k.
Proof.
  assert (∀ r, st_lift (S:=PathState) (E:=LinuxError) (o ← get_file_like t dirfd; fl_stat files o (disk (fsys s))) s
    = (Ok r, s') → kstat_ok r) as Hfd.
  { intros r. unfold st_lift. monad. destruct (get_file_like t dirfd) as [o|?|]; [|done..]. intros [= Hf _].
    by eapply fl_stat_ok. }
  assert ((if Z.land flags AT_EMPTY_PATH =? 0 then st_err (S:=PathState) ENOENT else
      o ← st_lift (get_file_like t dirfd); s ← st_get; st_lift (fl_stat files o (disk (fsys s)))) s = (Ok k, s') →
    kstat_ok k) as Hempty.
  { destruct (_ =? 0); [done|]. intros Hk. apply Hfd. revert Hk. unfold st_lift. monad.
    by destruct (get_file_like t dirfd) as [o|?|]. }
  destruct path as [[|c path]|]; [exact Hempty| |exact Hempty]. cbn [stat_at]. unfold reading. monad.
  destruct (handle_file_path t dirfd (c :: path) s) as [p|?|]; [|done..]. unfold on_vfs, st_zoom.
  destruct (stat_at_path p (fsys s)) as [r v'] eqn:Hs. intros [= -> _]. by eapply stat_at_path_ok.
Qed.


(** ** What [stat] finds *)

(** [stat] of a path describes the node the path leads to, when its owner
    may read it: a file with its type, permissions and size, a directory as
    one with permissions 755 and size 0. Without the permission to read, it
    fails with the error of an open, and so does a path that leads nowhere. *)
Theorem stat_at_path_spec (path : str) (v : Vfs D FS N) (n : N) (a a' : A) (d1 : D) :
  lookup None path v = Ok n → node_get_attr n (disk v) = Ok a → node_open n (disk v) = (Ok (), d1) →
  node_get_attr n d1 = Ok a' →
  (stat_at_path path v).1 =
    if owner_readable a then
      Ok (if attr_is_dir a then Directory_stat
          else mkKstat 1 1 1 1 (attr_type a' * 4096 + attr_perm a') (as_u64 (attr_size a'))
                 (as_u64 (attr_blocks a')) 512)
    else Err (ax_to_linux PermissionDenied).
Proof.
  intros Hl Ha Ho Ha'.
  assert (∀ o, opts_cap o = CAP_READ → contains (perm_to_cap a) (opts_cap o) = owner_readable a) as Hcap.
  { intros o ->. unfold perm_to_cap. by destruct (owner_readable a), (owner_writable a), (owner_executable a). }
  unfold stat_at_path, File_open, File_open_at, reading. monad. rewrite Hl. simpl. rewrite Ha.
  destruct (attr_is_dir a) eqn:Hd; simpl.
  - unfold Directory_open_dir, Directory_open_dir_at_ref, reading. monad. rewrite Hl. simpl. rewrite Ha, Hd. simpl.
    rewrite Hcap by done. destruct (owner_readable a); [|done]. simpl. unfold on_disk. by rewrite Ho.
  - rewrite Hcap by done. destruct (owner_readable a); [|done]. simpl. unfold on_disk. rewrite Ho. simpl.
    unfold File_stat, File_get_attr, File_access, into_linux. monad. rewrite Ha'. simpl. by rewrite file_mode_eq.
Qed.

(** an empty path, or none, means the descriptor itself, and only with
    [AT_EMPTY_PATH]: then the answer is that of [fstat]. *)
Theorem empty_path_spec (dirfd flags : Z) (path : option str) (statbuf : LinuxResult ()) (s : PathState) :
  path = None ∨ path = Some [] →
  sys_fstatat dirfd (Ok path) statbuf flags s =
    if decide (Z.land flags AT_EMPTY_PATH = 0) then (Err ENOENT, s) else sys_fstat dirfd statbuf s.
Proof.
  intros Hp. assert (sys_fstatat dirfd (Ok path) statbuf flags s =
    (k ← (if Z.land flags AT_EMPTY_PATH =? 0 then st_err ENOENT else
      o ← st_lift (get_file_like t dirfd); s ← st_get; st_lift (fl_stat files o (disk (fsys s))));
     fill stat_from k statbuf) s) as -> by (by destruct Hp as [->| ->]).
  destruct (Z.eqb_spec (Z.land flags AT_EMPTY_PATH) 0); [by rewrite decide_True|]. rewrite decide_False by done.
  unfold sys_fstat. monad. by destruct (get_file_like t dirfd) as [o|?|].
Qed.

(** [statx] stores the mode as attributes, and says that it stored nothing. *)
Lemma statx_attributes_are_mode dirfd path flags mask buf s x s' :
  sys_statx dirfd path flags mask buf s = (Ok (0, x), s') → stx_attributes x = stx_mode x ∧ stx_mask x = 0.
Proof.
  unfold sys_statx. intros (p & s1 & _ & (k & s2 & Hk & Hf)%st_bind_Ok)%st_bind_Ok.
  apply stat_at_ok in Hk as (_ & _ & _ & _ & Hm & _). unfold fill in Hf. monad. destruct buf; [|done..].
  injection Hf as <- _. split; [|done]. cbn -[wrapu]. unfold in_u in Hm. by ints.
Qed.
End stat.

(** ** Witnesses *)

#[local] Existing Instance SampleErrno.
Definition mem_attr_type (a : VfsNodeType * list Z) : Z := match a.1 with NodeDir => 4 | _ => 8 end.
#[local] Obligation Tactic := idtac.
#[local, program] Instance MemAttr : AxfsAttr mem_disk Z (Z * str) (VfsNodeType * list Z) := {|
  attr_type := mem_attr_type;
  attr_perm _ := 0x1ff;
|}.
Next Obligation. intros [[] ?]; unfold mem_attr_type; simpl; lia. Qed.
Next Obligation. intros a. simpl. lia. Qed.
Next Obligation. intros [[] ?]; simpl; done. Qed.

Definition stat_sample : PathState mem_disk Z (Z * str) := mkPathState HardlinkManager_new mem_boot_a.


Lemma stat_at_path_spec_witness :
  (stat_at_path $"/a" mem_boot_a).1 = Ok (mkKstat 1 1 1 1 (8 * 4096 + 511) 2 1 512).
Proof.
  rewrite (stat_at_path_spec $"/a" mem_boot_a (0, $"a") (NodeFile, [104; 105]) (NodeFile, [104; 105])
    (disk mem_boot_a)); vm_compute; reflexivity.
Defined.

Lemma empty_path_spec_witness :
  sys_fstatat stdio_table (∅ : gmap Z (File (Z * str))) 0 (Ok (Some [])) (Ok ()) 0 stat_sample
    = (Err ENOENT, stat_sample).
Proof.
  rewrite (empty_path_spec stdio_table ∅ 0 0 (Some []) (Ok ()) stat_sample (or_intror eq_refl)). reflexivity.
Defined.
