(* ===== verification/Console.v ===== *)
(** * Standard streams ([src/api/src/file/stdio.rs])

    Standard input reads the console through a buffer, turns carriage returns
    into newlines, and waits for at least one byte; standard output writes to
    the console. The console is in [axhal] and the buffer in the crate [axio];
    the classes below state what they do. *)

From S2P Require Import Prelude Abi Str Vfs Fops FileApi.

#[local] Open Scope Z_scope.

(** [axhal::console]: a read takes some of the bytes that have arrived, at
    least one if there is one and room for it. *)
Class Console (C : Type) := {
  console_read : nat → C → list Z * C;
  console_write : list Z → C → C;
  arrived : C → list Z;
  console_read_spec n c : ∃ k, (k ≤ n)%nat ∧ ((0 < n)%nat → arrived c ≠ [] → (0 < k)%nat) ∧
    (console_read n c).1 = take k (arrived c) ∧ arrived (console_read n c).2 = drop k (arrived c);
}.

(** [axio::BufReader]: a reader on top of another one, with the bytes it has
    read ahead. *)
Class BufReader (B : Type) := {
  buf_read {S} : (nat → st S AxError (list Z)) → nat → st (B * S) AxError (list Z);
  buffered : B → list Z;
  buf_read_reads {S} (read : nat → st S AxError (list Z)) (I : S → list Z → Prop) :
    reads read I → reads (buf_read read) (λ s rest, ∃ r, I s.2 r ∧ rest = buffered s.1 ++ r);
}.

Section console.
Context {C B : Type} `{HC : !Console C} `{HB : !BufReader B} `{AxErrno}.

Definition newline (b : Z) : Z := if b =? 13 then 10 else b.

Definition console_read_bytes (n : nat) : st C AxError (list Z) := λ c,
  let '(bs, c') := console_read n c in (Ok (newline <$> bs), c').
Definition console_write_bytes (bs : list Z) : st C AxError Z := λ c,
  (Ok (Z.of_nat (length bs)), console_write bs c).

(** The loop of [StdinRaw::read]; every turn but the last reads a byte. *)
Fixpoint raw_loop (fuel len : nat) (got : list Z) : st C AxError (list Z) :=
  match fuel with
  | O => st_panic
  | S fuel' =>
      if (length got <? len)%nat then
        bs ← console_read_bytes (len - length got);
        match bs with [] => mret got | _ => raw_loop fuel' len (got ++ bs) end
      else mret got
  end.
Definition StdinRaw_read (len : nat) : st C AxError (list Z) := raw_loop (S len) len [].

(** [Stdin::read_blocked]: one read, and then one per turn, after the other
    tasks did [others k]; the fuel bounds the turns, [None] when it runs out. *)
Fixpoint blocked_loop (fuel k : nat) (others : nat → B * C → B * C) (len : nat) :
    st (B * C) AxError (option (list Z)) :=
  match fuel with
  | O => mret None
  | S fuel' =>
      bs ← buf_read StdinRaw_read len;
      match bs with
      | [] => st_mod (others k);; blocked_loop fuel' (S k) others len
      | _ => mret (Some bs)
      end
  end.
Definition read_blocked (fuel : nat) (others : nat → B * C → B * C) (len : nat) :
    st (B * C) AxError (option (list Z)) :=
  bs ← buf_read StdinRaw_read len;
  if (len =? 0)%nat || negb (bool_decide (bs = [])) then mret (Some bs) else blocked_loop fuel 0 others len.

(** The streams as file objects. *)
Definition Stdin_read (fuel : nat) (others : nat → B * C → B * C) (len : nat) :
    st (B * C) LinuxError (option (list Z)) :=
  st_map_err ax_to_linux (read_blocked fuel others len).
Definition Stdin_write (bs : list Z) : st (B * C) LinuxError Z := st_err EPERM.
Definition Stdout_read (len : nat) : st C LinuxError (list Z) := st_err EPERM.
Definition Stdout_write (bs : list Z) : st C LinuxError Z := st_map_err ax_to_linux (console_write_bytes bs).

(** ** What is read *)

Lemma raw_loop_spec fuel len got c :
  (length got ≤ len)%nat → (len - length got < fuel)%nat →
  ∃ c', raw_loop fuel len got c = (Ok (got ++ (newline <$> take (len - length got) (arrived c))), c') ∧
    arrived c' = drop (len - length got) (arrived c).
Proof.
  revert got c. induction fuel as [|fuel IH]; intros got c Hl Hf; [lia|]. cbn [raw_loop].
  destruct (Nat.ltb_spec (length got) len) as [Hlt|].
  2:{ exists c. replace (len - length got)%nat with 0%nat by lia. by rewrite take_0, app_nil_r. }
  destruct (console_read_spec (len - length got) c) as (k & Hk & Hpos & Hb & Ha).
  unfold mbind, st_bind, console_read_bytes. destruct (console_read _ c) as [bs c1]; simpl in Hb, Ha. subst bs.
  destruct (arrived c) as [|b rest] eqn:Harr.
  - rewrite take_nil. exists c1. rewrite !take_nil, app_nil_r. by rewrite Ha, !drop_nil.
  - assert (0 < k)%nat by (apply Hpos; [lia|done]). destruct k as [|k]; [lia|]. cbn [take].
    rewrite fmap_cons. cbv beta iota. rewrite <-fmap_cons. set (bs := b :: take k rest) in *.
    assert (length bs ≤ S k)%nat as Hlb by (unfold bs; simpl; rewrite length_take; lia).
    assert (0 < length bs)%nat by (unfold bs; simpl; lia).
    assert (bs = take (length bs) (b :: rest)) as Hbs.
    { unfold bs. cbn [take length]. rewrite length_take. f_equal.
      destruct (Nat.min_spec k (length rest)) as [[? ->]|[? ->]]; [done|]. by rewrite !take_ge by lia. }
    assert (drop (S k) (b :: rest) = drop (length bs) (b :: rest)) as Hdr.
    { unfold bs. cbn [drop length]. rewrite length_take.
      destruct (Nat.min_spec k (length rest)) as [[? ->]|[? ->]]; [done|]. by rewrite !drop_ge by lia. }
    destruct (IH (got ++ (newline <$> bs)) c1) as (c2 & Hc2 & Ha2);
      [rewrite length_app, length_fmap; lia..|].
    exists c2. rewrite Hc2, Ha2, Ha, Hdr, length_app, length_fmap.
    replace (len - (length got + length bs))%nat with (len - length got - length bs)%nat by lia. split.
    + do 2 f_equal. rewrite <-(assoc_L (++)), <-fmap_app. do 2 f_equal. rewrite Hbs at 1.
      rewrite take_take_drop. f_equal. lia.
    + rewrite drop_drop. f_equal. lia.
Qed.

Lemma StdinRaw_reads : reads StdinRaw_read (λ c rest, rest = newline <$> arrived c).
Proof.
  intros c rest n ->. exists n. destruct (raw_loop_spec (S n) n [] c) as (c' & Hr & Ha); [simpl; lia..|].
  exists c'. unfold StdinRaw_read. rewrite Hr, Ha. simpl. rewrite Nat.sub_0_r, fmap_take, fmap_drop. done.
Qed.

(** The bytes a reader of standard input has still to get. *)
Definition input (s : B * C) : list Z := buffered s.1 ++ (newline <$> arrived s.2).

Lemma buf_read_input n s :
  ∃ k s', buf_read StdinRaw_read n s = (Ok (take k (input s)), s') ∧ input s' = drop k (input s) ∧
    (k ≤ n)%nat ∧ ((0 < n)%nat → input s ≠ [] → (0 < k)%nat).
Proof.
  destruct (buf_read_reads StdinRaw_read _ StdinRaw_reads s (input s) n) as (k & s' & Hr & (r & -> & Hi) & Hk).
  { by exists (newline <$> arrived s.2). }
  exists k, s'. split; [done|]. split; [by symmetry|done].
Qed.

(** The state before read [k] of a reader that found nothing so far. *)
Fixpoint idle (others : nat → B * C → B * C) (len k : nat) (s : B * C) : B * C :=
  match k with
  | O => s
  | S k' => others k' (buf_read StdinRaw_read len (idle others len k' s)).2
  end.

Lemma take_pos_nil {A} k (l : list A) : (0 < k)%nat → take k l = [] → l = [].
Proof. destruct k, l; simpl; try done; lia. Qed.

Lemma blocked_loop_spec others len fuel k j s0 :
  (0 < len)%nat → (k ≤ j < k + fuel)%nat → input (idle others len j s0) ≠ [] →
  (∀ i, (k ≤ i < j)%nat → input (idle others len i s0) = []) →
  ∃ n s', blocked_loop fuel k others len (idle others len k s0) =
      (Ok (Some (take n (input (idle others len j s0)))), s') ∧ (0 < n ≤ len)%nat ∧
    input s' = drop n (input (idle others len j s0)).
Proof.
  intros Hlen. revert k. induction fuel as [|fuel IH]; intros k Hj Hin Hno; [lia|]. cbn [blocked_loop].
  unfold mbind at 1, st_bind at 1.
  destruct (buf_read_input len (idle others len k s0)) as (n & s' & Hr & Hi & Hn & Hpos). rewrite Hr.
  destruct (decide (k = j)) as [->|Hne].
  - specialize (Hpos Hlen Hin). exists n, s'. split_and!; [|done|done|done].
    destruct (take n (input (idle others len j s0))) eqn:Ht; [|done]. by apply take_pos_nil in Ht.
  - rewrite (Hno k) by lia. rewrite take_nil. unfold mbind, st_bind, st_mod.
    replace (others k s') with (idle others len (S k) s0) by (simpl; by rewrite Hr).
    apply IH; [lia|done|]. intros i Hi'. apply Hno. lia.
Qed.

(** C33: a read of standard input returns as soon as bytes have arrived, in the
    first turn that finds some: it gives the next of them in order, at least
    one and as many as asked for at most, with newlines for carriage returns,
    and the others stay to be read. A read of no bytes returns at once. *)
Theorem read_blocked_spec (others : nat → B * C → B * C) (len fuel j : nat) (s : B * C) :
  (0 < len)%nat → (j ≤ fuel)%nat →
  let start := (buf_read StdinRaw_read len s).2 in
  let at_ := match j with O => s | S i => idle others len i start end in
  input at_ ≠ [] →
  (∀ i, (i < j)%nat → input (match i with O => s | S i' => idle others len i' start end) = []) →
  ∃ n s', read_blocked fuel others len s = (Ok (Some (take n (input at_))), s') ∧ (0 < n ≤ len)%nat ∧
    input s' = drop n (input at_).
Proof.
  intros Hlen Hj start at_ Hin Hno. unfold read_blocked, mbind, st_bind.
  destruct (buf_read_input len s) as (n & s1 & Hr & Hi & Hn & Hpos). rewrite Hr.
  assert (start = s1) as Hst by (unfold start; by rewrite Hr).
  destruct (Nat.eqb_spec len 0); [lia|]. simpl. destruct j as [|j].
  - specialize (Hpos Hlen Hin). exists n, s1. rewrite bool_decide_false; [done|]. intros Ht%take_pos_nil; done.
  - specialize (Hno 0%nat ltac:(lia)) as Hs. simpl in Hs. rewrite Hs, take_nil, bool_decide_true by done. simpl.
    subst start. change (buf_read StdinRaw_read len s).2 with (idle others len 0 (buf_read StdinRaw_read len s).2) in Hst.
    rewrite <-Hst. apply blocked_loop_spec; [done|lia|done|]. intros i Hi'. apply (Hno (S i)). lia.
Qed.
End console.

(** ** Witness: a queue as console, and a buffer that is only emptied *)
#[local, program] Instance QueueConsole : Console (list Z) := {|
  console_read n c := (take n c, drop n c);
  console_write _ c := c;
  arrived c := c;
|}.
Next Obligation. intros n c. exists n. done. Qed.

Definition queue_buf_read {S} (read : nat → st S AxError (list Z)) (n : nat) (s : list Z * S) :
    res AxError (list Z) * (list Z * S) :=
  match s.1 with
  | [] => let '(r, s') := read n s.2 in (r, ([], s'))
  | b => (Ok (take n b), (drop n b, s.2))
  end.
#[local, program] Instance QueueBuf : BufReader (list Z) := {|
  buf_read S := queue_buf_read;
  buffered b := b;
|}.
Next Obligation.
  intros S read I Hr [b s] rest n (r & Hi & ->). simpl in *. destruct b as [|x b].
  - destruct (Hr s r n Hi) as (k & s' & Hs & Hi' & Hk). exists k, ([], s'). unfold queue_buf_read. simpl.
    rewrite Hs. split; [done|]. split; [|done]. by exists (drop k r).
  - exists (n `min` length (x :: b))%nat, (drop n (x :: b), s). cbn [fst snd]. unfold queue_buf_read. cbn [fst snd].
    assert (∀ l : list Z, take (n `min` length (x :: b)) ((x :: b) ++ l) = take n (x :: b)) as Ht.
    { intros l. rewrite take_app_le by lia. destruct (Nat.min_spec n (length (x :: b))) as [[? ->]|[? ->]]; [done|].
      by rewrite !take_ge by lia. }
    rewrite Ht. split; [done|]. split_and!; [|lia|intros; simpl; lia].
    exists r. split; [done|]. rewrite drop_app_le by lia. f_equal.
    destruct (Nat.min_spec n (length (x :: b))) as [[? ->]|[? ->]]; [done|]. by rewrite !drop_ge by lia.
Qed.

(** A line arrives after the first read. *)
Lemma read_blocked_spec_witness :
  ∃ n s', read_blocked 3 (λ _ s, (s.1, [104; 13])) 8 (([] : list Z), ([] : list Z)) =
      (Ok (Some (take n [104; 10])), s') ∧ (0 < n)%nat.
Proof.
  destruct (read_blocked_spec (λ _ (s : list Z * list Z), (s.1, [104; 13])) 8 3 2 ([], [])) as (n & s' & Hr & Hn & _).
  - lia.
  - lia.
  - discriminate.
  - intros [|[|i]] Hi; [reflexivity|reflexivity|lia].
  - exists n, s'. split; [exact Hr|lia].
Defined.
