(* ===== verification/Dents.v ===== *)
(** * Reading directories ([getdents64] of [src/api/src/imp/fs/ctl.rs])

    The call fills a user buffer with records of variable length, one per
    directory entry. An entry that was read from the directory but did not
    fit is kept in the directory object and delivered by the next call. *)

From S2P Require Import Prelude Abi Str Vfs Fops.

#[local] Open Scope Z_scope.

(** The [d_type] codes, [FileType] of [ctl.rs]. *)
Inductive FileType : Type := FtUnknown | FtFifo | FtChr | FtDir | FtBlk | FtReg | FtLnk | FtSocket.
Definition FileType_code (t : FileType) : Z :=
  match t with
  | FtUnknown => 0 | FtFifo => 1 | FtChr => 2 | FtDir => 4
  | FtBlk => 6 | FtReg => 8 | FtLnk => 10 | FtSocket => 12
  end.
Definition FileType_from (t : VfsNodeType) : FileType :=
  match t with NodeDir => FtDir | NodeFile => FtReg | NodeOther _ => FtUnknown end.

(** [DirBuffer]: the user's buffer and the position after the last record. *)
Record DirBuffer := mkDirBuffer { buf : list Z; offset : nat }.
Definition DirBuffer_new (b : list Z) : DirBuffer := mkDirBuffer b 0.
Definition remaining_space (b : DirBuffer) : nat := length (buf b) - offset b.

(** Layout of [linux_dirent64]: two 8-byte words, the record length in 2
    bytes, the type in 1; the name starts at 19. The struct is 24 bytes long
    with an alignment of 8. *)
Definition NAME_OFFSET : nat := 19.
Definition next_multiple_of (n k : nat) : nat := ((n + (k - 1)) / k * k)%nat.
Definition reclen (name : list Z) : nat := next_multiple_of (NAME_OFFSET + length name + 1) 8.

(** The struct as it is written before the name; its last 5 bytes are
    padding, whose values are not determined. *)
Definition dirent_head (len : nat) (d_type : FileType) : list Z :=
  le_bytes 8 1 ++ le_bytes 8 0 ++ le_bytes 2 (as_u16 (Z.of_nat len)) ++ [FileType_code d_type].
Definition dirent_struct (len : nat) (d_type : FileType) (pad : list Z) : list Z :=
  dirent_head len d_type ++ pad.

(** The api [Directory] object: the opened directory and the entry kept
    back. *)
Record DirObj (N : Type) := mkDirObj { dir_inner : Directory N; last_dirent : option DirEntry }.
Arguments mkDirObj {N} _ _.
Arguments dir_inner {N} _.
Arguments last_dirent {N} _.

Section dents.
Context {D FS N A : Type} `{V : !AxfsVfs D FS N A} `{AxErrno}.
(** The padding left at each offset. *)
Context (pad : nat → list Z) (Hpad : ∀ o, length (pad o) = 5%nat).

Definition write_entry (d_type : FileType) (name : list Z) (b : DirBuffer) : bool * DirBuffer :=
  let len := reclen name in
  if decide (remaining_space b < len)%nat then (false, b)
  else
    let buf1 := splice (offset b) (dirent_struct len d_type (pad (offset b))) (buf b) in
    let buf2 := splice (offset b + NAME_OFFSET) name buf1 in
    let buf3 := splice (offset b + NAME_OFFSET + length name) [0] buf2 in
    (true, mkDirBuffer buf3 (offset b + len)).

(** [write_entry(ent.entry_type().into(), ent.name_as_bytes())]. *)
Definition write_dirent (e : DirEntry) (b : DirBuffer) : bool * DirBuffer :=
  write_entry (FileType_from (entry_type e)) (name_as_bytes e) b.

(** The loop of [sys_getdents64], one entry at a time. Every turn but the
    last writes a record, so the length of the buffer bounds the turns. *)
Fixpoint getdents_loop (fuel : nat) (disk : D) : st (DirBuffer * DirObj N) LinuxError () :=
  match fuel with
  | O => st_panic
  | S fuel' =>
      s ← st_get;
      '(es, inner) ← st_lift (into_linux (Directory_read_dir 1 (dir_inner s.2) disk));
      st_mod (λ s, (s.1, mkDirObj inner (last_dirent s.2)));;
      match es with
      | [] => mret ()
      | ent :: _ =>
          s ← st_get;
          let '(ok, b) := write_dirent ent s.1 in
          if ok : bool then st_mod (λ s, (b, s.2));; getdents_loop fuel' disk
          else st_mod (λ s, (s.1, mkDirObj (dir_inner s.2) (Some ent)))
      end
  end.

(** [sys_getdents64]: [ubuf] is the user buffer, [dir] tells whether the
    descriptor is a directory. The state is the buffer and the directory. *)
Definition deliver_last : st (DirBuffer * DirObj N) LinuxError () := λ s,
  match last_dirent s.2 with
  | None => (Ok (), s)
  | Some ent =>
      let '(ok, b) := write_dirent ent s.1 in
      if ok : bool then (Ok (), (b, mkDirObj (dir_inner s.2) None)) else (Err EINVAL, s)
  end.

Definition getdents_body (disk : D) : st (DirBuffer * DirObj N) LinuxError Z :=
  deliver_last;;
  s ← st_get;
  getdents_loop (S (length (buf s.1))) disk;;
  s ← st_get;
  if bool_decide (is_Some (last_dirent s.2)) && bool_decide (offset s.1 = 0%nat)
  then st_err EINVAL else mret (as_isize (Z.of_nat (offset s.1))).

Definition sys_getdents64 (ubuf : LinuxResult (list Z)) (dir : LinuxResult ()) (disk : D)
    (o : DirObj N) : LinuxResult Z * list Z * DirObj N :=
  match ubuf with
  | Ok ubuf =>
      match dir with
      | Ok _ => let '(r, (b, o')) := getdents_body disk (DirBuffer_new ubuf, o) in (r, buf b, o')
      | Err e => (Err e, ubuf, o)
      | Panic => (Panic, ubuf, o)
      end
  | Err e => (Err e, [], o)
  | Panic => (Panic, [], o)
  end.

(** ** One record *)

Lemma reclen_bounds name : (24 ≤ reclen name ∧ 20 + length name ≤ reclen name ≤ 27 + length name)%nat.
Proof.
  unfold reclen, next_multiple_of, NAME_OFFSET.
  pose proof (Nat.div_mod_eq (19 + length name + 1 + (8 - 1)) 8) as Hd.
  pose proof (Nat.mod_upper_bound (19 + length name + 1 + (8 - 1)) 8). lia.
Qed.

(** A record of an entry: the head, the name, a NUL byte and filling up to
    the record length. *)
Definition record_of (ty : FileType) (name r : list Z) : Prop :=
  length r = reclen name ∧ ∃ junk, r = dirent_head (reclen name) ty ++ name ++ 0 :: junk.

Lemma write_entry_record ty name b :
  (offset b + reclen name ≤ length (buf b))%nat →
  ∃ r, record_of ty name r ∧
    write_entry ty name b =
      (true, mkDirBuffer (take (offset b) (buf b) ++ r ++ drop (offset b + reclen name) (buf b))
        (offset b + reclen name)).
Proof.
  intros Hfit. pose proof (reclen_bounds name) as (H24 & Hlo & Hhi).
  unfold write_entry, remaining_space. rewrite decide_False by lia.
  destruct (cut_list (offset b) (buf b)) as (a & m' & Hbuf & Ha); [lia|].
  assert (length m' = length (buf b) - offset b)%nat by (rewrite Hbuf, length_app; lia).
  destruct (cut_list (reclen name) m') as (m & c & -> & Hm); [lia|].
  destruct (cut_list 24 m) as (m1 & m2 & -> & Hm1); [lia|].
  assert (length (dirent_struct (reclen name) ty (pad (offset b))) = 24%nat) as Hs.
  { unfold dirent_struct, dirent_head. rewrite !length_app, !length_le_bytes, Hpad. done. }
  rewrite length_app in Hm.
  destruct (cut_list (length name) (pad (offset b) ++ m2)) as (n & z & Hn & Hnl).
  { rewrite length_app, Hpad. lia. }
  assert (length z = reclen name - NAME_OFFSET - length name)%nat as Hz.
  { apply (f_equal length) in Hn. rewrite !length_app, Hpad in Hn. unfold NAME_OFFSET. lia. }
  destruct z as [|x z]; [unfold NAME_OFFSET in *; simpl in *; lia|]. simpl in Hz.
  exists (dirent_head (reclen name) ty ++ name ++ 0 :: z).
  assert (length (dirent_head (reclen name) ty) = NAME_OFFSET) as Hhd.
  { unfold dirent_head. rewrite !length_app, !length_le_bytes. done. }
  unfold NAME_OFFSET in *.
  split; [split; [rewrite !length_app; simpl; lia|by eexists]|]. do 2 f_equal.
  rewrite Hbuf. rewrite <-!(assoc_L (++) m1). rewrite (splice_mid _ a m1) by lia.
  unfold dirent_struct. rewrite <-(assoc_L (++)), (assoc_L (++) (pad _)), Hn.
  rewrite <-(assoc_L (++) n). rewrite (assoc_L (++) a).
  rewrite (splice_mid _ (a ++ dirent_head (reclen name) ty) n) by (rewrite ?length_app; lia).
  rewrite (assoc_L (++) (a ++ _)). change ((x :: z) ++ c) with ([x] ++ z ++ c).
  rewrite (splice_mid _ ((a ++ dirent_head (reclen name) ty) ++ name) [x])
    by (rewrite ?length_app; simpl; lia).
  rewrite take_app_length' by lia.
  rewrite (assoc_L (++) m1), (assoc_L (++) a (m1 ++ m2)).
  rewrite drop_app_length' by (rewrite !length_app; lia).
  by rewrite <-!(assoc_L (++)).
Qed.

(** ** What the user program reads *)

Fixpoint until_nul (bs : list Z) : list Z :=
  match bs with [] => [] | b :: bs => if b =? 0 then [] else b :: until_nul bs end.

(** The records of a filled buffer, as a C program walks them by [d_reclen]:
    type and name of each. *)
Fixpoint decode_dents (fuel : nat) (bs : list Z) : list (Z * list Z) :=
  match fuel, bs with
  | S fuel', _ :: _ =>
      let len := Z.to_nat (le_value (take 2 (drop 16 bs))) in
      (default 0 (bs !! 18%nat), until_nul (drop NAME_OFFSET (take len bs)))
        :: decode_dents fuel' (drop len bs)
  | _, _ => []
  end.

Lemma until_nul_app name junk : 0 ∉ name → until_nul (name ++ 0 :: junk) = name.
Proof.
  induction name as [|x name IH]; intros Hn; [done|]. simpl.
  destruct (Z.eqb_spec x 0) as [->|]; [set_solver|]. f_equal. apply IH. set_solver.
Qed.

(** Names the kernel delivers: no NUL byte, short enough for the 16-bit
    record length. *)
Definition name_ok (name : list Z) : Prop := (0 ∉ name) ∧ Z.of_nat (reclen name) < 2 ^ 16.

Lemma decode_record fuel ty name r rest :
  record_of ty name r → name_ok name →
  decode_dents (S fuel) (r ++ rest) = (FileType_code ty, name) :: decode_dents fuel rest.
Proof.
  intros [Hl (junk & Hr)] [Hn Hlen].
  assert (take 2 (drop 16 (r ++ rest)) = le_bytes 2 (Z.of_nat (reclen name))) as H2.
  { rewrite Hr. unfold dirent_head, wrapu. rewrite Z.mod_small by lia. done. }
  assert (Z.to_nat (le_value (take 2 (drop 16 (r ++ rest)))) = reclen name) as Hre.
  { rewrite H2, le_value_bytes by (simpl; lia). lia. }
  destruct (r ++ rest) as [|x l] eqn:Hx.
  { rewrite Hr in Hx. discriminate. }
  cbn [decode_dents]. rewrite <-Hx in *. rewrite Hre. f_equal; [f_equal|].
  - rewrite Hr. done.
  - rewrite take_app_length' by done. rewrite Hr.
    rewrite drop_app_length' by (unfold dirent_head; rewrite !length_app, !length_le_bytes; done).
    by apply until_nul_app.
  - f_equal. by rewrite drop_app_length'.
Qed.

(** ** A filled buffer *)

Definition view (e : DirEntry) : Z * list Z :=
  (FileType_code (FileType_from (entry_type e)), name_as_bytes e).
Definition entry_len (e : DirEntry) : nat := reclen (name_as_bytes e).
Definition total (ds : list DirEntry) : nat := sum_list_with entry_len ds.

(** The buffer holds the records of [ds] up to its offset. *)
Definition holds (b : DirBuffer) (ds : list DirEntry) : Prop :=
  offset b = total ds ∧ (offset b ≤ length (buf b))%nat ∧
  ∀ fuel rest, decode_dents (length ds + fuel) (take (offset b) (buf b) ++ rest)
    = (view <$> ds) ++ decode_dents fuel rest.

Lemma holds_new ubuf : holds (DirBuffer_new ubuf) [].
Proof. split_and!; [done|simpl; lia|done]. Qed.

Lemma holds_snoc b ds e :
  holds b ds → name_ok (name_as_bytes e) →
  if decide (remaining_space b < entry_len e)%nat then write_dirent e b = (false, b)
  else ∃ b', write_dirent e b = (true, b') ∧ holds b' (ds ++ [e]) ∧
    length (buf b') = length (buf b) ∧ (remaining_space b' < remaining_space b)%nat.
Proof.
  intros (Hoff & Hle & Hdec) Hn. unfold write_dirent, entry_len, remaining_space.
  case_decide as Hfit.
  { unfold write_entry, remaining_space. by rewrite decide_True. }
  destruct (write_entry_record (FileType_from (entry_type e)) (name_as_bytes e) b) as (r & Hr & Hw);
    [lia|].
  pose proof (reclen_bounds (name_as_bytes e)). destruct Hr as [Hrl Hr].
  assert (length (take (offset b) (buf b)) = offset b) as Ht by (rewrite length_take; lia).
  assert (length (take (offset b) (buf b) ++ r ++
    drop (offset b + reclen (name_as_bytes e)) (buf b)) = length (buf b)) as Hlen.
  { rewrite !length_app, Ht, length_drop. lia. }
  eexists. split; [exact Hw|]. simpl. rewrite Hlen. split_and!; [|done|lia].
  split_and!; simpl.
  - unfold total. rewrite sum_list_with_app. simpl. unfold total, entry_len in *. lia.
  - lia.
  - intros fuel rest. rewrite length_app. simpl. rewrite (assoc_L (++)).
    rewrite take_app_length' by (rewrite length_app; lia).
    rewrite <-(assoc_L (++)). replace (length ds + 1 + fuel)%nat with (length ds + S fuel)%nat by lia.
    rewrite Hdec. rewrite (decode_record fuel (FileType_from (entry_type e)) (name_as_bytes e)) by done.
    rewrite fmap_app. by rewrite <-(assoc_L (++)).
Qed.

(** ** The call *)

(** The directory lists [ents], and nothing changes it during the call. *)
Definition listing (ents : list DirEntry) (disk : D) (o : DirObj N) : Prop :=
  contains (d_cap (dir_inner o)) CAP_READ = true ∧
  (∀ i k, 0 ≤ i → node_read_dir (d_node (dir_inner o)) i k disk = Ok (take k (drop (Z.to_nat i) ents))) ∧
  0 ≤ d_entry_idx (dir_inner o) ≤ Z.of_nat (length ents) ∧ Z.of_nat (length ents) < 2 ^ 64 ∧
  Forall (λ e, name_ok (name_as_bytes e)) ents.

(** The entries still to be delivered: the one kept back, then the rest of
    the directory. *)
Definition remaining (ents : list DirEntry) (o : DirObj N) : list DirEntry :=
  option_list (last_dirent o) ++ drop (Z.to_nat (d_entry_idx (dir_inner o))) ents.

Lemma getdents_loop_spec ents disk fuel b ds o :
  listing ents disk o → last_dirent o = None → holds b ds → (remaining_space b < fuel)%nat →
  ∃ b' ds' o', getdents_loop fuel disk (b, o) = (Ok (), (b', o')) ∧
    length (buf b') = length (buf b) ∧ holds b' (ds ++ ds') ∧
    remaining ents o = ds' ++ remaining ents o' ∧
    match last_dirent o' with
    | None => remaining ents o' = []
    | Some e => (remaining_space b' < entry_len e)%nat
    end.
Proof.
  revert b ds o. induction fuel as [|fuel IH]; intros b ds o Hlist Hlast Hb Hfuel; [lia|].
  destruct Hlist as (Hcap & Hdir & Hi & Hbig & Hnames).
  set (i := d_entry_idx (dir_inner o)) in *.
  cbn [getdents_loop]. unfold Directory_read_dir, Directory_access, into_linux. monad.
  rewrite Hcap. fold i. rewrite (Hdir i 1%nat) by lia. simpl.
  destruct (drop (Z.to_nat i) ents) as [|e es] eqn:Hdrop; simpl.
  - exists b, [], (mkDirObj (mkDirectory (d_node (dir_inner o)) (d_cap (dir_inner o)) (as_usize (i + 0))) None).
    rewrite app_nil_r, Hlast. split_and!; [done..| |]; unfold remaining; simpl; fold i.
    + rewrite Hlast, Hdrop. simpl. by rewrite wrapu_id, Z.add_0_r by (split; lia).
    + by rewrite wrapu_id, Z.add_0_r by (split; lia).
  - change (Z.of_nat 1) with 1. assert (drop (Z.to_nat (i + 1)) ents = es) as Hes.
    { replace (Z.to_nat (i + 1)) with (Z.to_nat i + 1)%nat by lia.
      rewrite <-drop_drop, Hdrop. done. }
    assert (i < Z.of_nat (length ents)) as Hlt.
    { apply (f_equal length) in Hdrop. rewrite length_drop in Hdrop. simpl in Hdrop. lia. }
    assert (as_usize (i + 1) = i + 1) as Hi1 by (apply wrapu_id; split; lia).
    assert (name_ok (name_as_bytes e)) as Hne.
    { apply (Forall_drop _ (Z.to_nat i)) in Hnames. rewrite Hdrop in Hnames.
      by apply Forall_cons in Hnames as [? _]. }
    pose proof (holds_snoc b ds e Hb Hne) as Hw. case_decide as Hfit.
    + rewrite Hw. simpl. eexists b, [], _.
      split; [reflexivity|]. rewrite app_nil_r. split_and!; [done..| |done].
      unfold remaining. cbn [dir_inner last_dirent d_entry_idx]. fold i.
      by rewrite Hlast, Hi1, Hes, Hdrop.
    + destruct Hw as (b1 & -> & Hb1 & Hlb1 & Hless). simpl.
      destruct (IH b1 (ds ++ [e]) (mkDirObj (mkDirectory (d_node (dir_inner o))
        (d_cap (dir_inner o)) (as_usize (i + 1))) (last_dirent o))) as (b' & ds' & o' & Hl & Hlen & Hh & Hrem & Hend).
      * rewrite Hi1. split_and!; simpl; [done|done|lia..|done].
      * done.
      * done.
      * lia.
      * exists b', (e :: ds'), o'. split_and!; [done|lia| | |done].
        -- by rewrite <-(assoc_L (++)) in Hh.
        -- unfold remaining in *. simpl in *. fold i. rewrite Hlast in *. simpl in *.
           rewrite Hi1, Hes in Hrem. by rewrite Hdrop, Hrem.
Qed.

Lemma total_nil ds : total ds = 0%nat → ds = [].
Proof.
  destruct ds as [|e ds]; [done|]. unfold total, entry_len. simpl.
  pose proof (reclen_bounds (name_as_bytes e)). lia.
Qed.

(** The entry kept back by the last call is delivered first, or the call
    fails and keeps it. *)
Lemma deliver_last_spec ubuf o :
  Forall (λ e, name_ok (name_as_bytes e)) (option_list (last_dirent o)) →
  let b0 := DirBuffer_new ubuf in
  (∃ e, last_dirent o = Some e ∧ deliver_last (b0, o) = (Err EINVAL, (b0, o)) ∧
     (length ubuf < entry_len e)%nat) ∨
  ∃ b1, deliver_last (b0, o) = (Ok (), (b1, mkDirObj (dir_inner o) None)) ∧
    holds b1 (option_list (last_dirent o)) ∧ length (buf b1) = length ubuf.
Proof.
  intros Hlast b0. pose proof (holds_new ubuf : holds b0 []) as Hb0.
  unfold deliver_last. simpl. destruct o as [inner [e|]]; simpl in *; [|right; by exists b0].
  apply Forall_cons in Hlast as [Hlast _]. pose proof (holds_snoc b0 [] e Hb0 Hlast) as Hw.
  case_decide as Hfit.
  - left. exists e. rewrite Hw. split_and!; [done..|].
    unfold remaining_space in Hfit. simpl in Hfit. lia.
  - right. destruct Hw as (b1 & -> & Hh & Hl & _). by exists b1.
Qed.

(** C26: one call on a directory that lists [ents] either
    - fails with [EINVAL] because the next entry does not fit into the whole
      buffer, and loses no entry, or
    - returns the number of bytes used: the user reads back exactly the next
      entries in order, the others remain to be delivered, the next one would
      not have fitted into what was left, and 0 means the end. *)
Theorem getdents64_delivers (ents : list DirEntry) (disk : D) (o : DirObj N) (ubuf : list Z) :
  listing ents disk o → Forall (λ e, name_ok (name_as_bytes e)) (option_list (last_dirent o)) →
  Z.of_nat (length ubuf) < 2 ^ 63 →
  let '(r, ubuf', o') := sys_getdents64 (Ok ubuf) (Ok ()) disk o in
  (∃ e rest, r = Err EINVAL ∧ remaining ents o = e :: rest ∧
     (length ubuf < entry_len e)%nat ∧ remaining ents o' = remaining ents o) ∨
  (∃ n ds, r = Ok (Z.of_nat n) ∧ n = total ds ∧ length ubuf' = length ubuf ∧
     remaining ents o = ds ++ remaining ents o' ∧
     decode_dents (length ds) (take n ubuf') = view <$> ds ∧
     (∀ e rest, remaining ents o' = e :: rest → (length ubuf - n < entry_len e)%nat) ∧
     (n = 0%nat → remaining ents o = [])).
Proof.
  intros Hlist Hlast Hbig.
  unfold sys_getdents64, getdents_body, mbind, st_bind, st_get, st_err, mret, st_ret.
  destruct (deliver_last_spec ubuf o Hlast) as [(e & He & Hd & Hfit)|(b1 & Hd & Hb1 & Hl1)];
    rewrite Hd.
  { left. exists e, (drop (Z.to_nat (d_entry_idx (dir_inner o))) ents).
    split_and!; [done| |done..]. unfold remaining. by rewrite He. }
  cbn [fst]. destruct (getdents_loop_spec ents disk (S (length (buf b1))) b1
    (option_list (last_dirent o)) (mkDirObj (dir_inner o) None))
    as (b' & ds' & o' & -> & Hlen & (Hoff & Hle & Hdec) & Hrem & Hend);
    [done|done|done|unfold remaining_space; lia|].
  set (ds := option_list (last_dirent o) ++ ds') in *.
  assert (remaining ents o = ds ++ remaining ents o') as Hrem'.
  { unfold remaining at 1 in Hrem. simpl in Hrem. unfold remaining at 1.
    by rewrite Hrem, (assoc_L (++)). }
  assert (as_isize (Z.of_nat (offset b')) = Z.of_nat (offset b')) as Hret.
  { apply wraps_id; [lia|]. unfold in_s. simpl. rewrite Hlen, Hl1 in Hle. lia. }
  unfold remaining_space in Hend. cbn [fst snd]. destruct (last_dirent o') as [e|] eqn:He.
  - destruct (bool_decide (offset b' = 0%nat)) eqn:Hz.
    + apply bool_decide_eq_true in Hz. rewrite (bool_decide_true (is_Some (Some e))) by by eexists. left.
      rewrite (total_nil ds) in Hrem' by congruence.
      exists e, (drop (Z.to_nat (d_entry_idx (dir_inner o'))) ents).
      split_and!; [done| |lia|done]. rewrite Hrem'. unfold remaining. by rewrite He.
    + apply bool_decide_eq_false in Hz. rewrite andb_false_r. right. exists (offset b'), ds.
      split_and!; [by rewrite Hret|done|lia|done| | |by intros ?%Hz].
      * specialize (Hdec 0%nat []). rewrite Nat.add_0_r, !app_nil_r in Hdec. exact Hdec.
      * intros e' rest Hr. unfold remaining in Hr. rewrite He in Hr. simplify_eq/=. lia.
  - rewrite (bool_decide_false (is_Some None)) by by intros []. right. exists (offset b'), ds.
    split_and!; [by rewrite Hret|done|lia|done| |by rewrite Hend|].
    + specialize (Hdec 0%nat []). rewrite Nat.add_0_r, !app_nil_r in Hdec. exact Hdec.
    + intros Hz. rewrite Hrem', (total_nil ds) by congruence. done.
Qed.

End dents.

(** ** Witness *)

Definition mem_pad (o : nat) : list Z := [0; 0; 0; 0; 0].
Definition mem_dir : DirObj (Z * str) := mkDirObj (mkDirectory (0, []) CAP_READ 0) None.

#[local] Existing Instance SampleErrno.

(** The directory of a file system with two files, into a buffer for one. *)
Definition mem_two : mem_disk := [((0, $"ab"), (NodeFile, [])); ((0, $"c"), (NodeDir, []))].
Definition mem_ents : list DirEntry := [mkDirEntry NodeFile [97; 98]; mkDirEntry NodeDir [99]].

Lemma getdents64_delivers_witness :
  let '(r, ubuf', o') := sys_getdents64 mem_pad (Ok (replicate 30 0)) (Ok ()) mem_two mem_dir in
  r = Ok 24 ∧ decode_dents 1 (take 24 ubuf') = [(8, [97; 98])] ∧
  remaining mem_ents o' = [mkDirEntry NodeDir [99]].
Proof.
  pose proof (getdents64_delivers mem_pad (λ _, eq_refl) mem_ents mem_two mem_dir (replicate 30 0)) as Hg.
  destruct (sys_getdents64 mem_pad (Ok (replicate 30 0)) (Ok ()) mem_two mem_dir) as [[r u] o'] eqn:Hs.
  vm_compute in Hs. injection Hs as <- <- <-.
  destruct Hg as [(e & rest & ? & _)|(n & ds & Hn & _ & _ & Hrem & Hdec & _)].
  - split_and!; [reflexivity| |done..|].
    + intros i k Hi. reflexivity.
    + repeat constructor; vm_compute; set_solver.
  - apply Forall_nil_2.
  - reflexivity.
  - discriminate.
  - assert (n = 24%nat) as -> by (injection Hn; lia).
    split_and!; [reflexivity| |reflexivity].
    vm_compute in Hrem. destruct ds as [|e1 [|e2 ds]]; try discriminate.
    injection Hrem as <-. exact Hdec.
Defined.
