(* ===== verification/Disk.v ===== *)
(** * The block device cursor ([src/.arceos/modules/axfs/src/dev.rs])

    [Disk] reads and writes a block device at a byte position, and the two
    file system crates use it through the traits implemented for it in
    [fs/fatfs.rs] and [fs/lwext4_rust.rs]. The reference is a flat array of
    bytes with a position ([Flat]); every operation refines it. *)

From S2P Require Import Prelude Abi.

#[local] Open Scope Z_scope.

Definition BLOCK_SIZE : Z := 512.
Definition BLOCK : nat := 512.

(** [axdriver]'s block devices: [None] is a device error. A block that was
    read is the contents of the device; a write that succeeds changes one
    block. *)
Class BlockDevice (Dev : Type) := {
  num_blocks : Dev → Z;
  block_size : Dev → Z;
  contents : Dev → Z → list Z;
  read_block : Dev → Z → option (list Z);
  write_block : Dev → Z → list Z → option () * Dev;
  contents_length d i : length (contents d i) = BLOCK;
  num_blocks_range d : 0 ≤ num_blocks d;
  read_block_ok d i bs : read_block d i = Some bs → bs = contents d i;
  write_block_ok d i bs d' : write_block d i bs = (Some (), d') → length bs = BLOCK →
    num_blocks d' = num_blocks d ∧
    ∀ j, contents d' j = if decide (j = i) then bs else contents d j;
}.

Section disk.
Context {Dev : Type} `{HD : !BlockDevice Dev}.

Record Disk := mkDisk { block_id : Z; offset : Z; dev : Dev }.

Inductive DevError : Type := DevErr.
Abbreviation Dst := (st Disk DevError).

Definition Disk_new (d : Dev) : res DevError Disk :=
  _ ← rassert (BLOCK_SIZE =? block_size d); Ok (mkDisk 0 0 d).
Definition size (d : Disk) : Z := as_u64 (num_blocks (dev d) * BLOCK_SIZE).
Definition position (d : Disk) : Z := as_u64 (as_u64 (block_id d * BLOCK_SIZE) + offset d).
Definition set_position (pos : Z) (d : Disk) : Disk :=
  mkDisk (pos / BLOCK_SIZE) (pos mod BLOCK_SIZE) (dev d).

(** [offset += count], with the step to the next block. *)
Definition advance (count : Z) (d : Disk) : Disk :=
  let offset := offset d + count in
  if BLOCK_SIZE <=? offset then mkDisk (as_u64 (block_id d + 1)) (offset - BLOCK_SIZE) (dev d)
  else mkDisk (block_id d) offset (dev d).

(** The bytes read are the result: they go to the front of the buffer, whose
    length is the argument. *)
Definition read_one (len : Z) : Dst (list Z) := λ d,
  match read_block (dev d) (block_id d) with
  | None => (Err DevErr, d)
  | Some data =>
      if (offset d =? 0) && (BLOCK_SIZE <=? len)
      then (Ok data, mkDisk (as_u64 (block_id d + 1)) (offset d) (dev d))
      else
        let count := Z.min len (BLOCK_SIZE - offset d) in
        (Ok (take (Z.to_nat count) (drop (Z.to_nat (offset d)) data)), advance count d)
  end.

Definition write_one (buf : list Z) : Dst Z := λ d,
  let len := Z.of_nat (length buf) in
  if (offset d =? 0) && (BLOCK_SIZE <=? len) then
    match write_block (dev d) (block_id d) (take BLOCK buf) with
    | (None, d') => (Err DevErr, mkDisk (block_id d) (offset d) d')
    | (Some _, d') => (Ok BLOCK_SIZE, mkDisk (as_u64 (block_id d + 1)) (offset d) d')
    end
  else
    let count := Z.min len (BLOCK_SIZE - offset d) in
    match read_block (dev d) (block_id d) with
    | None => (Err DevErr, d)
    | Some data =>
        let data := splice (Z.to_nat (offset d)) (take (Z.to_nat count) buf) data in
        match write_block (dev d) (block_id d) data with
        | (None, d') => (Err DevErr, mkDisk (block_id d) (offset d) d')
        | (Some _, d') => (Ok count, advance count (mkDisk (block_id d) (offset d) d'))
        end
    end.

Definition read_offset (off : Z) (d : Disk) : res DevError (list Z) :=
  unwrap_opt (read_block (dev d) (off / BLOCK_SIZE)).
Definition write_offset (off : Z) (buf : list Z) : Dst Z := λ d,
  if negb (Z.of_nat (length buf) =? BLOCK_SIZE) then (Panic, d)
  else if negb (off mod BLOCK_SIZE =? 0) then (Panic, d)
  else match write_block (dev d) (off / BLOCK_SIZE) buf with
       | (Some _, d') => (Ok (Z.of_nat (length buf)), mkDisk (block_id d) (offset d) d')
       | (None, d') => (Panic, mkDisk (block_id d) (offset d) d')
       end.

(** ** The loops of [fatfs::Read], [fatfs::Write] and [KernelDevOp]

    Both file systems have the same loops, and differ in the error value.
    Every turn shortens the buffer. *)
Fixpoint read_loop (fuel : nat) (len : Z) : Dst (list Z) :=
  match fuel with
  | O => st_panic
  | S fuel' =>
      if len =? 0 then mret [] else
      bs ← read_one len;
      match bs with
      | [] => mret []
      | _ => rest ← read_loop fuel' (len - Z.of_nat (length bs)); mret (bs ++ rest)
      end
  end.
Fixpoint write_loop (fuel : nat) (buf : list Z) : Dst Z :=
  match fuel with
  | O => st_panic
  | S fuel' =>
      match buf with
      | [] => mret 0
      | _ =>
          n ← write_one buf;
          if n =? 0 then mret 0 else
          m ← write_loop fuel' (drop (Z.to_nat n) buf); mret (n + m)
      end
  end.

Definition Disk_read (len : nat) : Dst (list Z) := read_loop (S len) (Z.of_nat len).
Definition Disk_write (buf : list Z) : Dst Z := write_loop (S (length buf)) buf.

(** [u64::checked_add_signed]. *)
Definition checked_add_signed (x off : Z) : option Z :=
  if decide (0 ≤ x + off < 2 ^ 64) then Some (x + off) else None.

Inductive SeekFrom : Type := SeekStart (pos : Z) | SeekCurrent (off : Z) | SeekEnd (off : Z).

(** [Seek for Disk] of the FAT file system. *)
Definition Disk_seek (pos : SeekFrom) : Dst Z := λ d,
  let new_pos := match pos with
                 | SeekStart pos => Some pos
                 | SeekCurrent off => checked_add_signed (position d) off
                 | SeekEnd off => checked_add_signed (size d) off
                 end in
  match new_pos with
  | None => (Err DevErr, d)
  | Some p => (Ok p, set_position p d)
  end.

(** [KernelDevOp::seek] of the ext4 file system: signed positions. *)
Definition SEEK_SET : Z := 0.
Definition SEEK_CUR : Z := 1.
Definition SEEK_END : Z := 2.
Definition Disk_seek_ext4 (off whence : Z) : Dst Z := λ d,
  let whence := as_u32 whence in
  let new_pos := if whence =? SEEK_CUR then as_i64 <$> checked_add_signed (position d) off
                 else if whence =? SEEK_END then as_i64 <$> checked_add_signed (size d) off
                 else Some off in
  match new_pos with
  | None => (Err DevErr, d)
  | Some p => (Ok p, set_position (as_u64 p) d)
  end.

(** ** The flat device *)

Record Flat := mkFlat { f_bytes : Z → Z; f_pos : Z; f_size : Z }.

(** The bytes at the position, and a write there. *)
Definition flat_read (n : nat) (f : Flat) : list Z * Flat :=
  ((λ i, f_bytes f (f_pos f + Z.of_nat i)) <$> seq 0 n,
   mkFlat (f_bytes f) (f_pos f + Z.of_nat n) (f_size f)).
Definition flat_write (bs : list Z) (f : Flat) : Flat :=
  mkFlat (λ x, if decide (f_pos f ≤ x < f_pos f + Z.of_nat (length bs))
               then default 0 (bs !! Z.to_nat (x - f_pos f)) else f_bytes f x)
    (f_pos f + Z.of_nat (length bs)) (f_size f).

(** The byte of a device at a position. *)
Definition byte_at (d : Dev) (x : Z) : Z :=
  default 0 (contents d (x / BLOCK_SIZE) !! Z.to_nat (x mod BLOCK_SIZE)).

(** A disk stands for a flat device: the cursor is a position inside a block
    and the bytes agree. *)
Record stands_for (d : Disk) (f : Flat) : Prop := {
  sf_offset : 0 ≤ offset d < BLOCK_SIZE;
  sf_block : 0 ≤ block_id d;
  sf_pos : f_pos f = block_id d * BLOCK_SIZE + offset d;
  sf_bytes x : 0 ≤ x → byte_at (dev d) x = f_bytes f x;
  sf_size : f_size f = num_blocks (dev d) * BLOCK_SIZE;
}.

(** Flat devices that agree on all positions cannot be told apart. *)
Definition flat_equiv (f g : Flat) : Prop :=
  f_pos f = f_pos g ∧ f_size f = f_size g ∧ ∀ x, 0 ≤ x → f_bytes f x = f_bytes g x.
#[global] Instance flat_equiv_equivalence : Equivalence flat_equiv.
Proof.
  split.
  - by intros f.
  - intros f g (? & ? & Hb). split_and!; [done..|]. intros x Hx. by rewrite Hb.
  - intros f g h (? & ? & Hb) (? & ? & Hb'). split_and!; [congruence..|]. intros x Hx. by rewrite Hb, Hb'.
Qed.
#[global] Instance stands_for_proper : Proper ((=) ==> flat_equiv ==> iff) stands_for.
Proof.
  intros d ? <- f g Hfg.
  assert (∀ f g, flat_equiv f g → stands_for d f → stands_for d g) as Hone.
  { clear. intros f g (Hp & Hs & Hb) []. split; [done..|congruence| |congruence].
    intros x Hx. rewrite <-Hb by done. auto. }
  split; apply Hone; [done|by symmetry].
Qed.

(** ** One block *)

Lemma byte_in_block (d : Dev) b o i :
  0 ≤ b → 0 ≤ o → 0 ≤ i → o + i < BLOCK_SIZE →
  byte_at d (b * BLOCK_SIZE + o + i) = default 0 (contents d b !! Z.to_nat (o + i)).
Proof.
  intros Hb Ho Hi Hlt. unfold byte_at, BLOCK_SIZE in *.
  replace (b * 512 + o + i) with (o + i + b * 512) by lia.
  rewrite Z.div_add, Z.mod_add, Z.div_small, Z.mod_small by lia. done.
Qed.

(** The part of a block from [o] on, as bytes of the device. *)
Lemma block_bytes d f n :
  stands_for d f → Z.of_nat n ≤ BLOCK_SIZE - offset d →
  take n (drop (Z.to_nat (offset d)) (contents (dev d) (block_id d))) = (flat_read n f).1.
Proof.
  intros [Ho Hb Hp Hx _] Hn. pose proof (contents_length (dev d) (block_id d)) as Hl.
  unfold BLOCK_SIZE, BLOCK in *. apply list_eq_same_length with n.
  { simpl. by rewrite length_fmap, length_seq. }
  { rewrite length_take, length_drop, Hl. lia. }
  intros i x y Hi Hx' Hy. rewrite lookup_take_lt, lookup_drop in Hx' by done.
  simpl in Hy. rewrite list_lookup_fmap, lookup_seq_lt in Hy by done. injection Hy as <-.
  rewrite <-Hx, Hp, byte_in_block by (unfold BLOCK_SIZE; lia).
  replace (Z.to_nat (offset d + Z.of_nat i)) with (Z.to_nat (offset d) + i)%nat by lia. by rewrite Hx'.
Qed.

(** The cursor after [n] bytes of the current block. *)
Lemma advance_stands_for d f n :
  stands_for d f → 0 ≤ n ≤ BLOCK_SIZE - offset d → f_pos f + n < 2 ^ 64 →
  stands_for (advance n d) (mkFlat (f_bytes f) (f_pos f + n) (f_size f)).
Proof.
  intros [Ho Hb Hp Hx Hs] Hn Hlt. unfold advance, BLOCK_SIZE in *.
  destruct (Z.leb_spec 512 (offset d + n)); split; simpl; unfold BLOCK_SIZE in *; try lia; try done; ints; lia.
Qed.

Lemma whole_block_advance d : offset d = 0 → 0 ≤ block_id d →
  mkDisk (as_u64 (block_id d + 1)) (offset d) (dev d) = advance BLOCK_SIZE d.
Proof. intros Ho _. unfold advance. rewrite Ho. done. Qed.

Lemma read_one_refines d f len :
  stands_for d f → 0 < len → f_pos f + len < 2 ^ 64 →
  match read_one len d with
  | (Ok bs, d') => ∃ n, bs = (flat_read n f).1 ∧ (0 < n)%nat ∧ Z.of_nat n ≤ len ∧
      stands_for d' (flat_read n f).2
  | (Err _, d') => d' = d
  | (Panic, _) => False
  end.
Proof.
  intros Hsf Hlen Hpos. pose proof Hsf as [Ho Hb _ _ _]. unfold read_one.
  destruct (read_block (dev d) (block_id d)) as [data|] eqn:Hr; [|done]. apply read_block_ok in Hr as ->.
  assert (∀ n, 0 < n → n ≤ len → n ≤ BLOCK_SIZE - offset d →
    ∃ m, take (Z.to_nat n) (drop (Z.to_nat (offset d)) (contents (dev d) (block_id d))) = (flat_read m f).1 ∧
      (0 < m)%nat ∧ Z.of_nat m ≤ len ∧ stands_for (advance n d) (flat_read m f).2) as Hpart.
  { intros n Hn Hle Hblk. exists (Z.to_nat n). split_and!; [by apply block_bytes; [|lia]|lia..|].
    simpl. rewrite Z2Nat.id by lia. apply advance_stands_for; [done|lia..]. }
  destruct (Z.eqb_spec (offset d) 0) as [Ho0|], (Z.leb_spec BLOCK_SIZE len); cbn [andb].
  - rewrite (whole_block_advance d) by done. destruct (Hpart BLOCK_SIZE) as (m & Hm & Hrest); [lia|done|lia|].
    exists m. split; [|done]. rewrite <-Hm, Ho0, drop_0. by rewrite take_ge by by rewrite contents_length.
  - apply Hpart; lia.
  - apply Hpart; lia.
  - apply Hpart; lia.
Qed.

(** A write inside the current block. *)
Lemma write_in_block d f bs d' :
  stands_for d f → Z.of_nat (length bs) ≤ BLOCK_SIZE - offset d →
  num_blocks d' = num_blocks (dev d) →
  (∀ j, contents d' j = if decide (j = block_id d)
    then splice (Z.to_nat (offset d)) bs (contents (dev d) (block_id d)) else contents (dev d) j) →
  stands_for (mkDisk (block_id d) (offset d) d')
    (mkFlat (f_bytes (flat_write bs f)) (f_pos f) (f_size f)).
Proof.
  intros [Ho Hb Hp Hx Hs] Hlen Hnum Hc. pose proof (contents_length (dev d) (block_id d)) as Hl.
  unfold BLOCK, BLOCK_SIZE in *.
  split; simpl; unfold BLOCK_SIZE; [done..| |by rewrite Hnum].
  intros x Hx0. rewrite <-Hx by done. unfold byte_at, BLOCK_SIZE. rewrite Hc, Hp.
  pose proof (Z_div_mod_eq_full x 512). pose proof (Z.mod_pos_bound x 512 ltac:(done)).
  destruct (decide (x / 512 = block_id d)) as [Hq|Hq].
  - rewrite Hq in *. rewrite splice_lookup by lia. destruct (decide (_ ≤ Z.to_nat _ < _)%nat).
    + rewrite decide_True by lia. do 2 f_equal. lia.
    + rewrite decide_False by lia. done.
  - rewrite decide_False by lia. done.
Qed.

Lemma splice_all {A} (bs buf : list A) : length bs = length buf → splice 0 bs buf = bs.
Proof. intros Hl. unfold splice. rewrite take_0. simpl. by rewrite drop_ge, app_nil_r by lia. Qed.

Lemma write_one_refines d f buf :
  stands_for d f → buf ≠ [] → f_pos f + Z.of_nat (length buf) < 2 ^ 64 →
  match write_one buf d with
  | (Ok n, d') => 0 < n ≤ Z.of_nat (length buf) ∧ stands_for d' (flat_write (take (Z.to_nat n) buf) f)
  | (Err _, _) => True
  | (Panic, _) => False
  end.
Proof.
  intros Hsf Hne Hpos. pose proof Hsf as [Ho Hb _ _ _].
  assert (0 < Z.of_nat (length buf)) as Hlen by (destruct buf; simpl; [done|lia]).
  assert (∀ n data d', 0 < n → n ≤ Z.of_nat (length buf) → n ≤ BLOCK_SIZE - offset d →
    data = splice (Z.to_nat (offset d)) (take (Z.to_nat n) buf) (contents (dev d) (block_id d)) →
    write_block (dev d) (block_id d) data = (Some (), d') →
    stands_for (advance n (mkDisk (block_id d) (offset d) d')) (flat_write (take (Z.to_nat n) buf) f)) as Hpart.
  { intros n data d' Hn Hle Hblk Hdata Hw.
    assert (length (take (Z.to_nat n) buf) = Z.to_nat n) as Htl by (rewrite length_take; lia).
    apply write_block_ok in Hw as [Hnum Hc].
    2:{ rewrite Hdata, length_splice; [apply contents_length|].
        rewrite contents_length. unfold BLOCK, BLOCK_SIZE in *. lia. }
    rewrite Hdata in Hc. apply (write_in_block d f) in Hc; [|done|lia|done].
    apply (advance_stands_for _ _ n) in Hc; [|simpl; lia..]. unfold flat_write at 1.
    rewrite Htl, Z2Nat.id by lia. simpl in Hc. rewrite Htl in Hc. rewrite Z2Nat.id in Hc by lia. exact Hc. }
  unfold write_one.
  destruct (Z.eqb_spec (offset d) 0) as [Ho0|], (Z.leb_spec BLOCK_SIZE (Z.of_nat (length buf))); cbn [andb].
  1:{ destruct (write_block _ _ _) as [[[]|] d'] eqn:Hw; [|done]. split; [unfold BLOCK_SIZE in *; lia|].
      specialize (Hpart BLOCK_SIZE (take BLOCK buf) d'). unfold advance in Hpart. simpl in Hpart.
      rewrite Ho0 in *. apply Hpart; try done; [lia..|].
      rewrite splice_all; [done|]. rewrite length_take, contents_length. unfold BLOCK, BLOCK_SIZE in *. lia. }
  all: destruct (read_block (dev d) (block_id d)) as [data|] eqn:Hr; [|done]; apply read_block_ok in Hr as ->;
    destruct (write_block _ _ _) as [[[]|] d'] eqn:Hw; [|done]; (split; [lia|]);
    eapply Hpart; [..|exact Hw]; lia || done.
Qed.

(** ** The loops *)

Lemma flat_read_app n m f :
  (flat_read (n + m) f).1 = (flat_read n f).1 ++ (flat_read m (flat_read n f).2).1 ∧
  (flat_read (n + m) f).2 = (flat_read m (flat_read n f).2).2.
Proof.
  simpl. split; [|f_equal; lia]. rewrite seq_app, fmap_app. f_equal.
  rewrite (Nat.add_comm 0 n), <-(fmap_add_seq n), <-list_fmap_compose. apply list_fmap_ext.
  intros i x _. simpl. f_equal. lia.
Qed.

Lemma flat_write_app a b f : flat_equiv (flat_write b (flat_write a f)) (flat_write (a ++ b) f).
Proof.
  unfold flat_write. split_and!; simpl; rewrite ?length_app; [lia|done|]. intros x Hx.
  destruct (decide (f_pos f + _ ≤ x < _)) as [Hb|Hb].
  - rewrite decide_True by lia. rewrite lookup_app_r by lia. do 2 f_equal. lia.
  - destruct (decide (f_pos f ≤ x < f_pos f + Z.of_nat (length a))).
    + rewrite decide_True by lia. by rewrite lookup_app_l by lia.
    + by rewrite decide_False by lia.
Qed.

Lemma flat_write_nil f : flat_equiv (flat_write [] f) f.
Proof.
  unfold flat_write. split_and!; simpl; [lia|done|]. intros x _. by rewrite decide_False by lia.
Qed.

Lemma read_one_dev len d : dev (read_one len d).2 = dev d.
Proof. unfold read_one, advance. by repeat case_match; simplify_eq/=. Qed.

Lemma read_loop_refines fuel n d f :
  stands_for d f → (n < fuel)%nat → f_pos f + Z.of_nat n < 2 ^ 64 →
  match read_loop fuel (Z.of_nat n) d with
  | (Ok bs, d') => bs = (flat_read n f).1 ∧ stands_for d' (flat_read n f).2
  | (Err _, d') => dev d' = dev d
  | (Panic, _) => False
  end.
Proof.
  revert n d f. induction fuel as [|fuel IH]; intros n d f Hsf Hn Hpos; [lia|]. cbn [read_loop].
  destruct (Z.eqb_spec (Z.of_nat n) 0) as [Hz|Hz].
  { assert (n = 0%nat) as -> by lia. split; [done|]. simpl. rewrite Z.add_0_r. by destruct f. }
  unfold mbind, st_bind. pose proof (read_one_refines d f (Z.of_nat n) Hsf ltac:(lia) Hpos) as H1.
  pose proof (read_one_dev (Z.of_nat n) d) as Hdev.
  destruct (read_one (Z.of_nat n) d) as [[bs|e|] d1]; cbn [snd] in Hdev; [|done..].
  destruct H1 as (k & -> & Hk & Hkn & Hsf1).
  assert (length (flat_read k f).1 = k) as Hlk by (simpl; by rewrite length_fmap, length_seq).
  destruct (flat_read k f).1 as [|b bs] eqn:Hbs; [simpl in Hlk; lia|]. rewrite <-Hbs in *. clear Hbs b bs.
  rewrite Hlk. replace (Z.of_nat n - Z.of_nat k) with (Z.of_nat (n - k)) by lia.
  specialize (IH (n - k)%nat d1 (flat_read k f).2 Hsf1).
  destruct (read_loop fuel (Z.of_nat (n - k)) d1) as [[rest|e|] d2].
  - destruct IH as [-> Hsf2]; [lia|simpl; lia|]. destruct (flat_read_app k (n - k) f) as [Ha Hb].
    replace (k + (n - k))%nat with n in * by lia. by rewrite Ha, Hb.
  - rewrite IH; [done|lia|simpl; lia].
  - apply IH; [lia|simpl; lia].
Qed.

Lemma write_loop_refines fuel buf d f :
  stands_for d f → (length buf < fuel)%nat → f_pos f + Z.of_nat (length buf) < 2 ^ 64 →
  match write_loop fuel buf d with
  | (Ok n, d') => n = Z.of_nat (length buf) ∧ stands_for d' (flat_write buf f)
  | (Err _, _) => True
  | (Panic, _) => False
  end.
Proof.
  revert buf d f. induction fuel as [|fuel IH]; intros buf d f Hsf Hn Hpos; [lia|]. cbn [write_loop].
  destruct buf as [|b buf0]; [split; [done|by rewrite flat_write_nil]|].
  set (buf := b :: buf0) in *. unfold mbind, st_bind.
  pose proof (write_one_refines d f buf Hsf ltac:(done) Hpos) as H1.
  destruct (write_one buf d) as [[n|e|] d1]; [|done..]. destruct H1 as [Hr Hsf1].
  destruct (Z.eqb_spec n 0); [lia|].
  assert (length (take (Z.to_nat n) buf) = Z.to_nat n) as Hlt by (rewrite length_take; lia).
  specialize (IH (drop (Z.to_nat n) buf) d1 _ Hsf1).
  destruct (write_loop fuel _ d1) as [[m|e|] d2]; [|done|].
  - destruct IH as [-> Hsf2]; [rewrite length_drop; lia|rewrite length_drop; cbn [flat_write f_pos]; rewrite Hlt; lia|].
    rewrite length_drop. split; [lia|]. by rewrite flat_write_app, take_drop in Hsf2.
  - apply IH; [rewrite length_drop; lia|rewrite length_drop; cbn [flat_write f_pos]; rewrite Hlt; lia].
Qed.

Lemma set_position_stands_for d f p :
  stands_for d f → 0 ≤ p → stands_for (set_position p d) (mkFlat (f_bytes f) p (f_size f)).
Proof.
  intros [_ _ _ Hx Hs] Hp. pose proof (Z_div_mod_eq_full p 512). pose proof (Z.mod_pos_bound p 512 ltac:(done)).
  split; simpl; unfold BLOCK_SIZE; try done; lia.
Qed.

(** C15: the disk refines a flat array of bytes with a position. A read of any
    length, across blocks, gives the bytes at the position and moves it; a
    write changes exactly those bytes; a seek moves the position. The loops
    end, and nothing panics. When the device fails on a read its contents are
    unchanged. *)
Theorem disk_refines_flat (d : Disk) (f : Flat) (n : nat) (buf : list Z) (p : Z) :
  stands_for d f →
  (f_pos f + Z.of_nat n < 2 ^ 64 →
   match Disk_read n d with
   | (Ok bs, d') => bs = (flat_read n f).1 ∧ stands_for d' (flat_read n f).2
   | (Err _, d') => dev d' = dev d
   | (Panic, _) => False
   end) ∧
  (f_pos f + Z.of_nat (length buf) < 2 ^ 64 →
   match Disk_write buf d with
   | (Ok m, d') => m = Z.of_nat (length buf) ∧ stands_for d' (flat_write buf f)
   | (Err _, _) => True
   | (Panic, _) => False
   end) ∧
  (in_u 64 p → ∃ d', Disk_seek (SeekStart p) d = (Ok p, d') ∧
     stands_for d' (mkFlat (f_bytes f) p (f_size f))).
Proof.
  intros Hsf. split_and!.
  - intros Hpos. apply read_loop_refines; [done|lia|done].
  - intros Hpos. apply write_loop_refines; [done|lia|done].
  - intros [Hp _]. eexists. split; [done|]. by apply set_position_stands_for.
Qed.

(** what is written is read back. *)
Theorem disk_write_read_back (d d1 d2 d3 : Disk) (f : Flat) (buf got : list Z) (n m : Z) :
  stands_for d f → f_pos f + Z.of_nat (length buf) < 2 ^ 64 →
  Disk_write buf d = (Ok n, d1) → Disk_seek (SeekStart (position d)) d1 = (Ok m, d2) →
  Disk_read (length buf) d2 = (Ok got, d3) → got = buf.
Proof.
  intros Hsf Hpos Hw Hs Hr.
  pose proof (write_loop_refines (S (length buf)) buf d f Hsf ltac:(lia) Hpos) as Hw'.
  unfold Disk_write in Hw. rewrite Hw in Hw'. destruct Hw' as [_ Hsf1]. injection Hs as _ <-.
  assert (position d = f_pos f) as Hpd.
  { destruct Hsf as [Ho Hb Hp _ _]. unfold position, BLOCK_SIZE in *. ints. done. }
  assert (0 ≤ f_pos f) as Hp0. { destruct Hsf as [? ? -> _ _]. unfold BLOCK_SIZE. lia. }
  apply (set_position_stands_for _ _ (f_pos f)) in Hsf1; [|done].
  pose proof (read_loop_refines (S (length buf)) (length buf) _ _ Hsf1 ltac:(lia) Hpos) as Hr'.
  unfold Disk_read in Hr. rewrite Hpd in Hr. rewrite Hr in Hr'. destruct Hr' as [-> _].
  apply list_eq_same_length with (length buf); [done|simpl; by rewrite length_fmap, length_seq|].
  intros i x y Hi Hx Hy. simpl in Hx. rewrite list_lookup_fmap, lookup_seq_lt in Hx by done. injection Hx as <-.
  simpl. rewrite decide_True by lia. rewrite Z.add_simpl_l, Nat2Z.id, Hy. done.
Qed.

(** The ext4 driver takes positions as they come: a negative offset from the
    start is accepted and puts the cursor beyond every device. *)
Theorem ext4_seek_accepts_negative (d : Disk) (off : Z) :
  - 2 ^ 63 ≤ off < 0 →
  ∃ d', Disk_seek_ext4 off SEEK_SET d = (Ok off, d') ∧ 2 ^ 63 ≤ block_id d' * BLOCK_SIZE + offset d'.
Proof.
  intros Hoff. eexists. split; [done|]. simpl.
  pose proof (Z_div_mod_eq_full (as_u64 off) 512). unfold BLOCK_SIZE.
  assert (as_u64 off = off + 2 ^ 64) as Hw; [|lia].
  unfold wrapu. rewrite <-(Z_mod_plus_full off 1), Z.mod_small; lia.
Qed.

End disk.

(** ** A device of two blocks *)

Record Blocks := mkBlocks { b_data : Z → list Z; b_num : Z }.
Definition pad (l : list Z) : list Z := take BLOCK (l ++ replicate BLOCK 0).
#[global, program] Instance BlocksDevice : BlockDevice Blocks := {|
  num_blocks d := Z.max 0 (b_num d);
  block_size d := 512;
  contents d i := pad (b_data d i);
  read_block d i := if decide (0 ≤ i < b_num d) then Some (pad (b_data d i)) else None;
  write_block d i bs :=
    if decide (0 ≤ i < b_num d)
    then (Some (), mkBlocks (λ j, if decide (j = i) then bs else b_data d j) (b_num d)) else (None, d);
|}.
Next Obligation. intros d i. unfold pad. rewrite length_take, length_app, length_replicate. lia. Qed.
Next Obligation. intros d. simpl. lia. Qed.
Next Obligation. intros d i bs. simpl. case_decide; [|done]. by intros [= <-]. Qed.
Next Obligation.
  intros d i bs d'. simpl. case_decide; [|done]. intros [= <-] Hl. simpl. split; [done|].
  intros j. case_decide; [|done]. unfold pad. by rewrite take_app_length'.
Qed.

Definition sample_disk : Disk (Dev:=Blocks) := mkDisk 0 510 (mkBlocks (λ i, [i; 2; 3]) 2).
Definition sample_flat : Flat :=
  mkFlat (byte_at (dev sample_disk)) 510 1024.
Lemma sample_stands_for : stands_for sample_disk sample_flat.
Proof. by split. Qed.

Lemma disk_refines_flat_witness :
  (Disk_read 4 sample_disk).1 = Ok (flat_read 4 sample_flat).1.
Proof.
  destruct (disk_refines_flat sample_disk sample_flat 4 [] 0 sample_stands_for) as (Hr & _ & _).
  specialize (Hr ltac:(vm_compute; done)).
  assert ((Disk_read 4 sample_disk).1 = Ok [0; 0; 1; 2]) as Hok by (vm_compute; reflexivity).
  destruct (Disk_read 4 sample_disk) as [r d']. simpl in Hok. subst r. destruct Hr as [Heq _].
  by rewrite <-Heq.
Defined.

Lemma disk_write_read_back_witness :
  ∃ d1 d2 d3, Disk_write [7; 8; 9] sample_disk = (Ok 3, d1) ∧
    Disk_seek (SeekStart 510) d1 = (Ok 510, d2) ∧ Disk_read 3 d2 = (Ok [7; 8; 9], d3).
Proof.
  destruct (Disk_write [7; 8; 9] sample_disk) as [r1 d1] eqn:H1.
  destruct (Disk_seek (SeekStart 510) d1) as [r2 d2] eqn:H2.
  destruct (Disk_read 3 d2) as [r3 d3] eqn:H3.
  assert (d1 = (Disk_write [7; 8; 9] sample_disk).2) as Hd1 by by rewrite H1.
  assert (r1 = Ok 3) as -> by (change r1 with (r1, d1).1; rewrite <-H1; vm_compute; reflexivity).
  injection H2 as <- <-. exists d1, (set_position 510 d1), d3. split_and!; [done..|].
  assert (∃ bs, r3 = Ok bs) as [bs ->].
  { change r3 with (r3, d3).1. rewrite <-H3, Hd1. vm_compute. by eexists. }
  rewrite H3. do 2 f_equal.
  exact (disk_write_read_back sample_disk d1 (set_position 510 d1) d3 sample_flat [7; 8; 9] bs 3 510
    sample_stands_for ltac:(vm_compute; done) H1 eq_refl H3).
Defined.
