(* ===== verification/DiskFs.v ===== *)
(** * The file systems on a disk

    [src/.arceos/modules/axfs/src/fs/lwext4_rust.rs] and [fs/fatfs.rs]: the
    nodes these two modules give to the root directory. The file systems
    themselves are the crates [lwext4_rust] and [fatfs], the classes [Lwext4]
    and [Fatfs]. *)

From S2P Require Import Prelude Abi Str Vfs.

#[local] Open Scope Z_scope.

(** The other kinds of nodes, by their codes. *)
Definition NodeFifo : VfsNodeType := NodeOther 1.
Definition NodeCharDevice : VfsNodeType := NodeOther 2.
Definition NodeBlockDevice : VfsNodeType := NodeOther 6.
Definition NodeSymLink : VfsNodeType := NodeOther 10.
Definition NodeSocket : VfsNodeType := NodeOther 12.

Record VfsNodeAttr := mkAttr { va_perm : Z; va_type : VfsNodeType; va_size : Z; va_blocks : Z }.

(** [(size + 511) / 512] on [u64]. *)
Definition blocks_of (size : Z) : Z := as_u64 (size + 511) / 512.

(** ** ext4 *)

(** [InodeTypes]: the types of directory entries, those of inodes, and the
    rest. *)
Inductive InodeTypes : Type :=
  | DE_FIFO | DE_CHRDEV | DE_DIR | DE_BLKDEV | DE_REG_FILE | DE_SYMLINK | DE_SOCK
  | MODE_FIFO | MODE_CHARDEV | MODE_DIRECTORY | MODE_BLOCKDEV | MODE_FILE | MODE_SOFTLINK | MODE_SOCKET
  | InodeOther (code : Z).
#[global] Instance InodeTypes_eq_dec : EqDecision InodeTypes.
Proof. solve_decision. Defined.

Definition EXT4_O_RDONLY : Z := 0.
Definition EXT4_O_WRONLY : Z := 1.
Definition EXT4_O_RDWR : Z := 2.
Definition EXT4_O_CREAT : Z := 64.
Definition EXT4_O_TRUNC : Z := 512.

(** [lwext4_rust]. [X] is the mounted file system with the file objects, each
    named by a number. Errors are C error numbers. [x_content] is what a file
    holds. Opening with [O_TRUNC] empties a file and opening otherwise does
    not change it; truncating keeps bytes from the front or fills up with
    zeroes. *)
Class Lwext4 (X : Type) := {
  get_path : X → Z → str;
  get_type : X → Z → InodeTypes;
  ext4_new : X → str → InodeTypes → Z * X;
  file_mode_get : X → Z → option Z;
  file_type_get : X → Z → InodeTypes;
  file_size : X → Z → Z;
  check_inode_exist : X → str → InodeTypes → bool;
  dir_entries : X → Z → option (list (list Z * InodeTypes));
  file_open : Z → str → Z → st X Z ();
  file_close : Z → st X Z ();
  file_seek : Z → Z → st X Z ();
  file_read : Z → nat → st X Z (list Z);
  file_write : Z → list Z → st X Z Z;
  file_truncate : Z → Z → st X Z ();
  file_rename : str → str → st X Z ();
  file_remove : str → st X Z ();
  dir_mk : str → st X Z ();
  dir_rm : str → st X Z ();
  errno_to_ax : Z → option AxError;
  x_content : X → str → option (list Z);
  file_open_path f p fl x x' : file_open f p fl x = (Ok (), x') → get_path x' f = p;
  file_open_content f p fl x x' : file_open f p fl x = (Ok (), x') →
    x_content x' p = if intersects fl EXT4_O_TRUNC then Some [] else x_content x p;
  file_truncate_path f n x r x' : file_truncate f n x = (r, x') → get_path x' f = get_path x f;
  file_truncate_content f n x x' bs : file_truncate f n x = (Ok (), x') →
    x_content x (get_path x f) = Some bs →
    ∃ bs', x_content x' (get_path x f) = Some bs' ∧
      ∀ i b, bs' !! i = Some b → bs !! i = Some b ∨ b = 0;
  file_close_content f x r x' : file_close f x = (r, x') → ∀ p, x_content x' p = x_content x p;
}.

(** [s.replace] of two slashes by one. *)
Fixpoint replace_slashes (s : str) : str :=
  match s with
  | c :: ((d :: s') as r) =>
      if decide (c = slash ∧ d = slash) then slash :: replace_slashes s' else c :: replace_slashes r
  | _ => s
  end.

(** [path_deal_with]: the path of an entry below the directory at [base];
    empty for the directory itself. [None] is a recursion that did not end. *)
Fixpoint path_deal_with (fuel : nat) (base path : str) : option str :=
  match fuel with
  | O => None
  | S fuel' =>
      let p := trim_matches is_slash path in
      if bool_decide (p = []) || bool_decide (p = $".") then Some [] else
      match strip_prefix p $"./" with
      | Some rest => path_deal_with fuel' base rest
      | None =>
          let rest_p := replace_slashes p in
          if negb (bool_decide (p = rest_p)) then path_deal_with fuel' base rest_p
          else Some (trim_end_matches is_slash base ++ $"/" ++ p)
      end
  end.

Section ext4.
Context {X : Type} `{HX : !Lwext4 X}.
Abbreviation Xst := (st X AxError).

(** [e.try_into().unwrap()] on an error number. *)
Definition ext4_err {T} (m : st X Z T) : Xst T := λ x,
  match m x with
  | (Ok a, x') => (Ok a, x')
  | (Err e, x') => (match errno_to_ax e with Some a => Err a | None => Panic end, x')
  | (Panic, x') => (Panic, x')
  end.
(** [let _ = file.file_close()]. *)
Definition close_quietly (f : Z) : Xst () := st_ok (file_close f);; mret ().
(** The last step before the file is closed. *)
Definition then_close {T} (f : Z) (m : Xst T) : Xst T := λ x,
  let '(r, x') := m x in (r, (close_quietly f x').2).
Definition full_path (f : Z) (path : str) : Xst str := λ x,
  (unwrap_opt (path_deal_with (S (length path)) (get_path x f) path), x).

Definition inode_node_type (t : InodeTypes) : VfsNodeType :=
  match t with
  | MODE_FIFO => NodeFifo | MODE_CHARDEV => NodeCharDevice | MODE_DIRECTORY => NodeDir
  | MODE_BLOCKDEV => NodeBlockDevice | MODE_FILE => NodeFile | MODE_SOFTLINK => NodeSymLink
  | MODE_SOCKET => NodeSocket | _ => NodeFile
  end.

Definition Ext4_get_attr (f : Z) : Xst VfsNodeAttr :=
  x ← st_get;
  let perm := Z.land (as_u16 (default 493 (file_mode_get x f))) 511 in
  let vtype := inode_node_type (file_type_get x f) in
  size ← (if decide (vtype = NodeFile) then
            ext4_err (file_open f (get_path x f) EXT4_O_RDONLY);;
            fsize ← st_gets (λ x, file_size x f);
            close_quietly f;; mret fsize
          else mret 0);
  mret (mkAttr perm vtype size (blocks_of size)).

(** The entry type of a node type; the others do not exist. *)
Definition create_type (ty : VfsNodeType) : InodeTypes :=
  match ty with
  | NodeFile => DE_REG_FILE | NodeDir => DE_DIR
  | NodeOther c => if c =? 1 then DE_FIFO else if c =? 2 then DE_CHRDEV else if c =? 6 then DE_BLKDEV
                   else if c =? 10 then DE_SYMLINK else DE_SOCK
  end.
Definition Ext4_create (f : Z) (path : str) (ty : VfsNodeType) : Xst () :=
  fpath ← full_path f path;
  if decide (fpath = []) then mret () else
  x ← st_get;
  if check_inode_exist x fpath (create_type ty) then mret ()
  else if decide (create_type ty = DE_DIR) then ext4_err (dir_mk fpath)
  else
    st_unwrap (file_open f fpath (Z.lor EXT4_O_WRONLY (Z.lor EXT4_O_CREAT EXT4_O_TRUNC)));;
    ext4_err (file_close f).

Definition Ext4_remove (f : Z) (path : str) : Xst () :=
  fpath ← full_path f path;
  if decide (fpath = []) then st_panic else
  x ← st_get;
  if check_inode_exist x fpath DE_DIR then ext4_err (dir_rm fpath) else ext4_err (file_remove fpath).

(** The node above a directory, if it is not the root. *)
Definition Ext4_parent (f : Z) : Xst (option Z) := λ x,
  if decide (get_type x f = DE_DIR) then
    let path := trim_end_matches (λ c, negb (is_slash c)) (trim_end_matches is_slash (get_path x f)) in
    if decide (path = []) then (Ok None, x)
    else let '(n, x') := ext4_new x path DE_DIR in (Ok (Some n), x')
  else (Ok None, x).

(** Entries from an index on; an entry of another kind stops the kernel. *)
Fixpoint ext4_entries (es : list (list Z * InodeTypes)) (n : nat) : AxResult (list DirEntry) :=
  match n, es with
  | S n', (name, t) :: es' =>
      ty ← (if decide (t = DE_DIR) then Ok NodeDir else if decide (t = DE_REG_FILE) then Ok NodeFile
            else if decide (t = DE_SYMLINK) then Ok NodeSymLink else Panic);
      rest ← ext4_entries es' n';
      Ok (mkDirEntry ty name :: rest)
  | _, _ => Ok []
  end.
Definition Ext4_read_dir (f start_idx : Z) (n : nat) (x : X) : AxResult (list DirEntry) :=
  es ← unwrap_opt (dir_entries x f);
  ext4_entries (drop (Z.to_nat start_idx) es) n.

Definition Ext4_lookup (f : Z) (path : str) : Xst Z :=
  fpath ← full_path f path;
  if decide (fpath = []) then mret f else
  x ← st_get;
  if check_inode_exist x fpath DE_DIR
  then let '(n, x') := ext4_new x fpath DE_DIR in st_put x';; mret n
  else if check_inode_exist x fpath DE_REG_FILE
  then let '(n, x') := ext4_new x fpath DE_REG_FILE in st_put x';; mret n
  else st_err NotFound.

Definition Ext4_read_at (f off : Z) (n : nat) : Xst (list Z) :=
  x ← st_get;
  ext4_err (file_open f (get_path x f) EXT4_O_RDONLY);;
  ext4_err (file_seek f (as_i64 off));;
  then_close f (ext4_err (file_read f n)).
Definition Ext4_write_at (f off : Z) (buf : list Z) : Xst Z :=
  x ← st_get;
  ext4_err (file_open f (get_path x f) EXT4_O_RDWR);;
  ext4_err (file_seek f (as_i64 off));;
  then_close f (ext4_err (file_write f buf)).
Definition Ext4_truncate (f size : Z) : Xst () :=
  x ← st_get;
  ext4_err (file_open f (get_path x f) (Z.lor EXT4_O_RDWR (Z.lor EXT4_O_CREAT EXT4_O_TRUNC)));;
  then_close f (ext4_err (file_truncate f size)).
Definition Ext4_rename (src dst : str) : Xst () := ext4_err (file_rename src dst).
Definition Ext4_drop (f : Z) : Xst () := st_unwrap (file_close f).


(** ** Paths *)

(** A relative path in the form the crate is given. *)
Record normal_path (p : str) : Prop := {
  np_nonempty : p ≠ [] ∧ p ≠ $".";
  np_ends c r : (p = c :: r ∨ p = r ++ [c]) → c ≠ slash;
  np_double a b : p ≠ a ++ $"//" ++ b;
  np_dot r : p ≠ $"./" ++ r;
}.

Lemma replace_slashes_step c d s :
  replace_slashes (c :: d :: s)
  = if decide (c = slash ∧ d = slash) then slash :: replace_slashes s else c :: replace_slashes (d :: s).
Proof. done. Qed.

Lemma replace_slashes_length s : (length (replace_slashes s) ≤ length s)%nat.
Proof.
  induction s as [s IH] using (induction_ltof1 _ (@length _)). unfold ltof in IH.
  destruct s as [|c [|d s]]; [simpl; lia..|]. rewrite replace_slashes_step.
  destruct (decide (c = slash ∧ d = slash)).
  - specialize (IH s ltac:(simpl; lia)). simpl. lia.
  - specialize (IH (d :: s) ltac:(simpl; lia)). cbn [length] in *. lia.
Qed.

(** Without two slashes in a row nothing is replaced, and else the string gets
    shorter. *)
Lemma replace_slashes_changes s :
  (replace_slashes s = s ∧ ∀ a b, s ≠ a ++ $"//" ++ b) ∨ (length (replace_slashes s) < length s)%nat.
Proof.
  induction s as [s IH] using (induction_ltof1 _ (@length _)). unfold ltof in IH.
  destruct s as [|c [|d s]].
  - left. split; [done|]. by intros [|? []] b.
  - left. split; [done|]. by intros [|? [|? []]] b.
  - rewrite replace_slashes_step. destruct (decide (c = slash ∧ d = slash)) as [[-> ->]|Hne].
    + right. pose proof (replace_slashes_length s). simpl. lia.
    + destruct (IH (d :: s)) as [[Heq Hno]|Hlt]; [simpl; lia| |].
      * left. split; [by rewrite Heq|]. intros [|e a] b Hs; simpl in Hs.
        -- apply Hne. by injection Hs as -> -> _.
        -- injection Hs as -> Hs. by apply (Hno a b).
      * right. cbn [length] in *. lia.
Qed.

Lemma strip_shorter p r : strip_prefix p $"./" = Some r → (length r < length p)%nat.
Proof. intros ->%strip_prefix_Some. simpl. lia. Qed.

(** the recursion that cleans a path ends, and what it gives to the ext4
    crate is empty for the directory itself, and else the directory's own path
    followed by a path that is not empty, has no slash at either end, no two
    slashes in a row and no leading dot. *)
Theorem path_deal_with_spec (base path : str) :
  ∃ r, path_deal_with (S (length path)) base path = Some r ∧
    (r = [] ∨ ∃ p, r = trim_end_matches is_slash base ++ $"/" ++ p ∧ normal_path p).
Proof.
  assert (∀ fuel path, (length path < fuel)%nat → ∃ r, path_deal_with fuel base path = Some r ∧
    (r = [] ∨ ∃ p, r = trim_end_matches is_slash base ++ $"/" ++ p ∧ normal_path p)) as Hall; [|by apply Hall; lia].
  clear path. induction fuel as [|fuel IH]; intros path Hlen; [lia|]. cbn [path_deal_with].
  pose proof (trim_matches_length is_slash path) as Htl. set (p := trim_matches is_slash path) in *.
  destruct (bool_decide (p = []) || bool_decide (p = $".")) eqn:He; [by eexists; split; [|left]|].
  apply orb_false_iff in He as [He Hd]. rewrite !bool_decide_eq_false in *.
  destruct (strip_prefix p $"./") as [rest|] eqn:Hs.
  { apply IH. apply strip_shorter in Hs. lia. }
  case_bool_decide as Hr; simpl.
  2:{ apply IH. destruct (replace_slashes_changes p) as [[Heq _]|]; [congruence|lia]. }
  eexists. split; [done|]. right. exists p. split; [done|]. split.
  - done.
  - intros c r [Hc|Hc].
    + intros ->. pose proof (trim_matches_head is_slash path slash r Hc) as Hh. by vm_compute in Hh.
    + intros ->. destruct (trim_matches_spec is_slash path) as (_ & _ & _ & _ & _ & Hl).
      specialize (Hl slash r Hc). by vm_compute in Hl.
  - destruct (replace_slashes_changes p) as [[_ Hno]|Hlt]; [done|]. rewrite <-Hr in Hlt. lia.
  - intros r Hpr. by rewrite (proj2 (strip_prefix_Some p $"./" r)) in Hs.
Qed.

(** [truncate] of the ext4 nodes opens the file with [O_TRUNC] first, so
    whatever the new length, no byte of the old contents is left. *)
Theorem ext4_truncate_loses_data (f size : Z) (x x' : X) (bs : list Z) :
  x_content x (get_path x f) = Some bs → Ext4_truncate f size x = (Ok (), x') →
  ∃ bs', x_content x' (get_path x f) = Some bs' ∧ ∀ i b, bs' !! i = Some b → b = 0.
Proof.
  intros Hbs Ht. unfold Ext4_truncate in Ht. apply st_bind_Ok in Ht as (? & ? & [= <- <-] & Ht).
  apply st_bind_Ok in Ht as ([] & x1 & Ho & Ht). unfold ext4_err in Ho.
  destruct (file_open f (get_path x f) _ x) as [[[]|e|] x1'] eqn:Hopen; [|by destruct (errno_to_ax e)|done].
  injection Ho as <-. pose proof (file_open_path _ _ _ _ _ Hopen) as Hp.
  apply file_open_content in Hopen. vm_compute (intersects _ _) in Hopen.
  unfold then_close, ext4_err in Ht.
  destruct (file_truncate f size x1') as [[[]|e|] x2] eqn:Htr; [|by destruct (errno_to_ax e)|done].
  injection Ht as <-. rewrite <-Hp in Hopen. destruct (file_truncate_content _ _ _ _ [] Htr Hopen) as (bs' & Hc & Hi).
  rewrite Hp in Hc. exists bs'. split; [|intros i b Hb; by destruct (Hi i b Hb)].
  unfold close_quietly, st_ok. monad. destruct (file_close f x2) as [r x3] eqn:Hcl.
  pose proof (file_close_content _ _ _ _ Hcl) as Hcc. destruct r; simpl; by rewrite Hcc.
Qed.

End ext4.

(** ** FAT *)

(** [fatfs::Error]. *)
Inductive FatError : Type :=
  | FatAlreadyExists | FatCorruptedFileSystem | FatDirectoryIsNotEmpty | FatInvalidInput
  | FatInvalidFileNameLength | FatUnsupportedFileNameCharacter | FatNotEnoughSpace | FatNotFound
  | FatUnexpectedEof | FatWriteZero | FatIo | FatOther.

Definition as_vfs_err (e : FatError) : AxError :=
  match e with
  | FatAlreadyExists => AlreadyExists
  | FatCorruptedFileSystem => InvalidData
  | FatDirectoryIsNotEmpty => DirectoryNotEmpty
  | FatInvalidInput | FatInvalidFileNameLength | FatUnsupportedFileNameCharacter => InvalidInput
  | FatNotEnoughSpace => StorageFull
  | FatNotFound => NotFound
  | FatUnexpectedEof => UnexpectedEof
  | FatWriteZero => WriteZero
  | FatIo | FatOther => Io
  end.

(** [fatfs]. [F] is the file system with its open files, which like the
    directories are named by numbers. Entries of a directory may fail to
    read. *)
Class Fatfs (F : Type) := {
  fat_open_file : F → Z → str → option Z;
  fat_open_dir : F → Z → str → option Z;
  fat_create_file : Z → str → st F FatError ();
  fat_create_dir : Z → str → st F FatError ();
  fat_remove : Z → str → st F FatError ();
  fat_rename : Z → str → str → st F FatError ();
  fat_entries : F → Z → list (option (bool * list Z));
  fat_seek_start : Z → Z → st F FatError Z;
  fat_seek_end : Z → Z → st F FatError Z;
  fat_read : Z → nat → st F FatError (list Z);
  fat_write : Z → list Z → st F FatError Z;
  fat_truncate : Z → st F FatError ();
}.

(** What is left of a path for the crate: nothing for the directory itself.
    The outer [None] is a recursion that did not end. *)
Fixpoint fat_path (fuel : nat) (path : str) : option (option str) :=
  match fuel with
  | O => None
  | S fuel' =>
      let p := trim_matches is_slash path in
      if bool_decide (p = []) || bool_decide (p = $".") then Some None else
      match strip_prefix p $"./" with
      | Some rest => fat_path fuel' rest
      | None => Some (Some p)
      end
  end.
(** [remove] only refuses an empty path, by an assertion. *)
Fixpoint fat_remove_path (fuel : nat) (path : str) : AxResult str :=
  match fuel with
  | O => Panic
  | S fuel' =>
      let p := trim_matches is_slash path in
      if bool_decide (p = []) then Panic else
      match strip_prefix p $"./" with
      | Some rest => fat_remove_path fuel' rest
      | None => Ok p
      end
  end.

Section fat.
Context {F : Type} `{HF : !Fatfs F}.
Abbreviation Fst := (st F AxError).

Inductive FatNode : Type := FatFile (f : Z) | FatDir (d : Z).

Definition Fat_file_attr (f : Z) : Fst VfsNodeAttr :=
  size ← st_map_err as_vfs_err (fat_seek_end f 0);
  mret (mkAttr 493 NodeFile size (blocks_of size)).
Definition Fat_dir_attr : VfsNodeAttr := mkAttr 493 NodeDir 512 1.
Definition Fat_read_at (f off : Z) (n : nat) : Fst (list Z) :=
  st_map_err as_vfs_err (fat_seek_start f off);; st_map_err as_vfs_err (fat_read f n).
Definition Fat_write_at (f off : Z) (buf : list Z) : Fst Z :=
  st_map_err as_vfs_err (fat_seek_start f off);; st_map_err as_vfs_err (fat_write f buf).
Definition Fat_truncate (f size : Z) : Fst () :=
  st_map_err as_vfs_err (fat_seek_start f size);; st_map_err as_vfs_err (fat_truncate f).

Definition Fat_parent (d : Z) (x : F) : option FatNode := FatDir <$> fat_open_dir x d $"..".
Definition Fat_lookup (d : Z) (path : str) (x : F) : AxResult FatNode :=
  p ← unwrap_opt (fat_path (S (length path)) path);
  match p with
  | None => Ok (FatDir d)
  | Some p =>
      match fat_open_file x d p with
      | Some f => Ok (FatFile f)
      | None => match fat_open_dir x d p with Some d' => Ok (FatDir d') | None => Err NotFound end
      end
  end.
Definition Fat_create (d : Z) (path : str) (ty : VfsNodeType) : Fst () :=
  p ← st_lift (unwrap_opt (fat_path (S (length path)) path));
  match p with
  | None => mret ()
  | Some p =>
      match ty with
      | NodeFile => st_map_err as_vfs_err (fat_create_file d p)
      | NodeDir => st_map_err as_vfs_err (fat_create_dir d p)
      | NodeOther _ => st_err Unsupported
      end
  end.
Definition Fat_remove (d : Z) (path : str) : Fst () :=
  p ← st_lift (fat_remove_path (S (length path)) path);
  st_map_err as_vfs_err (fat_remove d p).
Definition Fat_rename (d : Z) (src dst : str) : Fst () := st_map_err as_vfs_err (fat_rename d src dst).

(** Entries from an index on, up to the first that cannot be read. *)
Fixpoint fat_take_entries (es : list (option (bool * list Z))) (n : nat) : list DirEntry :=
  match n, es with
  | S n', Some (is_dir, name) :: es' =>
      mkDirEntry (if is_dir : bool then NodeDir else NodeFile) name :: fat_take_entries es' n'
  | _, _ => []
  end.
Definition Fat_read_dir (d start_idx : Z) (n : nat) (x : F) : list DirEntry :=
  fat_take_entries (drop (Z.to_nat start_idx) (fat_entries x d)) n.

End fat.

(** The recursion on leading dots ends, with the directory itself or a path
    that is not empty, has no slash at an end and no leading dot. *)
Theorem fat_path_spec (path : str) :
  ∃ r, fat_path (S (length path)) path = Some r ∧
    ∀ p, r = Some p → p ≠ [] ∧ p ≠ $"." ∧ (∀ q, p ≠ $"./" ++ q) ∧ ∀ c q, p = c :: q → c ≠ slash.
Proof.
  assert (∀ fuel path, (length path < fuel)%nat → ∃ r, fat_path fuel path = Some r ∧
    ∀ p, r = Some p → p ≠ [] ∧ p ≠ $"." ∧ (∀ q, p ≠ $"./" ++ q) ∧ ∀ c q, p = c :: q → c ≠ slash) as Hall;
    [|by apply Hall; lia].
  clear path. induction fuel as [|fuel IH]; intros path Hlen; [lia|]. cbn [fat_path].
  pose proof (trim_matches_length is_slash path) as Htl.
  pose proof (trim_matches_head is_slash path) as Hh. set (p := trim_matches is_slash path) in *.
  destruct (bool_decide (p = []) || bool_decide (p = $".")) eqn:He; [by eexists|].
  apply orb_false_iff in He as [He Hd]. rewrite !bool_decide_eq_false in *.
  destruct (strip_prefix p $"./") as [rest|] eqn:Hs.
  { apply IH. apply strip_shorter in Hs. lia. }
  eexists. split; [done|]. intros ? [= <-]. split_and!; [done..| |].
  - intros q Hq. by rewrite (proj2 (strip_prefix_Some p $"./" q)) in Hs.
  - intros c q Hc ->. specialize (Hh slash q Hc). by vm_compute in Hh.
Qed.

(** ** A file system with one kind of file *)

Record OneFs := mkOneFs { o_files : str → option (list Z); o_path : str }.
#[global, program] Instance OneExt4 : Lwext4 OneFs := {|
  get_path x f := o_path x;
  get_type x f := DE_REG_FILE;
  ext4_new x p t := (0, mkOneFs (o_files x) p);
  file_mode_get x f := None;
  file_type_get x f := MODE_FILE;
  file_size x f := Z.of_nat (length (default [] (o_files x (o_path x))));
  check_inode_exist x p t := bool_decide (is_Some (o_files x p));
  dir_entries x f := None;
  file_open f p fl := st_mod (λ x,
    mkOneFs (λ q, if decide (q = p) then if intersects fl EXT4_O_TRUNC then Some [] else o_files x q
                  else o_files x q) p);
  file_close f := mret ();
  file_seek f p := mret ();
  file_read f n := st_gets (λ x, take n (default [] (o_files x (o_path x))));
  file_write f bs := mret 0;
  file_truncate f n := st_mod (λ x,
    mkOneFs (λ q, if decide (q = o_path x) then take (Z.to_nat n) <$> o_files x q else o_files x q) (o_path x));
  file_rename a b := st_err 2;
  file_remove p := st_err 2;
  dir_mk p := st_err 2;
  dir_rm p := st_err 2;
  errno_to_ax e := Some NotFound;
  x_content x p := o_files x p;
|}.
Next Obligation. by intros f p fl x x' [= <-]. Qed.
Next Obligation. intros f p fl x x' [= <-]. simpl. by rewrite decide_True. Qed.
Next Obligation. by intros f n x r x' [= <- <-]. Qed.
Next Obligation.
  intros f n x x' bs [= <-]. simpl. rewrite decide_True by done. intros ->. eexists. split; [done|].
  intros i b Hb. left. apply lookup_take_Some in Hb as [Hb _]. done.
Qed.
Next Obligation. by intros f x r x' [= <- <-]. Qed.

Definition one_fs : OneFs := mkOneFs (λ p, if decide (p = $"/f") then Some [1; 2; 3] else None) $"/f".

Lemma ext4_truncate_loses_data_witness :
  ∃ x', Ext4_truncate 0 2 one_fs = (Ok (), x') ∧ x_content one_fs $"/f" = Some [1; 2; 3] ∧
    ∃ bs', x_content x' $"/f" = Some bs' ∧ ∀ i b, bs' !! i = Some b → b = 0.
Proof.
  destruct (Ext4_truncate 0 2 one_fs) as [r x'] eqn:Ht.
  assert (r = Ok ()) as -> by (change r with (r, x').1; rewrite <-Ht; reflexivity).
  exists x'. split; [done|]. split; [reflexivity|].
  exact (ext4_truncate_loses_data 0 2 one_fs x' [1; 2; 3] eq_refl Ht).
Defined.
