(* ===== verification/MemBase.v ===== *)
(** * Interfaces of the memory management

    What [axmm] relies on outside the repository: the address arithmetic of
    the [memory_addr] crate, the page table of [page_table_multiarch], the
    page allocator and the container of memory areas of [memory_set]. Each is
    a class whose laws state the documented behaviour the proofs use. *)

From Stdlib Require Export Sorted.
From S2P Require Import Prelude Abi.

#[local] Open Scope Z_scope.

Definition PAGE_SIZE_4K : Z := 4096.

(** [MappingFlags] of [page_table_entry]. *)
Definition READ : Z := 1.
Definition WRITE : Z := 2.
Definition EXECUTE : Z := 4.
Definition USER : Z := 8.

(** [VirtAddrRange]: both fields are public. *)
Record VirtAddrRange := mkRange { r_start : Z; r_end : Z }.

(** The [n] page addresses from [s] on. *)
Definition page_list (s : Z) (n : nat) : list Z := (λ i, s + PAGE_SIZE_4K * Z.of_nat i) <$> seq 0 n.

Lemma aligned_cases x : x mod PAGE_SIZE_4K = 0 → ∃ k, x = PAGE_SIZE_4K * k.
Proof. intros Hx. exists (x / PAGE_SIZE_4K). pose proof (Z_div_mod_eq_full x PAGE_SIZE_4K). lia. Qed.
Lemma page_list_elem s n p :
  p ∈ page_list s n ↔ ∃ i, (i < n)%nat ∧ p = s + PAGE_SIZE_4K * Z.of_nat i.
Proof.
  unfold page_list. rewrite list_elem_of_fmap. split; intros (i & H1 & H2).
  - exists i. rewrite elem_of_seq in H2. split; [lia|done].
  - exists i. rewrite elem_of_seq. split; [done|lia].
Qed.
Lemma page_list_S s n : page_list s (S n) = s :: page_list (s + PAGE_SIZE_4K) n.
Proof.
  unfold page_list. rewrite <-cons_seq. csimpl. f_equal; [lia|].
  rewrite <-fmap_S_seq, <-list_fmap_compose. apply list_fmap_ext. intros i x _. simpl. lia.
Qed.

(** [memory_addr]: alignment to pages, ranges and the page iterator. The
    laws on sums ask that they stay in 64 bits, where the crate's behaviour
    is not in doubt. *)
Class MemoryAddr := {
  align_down_4k : Z → Z;
  align_up_4k : Z → Z;
  is_aligned_4k : Z → bool;
  align_offset_4k : Z → Z;
  from_start_size : Z → Z → res AxError VirtAddrRange;
  contains_range : VirtAddrRange → VirtAddrRange → bool;
  overlaps : VirtAddrRange → VirtAddrRange → bool;
  range_contains : VirtAddrRange → Z → bool;
  range_is_empty : VirtAddrRange → bool;
  page_iter_4k : Z → Z → option (list Z);
  align_down_4k_spec a : 0 ≤ a < 2 ^ 64 → align_down_4k a = a - a mod PAGE_SIZE_4K;
  align_up_4k_spec a : 0 ≤ a → a + (PAGE_SIZE_4K - 1) < 2 ^ 64 →
    align_up_4k a = a + (PAGE_SIZE_4K - 1) - (a + (PAGE_SIZE_4K - 1)) mod PAGE_SIZE_4K;
  is_aligned_4k_spec a : is_aligned_4k a = true ↔ a mod PAGE_SIZE_4K = 0;
  align_offset_4k_spec a : 0 ≤ a < 2 ^ 64 → align_offset_4k a = a mod PAGE_SIZE_4K;
  from_start_size_spec s n : 0 ≤ s → 0 ≤ n → s + n < 2 ^ 64 →
    from_start_size s n = Ok (mkRange s (s + n));
  contains_range_spec r o : contains_range r o = true ↔ r_start r ≤ r_start o ∧ r_end o ≤ r_end r;
  range_contains_spec r a : range_contains r a = true ↔ r_start r ≤ a < r_end r;
  range_is_empty_spec r : range_is_empty r = true ↔ r_end r ≤ r_start r;
  page_iter_4k_spec s n : s mod PAGE_SIZE_4K = 0 →
    page_iter_4k s (s + PAGE_SIZE_4K * Z.of_nat n) = Some (page_list s n);
}.

(** ** Page tables *)

Inductive PagingError : Type := NotMapped | PagingOther.

(** [PageTable]. [query] gives the frame and the flags of the page of an
    aligned address. Mapping a page changes that page only; a mapping that
    fails changes none; unmapping removes that page only. A new table maps
    nothing. Operations on regions tell whether they succeeded; mapping a
    region maps each of its pages. *)
Class PageTable (PT : Type) := {
  pt_try_new : option PT;
  query : PT → Z → res PagingError (Z * Z);
  pt_map : PT → Z → Z → Z → bool * PT;
  pt_unmap : PT → Z → option (Z * bool) * PT;
  pt_map_region : PT → Z → (Z → Z) → Z → Z → bool * PT;
  pt_unmap_region : PT → Z → Z → bool * PT;
  pt_protect_region : PT → Z → Z → Z → bool * PT;
  pt_copy_from : PT → PT → Z → Z → PT;
  pt_clear_copy_range : PT → Z → Z → PT;
  query_no_panic pt va : query pt va ≠ Panic;
  pt_map_ok pt va f fl pt' : pt_map pt va f fl = (true, pt') → 0 ≤ va →
    query pt' (va - va mod PAGE_SIZE_4K) = Ok (f, fl) ∧
    ∀ p, p mod PAGE_SIZE_4K = 0 → p ≠ va - va mod PAGE_SIZE_4K → query pt' p = query pt p;
  pt_map_fail pt va f fl pt' : pt_map pt va f fl = (false, pt') → ∀ p, query pt' p = query pt p;
  pt_unmap_ok pt va f huge pt' : pt_unmap pt va = (Some (f, huge), pt') → va mod PAGE_SIZE_4K = 0 →
    query pt' va = Err NotMapped ∧
    ∀ p, p mod PAGE_SIZE_4K = 0 → p ≠ va → query pt' p = query pt p;
  pt_unmap_fail pt va pt' : pt_unmap pt va = (None, pt') → ∀ p, query pt' p = query pt p;
  pt_new_empty pt : pt_try_new = Some pt → ∀ p, query pt p = Err NotMapped;
  pt_map_region_ok pt va f n fl pt' : pt_map_region pt va f n fl = (true, pt') →
    va mod PAGE_SIZE_4K = 0 → n mod PAGE_SIZE_4K = 0 →
    ∀ p, p mod PAGE_SIZE_4K = 0 →
      query pt' p = if decide (va ≤ p < va + n) then Ok (f p, fl) else query pt p;
}.

(** ** Frames

    The global page allocator, for single pages; frames are page aligned and
    a frame that is handed out is not handed out again before it comes
    back. *)
Class FrameAlloc (FA : Type) := {
  fa_alloc : FA → option (Z * FA);
  fa_dealloc : FA → Z → FA;
  fa_used : FA → Z → Prop;
  fa_alloc_ok fa f fa' : fa_alloc fa = Some (f, fa') →
    0 ≤ f ∧ f mod PAGE_SIZE_4K = 0 ∧ ¬ fa_used fa f ∧
    ∀ g, fa_used fa' g ↔ g = f ∨ fa_used fa g;
}.

(** The machine: the allocator and the bytes of physical memory. The kernel
    reaches the byte at a physical address through [phys_to_virt]; the model
    names it by the physical address. *)
Record Machine (FA : Type) := mkMachine { m_fa : FA; m_mem : Z → Z }.
Arguments mkMachine {FA} _ _.
Arguments m_fa {FA} _.
Arguments m_mem {FA} _.

(** [copy_nonoverlapping] into physical memory, and zeroing. *)
Definition mem_store (a : Z) (bs : list Z) (m : Z → Z) : Z → Z := λ x,
  if decide (a ≤ x < a + Z.of_nat (length bs)) then default 0 (bs !! Z.to_nat (x - a)) else m x.
Definition mem_load (a : Z) (n : nat) (m : Z → Z) : list Z :=
  (λ i, m (a + Z.of_nat i)) <$> seq 0 n.
Definition mem_zero (a n : Z) (m : Z → Z) : Z → Z := λ x, if decide (a ≤ x < a + n) then 0 else m x.

(** ** Areas *)

(** The two mapping backends of [axmm]. *)
Inductive Backend : Type :=
  | Linear (pa_va_offset : Z)
  | Alloc (populate : bool).

#[global] Instance Backend_eq_dec : EqDecision Backend.
Proof. solve_decision. Defined.

Record MemoryArea := mkArea { a_start : Z; a_size : Z; a_flags : Z; a_backend : Backend }.
Definition a_end (a : MemoryArea) : Z := a_start a + a_size a.

#[global] Instance MemoryArea_eq_dec : EqDecision MemoryArea.
Proof. solve_decision. Defined.

Definition in_area (a : MemoryArea) (x : Z) : Prop := a_start a ≤ x < a_end a.

(** Areas in the order of their addresses, none empty, none overlapping. *)
Definition areas_sorted (l : list MemoryArea) : Prop :=
  StronglySorted (λ a b, a_end a ≤ a_start b) l ∧ Forall (λ a, a_start a < a_end a) l.

Inductive MappingError : Type := MInvalidParam | MAlreadyExists | MBadState.

(** [memory_set::MemorySet]. [iter] goes through the areas in the order of
    their addresses. The mapping operations call the backend of the area
    through the closures they are given. *)
Class MemorySet (MS : Type) := {
  ms_new : MS;
  ms_iter : MS → list MemoryArea;
  ms_find : MS → Z → option MemoryArea;
  ms_find_free_area : MS → Z → Z → VirtAddrRange → option Z;
  ms_map {W} : (Backend → Z → Z → Z → st W AxError bool) → MemoryArea → bool →
    MS → W → res AxError (res MappingError ()) * MS * W;
  ms_unmap {W} : (Backend → Z → Z → st W AxError bool) → Z → Z →
    MS → W → res AxError (res MappingError ()) * MS * W;
  ms_protect {W} : (Backend → Z → Z → Z → st W AxError bool) → Z → Z → (Z → option Z) →
    MS → W → res AxError (res MappingError ()) * MS * W;
  ms_clear {W} : (Backend → Z → Z → st W AxError bool) →
    MS → W → res AxError (res MappingError ()) * MS * W;
  ms_new_iter : ms_iter ms_new = [];
  ms_iter_sorted ms : areas_sorted (ms_iter ms);
  ms_find_spec ms x a : ms_find ms x = Some a ↔ a ∈ ms_iter ms ∧ in_area a x;
  ms_map_ok {W} (bm : Backend → Z → Z → Z → st W AxError bool) area unmap ms w ms' w' :
    ms_map bm area unmap ms w = (Ok (Ok ()), ms', w') → unmap = false →
    bm (a_backend area) (a_start area) (a_size area) (a_flags area) w = (Ok true, w') ∧
    (∀ a, a ∈ ms_iter ms' ↔ a = area ∨ a ∈ ms_iter ms) ∧
    (∀ a x, a ∈ ms_iter ms → in_area a x → ¬ in_area area x);
}.

(** ** Instances

    Small implementations of the classes: the arithmetic itself, a page table
    as a list, an allocator that counts up to a limit, and area sets that are
    sorted lists. *)

#[global, program] Instance MemAddr64 : MemoryAddr := {|
  align_down_4k a := a - a mod PAGE_SIZE_4K;
  align_up_4k a := a + (PAGE_SIZE_4K - 1) - (a + (PAGE_SIZE_4K - 1)) mod PAGE_SIZE_4K;
  is_aligned_4k a := a mod PAGE_SIZE_4K =? 0;
  align_offset_4k a := a mod PAGE_SIZE_4K;
  from_start_size s n := if decide (s + n < 2 ^ 64) then Ok (mkRange s (s + n)) else Panic;
  contains_range r o := (r_start r <=? r_start o) && (r_end o <=? r_end r);
  overlaps r o := (r_start r <? r_end o) && (r_start o <? r_end r);
  range_contains r a := (r_start r <=? a) && (a <? r_end r);
  range_is_empty r := r_end r <=? r_start r;
  page_iter_4k s e :=
    if decide (s mod PAGE_SIZE_4K = 0 ∧ e mod PAGE_SIZE_4K = 0)
    then Some (page_list s (Z.to_nat ((e - s) / PAGE_SIZE_4K))) else None;
|}.
Next Obligation. done. Qed.
Next Obligation. done. Qed.
Next Obligation. intros a. apply Z.eqb_eq. Qed.
Next Obligation. done. Qed.
Next Obligation. intros s n ? ? ?. simpl. by rewrite decide_True. Qed.
Next Obligation. intros r o. simpl. rewrite andb_true_iff, !Z.leb_le. done. Qed.
Next Obligation. intros r a. simpl. rewrite andb_true_iff, Z.leb_le, Z.ltb_lt. done. Qed.
Next Obligation. intros r. simpl. apply Z.leb_le. Qed.
Next Obligation.
  intros s n Hs. simpl. rewrite decide_True.
  - do 2 f_equal. replace (s + PAGE_SIZE_4K * Z.of_nat n - s) with (Z.of_nat n * PAGE_SIZE_4K) by lia.
    rewrite Z.div_mul by done. lia.
  - split; [done|]. by rewrite Zplus_mod, Hs, Z.mul_comm, Z_mod_mult.
Qed.

Abbreviation pt_list := (list (Z * (Z * Z))).
Fixpoint pt_find (pt : pt_list) (p : Z) : option (Z * Z) :=
  match pt with
  | [] => None
  | (q, x) :: pt' => if decide (q = p) then Some x else pt_find pt' p
  end.
Definition pt_page (a : Z) : Z := a - a mod PAGE_SIZE_4K.

Lemma pt_page_id a : a mod PAGE_SIZE_4K = 0 → pt_page a = a.
Proof. unfold pt_page. lia. Qed.
Lemma pt_page_idem a : pt_page (pt_page a) = pt_page a.
Proof.
  apply pt_page_id. unfold pt_page, PAGE_SIZE_4K. by rewrite Zminus_mod_idemp_r, Z.sub_diag.
Qed.

Lemma pt_find_filter pt q p :
  p ≠ q → pt_find (filter (λ e, e.1 ≠ q) pt) p = pt_find pt p.
Proof.
  intros Hne. induction pt as [|[k x] pt IH]; [done|]. rewrite filter_cons. simpl.
  repeat case_decide; simpl; subst; rewrite ?IH; try done.
  - by rewrite decide_True. - by rewrite decide_False.
Qed.
Lemma pt_find_filter_eq pt q : pt_find (filter (λ e, e.1 ≠ q) pt) q = None.
Proof.
  induction pt as [|[k x] pt IH]; [done|]. rewrite filter_cons. simpl.
  case_decide; simpl; [|done]. by rewrite decide_False.
Qed.

Lemma pt_find_pages pt ps (f : Z → Z) fl p :
  pt_find (((λ q, (q, (f q, fl))) <$> ps) ++ pt) p
  = if decide (p ∈ ps) then Some (f p, fl) else pt_find pt p.
Proof.
  induction ps as [|q ps IH]; csimpl; [done|]. destruct (decide (q = p)) as [->|Hne].
  - rewrite decide_True; [done|]. apply elem_of_cons. by left.
  - rewrite IH. apply decide_ext. rewrite elem_of_cons. naive_solver.
Qed.

#[global, program] Instance PtList : PageTable pt_list := {|
  pt_try_new := Some [];
  query pt a := match pt_find pt (pt_page a) with Some x => Ok x | None => Err NotMapped end;
  pt_map pt va f fl := (true, (pt_page va, (f, fl)) :: pt);
  pt_unmap pt va :=
    match pt_find pt (pt_page va) with
    | Some (f, _) => (Some (f, false), filter (λ e, e.1 ≠ pt_page va) pt)
    | None => (None, pt)
    end;
  pt_map_region pt va f n fl :=
    (true, ((λ p, (p, (f p, fl))) <$> page_list va (Z.to_nat (n / PAGE_SIZE_4K))) ++ pt);
  pt_unmap_region pt _ _ := (false, pt);
  pt_protect_region pt _ _ _ := (false, pt);
  pt_copy_from pt _ _ _ := pt;
  pt_clear_copy_range pt _ _ := pt;
|}.
Next Obligation. intros pt va. simpl. by case_match. Qed.
Next Obligation.
  intros pt va f fl pt' [= <-] Hva. fold (pt_page va). simpl. split.
  - rewrite pt_page_idem. by rewrite decide_True.
  - intros p Hp Hne. rewrite (pt_page_id p) by done. by rewrite decide_False.
Qed.
Next Obligation. done. Qed.
Next Obligation.
  intros pt va f huge pt' Hu Hva. simpl in *. destruct (pt_find pt (pt_page va)) as [[g ?]|]; [|done].
  injection Hu as <- <- <-. split.
  - by rewrite pt_find_filter_eq.
  - intros p Hp Hne. rewrite (pt_page_id p), (pt_page_id va) by done. by rewrite pt_find_filter.
Qed.
Next Obligation.
  intros pt va pt' Hu p. simpl in *. destruct (pt_find pt (pt_page va)) as [[]|]; [done|]. by injection Hu as <-.
Qed.
Next Obligation. by intros pt [= <-] p. Qed.
Next Obligation.
  intros pt va f n fl pt' [= <-] Hva Hn p Hp. simpl. rewrite pt_page_id by done.
  rewrite pt_find_pages. apply aligned_cases in Hva as [k ->], Hn as [j ->], Hp as [l ->].
  rewrite (Z.mul_comm _ j), Z.div_mul by done. unfold PAGE_SIZE_4K.
  case_decide as Hin; rewrite page_list_elem in Hin; unfold PAGE_SIZE_4K in Hin.
  - destruct Hin as (i & Hi & ?). by rewrite decide_True by lia.
  - rewrite decide_False; [done|]. intros Hr. apply Hin. exists (Z.to_nat (l - k)). lia.
Qed.

(** Frames [0, 1, ...] below [limit] are handed out in turn. *)
Record counter := mkCounter { c_next : Z; c_limit : Z }.
#[global, program] Instance CounterAlloc : FrameAlloc counter := {|
  fa_alloc c :=
    if decide (0 ≤ c_next c < c_limit c)
    then Some (PAGE_SIZE_4K * c_next c, mkCounter (c_next c + 1) (c_limit c)) else None;
  fa_dealloc c _ := c;
  fa_used c f := ∃ i, f = PAGE_SIZE_4K * i ∧ i < c_next c;
|}.
Next Obligation.
  intros c f c' Ha. simpl in *. case_decide; [|done]. injection Ha as <- <-. simpl.
  unfold PAGE_SIZE_4K. split_and!; [lia|by rewrite Z.mul_comm, Z_mod_mult| |].
  - intros (i & ? & ?). lia.
  - intros g. split.
    + intros (i & -> & Hi). destruct (decide (i = c_next c)) as [->|]; [by left|right].
      exists i. split; [done|lia].
    + intros [->|(i & -> & Hi)]; eexists; (split; [done|lia]).
Qed.

Definition ms_list : Type := { l : list MemoryArea | areas_sorted l }.
Definition ms_empty : ms_list.
Proof. exists []. split; constructor. Defined.
Definition ms_single (a : MemoryArea) (H : a_start a < a_end a) : ms_list.
Proof. exists [a]. split; repeat constructor; done. Defined.

Fixpoint find_area (l : list MemoryArea) (x : Z) : option MemoryArea :=
  match l with
  | [] => None
  | a :: l' => if decide (a_start a ≤ x < a_end a) then Some a else find_area l' x
  end.

Lemma find_area_spec l x a :
  areas_sorted l → find_area l x = Some a ↔ a ∈ l ∧ in_area a x.
Proof.
  intros [Hs _]. induction Hs as [|b l Hs IH Hall]; simpl; [set_solver|]. case_decide as Hb.
  - split; [intros [= <-]; split; [apply elem_of_cons; by left|done]|]. intros [[->|Hin]%elem_of_cons Ha]; [done|].
    assert (a_end b ≤ a_start a) by by apply (proj1 (Forall_forall _ _) Hall).
    unfold in_area in *. lia.
  - rewrite IH, elem_of_cons. split; [tauto|]. intros [[->|Hin] Ha]; [done|tauto].
Qed.

(** Mapping inserts an area that overlaps none; unmapping and protecting a
    part are refused. *)
Definition disjoint_areas (a b : MemoryArea) : bool :=
  (a_end a <=? a_start b) || (a_end b <=? a_start a).
Fixpoint insert_area (a : MemoryArea) (l : list MemoryArea) : list MemoryArea :=
  match l with
  | [] => [a]
  | b :: l' => if a_end a <=? a_start b then a :: l else b :: insert_area a l'
  end.

Lemma insert_area_elem a l b : b ∈ insert_area a l ↔ b = a ∨ b ∈ l.
Proof. induction l as [|c l IH]; simpl; [set_solver|]. case_match; set_solver. Qed.

Lemma insert_area_sorted a l :
  a_start a < a_end a → forallb (disjoint_areas a) l = true → areas_sorted l →
  areas_sorted (insert_area a l).
Proof.
  intros Ha Hd [Hs Hne]. split.
  - induction Hs as [|b l Hs IH Hb]; simpl; [repeat constructor|].
    apply Forall_cons in Hne as [Hb0 Hne]. simpl in Hd. apply andb_true_iff in Hd as [Hab Hd].
    destruct (Z.leb_spec (a_end a) (a_start b)).
    + constructor; [by constructor|]. constructor; [done|].
      eapply Forall_impl; [exact Hb|]. simpl. lia.
    + constructor; [by apply IH|]. apply Forall_forall. intros c [->|Hc]%insert_area_elem.
      * unfold disjoint_areas in Hab. lia.
      * by apply (proj1 (Forall_forall _ _) Hb).
  - apply Forall_forall. intros c [->|Hc]%insert_area_elem; [done|].
    by apply (proj1 (Forall_forall _ _) Hne).
Qed.

Definition ms_insert (a : MemoryArea) (ms : ms_list) (H : a_start a < a_end a)
    (Hd : forallb (disjoint_areas a) (proj1_sig ms) = true) : ms_list :=
  exist _ (insert_area a (proj1_sig ms)) (insert_area_sorted a _ H Hd (proj2_sig ms)).

Definition ms_list_map {W} (bm : Backend → Z → Z → Z → st W AxError bool) (a : MemoryArea)
    (unmap : bool) (ms : ms_list) (w : W) : res AxError (res MappingError ()) * ms_list * W :=
  match decide (a_start a < a_end a), decide (forallb (disjoint_areas a) (proj1_sig ms) = true) with
  | left Ha, left Hd =>
      match bm (a_backend a) (a_start a) (a_size a) (a_flags a) w with
      | (Ok true, w') => (Ok (Ok ()), ms_insert a ms Ha Hd, w')
      | (Ok false, w') => (Ok (Err MBadState), ms, w')
      | (Err e, w') => (Err e, ms, w')
      | (Panic, w') => (Panic, ms, w')
      end
  | right _, _ => (Ok (Err MInvalidParam), ms, w)
  | _, _ => (Ok (Err MAlreadyExists), ms, w)
  end.

Definition ms_list_free (ms : ms_list) (hint : Z) : option Z :=
  match proj1_sig ms with [] => Some hint | _ => None end.

(** Clearing unmaps every area. *)
Fixpoint clear_areas {W} (bu : Backend → Z → Z → st W AxError bool) (l : list MemoryArea) (w : W) :
    res AxError (res MappingError ()) * W :=
  match l with
  | [] => (Ok (Ok ()), w)
  | a :: l' =>
      match bu (a_backend a) (a_start a) (a_size a) w with
      | (Ok true, w') => clear_areas bu l' w'
      | (Ok false, w') => (Ok (Err MBadState), w')
      | (Err e, w') => (Err e, w')
      | (Panic, w') => (Panic, w')
      end
  end.
Definition ms_list_clear {W} (bu : Backend → Z → Z → st W AxError bool) (ms : ms_list) (w : W) :
    res AxError (res MappingError ()) * ms_list * W :=
  let '(r, w') := clear_areas bu (proj1_sig ms) w in (r, ms_empty, w').

#[local] Obligation Tactic := idtac.
#[global, program] Instance MsList : MemorySet ms_list := {|
  ms_new := ms_empty;
  ms_iter ms := proj1_sig ms;
  ms_find ms x := find_area (proj1_sig ms) x;
  ms_find_free_area ms hint _ _ := ms_list_free ms hint;
  ms_map W := ms_list_map;
  ms_unmap W _ _ _ ms w := (Ok (Err MInvalidParam), ms, w);
  ms_protect W _ _ _ _ ms w := (Ok (Err MInvalidParam), ms, w);
  ms_clear W := ms_list_clear;
|}.
Next Obligation. done. Qed.
Next Obligation. intros ms. apply (proj2_sig ms). Qed.
Next Obligation. intros ms x a. simpl. apply find_area_spec. apply (proj2_sig ms). Qed.
Next Obligation.
  intros W bm area unmap ms w ms' w' Hm _. simpl in *. unfold ms_list_map in Hm.
  destruct (decide _) as [Ha|]; [|done]. destruct (decide _) as [Hd|]; [|done].
  destruct (bm _ _ _ _ w) as [[[]|?|] w1]; simplify_eq. split_and!; [done|apply insert_area_elem|].
  intros a x Hin Hx. apply Is_true_true, forallb_True, (proj1 (Forall_forall _ _)) with (x := a) in Hd; [|done].
  apply Is_true_true in Hd. unfold disjoint_areas, in_area in *. lia.
Qed.
