(* ===== verification/AddrSpace.v ===== *)
(** * Address spaces ([src/.arceos/modules/axmm/src])

    [aspace.rs], the backends ([backend/mod.rs], [backend/alloc.rs],
    [backend/linear.rs]) and the error conversion of [lib.rs]. An address
    space is a range of addresses, a set of areas and a page table; the
    frames and the memory are those of the machine, shared by all address
    spaces. *)

From S2P Require Import Prelude Abi MemBase.

#[local] Open Scope Z_scope.

Definition mapping_err_to_ax_err (e : MappingError) : AxError :=
  match e with
  | MInvalidParam => InvalidInput
  | MAlreadyExists => AlreadyExists
  | MBadState => BadState
  end.

Section aspace.
Context {PT FA MS : Type} `{MA : !MemoryAddr} `{HPT : !PageTable PT} `{HFA : !FrameAlloc FA}
  `{HMS : !MemorySet MS}.
Abbreviation Machine := (Machine FA).

(** ** Backends: they work on the page table and the machine *)

Definition Hw : Type := PT * Machine.
Definition Bst : Type → Type := st Hw AxError.

(** A step of the page table that tells whether it succeeded. *)
Definition pt_step (f : PT → bool * PT) : Bst bool := λ w, (Ok (f w.1).1, ((f w.1).2, w.2)).

(** [alloc_frame(zeroed)]. *)
Definition alloc_frame (zeroed : bool) : Bst (option Z) := λ w,
  match fa_alloc (m_fa w.2) with
  | Some (f, fa) =>
      let mem := if zeroed then mem_zero f PAGE_SIZE_4K (m_mem w.2) else m_mem w.2 in
      (Ok (Some f), (w.1, mkMachine fa mem))
  | None => (Ok None, w)
  end.
Definition dealloc_frame (frame : Z) : Bst () := λ w,
  (Ok (), (w.1, mkMachine (fa_dealloc (m_fa w.2) frame) (m_mem w.2))).

(** The loop of [map_alloc]: a page whose frame cannot be allocated is
    passed over. *)
Fixpoint map_alloc_pages (pages : list Z) (flags : Z) : Bst bool :=
  match pages with
  | [] => mret true
  | addr :: pages' =>
      o ← alloc_frame true;
      match o with
      | Some frame =>
          ok ← pt_step (λ pt, pt_map pt addr frame flags);
          if ok : bool then map_alloc_pages pages' flags else mret false
      | None => map_alloc_pages pages' flags
      end
  end.

Definition Backend_map_alloc (start size flags : Z) (populate : bool) : Bst bool :=
  if populate then
    pages ← st_lift (unwrap_opt (page_iter_4k start (as_usize (start + size))));
    map_alloc_pages pages flags
  else mret true.

Fixpoint unmap_alloc_pages (pages : list Z) : Bst bool :=
  match pages with
  | [] => mret true
  | addr :: pages' => λ w,
      match pt_unmap w.1 addr with
      | (Some (frame, huge), pt) =>
          if huge : bool then (Ok false, (pt, w.2))
          else (dealloc_frame frame;; unmap_alloc_pages pages') (pt, w.2)
      | (None, pt) => unmap_alloc_pages pages' (pt, w.2)
      end
  end.

Definition Backend_unmap_alloc (start size : Z) : Bst bool :=
  pages ← st_lift (unwrap_opt (page_iter_4k start (as_usize (start + size))));
  unmap_alloc_pages pages.

Definition handle_page_fault_alloc (vaddr orig_flags : Z) (populate : bool) : Bst bool :=
  if populate then mret false else
  o ← alloc_frame true;
  match o with
  | Some frame => pt_step (λ pt, pt_map pt vaddr frame orig_flags)
  | None => mret false
  end.

Definition Backend_map_linear (start size flags pa_va_offset : Z) : Bst bool :=
  pt_step (λ pt, pt_map_region pt start (λ va, as_usize (va - pa_va_offset)) size flags).
Definition Backend_unmap_linear (start size : Z) : Bst bool :=
  pt_step (λ pt, pt_unmap_region pt start size).

(** [impl MappingBackend for Backend]. *)
Definition Backend_map (b : Backend) (start size flags : Z) : Bst bool :=
  match b with
  | Linear off => Backend_map_linear start size flags off
  | Alloc pop => Backend_map_alloc start size flags pop
  end.
Definition Backend_unmap (b : Backend) (start size : Z) : Bst bool :=
  match b with
  | Linear _ => Backend_unmap_linear start size
  | Alloc _ => Backend_unmap_alloc start size
  end.
Definition Backend_protect (b : Backend) (start size new_flags : Z) : Bst bool :=
  pt_step (λ pt, pt_protect_region pt start size new_flags).
Definition Backend_handle_page_fault (b : Backend) (vaddr orig_flags : Z) : Bst bool :=
  match b with
  | Linear _ => mret false
  | Alloc pop => handle_page_fault_alloc vaddr orig_flags pop
  end.

(** ** Address spaces *)

Record AddrSpace := mkAddrSpace { va_range : VirtAddrRange; areas : MS; pt : PT }.

Definition AddrSpace_base (s : AddrSpace) : Z := r_start (va_range s).
Definition AddrSpace_end (s : AddrSpace) : Z := r_end (va_range s).
Definition AddrSpace_size (s : AddrSpace) : Z := as_usize (r_end (va_range s) - r_start (va_range s)).

(** Methods work on the address space and the machine. *)
Definition Ast : Type → Type := st (AddrSpace * Machine) AxError.

Definition AddrSpace_contains_range (s : AddrSpace) (start size : Z) : AxResult bool :=
  r ← from_start_size start size; Ok (contains_range (va_range s) r).

Definition new_empty (base size : Z) : AxResult AddrSpace :=
  r ← from_start_size base size;
  pt ← ok_or pt_try_new NoMemory;
  Ok (mkAddrSpace r ms_new pt).

Definition copy_mappings_from (other : AddrSpace) (s : AddrSpace) : AxResult AddrSpace :=
  if overlaps (va_range s) (va_range other) then Err InvalidInput
  else Ok (mkAddrSpace (va_range s) (areas s)
    (pt_copy_from (pt s) (pt other) (AddrSpace_base other) (AddrSpace_size other))).
Definition clear_mappings (r : VirtAddrRange) (s : AddrSpace) : AddrSpace :=
  mkAddrSpace (va_range s) (areas s)
    (pt_clear_copy_range (pt s) (r_start r) (as_usize (r_end r - r_start r))).

Definition validate_region (s : AddrSpace) (start size : Z) : AxResult () :=
  c ← AddrSpace_contains_range s start size;
  if negb c then Err InvalidInput
  else if negb (is_aligned_4k start) || negb (is_aligned_4k size) then Err InvalidInput
  else Ok ().

Definition find_free_area (s : AddrSpace) (hint size : Z) (limit : VirtAddrRange) : option Z :=
  ms_find_free_area (areas s) hint size limit.

(** Run an operation of the area set, with the page table and the machine as
    the world of the backends, and convert its error. *)
Definition on_areas (f : MS → Hw → res AxError (res MappingError ()) * MS * Hw) : Ast () := λ s,
  let '(r, ms, w) := f (areas s.1) (pt s.1, s.2) in
  (r' ← r; map_err mapping_err_to_ax_err r', (mkAddrSpace (va_range s.1) ms w.1, w.2)).
(** Run a backend operation of an area. *)
Definition on_backend {T} (m : Bst T) : Ast T := λ s,
  let '(r, w) := m (pt s.1, s.2) in (r, (mkAddrSpace (va_range s.1) (areas s.1) w.1, w.2)).
Definition readS {T} (f : AddrSpace → AxResult T) : Ast T := λ s, (f s.1, s).

Definition AddrSpace_map_linear (start_vaddr start_paddr size flags : Z) : Ast () :=
  readS (λ s, validate_region s start_vaddr size);;
  if negb (is_aligned_4k start_paddr) then st_err InvalidInput else
  let offset := as_usize (start_vaddr - start_paddr) in
  on_areas (ms_map Backend_map (mkArea start_vaddr size flags (Linear offset)) false).

Definition AddrSpace_map_alloc (start size flags : Z) (populate : bool) : Ast () :=
  readS (λ s, validate_region s start size);;
  on_areas (ms_map Backend_map (mkArea start size flags (Alloc populate)) false).

(** The inner loop of [populate_area]: pages that are not mapped yet are. *)
Fixpoint populate_pages (pages : list Z) (area : MemoryArea) : Ast () :=
  match pages with
  | [] => mret ()
  | addr :: pages' =>
      s ← st_get;
      match query (pt s.1) addr with
      | Ok _ => populate_pages pages' area
      | Err NotMapped =>
          ok ← on_backend (Backend_handle_page_fault (a_backend area) addr (a_flags area));
          if ok : bool then populate_pages pages' area else st_err NoMemory
      | Err PagingOther => st_err BadAddress
      | Panic => st_panic
      end
  end.

(** The body of the loop for one area: only lazy areas have pages to map. *)
Definition populate_in_area (area : MemoryArea) (start end_ : Z) : Ast () :=
  match a_backend area with
  | Alloc false =>
      pages ← st_lift (unwrap_opt (page_iter_4k start (Z.min (a_end area) end_)));
      populate_pages pages area
  | _ => mret ()
  end.

(** The [while let] loop; it ends because every turn moves [start] up to the
    end of an area, at least one page on. *)
Fixpoint populate_loop (fuel : nat) (start end_ : Z) : Ast Z :=
  match fuel with
  | O => st_panic
  | S fuel' =>
      s ← st_get;
      match ms_find (areas s.1) start with
      | None => mret start
      | Some area =>
          populate_in_area area start end_;;
          let start := a_end area in
          st_lift (rassert (is_aligned_4k start));;
          if end_ <=? start then mret start else populate_loop fuel' start end_
      end
  end.

Definition populate_area (start size : Z) : Ast () :=
  readS (λ s, validate_region s start size);;
  let end_ := as_usize (start + size) in
  start ← populate_loop (S (Z.to_nat (size / PAGE_SIZE_4K))) start end_;
  if start <? end_ then st_err NoMemory else mret ().

Definition AddrSpace_unmap (start size : Z) : Ast () :=
  readS (λ s, validate_region s start size);;
  on_areas (ms_unmap Backend_unmap start size).

(** Both [clear] calls unwrap the outcome. *)
Definition AddrSpace_clear : Ast () := λ s,
  let '(r, s') := on_areas (ms_clear Backend_unmap) s in (unwrap r, s').

Definition area_asserts (s : AddrSpace) (a : MemoryArea) : AxResult () :=
  _ ← rassert (is_aligned_4k (a_start a));
  _ ← rassert (a_size a mod PAGE_SIZE_4K =? 0);
  _ ← rassert (contains (a_flags a) USER);
  c ← AddrSpace_contains_range s (a_start a) (a_size a);
  rassert c.
Fixpoint all_asserts (s : AddrSpace) (l : list MemoryArea) : AxResult () :=
  match l with [] => Ok () | a :: l' => _ ← area_asserts s a; all_asserts s l' end.
Definition unmap_user_areas : Ast () :=
  readS (λ s, all_asserts s (ms_iter (areas s)));;
  AddrSpace_clear.

(** ** Reading and writing

    [process_area_data] hands its closure one piece per page: the physical
    address, the offset into the data and the length. The model gives the
    pieces in order, up to the end or to the first page that is not mapped,
    and the outcome; [read] and [write] copy each piece. *)
Fixpoint area_pieces (pt : PT) (start size : Z) (pages : list Z) (cnt : Z) :
    list (Z * Z * Z) * AxResult () :=
  match pages with
  | [] => ([], Ok ())
  | vaddr :: pages' =>
      match query pt vaddr with
      | Ok (paddr, _) =>
          let copy_size := Z.min (size - cnt) PAGE_SIZE_4K in
          if copy_size =? 0 then ([], Ok ())
          else
            let first := (vaddr =? align_down_4k start) && negb (align_offset_4k start =? 0) in
            let copy_size := if first then Z.min copy_size (PAGE_SIZE_4K - align_offset_4k start)
                             else copy_size in
            let paddr := if first then paddr + align_offset_4k start else paddr in
            let '(ps, r) := area_pieces pt start size pages' (cnt + copy_size) in
            ((paddr, cnt, copy_size) :: ps, r)
      | Err _ => ([], Err BadAddress)
      | Panic => ([], Panic)
      end
  end.

Definition process_area_data (s : AddrSpace) (start size : Z) : list (Z * Z * Z) * AxResult () :=
  match from_start_size start size with
  | Ok r =>
      if negb (contains_range (va_range s) r) then ([], Err InvalidInput) else
      let end_align_up := align_up_4k (as_usize (start + size)) in
      match page_iter_4k (align_down_4k start) end_align_up with
      | Some pages => area_pieces (pt s) start size pages 0
      | None => ([], Panic)
      end
  | Err e => ([], Err e)
  | Panic => ([], Panic)
  end.

(** [copy_nonoverlapping] of a piece, out of memory or into it. *)
Definition read_piece (m : Z → Z) (buf : list Z) (p : Z * Z * Z) : list Z :=
  let '(pa, off, n) := p in splice (Z.to_nat off) (mem_load pa (Z.to_nat n) m) buf.
Definition write_piece (buf : list Z) (m : Z → Z) (p : Z * Z * Z) : Z → Z :=
  let '(pa, off, n) := p in mem_store pa (take (Z.to_nat n) (drop (Z.to_nat off) buf)) m.

Definition AddrSpace_read (s : AddrSpace) (mc : Machine) (start : Z) (buf : list Z) :
    AxResult () * list Z :=
  let '(ps, r) := process_area_data s start (Z.of_nat (length buf)) in
  (r, foldl (read_piece (m_mem mc)) buf ps).

Definition AddrSpace_write (s : AddrSpace) (start : Z) (buf : list Z) (mc : Machine) :
    AxResult () * Machine :=
  let '(ps, r) := process_area_data s start (Z.of_nat (length buf)) in
  (r, mkMachine (m_fa mc) (foldl (write_piece buf) (m_mem mc) ps)).

Definition AddrSpace_protect (start size flags : Z) : Ast () :=
  populate_area start size;;
  on_areas (ms_protect Backend_protect start size (λ _, Some flags)).

(** ** Access checks and faults *)

Fixpoint check_areas (l : list MemoryArea) (r : VirtAddrRange) (access_flags : Z) : bool :=
  match l with
  | [] => false
  | area :: l' =>
      if a_end area <=? r_start r then check_areas l' r access_flags
      else if r_start r <? a_start area then false
      else if negb (contains (a_flags area) access_flags) then false
      else
        let r := mkRange (a_end area) (r_end r) in
        if range_is_empty r then true else check_areas l' r access_flags
  end.
Definition check_region_access (s : AddrSpace) (r : VirtAddrRange) (access_flags : Z) : bool :=
  check_areas (ms_iter (areas s)) r access_flags.

Definition AddrSpace_handle_page_fault (vaddr access_flags : Z) : Ast bool := λ s,
  if negb (range_contains (va_range s.1) vaddr) then (Ok false, s) else
  match ms_find (areas s.1) vaddr with
  | Some area =>
      if contains (a_flags area) access_flags
      then on_backend (Backend_handle_page_fault (a_backend area) vaddr (a_flags area)) s
      else (Ok false, s)
  | None => (Ok false, s)
  end.

(** ** Cloning *)

(** Copy the mapped pages of one area; the state is the new space. *)
Fixpoint clone_pages (old : PT) (area : MemoryArea) (pages : list Z) : Ast () :=
  match pages with
  | [] => mret ()
  | vaddr :: pages' =>
      match query old vaddr with
      | Err NotMapped => clone_pages old area pages'
      | Err PagingOther => st_err BadAddress
      | Panic => st_panic
      | Ok (addr, _) =>
          s ← st_get;
          new_addr ← match query (pt s.1) vaddr with
                     | Ok (paddr, _) => mret paddr
                     | Err NotMapped =>
                         ok ← on_backend (Backend_handle_page_fault (a_backend area) vaddr (a_flags area));
                         if ok : bool
                         then readS (λ s, match query (pt s) vaddr with
                                          | Ok (paddr, _) => Ok paddr
                                          | Err _ => Err BadAddress
                                          | Panic => Panic
                                          end)
                         else st_err NoMemory
                     | Err PagingOther => st_err BadAddress
                     | Panic => st_panic
                     end;
          st_mod (λ s, (s.1, mkMachine (m_fa s.2)
            (mem_store new_addr (mem_load addr (Z.to_nat PAGE_SIZE_4K) (m_mem s.2)) (m_mem s.2))));;
          clone_pages old area pages'
      end
  end.

Fixpoint clone_areas (old : PT) (l : list MemoryArea) : Ast () :=
  match l with
  | [] => mret ()
  | area :: l' =>
      on_areas (ms_map Backend_map area false);;
      (match a_backend area with
       | Linear _ => mret ()
       | Alloc _ =>
           pages ← st_lift (unwrap_opt (page_iter_4k (a_start area) (a_end area)));
           clone_pages old area pages
       end);;
      clone_areas old l'
  end.

(** [Drop for AddrSpace], on a path that returns an error. *)
Definition AddrSpace_drop {T} (e : AxError) (sm : AddrSpace * Machine) : AxResult T * Machine :=
  match AddrSpace_clear sm with
  | (Panic, (_, mc)) => (Panic, mc)
  | (_, (_, mc)) => (Err e, mc)
  end.

(** [clone_or_err]: the new address space and the machine. *)
Definition clone_or_err (s : AddrSpace) (mc : Machine) : AxResult AddrSpace * Machine :=
  match new_empty (AddrSpace_base s) (AddrSpace_size s) with
  | Ok new =>
      match clone_areas (pt s) (ms_iter (areas s)) (new, mc) with
      | (Ok _, (new', mc')) => (Ok new', mc')
      | (Err e, new') => AddrSpace_drop e new'
      | (Panic, (_, mc')) => (Panic, mc')
      end
  | Err e => (Err e, mc)
  | Panic => (Panic, mc)
  end.

(** ** Access checks *)

(** Every address of the range lies in an area that allows the access. *)
Definition accessible (l : list MemoryArea) (r : VirtAddrRange) (flags : Z) : Prop :=
  ∀ x, r_start r ≤ x < r_end r →
    ∃ a, a ∈ l ∧ in_area a x ∧ contains (a_flags a) flags = true.

Lemma accessible_tail a l r flags :
  a_end a ≤ r_start r → accessible (a :: l) r flags ↔ accessible l r flags.
Proof.
  intros Ha. split; intros Hacc x Hx; destruct (Hacc x Hx) as (b & Hb & Hin & Hf).
  - apply elem_of_cons in Hb as [->|Hb]; [unfold in_area in Hin; lia|]. by exists b.
  - exists b. set_solver.
Qed.

Lemma range_is_empty_false r : range_is_empty r = false ↔ r_start r < r_end r.
Proof. rewrite <-not_true_iff_false, range_is_empty_spec. lia. Qed.

Lemma check_areas_spec l r flags :
  areas_sorted l → r_start r < r_end r → check_areas l r flags = true ↔ accessible l r flags.
Proof.
  intros [Hs Hne]. revert r. induction Hs as [|a l Hs IH Hall]; intros r Hr; simpl.
  { split; [done|]. intros Hacc. destruct (Hacc (r_start r)) as (b & Hb & _); [lia|set_solver]. }
  apply Forall_cons in Hne as [Hna Hne]. specialize (IH Hne).
  assert (∀ b x, b ∈ l → in_area b x → a_end a ≤ x) as Hlater.
  { intros b x Hb Hin. assert (a_end a ≤ a_start b) by by apply (proj1 (Forall_forall _ _) Hall).
    unfold in_area in Hin. lia. }
  destruct (Z.leb_spec (a_end a) (r_start r)).
  { rewrite IH by done. by rewrite accessible_tail. }
  destruct (Z.ltb_spec (r_start r) (a_start a)).
  { split; [done|]. intros Hacc. destruct (Hacc (r_start r)) as (b & Hb & Hin & _); [lia|].
    apply elem_of_cons in Hb as [->|Hb]; [unfold in_area in Hin; lia|].
    specialize (Hlater _ _ Hb Hin). lia. }
  assert (accessible (a :: l) r flags → contains (a_flags a) flags = true) as Hflag.
  { intros Hacc. destruct (Hacc (r_start r)) as (b & Hb & Hin & Hf); [lia|].
    apply elem_of_cons in Hb as [->|Hb]; [done|]. specialize (Hlater _ _ Hb Hin). lia. }
  destruct (contains (a_flags a) flags) eqn:Hf; simpl.
  2:{ split; [done|]. intros Hacc. by specialize (Hflag Hacc). }
  destruct (range_is_empty (mkRange (a_end a) (r_end r))) eqn:Hempty.
  - apply range_is_empty_spec in Hempty. simpl in Hempty. split; [intros _|done].
    intros x Hx. exists a. split; [set_solver|]. split; [unfold in_area; lia|done].
  - apply range_is_empty_false in Hempty. rewrite IH by done. simpl in Hempty.
    split; intros Hacc x Hx.
    + destruct (Z.lt_ge_cases x (a_end a)).
      * exists a. split; [set_solver|]. split; [unfold in_area; lia|done].
      * destruct (Hacc x) as (b & Hb & ?); [simpl; lia|]. exists b. set_solver.
    + simpl in Hx. destruct (Hacc x) as (b & Hb & Hin & Hbf); [lia|].
      apply elem_of_cons in Hb as [->|Hb]; [unfold in_area in Hin; lia|]. by exists b.
Qed.

(** C21: the access check answers yes exactly when every address of the range
    lies in a mapped area whose flags contain the access. *)
Theorem check_region_access_spec (s : AddrSpace) (r : VirtAddrRange) (flags : Z) :
  r_start r < r_end r →
  check_region_access s r flags = true ↔
    ∀ x, r_start r ≤ x < r_end r →
      ∃ a, a ∈ ms_iter (areas s) ∧ in_area a x ∧ contains (a_flags a) flags = true.
Proof. intros Hr. apply check_areas_spec; [apply ms_iter_sorted|done]. Qed.

(** ** Page faults *)

(** The page of an address. *)
Definition page_of (a : Z) : Z := a - a mod PAGE_SIZE_4K.

Lemma page_of_aligned a : page_of a mod PAGE_SIZE_4K = 0.
Proof. unfold page_of, PAGE_SIZE_4K. rewrite Zminus_mod_idemp_r, Z.sub_diag. done. Qed.

Lemma page_of_id a : a mod PAGE_SIZE_4K = 0 → page_of a = a.
Proof. unfold page_of. lia. Qed.

(** What a lazy mapping does on success and on failure. *)
Lemma fault_alloc_spec vaddr fl w :
  0 ≤ vaddr →
  match handle_page_fault_alloc vaddr fl false w with
  | (Ok true, w') =>
      ∃ f, ¬ fa_used (m_fa w.2) f ∧ query w'.1 (page_of vaddr) = Ok (f, fl) ∧
        (∀ i, 0 ≤ i < PAGE_SIZE_4K → m_mem w'.2 (f + i) = 0) ∧
        (∀ x, ¬ (f ≤ x < f + PAGE_SIZE_4K) → m_mem w'.2 x = m_mem w.2 x) ∧
        ∀ p, p mod PAGE_SIZE_4K = 0 → p ≠ page_of vaddr → query w'.1 p = query w.1 p
  | (Ok false, w') => ∀ p, query w'.1 p = query w.1 p
  | _ => False
  end.
Proof.
  intros Hv. unfold handle_page_fault_alloc, alloc_frame, pt_step. monad.
  destruct (fa_alloc (m_fa w.2)) as [[f fa]|] eqn:Hfa; [|done].
  apply fa_alloc_ok in Hfa as (Hf & Hal & Hnew & _). simpl.
  destruct (pt_map w.1 vaddr f fl) as [[] pt'] eqn:Hm; simpl.
  - apply pt_map_ok in Hm as [Hq Hother]; [|done]. exists f. split_and!; [done..| | |done].
    + intros i Hi. unfold mem_zero. rewrite decide_True; [done|lia].
    + intros x Hx. unfold mem_zero. by rewrite decide_False.
  - by eapply pt_map_fail.
Qed.

(** What a handled fault has done. *)
Definition faulted_in (s : AddrSpace) (m : Machine) (vaddr access : Z) (s' : AddrSpace) (m' : Machine) : Prop :=
  areas s' = areas s ∧ va_range s' = va_range s ∧
  ∃ a f, a ∈ ms_iter (areas s) ∧ in_area a vaddr ∧ contains (a_flags a) access = true ∧
    a_backend a = Alloc false ∧ ¬ fa_used (m_fa m) f ∧
    query (pt s') (page_of vaddr) = Ok (f, a_flags a) ∧
    (∀ i, 0 ≤ i < PAGE_SIZE_4K → m_mem m' (f + i) = 0) ∧
    (∀ x, ¬ (f ≤ x < f + PAGE_SIZE_4K) → m_mem m' x = m_mem m x) ∧
    ∀ p, p mod PAGE_SIZE_4K = 0 → p ≠ page_of vaddr → query (pt s') p = query (pt s) p.

Lemma page_fault_cases s m vaddr access :
  0 ≤ vaddr →
  ∃ b s' m', AddrSpace_handle_page_fault vaddr access (s, m) = (Ok b, (s', m')) ∧
    if b : bool then faulted_in s m vaddr access s' m'
    else areas s' = areas s ∧ va_range s' = va_range s ∧ ∀ p, query (pt s') p = query (pt s) p.
Proof.
  intros Hv. unfold AddrSpace_handle_page_fault. simpl.
  destruct (range_contains (va_range s) vaddr); simpl; [|by eexists false, s, m].
  destruct (ms_find (areas s) vaddr) as [a|] eqn:Hfind; [|by eexists false, s, m].
  apply ms_find_spec in Hfind as [Ha Hin].
  destruct (contains (a_flags a) access) eqn:Hacc; [|by eexists false, s, m].
  unfold on_backend, Backend_handle_page_fault. simpl.
  destruct (a_backend a) as [off|[]] eqn:Hb; [by eexists false, _, _..|].
  pose proof (fault_alloc_spec vaddr (a_flags a) (pt s, m) Hv) as Hf.
  destruct (handle_page_fault_alloc vaddr (a_flags a) false (pt s, m)) as [[[]|?|] w']; [| |done..];
    simpl in *; eexists _, _, _; (split; [done|]); [|done].
  destruct Hf as (f & Hnew & Hq & Hz & Hm & Ho). split_and!; [done..|]. by exists a, f.
Qed.

(** a page fault is handled only inside a lazily allocated area whose
    flags allow the access: the page then maps to a fresh frame full of
    zeroes with the flags of the area, and no other page and no byte of
    another frame changes. A fault that is not handled changes no mapping.
    The areas never change. *)
Theorem handle_page_fault_spec (s : AddrSpace) (m : Machine) (vaddr access : Z) :
  0 ≤ vaddr →
  match AddrSpace_handle_page_fault vaddr access (s, m) with
  | (Ok true, (s', m')) => faulted_in s m vaddr access s' m'
  | (Ok false, (s', m')) =>
      areas s' = areas s ∧ va_range s' = va_range s ∧ ∀ p, query (pt s') p = query (pt s) p
  | _ => False
  end.
Proof. intros Hv. by destruct (page_fault_cases s m vaddr access Hv) as ([] & s' & m' & -> & ?). Qed.

(** a populated mapping reports success even when no frame is left: the
    loop passes over a page whose allocation fails, so the area exists with
    pages that are not mapped, which page faults never fill. *)
Theorem map_alloc_ignores_exhaustion (start size flags : Z) (pages : list Z) (w : Hw) :
  fa_alloc (m_fa w.2) = None →
  page_iter_4k start (as_usize (start + size)) = Some pages →
  Backend_map (Alloc true) start size flags w = (Ok true, w) ∧
  ∀ vaddr, Backend_handle_page_fault (Alloc true) vaddr flags w = (Ok false, w).
Proof.
  intros Hno Hp. split; [|done]. simpl. unfold Backend_map_alloc. monad. rewrite Hp. simpl.
  clear Hp. induction pages as [|p pages IH]; [done|]. simpl. unfold alloc_frame. monad.
  by rewrite Hno.
Qed.

(** ** Populating *)

(** Mappings only grow: what was mapped stays mapped to the same frame. *)
Definition pt_grows (p q : PT) : Prop :=
  ∀ a x, a mod PAGE_SIZE_4K = 0 → query p a = Ok x → query q a = Ok x.
Definition same_space (s s' : AddrSpace) : Prop :=
  areas s' = areas s ∧ va_range s' = va_range s ∧ pt_grows (pt s) (pt s').

Lemma same_space_refl s : same_space s s.
Proof. split_and!; [done|done|by intros a x]. Qed.
Lemma same_space_trans s s' s'' : same_space s s' → same_space s' s'' → same_space s s''.
Proof.
  intros (? & ? & Hg) (? & ? & Hg'). split_and!; [congruence..|].
  intros a x Ha Hq. by apply Hg', Hg.
Qed.

Lemma populate_pages_spec pages area s r s' :
  a_backend area = Alloc false → Forall (λ p, 0 ≤ p ∧ p mod PAGE_SIZE_4K = 0) pages →
  populate_pages pages area s = (r, s') →
  same_space s.1 s'.1 ∧ r ≠ Panic ∧
  (r = Ok () → ∀ p, p ∈ pages → ∃ x, query (pt s'.1) p = Ok x).
Proof.
  intros Hb. revert s. induction pages as [|p pages IH]; intros s Hp; cbn [populate_pages]; monad.
  { intros [= <- <-]. split_and!; [apply same_space_refl|done|set_solver]. }
  apply Forall_cons in Hp as [[Hp0 Hpa] Hp].
  destruct (query (pt s.1) p) as [x|[]|] eqn:Hq.
  - intros (Hs & Hr & Hall)%IH; [|done]. split_and!; [done..|].
    intros Hok q [->|Hin]%elem_of_cons; [|by apply Hall]. exists x. by apply Hs.
  - unfold on_backend, Backend_handle_page_fault. rewrite Hb.
    pose proof (fault_alloc_spec p (a_flags area) (pt s.1, s.2) Hp0) as Hf.
    destruct (handle_page_fault_alloc p (a_flags area) false (pt s.1, s.2)) as [[[]|?|] w'];
      simpl in *; try done.
    + destruct Hf as (f & _ & Hqf & _ & _ & Ho). rewrite page_of_id in * by done.
      set (s1 := (mkAddrSpace (va_range s.1) (areas s.1) w'.1, w'.2)).
      assert (same_space s.1 s1.1) as Hs1.
      { split_and!; [done..|]. intros a x Ha Hqa. simpl. destruct (decide (a = p)) as [->|Hne].
        - congruence. - by rewrite Ho. }
      intros (Hs & Hr & Hall)%IH; [|done]. split_and!; [by eapply same_space_trans|done|].
      intros Hok q [->|Hin]%elem_of_cons; [|by apply Hall]. exists (f, a_flags area).
      by apply Hs.
    + intros [= <- <-]. split_and!; [|done..]. split_and!; [done..|]. intros a x Ha Hqa. simpl.
      by rewrite Hf.
  - intros [= <- <-]. split_and!; [apply same_space_refl|done..].
  - by destruct (query_no_panic (pt s.1) p).
Qed.

(** All areas begin and end on page boundaries. *)
Definition areas_aligned (ms : MS) : Prop :=
  Forall (λ a, a_start a mod PAGE_SIZE_4K = 0 ∧ a_end a mod PAGE_SIZE_4K = 0) (ms_iter ms).

(** A page in an area, present in the page table if the area is lazy. *)
Definition page_present (s : AddrSpace) (p : Z) : Prop :=
  ∃ a, a ∈ ms_iter (areas s) ∧ in_area a p ∧
    (a_backend a = Alloc false → ∃ x, query (pt s) p = Ok x).

(** The iterator between two page addresses. *)
Lemma page_iter_between s e :
  s mod PAGE_SIZE_4K = 0 → e mod PAGE_SIZE_4K = 0 → s ≤ e →
  ∃ ps, page_iter_4k s e = Some ps ∧
    ∀ p, p ∈ ps ↔ s ≤ p < e ∧ p mod PAGE_SIZE_4K = 0.
Proof.
  intros [k ->]%aligned_cases [j ->]%aligned_cases Hle. unfold PAGE_SIZE_4K in *.
  exists (page_list (4096 * k) (Z.to_nat (j - k))). split.
  - replace (4096 * j) with (4096 * k + 4096 * Z.of_nat (Z.to_nat (j - k))) by lia.
    apply page_iter_4k_spec. unfold PAGE_SIZE_4K. by rewrite Z.mul_comm, Z_mod_mult.
  - intros p. rewrite page_list_elem. unfold PAGE_SIZE_4K. split.
    + intros (i & Hi & ->). split; [lia|].
      replace (4096 * k + 4096 * Z.of_nat i) with ((k + Z.of_nat i) * 4096) by lia.
      apply Z_mod_mult.
    + intros [Hp [l ->]%aligned_cases]. unfold PAGE_SIZE_4K in *.
      exists (Z.to_nat (l - k)). lia.
Qed.

Lemma page_present_grows s s' p :
  same_space s s' → p mod PAGE_SIZE_4K = 0 → page_present s p → page_present s' p.
Proof.
  intros (Ha & _ & Hg) Hp (a & Hin & Hpa & Hq). exists a. rewrite Ha. split_and!; [done..|].
  intros Hb. destruct (Hq Hb) as [x Hx]. exists x. by apply Hg.
Qed.

Lemma populate_in_area_spec a start end_ s :
  a ∈ ms_iter (areas s.1) → in_area a start → 0 ≤ start → start mod PAGE_SIZE_4K = 0 →
  a_end a mod PAGE_SIZE_4K = 0 → end_ mod PAGE_SIZE_4K = 0 → start ≤ end_ →
  match populate_in_area a start end_ s with
  | (Ok _, s') => same_space s.1 s'.1 ∧
      ∀ p, start ≤ p < Z.min (a_end a) end_ → p mod PAGE_SIZE_4K = 0 → page_present s'.1 p
  | (Err _, s') => same_space s.1 s'.1
  | (Panic, _) => False
  end.
Proof.
  intros Hin Hina H0 Hs Hae He Hle. unfold populate_in_area.
  assert (∀ p, start ≤ p < Z.min (a_end a) end_ → in_area a p) as Hpa
    by (unfold in_area in *; lia).
  destruct (a_backend a) as [?|[]] eqn:Hb;
    try (split; [apply same_space_refl|]; intros p Hp _; exists a; rewrite Hb; naive_solver).
  destruct (page_iter_between start (Z.min (a_end a) end_)) as (ps & Hps & Hpe); [done| | |].
  { by destruct (Z.min_spec (a_end a) end_) as [[_ ->]|[_ ->]]. }
  { unfold in_area in Hina. lia. }
  monad. rewrite Hps. simpl. destruct (populate_pages ps a s) as [r s1] eqn:Hpop.
  apply populate_pages_spec in Hpop as (Hsame & Hnp & Hall); [|done|].
  2:{ apply Forall_forall. intros p Hp%Hpe. lia. }
  destruct r as [[]|?|]; [|done|done]. split; [done|].
  intros p Hp Hpal. exists a. split; [by rewrite (proj1 Hsame)|]. split; [by apply Hpa|].
  intros _. apply Hall; [done|]. by apply Hpe.
Qed.

Lemma aligned_gap x y : x mod PAGE_SIZE_4K = 0 → y mod PAGE_SIZE_4K = 0 → x < y → x + PAGE_SIZE_4K ≤ y.
Proof. intros [k ->]%aligned_cases [j ->]%aligned_cases. unfold PAGE_SIZE_4K. lia. Qed.

Lemma populate_loop_spec fuel start end_ s :
  areas_aligned (areas s.1) → 0 ≤ start → start mod PAGE_SIZE_4K = 0 → end_ mod PAGE_SIZE_4K = 0 →
  start ≤ end_ → end_ - start < PAGE_SIZE_4K * Z.of_nat fuel →
  match populate_loop fuel start end_ s with
  | (Ok x, s') => same_space s.1 s'.1 ∧ start ≤ x ∧
      ∀ p, start ≤ p < Z.min x end_ → p mod PAGE_SIZE_4K = 0 → page_present s'.1 p
  | (Err _, s') => same_space s.1 s'.1
  | (Panic, _) => False
  end.
Proof.
  revert start s. induction fuel as [|fuel IH]; intros start s Hal H0 Hs He Hle Hfuel; [lia|].
  cbn [populate_loop]. monad. destruct (ms_find (areas s.1) start) as [a|] eqn:Hfind.
  2:{ split_and!; [apply same_space_refl|lia|intros; lia]. }
  apply ms_find_spec in Hfind as [Hin Hina].
  pose proof (proj1 (Forall_forall _ _) Hal a Hin) as [_ Hae].
  assert (start < a_end a) as Hlt by (unfold in_area in Hina; lia).
  pose proof (populate_in_area_spec a start end_ s Hin Hina H0 Hs Hae He Hle) as Hm.
  destruct (populate_in_area a start end_ s) as [[[]|e|] s1]; [|done..]. destruct Hm as [Hsame Hpres].
  rewrite (proj2 (is_aligned_4k_spec (a_end a)) Hae). simpl.
  destruct (Z.leb_spec end_ (a_end a)); [split_and!; [done|lia|done]|].
  pose proof (aligned_gap start (a_end a) Hs Hae Hlt).
  specialize (IH (a_end a) s1 ltac:(by rewrite (proj1 Hsame)) ltac:(lia) Hae He ltac:(lia) ltac:(lia)).
  destruct (populate_loop fuel (a_end a) end_ s1) as [[x|e|] s2]; [|by eapply same_space_trans|done].
  destruct IH as (Hs2 & Hx & Hp2).
  split_and!; [by eapply same_space_trans|lia|]. intros p Hp Hpal.
  destruct (Z.lt_ge_cases p (a_end a)); [|apply Hp2; [lia|done]].
  apply (page_present_grows s1.1); [done..|]. apply Hpres; [lia|done].
Qed.

Lemma validate_region_Ok s start size :
  0 ≤ start → 0 ≤ size → start + size < 2 ^ 64 →
  match validate_region s start size with
  | Ok _ => AddrSpace_base s ≤ start ∧ start + size ≤ AddrSpace_end s ∧
      start mod PAGE_SIZE_4K = 0 ∧ size mod PAGE_SIZE_4K = 0
  | Err e => e = InvalidInput
  | Panic => False
  end.
Proof.
  intros Hs Hn Hlt. unfold validate_region, AddrSpace_contains_range, mbind, res_bind.
  rewrite from_start_size_spec by done. simpl.
  destruct (contains_range _ _) eqn:Hc; [|done]. simpl. apply contains_range_spec in Hc. simpl in Hc.
  destruct (is_aligned_4k start) eqn:H1; [|done]. destruct (is_aligned_4k size) eqn:H2; [|done].
  apply is_aligned_4k_spec in H1. apply is_aligned_4k_spec in H2. simpl. split_and!; try done; apply Hc.
Qed.

Lemma populate_area_spec' (s : AddrSpace) (m : Machine) (start size : Z) :
  areas_aligned (areas s) → 0 ≤ start → 0 ≤ size → start + size < 2 ^ 64 →
  match populate_area start size (s, m) with
  | (Ok _, (s', _)) => same_space s s' ∧
      start mod PAGE_SIZE_4K = 0 ∧ size mod PAGE_SIZE_4K = 0 ∧
      AddrSpace_base s ≤ start ∧ start + size ≤ AddrSpace_end s ∧
      ∀ p, start ≤ p < start + size → p mod PAGE_SIZE_4K = 0 → page_present s' p
  | (Err _, (s', _)) => same_space s s'
  | (Panic, _) => False
  end.
Proof.
  intros Hal Hs Hn Hlt. unfold populate_area, readS. unfold mbind, st_bind. simpl fst.
  pose proof (validate_region_Ok s start size Hs Hn Hlt) as Hv.
  destruct (validate_region s start size) as [[]|e|]; [|apply same_space_refl|done].
  destruct Hv as (Hb & He & Has & Haz). rewrite wrapu_id by (split; lia).
  assert ((start + size) mod PAGE_SIZE_4K = 0) as Hae by by rewrite Zplus_mod, Has, Haz.
  assert (start + size - start < PAGE_SIZE_4K * Z.of_nat (S (Z.to_nat (size / PAGE_SIZE_4K)))) as Hf.
  { pose proof (Z_div_mod_eq_full size PAGE_SIZE_4K).
    pose proof (Z.div_pos size PAGE_SIZE_4K Hn ltac:(done)). unfold PAGE_SIZE_4K in *. lia. }
  pose proof (populate_loop_spec _ start (start + size) (s, m) Hal Hs Has Hae ltac:(lia) Hf) as Hl.
  destruct (populate_loop _ start (start + size) (s, m)) as [[x|e|] [s' m']]; [|done..].
  destruct Hl as (Hsame & Hx & Hp). monad.
  destruct (Z.ltb_spec x (start + size)); [done|]. split_and!; [done..|].
  intros p Hpr. apply Hp. lia.
Qed.

(** populating a region ends without a panic. When it succeeds, the
    region is page aligned and inside the address space, every page of it
    lies in an area, and every page of a lazily allocated area is mapped.
    Whatever the outcome, the areas stay and no mapping is lost or moved. *)
Theorem populate_area_spec (s : AddrSpace) (m : Machine) (start size : Z) :
  areas_aligned (areas s) → 0 ≤ start → 0 ≤ size → start + size < 2 ^ 64 →
  match populate_area start size (s, m) with
  | (Ok _, (s', _)) => same_space s s' ∧
      start mod PAGE_SIZE_4K = 0 ∧ size mod PAGE_SIZE_4K = 0 ∧
      AddrSpace_base s ≤ start ∧ start + size ≤ AddrSpace_end s ∧
      ∀ p, start ≤ p < start + size → p mod PAGE_SIZE_4K = 0 → page_present s' p
  | (Err _, (s', _)) => same_space s s'
  | (Panic, _) => False
  end.
Proof. apply populate_area_spec'. Qed.

(** ** Translation *)

(** The physical address of a virtual one. *)
Definition translate (pt : PT) (va : Z) : option Z :=
  match query pt (page_of va) with
  | Ok (f, _) => Some (f + va mod PAGE_SIZE_4K)
  | _ => None
  end.

(** The pieces lie one after the other, and each byte of a piece is the
    translation of the address it stands for. *)
Fixpoint tile (pt : PT) (start : Z) (ps : list (Z * Z * Z)) (cnt size : Z) : Prop :=
  match ps with
  | [] => cnt = size
  | (pa, off, n) :: ps' =>
      off = cnt ∧ 0 < n ∧ cnt + n ≤ size ∧
      (∀ i, 0 ≤ i < n → translate pt (start + cnt + i) = Some (pa + i)) ∧
      tile pt start ps' (cnt + n) size
  end.

(** Addresses within one page. *)
Lemma within_page a i :
  0 ≤ i → a mod PAGE_SIZE_4K + i < PAGE_SIZE_4K →
  page_of (a + i) = page_of a ∧ (a + i) mod PAGE_SIZE_4K = a mod PAGE_SIZE_4K + i.
Proof.
  intros Hi Hlt.
  assert ((a + i) mod PAGE_SIZE_4K = a mod PAGE_SIZE_4K + i) as Hm.
  { rewrite <-Zplus_mod_idemp_l. apply Z.mod_small.
    pose proof (Z.mod_pos_bound a PAGE_SIZE_4K ltac:(done)). lia. }
  split; [unfold page_of; lia|done].
Qed.

(** Where the loop stands: at the end, or at the first byte, or at the
    beginning of a page. *)
Definition at_page (start cnt size p : Z) : Prop :=
  cnt = size ∨ (cnt = 0 ∧ p = page_of start) ∨ (0 < cnt ∧ p = start + cnt ∧ p mod PAGE_SIZE_4K = 0).

Lemma area_pieces_tile pt start size n p cnt ps :
  0 ≤ start < 2 ^ 64 → 0 ≤ cnt ≤ size → at_page start cnt size p →
  start + size ≤ p + PAGE_SIZE_4K * Z.of_nat n →
  area_pieces pt start size (page_list p n) cnt = (ps, Ok ()) → tile pt start ps cnt size.
Proof.
  intros Hstart. revert p cnt ps. induction n as [|n IH]; intros p cnt ps Hcnt Hat Hend.
  { simpl. intros [= <-]. simpl. pose proof (Z.mod_pos_bound start PAGE_SIZE_4K ltac:(done)).
    unfold at_page, page_of in Hat. lia. }
  rewrite page_list_S. cbn [area_pieces].
  destruct (query pt p) as [[f fl]|?|] eqn:Hq; [|done..].
  destruct (Z.eqb_spec (Z.min (size - cnt) PAGE_SIZE_4K) 0) as [Hz|Hz].
  { intros [= <-]. simpl. unfold PAGE_SIZE_4K in Hz. lia. }
  assert (cnt < size) as Hlt by (unfold PAGE_SIZE_4K in Hz; lia).
  set (o := (start + cnt) mod PAGE_SIZE_4K).
  pose proof (Z.mod_pos_bound (start + cnt) PAGE_SIZE_4K ltac:(done)) as Ho. fold o in Ho.
  rewrite align_down_4k_spec, align_offset_4k_spec by done. fold (page_of start).
  set (first := (p =? page_of start) && _).
  assert (page_of (start + cnt) = p ∧
    (if first then Z.min (Z.min (size - cnt) PAGE_SIZE_4K) (PAGE_SIZE_4K - start mod PAGE_SIZE_4K)
     else Z.min (size - cnt) PAGE_SIZE_4K) = Z.min (size - cnt) (PAGE_SIZE_4K - o) ∧
    (if first then f + start mod PAGE_SIZE_4K else f) = f + o) as (Hp & -> & ->).
  { subst first o. destruct Hat as [?|[[-> ->]|(Hc & -> & Hal)]]; [lia| |].
    - rewrite Z.add_0_r in *. rewrite Z.eqb_refl. simpl.
      destruct (Z.eqb_spec (start mod PAGE_SIZE_4K) 0) as [->|]; simpl; lia.
    - rewrite Hal. pose proof (Z.mod_pos_bound start PAGE_SIZE_4K ltac:(done)).
      destruct (Z.eqb_spec (start + cnt) (page_of start)) as [He|]; [unfold page_of in He; lia|].
      simpl. rewrite page_of_id by done. lia. }
  destruct (area_pieces pt start size (page_list (p + PAGE_SIZE_4K) n) _) as [ps' r] eqn:Hrest.
  intros [= <- ->]. simpl. split_and!; [done|lia|lia| |].
  - intros i Hi. destruct (within_page (start + cnt) i) as [Hpg Hmod]; [lia|fold o; lia|].
    unfold translate. rewrite Hpg, Hp, Hq, Hmod. fold o. f_equal. lia.
  - apply (IH (p + PAGE_SIZE_4K)); [lia| |lia|done].
    destruct (Z.le_gt_cases (size - cnt) (PAGE_SIZE_4K - o)); [left; lia|].
    right; right. assert (start + (cnt + Z.min (size - cnt) (PAGE_SIZE_4K - o)) = p + PAGE_SIZE_4K).
    { unfold page_of in Hp. fold o in Hp. lia. }
    split_and!; [lia|lia|]. rewrite <-Hp, Zplus_mod, page_of_aligned, Z_mod_same_full. done.
Qed.

Lemma process_area_data_tile s start size ps :
  0 ≤ start → 0 ≤ size → start + size + (PAGE_SIZE_4K - 1) < 2 ^ 64 →
  process_area_data s start size = (ps, Ok ()) → tile (pt s) start ps 0 size.
Proof.
  intros Hs Hn Hlt. unfold process_area_data.
  rewrite from_start_size_spec by (unfold PAGE_SIZE_4K in *; lia).
  destruct (contains_range _ _); [|done]. simpl.
  rewrite wrapu_id by (split; unfold PAGE_SIZE_4K in *; lia).
  rewrite align_down_4k_spec by (unfold PAGE_SIZE_4K in *; lia).
  rewrite align_up_4k_spec by lia. fold (page_of start).
  fold (page_of (start + size + (PAGE_SIZE_4K - 1))).
  set (e := page_of (start + size + (PAGE_SIZE_4K - 1))).
  pose proof (Z.mod_pos_bound start PAGE_SIZE_4K ltac:(done)).
  pose proof (Z.mod_pos_bound (start + size + (PAGE_SIZE_4K - 1)) PAGE_SIZE_4K ltac:(done)).
  assert (start + size ≤ e) by (subst e; unfold page_of; lia).
  destruct (aligned_cases _ (page_of_aligned start)) as [k Hk].
  destruct (aligned_cases e (page_of_aligned _)) as [j Hj].
  assert (k ≤ j) by (unfold page_of, PAGE_SIZE_4K in *; lia).
  replace e with (page_of start + PAGE_SIZE_4K * Z.of_nat (Z.to_nat (j - k)))
    by (unfold PAGE_SIZE_4K in *; lia).
  rewrite page_iter_4k_spec by apply page_of_aligned.
  apply area_pieces_tile; [unfold PAGE_SIZE_4K in *; lia|lia|right; by left|].
  unfold PAGE_SIZE_4K in *. lia.
Qed.

Lemma length_mem_load a n m : length (mem_load a n m) = n.
Proof. unfold mem_load. by rewrite length_fmap, length_seq. Qed.

Lemma mem_load_lookup a n m i : (i < n)%nat → mem_load a n m !! i = Some (m (a + Z.of_nat i)).
Proof. intros Hi. unfold mem_load. rewrite list_lookup_fmap, lookup_seq_lt by done. done. Qed.

(** Reading: the bytes from [cnt] on are those of the translated addresses. *)
Lemma tile_read pt start ps cnt size m buf :
  tile pt start ps cnt size → 0 ≤ cnt → Z.of_nat (length buf) = size →
  length (foldl (read_piece m) buf ps) = length buf ∧
  ∀ i, 0 ≤ i < size →
    if decide (cnt ≤ i) then
      ∃ pa, translate pt (start + i) = Some pa ∧
        foldl (read_piece m) buf ps !! Z.to_nat i = Some (m pa)
    else foldl (read_piece m) buf ps !! Z.to_nat i = buf !! Z.to_nat i.
Proof.
  revert cnt buf. induction ps as [|[[pa off] n] ps IH]; intros cnt buf; simpl.
  { intros -> Hc Hlen. split; [done|]. intros i Hi. by rewrite decide_False by lia. }
  intros (-> & Hn & Hle & Htr & Ht) Hc Hlen.
  set (buf1 := splice (Z.to_nat cnt) (mem_load pa (Z.to_nat n) m) buf).
  assert (length buf1 = length buf) as Hl1 by (apply length_splice; rewrite length_mem_load; lia).
  destruct (IH (cnt + n) buf1 Ht ltac:(lia) ltac:(lia)) as [Hlen' Hi']. split; [lia|].
  intros i Hi. specialize (Hi' i Hi).
  assert (buf1 !! Z.to_nat i = if decide (cnt ≤ i < cnt + n)
    then Some (m (pa + (i - cnt))) else buf !! Z.to_nat i) as Hb1.
  { unfold buf1. rewrite splice_lookup by (rewrite length_mem_load; lia). rewrite length_mem_load.
    destruct (decide (cnt ≤ i < cnt + n)); [rewrite decide_True by lia|by rewrite decide_False by lia].
    rewrite mem_load_lookup by lia. do 3 f_equal. lia. }
  destruct (decide (cnt + n ≤ i)) as [Hd|Hd]; [rewrite decide_True by lia; done|].
  rewrite Hi', Hb1. case_decide.
  - rewrite decide_True by lia. exists (pa + (i - cnt)). split; [|done].
    rewrite <-Htr by lia. f_equal. lia.
  - by rewrite decide_False by lia.
Qed.

Lemma mem_store_lookup a bs m x :
  mem_store a bs m x = if decide (a ≤ x < a + Z.of_nat (length bs))
    then default 0 (bs !! Z.to_nat (x - a)) else m x.
Proof. done. Qed.

(** Writing: bytes that are no translation of an address of the range stay. *)
Lemma tile_write_frame pt start ps cnt size buf m x :
  tile pt start ps cnt size → 0 ≤ cnt → Z.of_nat (length buf) = size →
  (∀ i, cnt ≤ i < size → translate pt (start + i) ≠ Some x) →
  foldl (write_piece buf) m ps x = m x.
Proof.
  revert cnt m. induction ps as [|[[pa off] n] ps IH]; intros cnt m; simpl; [done|].
  intros (-> & Hn & Hle & Htr & Ht) Hc Hlen Hx.
  rewrite (IH (cnt + n)) by (done || lia || (intros; apply Hx; lia)).
  rewrite mem_store_lookup, decide_False; [done|]. rewrite length_take, length_drop. intros Hr.
  destruct (Hx (cnt + (x - pa))); [lia|]. rewrite Z.add_assoc, Htr by lia. f_equal. lia.
Qed.

(** Distinct addresses of the range have distinct translations. *)
Definition injective_on (pt : PT) (start cnt size : Z) : Prop :=
  ∀ i j x, cnt ≤ i < size → cnt ≤ j < size →
    translate pt (start + i) = Some x → translate pt (start + j) = Some x → i = j.

Lemma tile_write pt start ps cnt size buf m :
  tile pt start ps cnt size → 0 ≤ cnt → Z.of_nat (length buf) = size →
  injective_on pt start cnt size →
  ∀ i, cnt ≤ i < size → ∃ pa, translate pt (start + i) = Some pa ∧
    Some (foldl (write_piece buf) m ps pa) = buf !! Z.to_nat i.
Proof.
  revert cnt m. induction ps as [|[[pa off] n] ps IH]; intros cnt m; simpl.
  { intros -> ? ? ? i Hi. lia. }
  intros (-> & Hn & Hle & Htr & Ht) Hc Hlen Hinj i Hi.
  destruct (Z.lt_ge_cases i (cnt + n)) as [Hin|Hout].
  2:{ apply (IH (cnt + n)); [done|lia|done| |lia]. intros j k x Hj Hk. apply Hinj; lia. }
  exists (pa + (i - cnt)).
  assert (translate pt (start + i) = Some (pa + (i - cnt))) as Htri.
  { rewrite <-Htr by lia. f_equal. lia. }
  split; [done|]. rewrite (tile_write_frame pt start ps (cnt + n) size); [|done|lia|done|].
  - rewrite mem_store_lookup, length_take, length_drop, decide_True by lia.
    replace (Z.to_nat (pa + (i - cnt) - pa)) with (Z.to_nat i - Z.to_nat cnt)%nat by lia.
    rewrite lookup_take_lt, lookup_drop by lia.
    replace (Z.to_nat cnt + (Z.to_nat i - Z.to_nat cnt))%nat with (Z.to_nat i) by lia.
    destruct (lookup_lt_is_Some_2 buf (Z.to_nat i)) as [b ->]; [lia|done].
  - intros j Hj Htrj. assert (i = j); [|lia]. by apply (Hinj i j (pa + (i - cnt))); [lia|lia|..].
Qed.

(** C23: a write that succeeds puts every byte at the physical address of its
    virtual address and changes no other byte, and reading the same range
    afterwards gives the bytes back, for a range whose pages are mapped to
    distinct frames; page boundaries inside the range make no difference. *)
Theorem write_read_back (s : AddrSpace) (start : Z) (buf old : list Z) (m m' : Machine) :
  0 ≤ start → start + Z.of_nat (length buf) + (PAGE_SIZE_4K - 1) < 2 ^ 64 →
  length old = length buf → injective_on (pt s) start 0 (Z.of_nat (length buf)) →
  AddrSpace_write s start buf m = (Ok (), m') →
  (∀ i, 0 ≤ i < Z.of_nat (length buf) → ∃ pa, translate (pt s) (start + i) = Some pa ∧
     Some (m_mem m' pa) = buf !! Z.to_nat i) ∧
  (∀ x, (∀ i, 0 ≤ i < Z.of_nat (length buf) → translate (pt s) (start + i) ≠ Some x) →
     m_mem m' x = m_mem m x) ∧
  AddrSpace_read s m' start old = (Ok (), buf).
Proof.
  intros Hs Hlt Hold Hinj. unfold AddrSpace_write, AddrSpace_read. rewrite Hold.
  destruct (process_area_data s start (Z.of_nat (length buf))) as [ps r] eqn:Hp.
  intros [= -> <-]. simpl.
  apply process_area_data_tile in Hp; [|done|lia|done].
  pose proof (tile_write _ _ _ _ _ buf (m_mem m) Hp ltac:(lia) eq_refl Hinj) as Hw.
  split; [done|]. split.
  { intros x Hx. by apply (tile_write_frame (pt s) start ps 0 (Z.of_nat (length buf))). }
  destruct (tile_read _ _ _ _ _ (foldl (write_piece buf) (m_mem m) ps) old Hp ltac:(lia) ltac:(lia))
    as [Hlen Hr].
  f_equal. apply list_eq. intros i. destruct (decide (i < length buf)%nat) as [Hi|Hi].
  - specialize (Hr (Z.of_nat i) ltac:(lia)). rewrite decide_True, Nat2Z.id in Hr by lia.
    destruct Hr as (pa & Htr & ->). destruct (Hw (Z.of_nat i)) as (pa' & Htr' & Hb); [lia|].
    rewrite Nat2Z.id in Hb. congruence.
  - rewrite !lookup_ge_None_2 by lia. done.
Qed.

End aspace.
Arguments AddrSpace : clear implicits.

(** ** Witnesses *)

(** A lazy, writable area of two pages at [0x1000], with four frames left;
    the same with both pages mapped to the frames 7 and 3. *)
Definition mem_area : MemoryArea := mkArea 4096 8192 (Z.lor USER (Z.lor READ WRITE)) (Alloc false).
Definition mem_aspace (p : pt_list) : AddrSpace pt_list ms_list :=
  mkAddrSpace (mkRange 0 65536) (ms_single mem_area (eq_refl : 4096 < 12288)) p.
Definition mem_mapped : pt_list := [(4096, (28672, 11)); (8192, (12288, 11))].
Definition mem_machine : Machine counter := mkMachine (mkCounter 1 5) (λ _, 255).

Lemma check_region_access_spec_witness :
  check_region_access (mem_aspace []) (mkRange 5000 9000) READ = true ∧
  check_region_access (mem_aspace []) (mkRange 5000 13000) READ = false.
Proof.
  split.
  - apply (check_region_access_spec (mem_aspace []) (mkRange 5000 9000) READ); [done|].
    intros x Hx. exists mem_area. simpl in Hx. split_and!; [set_solver|unfold in_area, a_end; simpl; lia|done].
  - apply not_true_iff_false.
    rewrite (check_region_access_spec (mem_aspace []) (mkRange 5000 13000) READ) by done.
    intros Hacc. destruct (Hacc 12500) as (a & Ha & Hin & _); [simpl; lia|].
    apply list_elem_of_singleton in Ha as ->. unfold in_area, a_end in Hin. simpl in Hin. lia.
Defined.

Lemma handle_page_fault_spec_witness :
  ∃ f, query (pt (AddrSpace_handle_page_fault 5000 READ (mem_aspace [], mem_machine)).2.1) 4096
    = Ok (f, 11).
Proof.
  pose proof (handle_page_fault_spec (mem_aspace []) mem_machine 5000 READ ltac:(lia)) as Hf.
  assert ((AddrSpace_handle_page_fault 5000 READ (mem_aspace [], mem_machine)).1 = Ok true) as Hr
    by (vm_compute; reflexivity).
  destruct (AddrSpace_handle_page_fault 5000 READ (mem_aspace [], mem_machine)) as [r [s m]].
  simpl in Hr. subst r. destruct Hf as (_ & _ & a & f & Ha & _ & _ & _ & _ & Hq & _).
  apply list_elem_of_singleton in Ha as ->. exists f. exact Hq.
Defined.

Lemma map_alloc_ignores_exhaustion_witness :
  Backend_map (Alloc true) 4096 8192 11 (([] : pt_list), mkMachine (mkCounter 5 5) (λ _, 0))
    = (Ok true, ([], mkMachine (mkCounter 5 5) (λ _, 0))).
Proof.
  apply (map_alloc_ignores_exhaustion 4096 8192 11 [4096; 8192]); vm_compute; reflexivity.
Defined.

Lemma mem_aspace_aligned p : areas_aligned (areas (mem_aspace p)).
Proof. repeat constructor. Qed.

Lemma populate_area_spec_witness :
  ∃ s' m', populate_area 4096 8192 (mem_aspace [], mem_machine) = (Ok (), (s', m')) ∧
    page_present s' 8192.
Proof.
  pose proof (populate_area_spec (mem_aspace []) mem_machine 4096 8192 (mem_aspace_aligned [])
    ltac:(lia) ltac:(lia) ltac:(lia)) as Hp.
  destruct (populate_area 4096 8192 (mem_aspace [], mem_machine)) as [r [s' m']] eqn:Hr.
  assert (r = Ok ()) as ->.
  { change r with (r, (s', m')).1. rewrite <-Hr. vm_compute. reflexivity. }
  exists s', m'. split; [done|]. destruct Hp as (_ & _ & _ & _ & _ & Hp). by apply Hp.
Defined.

Lemma write_read_back_witness :
  (AddrSpace_read (mem_aspace mem_mapped)
     (AddrSpace_write (mem_aspace mem_mapped) 8190 [1; 2; 3; 4] mem_machine).2 8190 [0; 0; 0; 0]).2
  = [1; 2; 3; 4].
Proof.
  destruct (write_read_back (mem_aspace mem_mapped) 8190 [1; 2; 3; 4] [0; 0; 0; 0] mem_machine
    (AddrSpace_write (mem_aspace mem_mapped) 8190 [1; 2; 3; 4] mem_machine).2) as (_ & _ & ->).
  - lia.
  - done.
  - done.
  - intros i j x Hi Hj.
    assert (i = 0 ∨ i = 1 ∨ i = 2 ∨ i = 3) as Hi' by (simpl in Hi; lia).
    assert (j = 0 ∨ j = 1 ∨ j = 2 ∨ j = 3) as Hj' by (simpl in Hj; lia).
    destruct_or! Hi'; destruct_or! Hj'; subst; vm_compute; congruence.
  - rewrite (surjective_pairing (AddrSpace_write _ _ _ _)). f_equal.
  - done.
Defined.
