(* ===== verification/AddrClone.v ===== *)
(** * Cloned address spaces

    [AddrSpace::clone_or_err] ([src/.arceos/modules/axmm/src/aspace.rs])
    gives the child of a fork its own memory. The state of the loop over the
    areas is related to the old space by an invariant on frames (those of the
    new table are fresh and not shared between pages) and by the set of pages
    whose contents have been copied. *)

From stdpp Require Import sorting.
From S2P Require Import Prelude Abi MemBase AddrSpace.

#[local] Open Scope Z_scope.

Section clone.
Context {PT FA MS : Type} `{MA : !MemoryAddr} `{HPT : !PageTable PT} `{HFA : !FrameAlloc FA}
  `{HMS : !MemorySet MS}.
Abbreviation Machine := (Machine FA).
Abbreviation AddrSpace := (AddrSpace PT MS).

(** The areas fill whole pages and do not wrap around. *)
Definition area_ok (a : MemoryArea) : Prop :=
  a_start a mod PAGE_SIZE_4K = 0 ∧ a_end a mod PAGE_SIZE_4K = 0 ∧ 0 ≤ a_start a ∧ a_end a < 2 ^ 64.

Definition same_bytes (m m' : Z → Z) (f g : Z) : Prop :=
  ∀ i, 0 ≤ i < PAGE_SIZE_4K → m' (g + i) = m (f + i).

(** The frames of the pages that areas of the kind [Alloc] own come from the
    allocator. *)
Definition frames_used (L : list MemoryArea) (pt : PT) (mc : Machine) : Prop :=
  ∀ a b p f fl, a ∈ L → in_area a p → a_backend a = Alloc b → p mod PAGE_SIZE_4K = 0 →
    query pt p = Ok (f, fl) → f mod PAGE_SIZE_4K = 0 ∧ fa_used (m_fa mc) f.

Lemma areas_disjoint L a b x :
  areas_sorted L → a ∈ L → b ∈ L → in_area a x → in_area b x → a = b.
Proof.
  intros [Hs _] Ha Hb Hxa Hxb. unfold in_area in *. induction Hs as [|c L Hs IH Hall]; [set_solver|].
  pose proof (proj1 (Forall_forall _ _) Hall) as Hc.
  apply elem_of_cons in Ha as [->|Ha], Hb as [->|Hb]; [done|..|by apply IH].
  - specialize (Hc _ Hb). simpl in Hc. lia.
  - specialize (Hc _ Ha). simpl in Hc. lia.
Qed.

(** Bytes of different frames are different bytes. *)
Lemma frames_apart f g i j :
  f mod PAGE_SIZE_4K = 0 → g mod PAGE_SIZE_4K = 0 → 0 ≤ i < PAGE_SIZE_4K → 0 ≤ j < PAGE_SIZE_4K →
  f + i = g + j → f = g.
Proof.
  intros [k ->]%aligned_cases [l ->]%aligned_cases. unfold PAGE_SIZE_4K. lia.
Qed.

Section loop.
Variables (old : PT) (L : list MemoryArea) (mc0 : Machine).
Hypothesis (HL : areas_sorted L) (Hok : Forall area_ok L) (Hold : frames_used L old mc0).

(** What the new table maps: pages of areas, with their flags; linear areas
    to their fixed frames, the others to frames that were free at the start,
    each of its own. Memory in use at the start is as it was. *)
Record clone_inv (w : PT * Machine) : Prop := {
  ci_page p g fl : p mod PAGE_SIZE_4K = 0 → query w.1 p = Ok (g, fl) →
    ∃ a, a ∈ L ∧ in_area a p ∧ fl = a_flags a ∧
      match a_backend a with
      | Linear off => g = as_usize (p - off)
      | Alloc _ => g mod PAGE_SIZE_4K = 0 ∧ ¬ fa_used (m_fa mc0) g ∧ fa_used (m_fa w.2) g
      end;
  ci_inj a b n k p q g fl fl' : a ∈ L → b ∈ L → in_area a p → in_area b q →
    a_backend a = Alloc n → a_backend b = Alloc k →
    p mod PAGE_SIZE_4K = 0 → q mod PAGE_SIZE_4K = 0 →
    query w.1 p = Ok (g, fl) → query w.1 q = Ok (g, fl') → p = q;
  ci_used f : fa_used (m_fa mc0) f → fa_used (m_fa w.2) f;
  ci_mem f : f mod PAGE_SIZE_4K = 0 → fa_used (m_fa mc0) f → same_bytes (m_mem mc0) (m_mem w.2) f f;
}.

(** The pages of [D] are done: the new table maps a page of a linear area,
    and a page with the bytes of the old one where the old table has one. *)
Definition copied (D : Z → Prop) (w : PT * Machine) : Prop :=
  ∀ a p, D p → p mod PAGE_SIZE_4K = 0 → a ∈ L → in_area a p →
    match a_backend a with
    | Linear off => query w.1 p = Ok (as_usize (p - off), a_flags a)
    | Alloc _ => ∀ f fl, query old p = Ok (f, fl) →
        ∃ g, query w.1 p = Ok (g, a_flags a) ∧ same_bytes (m_mem mc0) (m_mem w.2) f g
    end.

Lemma ci_page_alloc w a n p g fl :
  clone_inv w → a ∈ L → in_area a p → a_backend a = Alloc n → p mod PAGE_SIZE_4K = 0 →
  query w.1 p = Ok (g, fl) →
  fl = a_flags a ∧ g mod PAGE_SIZE_4K = 0 ∧ ¬ fa_used (m_fa mc0) g ∧ fa_used (m_fa w.2) g.
Proof.
  intros Hi Ha Hin Hb Hp Hq. destruct (ci_page w Hi p g fl Hp Hq) as (a' & Ha' & Hin' & -> & Hf).
  assert (a' = a) as -> by by eapply areas_disjoint. by rewrite Hb in Hf.
Qed.

(** ** A fresh frame for a page *)

Section fresh.
Variables (pt pt' : PT) (mc : Machine) (a : MemoryArea) (n : bool) (p f : Z) (fa : FA).
Hypotheses (Ha : a ∈ L) (Hin : in_area a p) (Hb : a_backend a = Alloc n)
  (Hp : p mod PAGE_SIZE_4K = 0) (Hfa : fa_alloc (m_fa mc) = Some (f, fa))
  (Hm : pt_map pt p f (a_flags a) = (true, pt')) (Hi : clone_inv (pt, mc)).
Let mc' : Machine := mkMachine fa (mem_zero f PAGE_SIZE_4K (m_mem mc)).

Lemma fresh_page_nonneg : 0 ≤ p.
Proof.
  pose proof (proj1 (Forall_forall _ _) Hok a Ha) as (_ & _ & ? & _). unfold in_area in Hin. lia.
Qed.

Lemma fresh_query q : q mod PAGE_SIZE_4K = 0 →
  query pt' q = if decide (q = p) then Ok (f, a_flags a) else query pt q.
Proof.
  intros Hq. destruct (pt_map_ok _ _ _ _ _ Hm fresh_page_nonneg) as [Hqp Hqo].
  assert (p - p mod PAGE_SIZE_4K = p) as Hpp by lia. rewrite Hpp in *.
  case_decide; [by subst|by apply Hqo].
Qed.

Lemma fresh_same_bytes m g h :
  g mod PAGE_SIZE_4K = 0 → fa_used (m_fa mc) g → same_bytes m (m_mem mc) h g →
  same_bytes m (m_mem mc') h g.
Proof.
  intros Hg Hu Hs i Hi'. destruct (fa_alloc_ok _ _ _ Hfa) as (_ & Hf & Hnew & _). simpl.
  unfold mem_zero. rewrite decide_False; [by apply Hs|]. intros Hr.
  assert (g = f) as ->; [|done]. apply (frames_apart g f i (g + i - f)); lia || done.
Qed.

Lemma fresh_inv : clone_inv (pt', mc').
Proof.
  destruct (fa_alloc_ok _ _ _ Hfa) as (_ & Hf & Hnew & Hu). split; simpl.
  - intros q g fl Hq. rewrite fresh_query by done. case_decide as Hqp.
    + subst q. intros [= <- <-]. exists a. rewrite Hb. split_and!; [done..| |].
      * by intros ?%(ci_used _ Hi). * apply Hu. by left.
    + intros Hqq. destruct (ci_page _ Hi q g fl Hq Hqq) as (c & Hc & Hqc & Hfl & Hbc).
      exists c. split_and!; [done..|]. destruct (a_backend c); [done|].
      destruct Hbc as (? & ? & ?). split_and!; [done..|]. apply Hu. by right.
  - intros c d x y q r g fl fl' Hc Hd Hqc Hrd Hbc Hbd Hq Hr. rewrite !fresh_query by done.
    repeat case_decide; subst; [done|..].
    + intros [= <- _] Hqr. by destruct (ci_page_alloc _ _ _ _ _ _ Hi Hd Hrd Hbd Hr Hqr) as (_ & _ & _ & ?).
    + intros Hqr [= <- _]. by destruct (ci_page_alloc _ _ _ _ _ _ Hi Hc Hqc Hbc Hq Hqr) as (_ & _ & _ & ?).
    + by eapply (ci_inj _ Hi c d).
  - intros g Hg. apply Hu. right. by apply (ci_used _ Hi).
  - intros g Hg Hug. apply fresh_same_bytes; [done|by apply (ci_used _ Hi)|by apply (ci_mem _ Hi)].
Qed.

Lemma fresh_copied D :
  query pt p = Err NotMapped ∨ ¬ D p → copied D (pt, mc) → copied D (pt', mc').
Proof.
  intros Hor Hc c q HD Hq Hcl Hqc. specialize (Hc c q HD Hq Hcl Hqc). simpl in *.
  destruct (a_backend c) as [off|k] eqn:Hbc.
  - rewrite fresh_query by done. rewrite decide_False; [done|]. intros ->.
    assert (c = a) by by eapply areas_disjoint. congruence.
  - intros g fl Hog. destruct (Hc g fl Hog) as (h & Hqh & Hs). exists h.
    rewrite fresh_query by done. rewrite decide_False by (intros ->; destruct Hor; congruence).
    split; [done|]. destruct (ci_page_alloc _ _ _ _ _ _ Hi Hcl Hqc Hbc Hq Hqh) as (_ & ? & _ & ?).
    by apply fresh_same_bytes.
Qed.
End fresh.

(** ** The bytes of a page *)

Section store.
Variables (pt : PT) (mc : Machine) (a : MemoryArea) (n : bool) (p f fl g fl' : Z).
Hypotheses (Ha : a ∈ L) (Hin : in_area a p) (Hb : a_backend a = Alloc n)
  (Hp : p mod PAGE_SIZE_4K = 0) (Hi : clone_inv (pt, mc))
  (Hqo : query old p = Ok (f, fl)) (Hqn : query pt p = Ok (g, fl')).
Let mc' : Machine := mkMachine (m_fa mc)
  (mem_store g (mem_load f (Z.to_nat PAGE_SIZE_4K) (m_mem mc)) (m_mem mc)).

Lemma store_here : same_bytes (m_mem mc0) (m_mem mc') f g.
Proof.
  intros i Hir. simpl. rewrite mem_store_lookup, length_mem_load, decide_True by lia.
  rewrite mem_load_lookup by lia. simpl.
  replace (f + Z.of_nat (Z.to_nat (g + i - g))) with (f + i) by lia.
  destruct (Hold a n p f fl) as [Hf Hu]; [done..|]. by apply (ci_mem _ Hi).
Qed.

Lemma store_elsewhere m h k :
  h mod PAGE_SIZE_4K = 0 → h ≠ g → same_bytes m (m_mem mc) k h → same_bytes m (m_mem mc') k h.
Proof.
  intros Hh Hne Hs i Hir. simpl. rewrite mem_store_lookup, length_mem_load.
  rewrite decide_False; [by apply Hs|]. intros Hr. destruct Hne.
  destruct (ci_page_alloc _ _ _ _ _ _ Hi Ha Hin Hb Hp Hqn) as (_ & Hg & _).
  apply (frames_apart h g i (h + i - g)); lia || done.
Qed.

Lemma store_inv : clone_inv (pt, mc').
Proof.
  destruct (ci_page_alloc _ _ _ _ _ _ Hi Ha Hin Hb Hp Hqn) as (_ & _ & Hg & _).
  split; simpl; [apply (ci_page _ Hi)|apply (ci_inj _ Hi)|apply (ci_used _ Hi)|].
  intros h Hh Hu. apply store_elsewhere; [done|congruence|by apply (ci_mem _ Hi)].
Qed.

Lemma store_copied D : copied D (pt, mc) → copied (λ q, D q ∨ q = p) (pt, mc').
Proof.
  intros Hc c q HD Hq Hcl Hqc. destruct (decide (q = p)) as [->|Hne].
  - assert (c = a) as -> by by eapply areas_disjoint. rewrite Hb. intros f' fl0.
    rewrite Hqo. intros [= <- <-]. exists g. split; [|apply store_here].
    destruct (ci_page_alloc _ _ _ _ _ _ Hi Ha Hin Hb Hp Hqn) as [-> _]. done.
  - destruct HD as [HD|]; [|done]. specialize (Hc c q HD Hq Hcl Hqc).
    destruct (a_backend c) as [off|k] eqn:Hbc; [done|]. intros f' fl0 Hf'.
    destruct (Hc f' fl0 Hf') as (h & Hqh & Hs). exists h. split; [done|]. simpl in *.
    destruct (ci_page_alloc _ _ _ _ _ _ Hi Hcl Hqc Hbc Hq Hqh) as (_ & Hh & _).
    apply store_elsewhere; [done| |done]. intros ->. apply Hne.
    exact (ci_inj _ Hi c a k n q p g _ _ Hcl Ha Hqc Hin Hbc Hb Hq Hp Hqh Hqn).
Qed.
End store.

(** ** Mapping the area *)

Lemma map_alloc_pages_inv a n pages D w w' :
  a ∈ L → a_backend a = Alloc n → Forall (λ p, in_area a p ∧ p mod PAGE_SIZE_4K = 0) pages →
  (∀ p, in_area a p → ¬ D p) → clone_inv w → copied D w →
  map_alloc_pages pages (a_flags a) w = (Ok true, w') → clone_inv w' ∧ copied D w'.
Proof.
  intros Ha Hb Hps HD. revert w. induction Hps as [|p pages [Hpa Hp] Hps IH]; intros [q mc] Hi Hc;
    cbn [map_alloc_pages]; unfold alloc_frame, pt_step; monad; [by intros [= <-]|].
  simpl. destruct (fa_alloc (m_fa mc)) as [[f fa]|] eqn:Hfa; simpl; [|by apply IH].
  destruct (pt_map q p f (a_flags a)) as [[] q'] eqn:Hm; simpl; [|done]. apply IH.
  - by eapply fresh_inv.
  - eapply fresh_copied; try done. right. by apply HD.
Qed.

(** A linear area is done once it is mapped. *)
Definition linear (a : MemoryArea) : Prop :=
  match a_backend a with Linear _ => True | Alloc _ => False end.

Lemma map_linear_inv a off D w w' :
  a ∈ L → a_backend a = Linear off → clone_inv w → copied D w →
  Backend_map_linear (a_start a) (a_size a) (a_flags a) off w = (Ok true, w') →
  clone_inv w' ∧ copied (λ p, D p ∨ in_area a p) w'.
Proof.
  intros Ha Hb Hi Hc. destruct w as [q mc]. unfold Backend_map_linear, pt_step. simpl.
  destruct (pt_map_region q _ _ _ _) as [[] q'] eqn:Hm; simpl; [|done]. intros [= <-].
  pose proof (proj1 (Forall_forall _ _) Hok a Ha) as (Hs & He & _).
  assert (a_size a mod PAGE_SIZE_4K = 0) as Hn.
  { unfold a_end in He. by rewrite <-Zplus_mod_idemp_l, Hs in He. }
  pose proof (pt_map_region_ok _ _ _ _ _ _ Hm Hs Hn) as Hq. fold (a_end a) in Hq.
  assert (∀ c k p, c ∈ L → in_area c p → a_backend c = Alloc k → ¬ in_area a p) as Hout.
  { intros c k p Hcl Hpc Hbc Hpa. assert (c = a) by by eapply areas_disjoint. congruence. }
  split.
  - split; simpl; [| |apply (ci_used _ Hi)|apply (ci_mem _ Hi)].
    + intros p g fl Hp. rewrite Hq by done. case_decide; [|by apply (ci_page _ Hi)].
      intros [= <- <-]. exists a. by rewrite Hb.
    + intros c d x y p r g fl fl' Hcl Hd Hpc Hrd Hbc Hbd Hp Hr. rewrite !Hq by done.
      rewrite !decide_False by eauto.
      by eapply (ci_inj _ Hi c d).
  - intros c p HD Hp Hcl Hpc. simpl. rewrite Hq by done. destruct (a_backend c) as [o|k] eqn:Hbc.
    + case_decide as Hpa.
      * assert (c = a) as -> by by eapply areas_disjoint. congruence.
      * destruct HD as [HD|]; [|done]. specialize (Hc c p HD Hp Hcl Hpc). by rewrite Hbc in Hc.
    + rewrite decide_False by eauto. destruct HD as [HD|]; [|by destruct (Hout c k p)].
      specialize (Hc c p HD Hp Hcl Hpc). by rewrite Hbc in Hc.
Qed.

Lemma area_pages a : a ∈ L →
  ∃ ps, page_iter_4k (a_start a) (as_usize (a_start a + a_size a)) = Some ps ∧
    ∀ p, p ∈ ps ↔ in_area a p ∧ p mod PAGE_SIZE_4K = 0.
Proof.
  intros Ha. pose proof (proj1 (Forall_forall _ _) Hok a Ha) as (Hs & He & Hp & Hm).
  assert (a_start a < a_end a) as Hlt by exact (proj1 (Forall_forall _ _) (proj2 HL) a Ha).
  fold (a_end a). ints. apply page_iter_between; [done..|lia].
Qed.

Lemma Backend_map_inv a D w w' :
  a ∈ L → (∀ p, in_area a p → ¬ D p) → clone_inv w → copied D w →
  Backend_map (a_backend a) (a_start a) (a_size a) (a_flags a) w = (Ok true, w') →
  clone_inv w' ∧ copied (λ p, D p ∨ (linear a ∧ in_area a p)) w'.
Proof.
  intros Ha HD Hi Hc. unfold linear. destruct (a_backend a) as [off|pop] eqn:Hb; simpl.
  - intros Hm. eapply map_linear_inv in Hm as [? Hc']; [|done..]. split; [done|].
    intros c p Hor. apply Hc'. tauto.
  - intros Hm. cut (clone_inv w' ∧ copied D w').
    { intros [? Hc']. split; [done|]. intros c p Hor. apply Hc'. tauto. }
    revert Hm. unfold Backend_map_alloc. destruct pop; monad; [|by intros [= <-]].
    destruct (area_pages a Ha) as (ps & -> & Hps). simpl. intros Hm.
    eapply map_alloc_pages_inv; [..|exact Hm]; try done. apply Forall_forall. intros p. apply Hps.
Qed.

(** ** Copying its pages *)

Definition hw (s : AddrSpace * Machine) : PT * Machine := (pt s.1, s.2).

(** A page that the new table lacks is mapped like on a fault. *)
Lemma clone_fault_inv a n p D s s' :
  a ∈ L → a_backend a = Alloc n → in_area a p → p mod PAGE_SIZE_4K = 0 →
  query (pt s.1) p = Err NotMapped → clone_inv (hw s) → copied D (hw s) →
  on_backend (Backend_handle_page_fault (a_backend a) p (a_flags a)) s = (Ok true, s') →
  clone_inv (hw s') ∧ copied D (hw s') ∧ va_range s'.1 = va_range s.1 ∧ areas s'.1 = areas s.1.
Proof.
  intros Ha Hb Hpa Hp Hq Hi Hc. destruct s as [s mc]. unfold on_backend. rewrite Hb. simpl in *.
  unfold handle_page_fault_alloc, alloc_frame, pt_step. destruct n; monad; [done|]. simpl.
  destruct (fa_alloc (m_fa mc)) as [[f fa]|] eqn:Hfa; simpl; [|done].
  destruct (pt_map (pt s) p f (a_flags a)) as [[] q] eqn:Hm; simpl; [|done]. intros [= <-].
  split_and!; [by eapply fresh_inv|eapply fresh_copied; try done; by left|done..].
Qed.

Lemma clone_page_step a n p pages f fl g fl' D s s' :
  a ∈ L → a_backend a = Alloc n → in_area a p → p mod PAGE_SIZE_4K = 0 →
  clone_inv (hw s) → copied D (hw s) → query old p = Ok (f, fl) → query (pt s.1) p = Ok (g, fl') →
  (∀ D s, clone_inv (hw s) → copied D (hw s) → clone_pages old a pages s = (Ok (), s') →
    clone_inv (hw s') ∧ copied (λ p, D p ∨ p ∈ pages) (hw s') ∧
    va_range s'.1 = va_range s.1 ∧ areas s'.1 = areas s.1) →
  clone_pages old a pages (s.1, mkMachine (m_fa s.2)
    (mem_store g (mem_load f (Z.to_nat PAGE_SIZE_4K) (m_mem s.2)) (m_mem s.2))) = (Ok (), s') →
  clone_inv (hw s') ∧ copied (λ q, D q ∨ q ∈ p :: pages) (hw s') ∧
  va_range s'.1 = va_range s.1 ∧ areas s'.1 = areas s.1.
Proof.
  intros Ha Hb Hpa Hp Hi Hc Hqo Hqn IH Hcl. destruct s as [s mc]. simpl in *.
  pose proof (store_inv _ _ _ _ _ f _ _ Ha Hpa Hb Hp Hi Hqn) as Hi'.
  pose proof (store_copied _ _ _ _ _ _ _ _ _ Ha Hpa Hb Hp Hi Hqo Hqn D Hc) as Hc'.
  apply (IH (λ q, D q ∨ q = p)) in Hcl as (Hi1 & Hc1 & Hr & Has); [|done..]. split_and!; [done| |done..].
  intros c q HD. apply Hc1. set_solver.
Qed.

Lemma clone_pages_inv a n pages D s s' :
  a ∈ L → a_backend a = Alloc n → Forall (λ p, in_area a p ∧ p mod PAGE_SIZE_4K = 0) pages →
  clone_inv (hw s) → copied D (hw s) → clone_pages old a pages s = (Ok (), s') →
  clone_inv (hw s') ∧ copied (λ p, D p ∨ p ∈ pages) (hw s') ∧
  va_range s'.1 = va_range s.1 ∧ areas s'.1 = areas s.1.
Proof.
  intros Ha Hb Hps. revert D s. induction Hps as [|p pages [Hpa Hp] Hps IH]; intros D s Hi Hc;
    cbn [clone_pages]; monad.
  { intros [= <-]. split_and!; [done| |done..]. intros c q HD. apply Hc. set_solver. }
  destruct (query old p) as [[f fl]|[]|] eqn:Hqo; [| |done..].
  - destruct (query (pt s.1) p) as [[g fl']|[]|] eqn:Hqn; monad; [| |done..].
    + intros Hcl. eapply clone_page_step; [..|exact Hcl]; done.
    + destruct (on_backend _ s) as [[[]|?|] s1] eqn:Hf; [|done..].
      destruct (clone_fault_inv a n p D s s1) as (Hi1 & Hc1 & <- & <-); [done..|].
      unfold readS. destruct (query (pt s1.1) p) as [[g fl']|?|] eqn:Hqg; [|done..].
      intros Hcl. eapply clone_page_step; [..|exact Hcl]; done.
  - intros (Hi' & Hc' & Hr & Has)%(IH D); [|done..]. split_and!; [done| |done..].
    intros c q HD Hq Hcl Hqc. destruct (decide (q = p)) as [->|Hne].
    + assert (c = a) as -> by by eapply areas_disjoint. rewrite Hb. intros f fl. congruence.
    + apply Hc'; [set_solver|done..].
Qed.

(** ** All areas *)

Definition covered (l : list MemoryArea) (p : Z) : Prop := ∃ a, a ∈ l ∧ in_area a p.

Lemma next_area_new dn a l p : L = dn ++ a :: l → in_area a p → ¬ covered dn p.
Proof.
  intros HeqL Hp (b & Hb & Hpb). destruct HL as [Hs _]. rewrite HeqL in Hs.
  assert (a_end b ≤ a_start a); [|unfold in_area in *; lia].
  apply (StronglySorted_app_1_elem_of _ dn (a :: l) b a Hs); [done|set_solver].
Qed.

Lemma clone_area_inv dn a l s s' r :
  L = dn ++ a :: l → clone_inv (hw s) → copied (covered dn) (hw s) →
  on_areas (ms_map Backend_map a false) s = (r, s') → r = Ok () →
  clone_inv (hw s') ∧ copied (λ p, covered dn p ∨ (linear a ∧ in_area a p)) (hw s') ∧
  va_range s'.1 = va_range s.1 ∧ ∀ b, b ∈ ms_iter (areas s'.1) ↔ b = a ∨ b ∈ ms_iter (areas s.1).
Proof.
  intros HeqL Hi Hc. unfold on_areas.
  destruct (ms_map _ _ _ _ _) as [[r0 ms] w] eqn:Hm. intros [= <- <-] Hr.
  destruct r0 as [[[]|?|]|?|]; try done.
  destruct (ms_map_ok _ _ _ _ _ _ _ Hm eq_refl) as (Hbm & Hel & _).
  eapply Backend_map_inv in Hbm as [Hi' Hc']; [|rewrite HeqL; set_solver| |done..].
  - destruct w. by split_and!.
  - intros p. by eapply next_area_new.
Qed.

Lemma clone_areas_inv l dn s s' :
  L = dn ++ l → clone_inv (hw s) → copied (covered dn) (hw s) →
  (∀ b, b ∈ ms_iter (areas s.1) ↔ b ∈ dn) → clone_areas old l s = (Ok (), s') →
  clone_inv (hw s') ∧ copied (covered L) (hw s') ∧ va_range s'.1 = va_range s.1 ∧
  ∀ b, b ∈ ms_iter (areas s'.1) ↔ b ∈ L.
Proof.
  revert dn s. induction l as [|a l IH]; intros dn s HeqL Hi Hc Hel; cbn [clone_areas]; monad.
  { intros [= <-]. rewrite app_nil_r in HeqL. by rewrite HeqL. }
  assert (a ∈ L) as Ha by (rewrite HeqL; set_solver).
  assert (∀ D : Z → Prop, (∀ p, covered (dn ++ [a]) p → D p ∨ p mod PAGE_SIZE_4K ≠ 0) →
    ∀ w, copied D w → copied (covered (dn ++ [a])) w) as Hmono.
  { intros D HD w HcD c p Hcov Hp. destruct (HD p Hcov); [|done]. by apply HcD. }
  destruct (on_areas _ s) as [[[]|?|] s1] eqn:Hm; [|done..].
  eapply clone_area_inv in Hm as (Hi1 & Hc1 & <- & Hel1); [|done..].
  assert (∀ b, b ∈ ms_iter (areas s1.1) ↔ b ∈ dn ++ [a]) as Hel2 by (intros b; rewrite Hel1, Hel; set_solver).
  rewrite (cons_middle a dn l), (assoc_L (++)) in HeqL.
  destruct (a_backend a) as [off|n] eqn:Hb; monad.
  - apply (IH (dn ++ [a])); [done..| |done]. eapply Hmono; [|exact Hc1]. intros p (b & Hbl & Hpb).
    left. unfold linear. rewrite Hb. apply elem_of_app in Hbl as [?| ->%list_elem_of_singleton].
    + left. by exists b. + by right.
  - destruct (area_pages a Ha) as (ps & Hit & Hps).
    pose proof (proj1 (Forall_forall _ _) Hok a Ha) as (_ & _ & ? & ?).
    assert (a_start a < a_end a) as Hlt by exact (proj1 (Forall_forall _ _) (proj2 HL) a Ha).
    fold (a_end a) in Hit. revert Hit. ints. intros Hit. rewrite Hit. simpl.
    destruct (clone_pages old a ps s1) as [[[]|?|] s2] eqn:Hcp; [|done..].
    assert (Forall (λ p, in_area a p ∧ p mod PAGE_SIZE_4K = 0) ps) as Hall
      by (apply Forall_forall; intros p; apply Hps).
    eapply clone_pages_inv in Hcp as (Hi2 & Hc2 & <- & Has); [|done..].
    rewrite <-Has in Hel2. apply (IH (dn ++ [a])); [done..| |done]. eapply Hmono; [|exact Hc2].
    intros p (b & Hbl & Hpb). destruct (decide (p mod PAGE_SIZE_4K = 0)) as [Hp|]; [left|by right].
    apply elem_of_app in Hbl as [?| ->%list_elem_of_singleton].
    + left. left. by exists b. + right. by apply Hps.
Qed.

End loop.
Lemma clone_inv_empty old L mc0 pt :
  (∀ p, query pt p = Err NotMapped) → clone_inv L mc0 (pt, mc0) ∧ copied old L mc0 (covered []) (pt, mc0).
Proof.
  intros Hq. split.
  - split; simpl.
    + intros p g fl _. by rewrite Hq. + intros a b n k p q g fl fl' *. by rewrite Hq.
    + done. + by intros f _ _ i _.
  - intros a p (b & Hb & _). set_solver.
Qed.

(** C8: a cloned address space has the range and the areas of the original.
    Every page the original has mapped in an allocated area is mapped in the
    clone, with the flags of its area, to a frame that was free before, holds
    the same bytes and belongs to no other page of the clone. Linear areas
    map to the same frames. The memory of the original is unchanged. *)
Theorem clone_copies_memory (s s' : AddrSpace) (mc mc' : Machine) :
  Forall area_ok (ms_iter (areas s)) → 0 ≤ AddrSpace_base s ≤ AddrSpace_end s →
  AddrSpace_end s < 2 ^ 64 → frames_used (ms_iter (areas s)) (pt s) mc →
  clone_or_err s mc = (Ok s', mc') →
  va_range s' = va_range s ∧ (∀ a, a ∈ ms_iter (areas s') ↔ a ∈ ms_iter (areas s)) ∧
  ∀ a p, a ∈ ms_iter (areas s) → in_area a p → p mod PAGE_SIZE_4K = 0 →
    match a_backend a with
    | Linear off => query (pt s') p = Ok (as_usize (p - off), a_flags a)
    | Alloc _ => ∀ f fl, query (pt s) p = Ok (f, fl) →
        same_bytes (m_mem mc) (m_mem mc') f f ∧
        ∃ g, query (pt s') p = Ok (g, a_flags a) ∧ ¬ fa_used (m_fa mc) g ∧
          same_bytes (m_mem mc) (m_mem mc') f g ∧
          ∀ b n q fl', b ∈ ms_iter (areas s) → in_area b q → a_backend b = Alloc n →
            q mod PAGE_SIZE_4K = 0 → query (pt s') q = Ok (g, fl') → q = p
    end.
Proof.
  intros Hok Hbase Hend Hu. unfold clone_or_err, new_empty, AddrSpace_size, AddrSpace_base, AddrSpace_end in *.
  ints. rewrite from_start_size_spec by lia.
  replace (r_start (va_range s) + (r_end (va_range s) - r_start (va_range s)))
    with (r_end (va_range s)) by lia.
  destruct pt_try_new as [pt0|] eqn:Hpt0; [|done]. csimpl.
  destruct (clone_areas _ _ _) as [[[]|?|] [s1 mc1]] eqn:Hcl; [|unfold AddrSpace_drop; by repeat case_match|done].
  intros [= <- <-].
  pose proof (ms_iter_sorted (areas s)) as HL.
  destruct (clone_inv_empty (pt s) (ms_iter (areas s)) mc pt0 (pt_new_empty _ Hpt0)) as [Hi0 Hc0].
  apply (clone_areas_inv _ _ _ HL Hok Hu _ []) in Hcl as (Hi & Hc & Hr & Hel);
    [|done..|simpl; by rewrite ms_new_iter].
  split_and!; [simpl in Hr; rewrite Hr; by destruct (va_range s)|done|]. intros a p Ha Hpa Hp.
  specialize (Hc a p (ex_intro _ a (conj Ha Hpa)) Hp Ha Hpa).
  destruct (a_backend a) as [off|n] eqn:Hb; [done|]. intros f fl Hqo.
  destruct (Hu a n p f fl) as [Hf Huf]; [done..|]. split; [by apply (ci_mem _ _ _ Hi)|].
  destruct (Hc f fl Hqo) as (g & Hqg & Hs). exists g.
  destruct (ci_page_alloc _ _ HL _ _ _ _ _ _ Hi Ha Hpa Hb Hp Hqg) as (_ & _ & Hg & _).
  split_and!; [done..|]. intros b k q fl' Hbl Hqb Hbb Hq Hqq. simpl in *.
  exact (ci_inj _ _ _ Hi b a k n q p g _ _ Hbl Ha Hqb Hpa Hbb Hb Hq Hp Hqq Hqg).
Qed.
End clone.

(** ** A concrete space: a linear area and a lazy one with one of its two
    pages mapped. *)

Definition clone_linear : MemoryArea := mkArea 16384 4096 19 (Linear 4096).
Definition clone_set : ms_list.
Proof. exists [mem_area; clone_linear]. split; repeat constructor; vm_compute; congruence. Defined.
Definition clone_space : AddrSpace pt_list ms_list :=
  mkAddrSpace (mkRange 4096 65536) clone_set [(8192, (4096, 11))].
Definition clone_machine : Machine counter := mkMachine (mkCounter 2 5) (λ x, x mod 251).

Lemma clone_copies_memory_witness :
  ∃ s' mc' g, clone_or_err clone_space clone_machine = (Ok s', mc') ∧
    query (pt s') 16384 = Ok (12288, 19) ∧ query (pt s') 8192 = Ok (g, 11) ∧ g ≠ 4096 ∧
    same_bytes (m_mem clone_machine) (m_mem mc') 4096 g.
Proof.
  destruct (clone_or_err clone_space clone_machine) as [r mc'] eqn:Hcl.
  assert (∃ s', r = Ok s') as [s' ->].
  { change r with (r, mc').1. rewrite <-Hcl. vm_compute. by eexists. }
  destruct (clone_copies_memory clone_space s' clone_machine mc') as (_ & _ & Hp).
  - repeat constructor; vm_compute; congruence.
  - vm_compute. split; congruence.
  - vm_compute. congruence.
  - intros a b p f fl _ _ _ Hpm. simpl. unfold pt_page. rewrite Hpm.
    destruct (decide _); [|done]. intros [= <- <-]. split; [done|]. exists 1. done.
  - done.
  - pose proof (Hp clone_linear 16384) as Hl. pose proof (Hp mem_area 8192) as Ha.
    destruct (Ha ltac:(set_solver) ltac:(done) ltac:(done) 4096 11 ltac:(done)) as (_ & g & Hq & Hg & Hs & _).
    exists s', mc', g. split_and!; [done| |done| |done].
    + rewrite Hl; [done|set_solver|done|done].
    + intros ->. apply Hg. by exists 1.
Defined.
