(* ===== verification/Image.v ===== *)
(** * What a program sees of its memory

    The byte at a virtual address, and how the operations that build a user
    address space change it: mapping an area with frames of its own gives
    zeros there, writing changes the bytes written, and neither changes
    anything the program sees elsewhere. *)

From S2P Require Import Prelude Abi MemBase AddrSpace AddrClone.

#[local] Open Scope Z_scope.

Section image.
Context {PT FA MS : Type} `{MA : !MemoryAddr} `{HPT : !PageTable PT} `{HFA : !FrameAlloc FA}
  `{HMS : !MemorySet MS}.
Abbreviation Machine := (Machine FA).
Abbreviation AddrSpace := (AddrSpace PT MS).

(** The byte at an address, when its page is mapped. *)
Definition hview (w : PT * Machine) (va : Z) : option Z := m_mem w.2 <$> translate w.1 va.
Definition view (s : AddrSpace) (m : Machine) (va : Z) : option Z := hview (pt s, m) va.
Definition zero_or_absent (o : option Z) : Prop := o = None ∨ o = Some 0.

(** Pages of areas that own their frames. *)
Definition alloc_page (L : list MemoryArea) (p : Z) : Prop :=
  ∃ a n, a ∈ L ∧ in_area a p ∧ a_backend a = Alloc n.

(** Owned pages have frames from the allocator, each its own. *)
Record hw_ok (O : Z → Prop) (w : PT * Machine) : Prop := {
  ho_used p f fl : O p → p mod PAGE_SIZE_4K = 0 → query w.1 p = Ok (f, fl) →
    f mod PAGE_SIZE_4K = 0 ∧ fa_used (m_fa w.2) f;
  ho_inj p q f fl fl' : O p → O q → p mod PAGE_SIZE_4K = 0 → q mod PAGE_SIZE_4K = 0 →
    query w.1 p = Ok (f, fl) → query w.1 q = Ok (f, fl') → p = q;
}.

(** A user address space: areas of whole pages, no page mapped outside them. *)
Record space_ok (s : AddrSpace) (m : Machine) : Prop := {
  so_range : 0 ≤ AddrSpace_base s ∧ AddrSpace_end s + (PAGE_SIZE_4K - 1) < 2 ^ 64;
  so_areas : Forall area_ok (ms_iter (areas s));
  so_mapped p f fl : p mod PAGE_SIZE_4K = 0 → AddrSpace_base s ≤ p < AddrSpace_end s →
    query (pt s) p = Ok (f, fl) → ∃ a, a ∈ ms_iter (areas s) ∧ in_area a p;
  so_hw : hw_ok (alloc_page (ms_iter (areas s))) (pt s, m);
}.

Lemma page_of_le va : page_of va ≤ va < page_of va + PAGE_SIZE_4K.
Proof. unfold page_of. pose proof (Z.mod_pos_bound va PAGE_SIZE_4K ltac:(done)). lia. Qed.

(** An address is in an area of whole pages exactly when its page is. *)
Lemma in_area_page a va : area_ok a → in_area a (page_of va) ↔ in_area a va.
Proof.
  intros (Hs & He & _). unfold in_area. pose proof (page_of_le va).
  destruct (aligned_cases _ Hs) as [k Hk], (aligned_cases _ He) as [j Hj],
    (aligned_cases _ (page_of_aligned va)) as [l Hl]. rewrite Hk, Hj, Hl in *. unfold PAGE_SIZE_4K in *. lia.
Qed.

Lemma translate_Some q va pa :
  translate q va = Some pa ↔ ∃ f fl, query q (page_of va) = Ok (f, fl) ∧ pa = f + va mod PAGE_SIZE_4K.
Proof.
  unfold translate. split.
  - destruct (query q (page_of va)) as [[f fl]|?|]; [|done..]. intros [= <-]. by exists f, fl.
  - intros (f & fl & -> & ->). done.
Qed.

(** Distinct addresses of owned pages are at distinct places. *)
Lemma translate_inj O w va vb pa :
  hw_ok O w → O (page_of va) → O (page_of vb) →
  translate w.1 va = Some pa → translate w.1 vb = Some pa → va = vb.
Proof.
  intros [Hu Hj] Ha Hb (f & fl & Hf & ->)%translate_Some (g & fl' & Hg & Heq)%translate_Some.
  pose proof (Z.mod_pos_bound va PAGE_SIZE_4K ltac:(done)).
  pose proof (Z.mod_pos_bound vb PAGE_SIZE_4K ltac:(done)).
  destruct (Hu _ _ _ Ha (page_of_aligned va) Hf) as [Hfa _], (Hu _ _ _ Hb (page_of_aligned vb) Hg) as [Hga _].
  assert (f = g) as <- by by eapply (frames_apart f g (va mod PAGE_SIZE_4K) (vb mod PAGE_SIZE_4K)).
  assert (page_of va = page_of vb) as Hp by (by eapply Hj; try apply page_of_aligned).
  unfold page_of in Hp. lia.
Qed.

(** ** A fresh page *)

Lemma fresh_page O q q' mc p f fa fl :
  hw_ok O (q, mc) → O p → p mod PAGE_SIZE_4K = 0 → 0 ≤ p → fa_alloc (m_fa mc) = Some (f, fa) →
  pt_map q p f fl = (true, q') →
  let w := (q, mc) in
  let w' := (q', mkMachine fa (mem_zero f PAGE_SIZE_4K (m_mem mc))) in
  hw_ok O w' ∧ (∀ x, x mod PAGE_SIZE_4K = 0 → x ≠ p → query q' x = query q x) ∧
  (∀ va, O (page_of va) → hview w' va = if decide (page_of va = p) then Some 0 else hview w va).
Proof.
  intros [Hu Hj] Hp Hal Hp0 Hfa Hm. cbv zeta. destruct (fa_alloc_ok _ _ _ Hfa) as (_ & Hf & Hnew & Hused).
  destruct (pt_map_ok _ _ _ _ _ Hm Hp0) as [Hqp Hqo]. assert (p - p mod PAGE_SIZE_4K = p) as Hpp by lia.
  rewrite Hpp in *.
  assert (∀ x g fl', O x → x mod PAGE_SIZE_4K = 0 → x ≠ p → query q' x = Ok (g, fl') → g ≠ f) as Hne.
  { intros x g fl' Hx Hxa Hxp Hg ->. rewrite Hqo in Hg by done.
    by destruct (Hu x f fl' Hx Hxa Hg) as [_ ?]. }
  split_and!; [split|done|].
  - intros x g fl' Hx Hxa Hg. simpl in *. destruct (decide (x = p)) as [->|Hxp].
    + rewrite Hqp in Hg. injection Hg as <- <-. split; [done|]. apply Hused. by left.
    + rewrite Hqo in Hg by done. destruct (Hu x g fl' Hx Hxa Hg). split; [done|]. apply Hused. by right.
  - simpl. intros x y g fl1 fl2 Hx Hy Hxa Hya Hgx Hgy.
    destruct (decide (x = p)) as [->|Hxp], (decide (y = p)) as [->|Hyp]; [done|..].
    + rewrite Hqp in Hgx. injection Hgx as <- _. by destruct (Hne y f fl2).
    + rewrite Hqp in Hgy. injection Hgy as <- _. by destruct (Hne x f fl1).
    + rewrite Hqo in Hgx, Hgy by done. by eapply Hj.
  - intros va Hva. unfold hview, translate. simpl.
    pose proof (Z.mod_pos_bound va PAGE_SIZE_4K ltac:(done)).
    case_decide as Hv.
    + rewrite Hv, Hqp. simpl. unfold mem_zero. by rewrite decide_True by lia.
    + pose proof (page_of_aligned va). destruct (query q' (page_of va)) as [[g fl']|?|] eqn:Hg; simpl.
      * specialize (Hne _ _ _ Hva (page_of_aligned va) Hv Hg). rewrite Hqo in Hg by done. rewrite Hg. simpl.
        destruct (Hu _ _ _ Hva (page_of_aligned va) Hg) as [Hga _]. f_equal.
        unfold mem_zero. rewrite decide_False; [done|]. intros Hr. destruct Hne.
        apply (frames_apart g f (va mod PAGE_SIZE_4K) (g + va mod PAGE_SIZE_4K - f)); lia || done.
      * rewrite Hqo in Hg by done. by rewrite Hg.
      * rewrite Hqo in Hg by done. by rewrite Hg.
Qed.

Lemma map_alloc_pages_view O pages flags w w' :
  Forall (λ p, O p ∧ p mod PAGE_SIZE_4K = 0 ∧ 0 ≤ p) pages → hw_ok O w →
  map_alloc_pages pages flags w = (Ok true, w') →
  hw_ok O w' ∧ (∀ x, x mod PAGE_SIZE_4K = 0 → x ∉ pages → query w'.1 x = query w.1 x) ∧
  (∀ va, O (page_of va) → page_of va ∉ pages → hview w' va = hview w va) ∧
  (∀ va, O (page_of va) → zero_or_absent (hview w va) → zero_or_absent (hview w' va)).
Proof.
  intros Hps. revert w. induction Hps as [|p pages (Hp & Hal & Hp0) Hps IH]; intros [q mc] Hok;
    cbn [map_alloc_pages]; unfold alloc_frame, pt_step; monad; [by intros [= <-]|].
  destruct (fa_alloc (m_fa mc)) as [[f fa]|] eqn:Hfa; simpl.
  - destruct (pt_map q p f flags) as [[] q'] eqn:Hm; simpl; [|done].
    destruct (fresh_page O q q' mc p f fa flags Hok Hp Hal Hp0 Hfa Hm) as (Hok' & Hq' & Hv').
    intros (Hok2 & Hq2 & Hv2 & Hz2)%IH; [|done]. split_and!; [done|..].
    + intros x Hx Hn. rewrite Hq2 by set_solver. simpl. apply Hq'; set_solver.
    + intros va Ho Hn. rewrite Hv2, Hv' by set_solver. rewrite decide_False by set_solver. done.
    + intros va Ho Hz. apply Hz2; [done|]. rewrite Hv' by done. case_decide; [by right|done].
  - intros (Hok2 & Hq2 & Hv2 & Hz2)%IH; [|done]. split_and!; [done|..|done]; intros; set_solver.
Qed.

(** ** A new area *)

Lemma area_page_list a : area_ok a → a_start a < a_end a →
  ∃ ps, page_iter_4k (a_start a) (as_usize (a_start a + a_size a)) = Some ps ∧
    ∀ p, p ∈ ps ↔ in_area a p ∧ p mod PAGE_SIZE_4K = 0.
Proof.
  intros (Hs & He & H0 & H1) Hlt. fold (a_end a). ints. apply page_iter_between; [done..|lia].
Qed.

Lemma hw_ok_mono (O O' : Z → Prop) w : (∀ p, O' p → O p) → hw_ok O w → hw_ok O' w.
Proof. intros Hs [Hu Hj]. split; naive_solver. Qed.

(** Pages of an area that is not in the set yet are not mapped. *)
Lemma hw_ok_extend s m L' area :
  space_ok s m → (∀ a, a ∈ L' → a = area ∨ a ∈ ms_iter (areas s)) →
  (∀ p f fl, in_area area p → p mod PAGE_SIZE_4K = 0 → query (pt s) p ≠ Ok (f, fl)) →
  hw_ok (alloc_page L') (pt s, m).
Proof.
  intros [_ _ _ [Hu Hj]] HL Hno. simpl in *.
  assert (∀ p f fl, alloc_page L' p → p mod PAGE_SIZE_4K = 0 → query (pt s) p = Ok (f, fl) →
    alloc_page (ms_iter (areas s)) p) as Hold.
  { intros p f fl (a & n & Ha & Hp & Hb) Hal Hq. apply HL in Ha as [->|Ha]; [by destruct (Hno p f fl)|].
    by exists a, n. }
  split; simpl; [naive_solver|]. intros p q f fl fl' Hp Hq Hpa Hqa Hfp Hfq.
  apply (Hj p q f fl fl'); try done; by eapply Hold.
Qed.

Lemma map_alloc_view s m start size flags s' m' :
  space_ok s m → 0 ≤ start → 0 ≤ size → start + size < 2 ^ 64 →
  AddrSpace_map_alloc start size flags true (s, m) = (Ok (), (s', m')) →
  let area := mkArea start size flags (Alloc true) in
  space_ok s' m' ∧ va_range s' = va_range s ∧
  (∀ a, a ∈ ms_iter (areas s') ↔ a = area ∨ a ∈ ms_iter (areas s)) ∧
  (∀ va, alloc_page (ms_iter (areas s)) (page_of va) → view s' m' va = view s m va) ∧
  (∀ va, in_area area va → ¬ alloc_page (ms_iter (areas s)) (page_of va) ∧
    zero_or_absent (view s' m' va)).
Proof.
  intros Hok Hs0 Hn0 Hlt. unfold AddrSpace_map_alloc, readS. monad.
  pose proof (validate_region_Ok s start size Hs0 Hn0 Hlt) as Hval.
  destruct (validate_region s start size) as [[]|?|]; [|done..]. unfold on_areas.
  set (area := mkArea start size flags (Alloc true)). simpl.
  destruct (ms_map _ _ _ _ _) as [[r ms] w] eqn:Hm. simpl.
  destruct r as [[[]|?|]|?|]; try done. intros [= <- <-].
  destruct (ms_map_ok _ _ _ _ _ _ _ Hm eq_refl) as (Hb & Hin & Hdis). simpl in Hb.
  destruct Hval as (Hbase & Hend & Hals & Haln). set (L' := ms_iter ms) in *.
  pose proof Hok as [Hr Har Hmap Hhw].
  assert (start < a_end area) as Hne.
  { apply (proj1 (Forall_forall _ _) (proj2 (ms_iter_sorted ms)) area). apply Hin. by left. }
  assert (area_ok area) as Hao.
  { split_and!; simpl; [done| |done|unfold a_end; simpl; lia]. unfold a_end; simpl.
    by rewrite <-Zplus_mod_idemp_l, Hals. }
  assert (∀ p f fl, in_area area p → p mod PAGE_SIZE_4K = 0 → query (pt s) p ≠ Ok (f, fl)) as Hno.
  { intros p f fl Hp Hpa Hq. unfold in_area, a_end in Hp; simpl in Hp.
    destruct (Hmap p f fl Hpa) as (a & Ha & Hpi); [unfold AddrSpace_base, AddrSpace_end in *; lia|done|].
    by destruct (Hdis a p Ha Hpi). }
  pose proof (hw_ok_extend s m L' area Hok (λ a, proj1 (Hin a)) Hno) as Hhw'.
  destruct (area_page_list area Hao Hne) as (ps & Hps & Hpin). simpl in Hps.
  unfold Backend_map_alloc in Hb. monad. rewrite Hps in Hb. simpl in Hb.
  destruct (λ H, map_alloc_pages_view (alloc_page L') _ _ _ _ H Hhw' Hb) as (Hok' & Hq & Hv & Hz).
  { apply Forall_forall. intros p [Hpi Hpa]%Hpin.
    split_and!; [|done|unfold in_area in Hpi; simpl in Hpi; lia].
    exists area, true. split_and!; [apply Hin; by left|done|done]. }
  simpl in *. assert (∀ va, alloc_page (ms_iter (areas s)) (page_of va) →
    page_of va ∉ ps ∧ alloc_page L' (page_of va)) as Hold.
  { intros va (a & n & Ha & Hp & Hbk). split.
    - intros [Hp' _]%Hpin. by destruct (Hdis a (page_of va)).
    - exists a, n. split_and!; [apply Hin; by right|done|done]. }
  split_and!; [|done|done| |].
  - split; simpl; [done| | |by destruct w].
    + apply Forall_forall. intros a [->|Ha]%Hin; [done|]. by apply (proj1 (Forall_forall _ _) Har).
    + intros p f fl Hpa Hpr Hqp. destruct (decide (p ∈ ps)) as [Hp|Hp].
      * exists area. split; [apply Hin; by left|]. by apply Hpin.
      * rewrite Hq in Hqp by done. destruct (Hmap p f fl) as (a & ? & ?); [done..|].
        exists a. split; [apply Hin; by right|done].
  - intros va Ha. destruct (Hold va Ha). unfold view. destruct w. by apply Hv.
  - intros va Ha. split.
    { intros [Hn _]%Hold. apply Hn, Hpin. split; [by apply in_area_page|apply page_of_aligned]. }
    unfold view. destruct w. apply Hz.
    + exists area, true. split_and!; [apply Hin; by left|by apply in_area_page|done].
    + left. unfold hview, translate. simpl. pose proof (proj2 (in_area_page area va Hao) Ha) as Hp.
      destruct (query (pt s) (page_of va)) as [[f fl]|?|] eqn:Hqv; [|done..].
      by destruct (Hno (page_of va) f fl Hp (page_of_aligned va)).
Qed.

(** ** A write *)

Lemma write_view s m start buf m' :
  space_ok s m → 0 ≤ start → start + Z.of_nat (length buf) + (PAGE_SIZE_4K - 1) < 2 ^ 64 →
  (∀ i, 0 ≤ i < Z.of_nat (length buf) → alloc_page (ms_iter (areas s)) (page_of (start + i))) →
  AddrSpace_write s start buf m = (Ok (), m') →
  space_ok s m' ∧ (∀ i, (i < length buf)%nat → view s m' (start + Z.of_nat i) = buf !! i) ∧
  (∀ va, alloc_page (ms_iter (areas s)) (page_of va) → ¬ (start ≤ va < start + Z.of_nat (length buf)) →
    view s m' va = view s m va).
Proof.
  intros Hok Hs Hlt Hown. pose proof (so_hw s m Hok) as Hhw. unfold AddrSpace_write.
  destruct (process_area_data s start (Z.of_nat (length buf))) as [ps r] eqn:Hp. intros [= -> <-].
  apply process_area_data_tile in Hp; [|done|lia|done].
  assert (injective_on (pt s) start 0 (Z.of_nat (length buf))) as Hinj.
  { intros i j x Hi Hj Hti Htj. assert (start + i = start + j); [|lia].
    eapply (translate_inj _ (pt s, m)); [done|by apply Hown..|done|done]. }
  split_and!.
  - destruct Hok as [Hr Ha Hm [Hu Hj]]. by split.
  - intros i Hi. destruct (tile_write _ _ _ _ _ buf (m_mem m) Hp ltac:(lia) eq_refl Hinj (Z.of_nat i))
      as (pa & Htr & Hb); [lia|].
    unfold view, hview. cbn [fst snd m_mem]. rewrite Htr. simpl. by rewrite Hb, Nat2Z.id.
  - intros va Hva Hout. unfold view, hview. cbn [fst snd m_mem].
    destruct (translate (pt s) va) as [pa|] eqn:Htr; [|done]. simpl. f_equal.
    apply (tile_write_frame (pt s) start ps 0 (Z.of_nat (length buf))); [done|lia|done|].
    intros i Hi Hti. assert (start + i = va) by
      (eapply (translate_inj _ (pt s, m)); [done|by apply Hown|done..]). lia.
Qed.

(** Addresses of an area that owns its frames. *)
Lemma area_alloc_page L a n va :
  Forall area_ok L → a ∈ L → a_backend a = Alloc n → in_area a va → alloc_page L (page_of va).
Proof.
  intros Hok Ha Hb Hin. exists a, n. split_and!; [done| |done].
  apply in_area_page; [|done]. by apply (proj1 (Forall_forall _ _) Hok).
Qed.
End image.
