(* ===== verification/UserPtr.v ===== *)
(** * User pointers ([src/api/src/ptr.rs])

    A system call turns a user address into a kernel reference only after it
    checked that the memory belongs to the caller and has mapped every page of
    it, so that the kernel itself does not fault. The element type of a
    pointer enters through its layout: size and alignment. *)

From S2P Require Import Prelude Abi Str MemBase AddrSpace.

#[local] Open Scope Z_scope.

(** [core::alloc::Layout]. *)
Record Layout := mkLayout { l_size : Z; l_align : Z }.

(** [Layout::array::<T>(n)]: an error when the size would pass [isize::MAX]
    after rounding up to the alignment. *)
Definition layout_array (T : Layout) (n : Z) : option Layout :=
  if decide (l_size T * n ≤ 2 ^ 63 - 1 - (l_align T - 1))
  then Some (mkLayout (l_size T * n) (l_align T)) else None.

Definition MUT_ACCESS_FLAGS : Z := Z.lor READ WRITE.
Definition CONST_ACCESS_FLAGS : Z := READ.

Section userptr.
Context {PT FA MS : Type} `{MA : !MemoryAddr} `{HPT : !PageTable PT} `{HFA : !FrameAlloc FA}
  `{HMS : !MemorySet MS} `{AxErrno}.
Abbreviation AddrSpace := (AddrSpace PT MS).
Abbreviation Machine := (Machine FA).

(** The calls run on the address space of the current process. *)
Definition Ust : Type → Type := st (AddrSpace * Machine) LinuxError.

Definition check_region (start : Z) (layout : Layout) (access_flags : Z) : Ust () :=
  if negb (Z.land start (l_align layout - 1) =? 0) then st_err EFAULT else
  r ← st_lift (into_linux (from_start_size start (l_size layout)));
  s ← st_get;
  if negb (check_region_access s.1 r access_flags) then st_err EFAULT else
  let page_start := align_down_4k start in
  let page_end := align_up_4k (as_usize (start + l_size layout)) in
  st_map_err ax_to_linux (populate_area page_start (as_usize (page_end - page_start))).

(** The inner loop of [check_null_terminated]: pages up to the one of [ptr]
    are checked, each once. *)
Fixpoint check_pages (fuel : nat) (s : AddrSpace) (access_flags ptr page : Z) : LinuxResult Z :=
  match fuel with
  | O => Panic
  | S fuel' =>
      if page <=? ptr then
        r ← into_linux (from_start_size page PAGE_SIZE_4K);
        if negb (check_region_access s r access_flags) then Err EFAULT
        else check_pages fuel' s access_flags ptr (as_usize (page + PAGE_SIZE_4K))
      else Ok page
  end.

(** The outer loop. [elem] is the value of the element at an address of the
    process; reading it may fault the page in, which changes no byte. *)
Fixpoint null_loop (fuel : nat) (s : AddrSpace) (elem : Z → Z) (size access_flags start : Z)
    (page len : Z) : LinuxResult Z :=
  match fuel with
  | O => Panic
  | S fuel' =>
      let ptr := as_usize (start + size * len) in
      page ← check_pages (S (S (Z.to_nat ((ptr - page) / PAGE_SIZE_4K)))) s access_flags ptr page;
      if elem ptr =? 0 then Ok len
      else null_loop fuel' s elem size access_flags start page (as_usize (len + 1))
  end.

Definition check_null_terminated (fuel : nat) (s : AddrSpace) (elem : Z → Z) (T : Layout)
    (start access_flags : Z) : LinuxResult Z :=
  if negb (Z.land start (l_align T - 1) =? 0) then Err EFAULT else
  null_loop fuel s elem (l_size T) access_flags start (align_down_4k start) 0.

(** [UserPtr<T>]; the reference given out is the address. *)
Definition get_as_mut (T : Layout) (p : Z) : Ust Z :=
  check_region p T MUT_ACCESS_FLAGS;; mret p.
Definition get_as_mut_slice (T : Layout) (p len : Z) : Ust (Z * Z) :=
  l ← st_lift (unwrap_opt (layout_array T len));
  check_region p l MUT_ACCESS_FLAGS;; mret (p, len).
Definition get_as_mut_null_terminated (fuel : nat) (elem : Z → Z) (T : Layout) (p : Z)
    (s : AddrSpace) : LinuxResult (Z * Z) :=
  len ← check_null_terminated fuel s elem T p MUT_ACCESS_FLAGS; Ok (p, len).

(** [UserConstPtr<T>]. *)
Definition get_as_ref (T : Layout) (p : Z) : Ust Z :=
  check_region p T CONST_ACCESS_FLAGS;; mret p.
Definition get_as_slice (T : Layout) (p len : Z) : Ust (Z * Z) :=
  l ← st_lift (unwrap_opt (layout_array T len));
  check_region p l CONST_ACCESS_FLAGS;; mret (p, len).
Definition get_as_null_terminated (fuel : nat) (elem : Z → Z) (T : Layout) (p : Z)
    (s : AddrSpace) : LinuxResult (Z * Z) :=
  len ← check_null_terminated fuel s elem T p CONST_ACCESS_FLAGS; Ok (p, len).

(** [get_as_str]: the bytes before the NUL, checked to be UTF-8. *)
Definition get_as_str (fuel : nat) (utf8 : list Z → option str) (elem : Z → Z) (p : Z)
    (s : AddrSpace) : LinuxResult str :=
  '(p, len) ← get_as_null_terminated fuel elem (mkLayout 1 1) p s;
  ok_or (utf8 ((λ i, elem (p + Z.of_nat i)) <$> seq 0 (Z.to_nat len))) EILSEQ.

(** [nullable!(ptr.func(args))]. *)
Definition nullable {T} (p : Z) (f : Ust T) : Ust (option T) :=
  if p =? 0 then mret None else x ← f; mret (Some x).

(** ** Checked regions *)

(** The pages from the one of the first byte to the one of the last. *)
Lemma region_pages start size :
  0 ≤ start → 0 < size → start + size + (PAGE_SIZE_4K - 1) < 2 ^ 64 →
  let a := align_down_4k start in
  let n := as_usize (align_up_4k (as_usize (start + size)) - a) in
  0 ≤ a ∧ 0 ≤ n ∧ a ≤ start ∧ start + size ≤ a + n ∧ a + n < 2 ^ 64 ∧ a mod PAGE_SIZE_4K = 0.
Proof.
  intros Hs Hn Hlt. pose proof (Z.mod_pos_bound start PAGE_SIZE_4K ltac:(done)) as Hm.
  pose proof (Z.mod_pos_bound (start + size + (PAGE_SIZE_4K - 1)) PAGE_SIZE_4K ltac:(done)) as Hm'.
  unfold PAGE_SIZE_4K in *. simpl. rewrite (wrapu_id 64 (start + size)) by (split; lia).
  rewrite align_down_4k_spec by lia. rewrite align_up_4k_spec by (unfold PAGE_SIZE_4K; lia).
  unfold PAGE_SIZE_4K in *. pose proof (Z.mod_le start 4096). rewrite wrapu_id by (split; lia).
  split_and!; try lia. fold (page_of start). apply page_of_aligned.
Qed.

(** C24: when [check_region] accepts a region, it is aligned, every byte of it
    lies in an area of the process that allows the access, and every page of
    it that is allocated lazily is mapped afterwards. No mapping is lost in
    any case, and the check does not panic. *)
Theorem check_region_sound (s : AddrSpace) (m : Machine) (start flags : Z) (layout : Layout) :
  areas_aligned (areas s) → 0 ≤ start → 0 < l_size layout →
  start + l_size layout + (PAGE_SIZE_4K - 1) < 2 ^ 64 →
  match check_region start layout flags (s, m) with
  | (Ok _, (s', _)) =>
      same_space s s' ∧ Z.land start (l_align layout - 1) = 0 ∧
      ∀ x, start ≤ x < start + l_size layout →
        (∃ a, a ∈ ms_iter (areas s) ∧ in_area a x ∧ contains (a_flags a) flags = true) ∧
        page_present s' (page_of x)
  | (Err _, (s', _)) => same_space s s'
  | (Panic, _) => False
  end.
Proof.
  intros Hal Hs Hn Hlt. unfold check_region.
  destruct (Z.eqb_spec (Z.land start (l_align layout - 1)) 0) as [Hland|]; [|apply same_space_refl].
  cbn [negb]. unfold mbind, st_bind, st_lift, st_get, into_linux.
  rewrite from_start_size_spec by (unfold PAGE_SIZE_4K in *; lia). cbn [map_err fst].
  destruct (check_region_access s _ flags) eqn:Hacc; [|apply same_space_refl]. cbn [negb].
  pose proof (region_pages start (l_size layout) Hs Hn Hlt) as (Ha & Hn' & Hle & Hge & Hlt' & Hal').
  set (a := align_down_4k start) in *. set (n := as_usize _) in *.
  unfold st_map_err. pose proof (populate_area_spec' s m a n Hal Ha Hn' Hlt') as Hp.
  destruct (populate_area a n (s, m)) as [[[]|e|] [s' m']]; simpl; [|done..].
  destruct Hp as (Hsame & _ & Hn0 & _ & _ & Hp). split_and!; [done..|]. intros x Hx. split.
  - apply check_areas_spec in Hacc; [|apply ms_iter_sorted|simpl; lia]. by apply Hacc.
  - apply Hp; [|apply page_of_aligned]. pose proof (Z.mod_pos_bound x PAGE_SIZE_4K ltac:(done)).
    unfold page_of. assert (a ≤ x - x mod PAGE_SIZE_4K); [|lia].
    destruct (Z.le_gt_cases a (x - x mod PAGE_SIZE_4K)); [done|].
    pose proof (aligned_gap (page_of x) a (page_of_aligned x) Hal' ltac:(unfold page_of; lia)).
    unfold page_of in *. lia.
Qed.

(** a slice longer than [isize::MAX] bytes makes the kernel panic instead
    of failing with an error: the layout is unwrapped before any check. The
    length comes straight from the arguments of [read], [write] and the other
    calls that take a buffer. *)
Theorem huge_slice_panics (T : Layout) (p len : Z) (s : AddrSpace * Machine) :
  0 < l_align T → 2 ^ 63 ≤ l_size T * len →
  get_as_mut_slice T p len s = (Panic, s) ∧ get_as_slice T p len s = (Panic, s).
Proof.
  intros Ha Hbig. unfold get_as_mut_slice, get_as_slice, layout_array. monad.
  by rewrite decide_False by lia.
Qed.

(** ** Strings *)

(** A page whose bytes all allow the access. *)
Definition page_ok (s : AddrSpace) (flags p : Z) : bool :=
  check_region_access s (mkRange p (p + PAGE_SIZE_4K)) flags.

(** The inner loop ends past [ptr], or finds a page that is not allowed. *)
Lemma check_pages_spec fuel s flags ptr page :
  0 ≤ page → page mod PAGE_SIZE_4K = 0 → ptr + 2 * PAGE_SIZE_4K < 2 ^ 64 →
  ptr - page < PAGE_SIZE_4K * (Z.of_nat fuel - 1) → (0 < fuel)%nat →
  match check_pages fuel s flags ptr page with
  | Ok page' => page ≤ page' ∧ ptr < page' ∧ page' mod PAGE_SIZE_4K = 0 ∧
      (page' = page ∨ page' ≤ ptr + PAGE_SIZE_4K) ∧
      ∀ p, p mod PAGE_SIZE_4K = 0 → page ≤ p < page' → page_ok s flags p = true
  | Err e => e = EFAULT ∧
      ∃ p, p mod PAGE_SIZE_4K = 0 ∧ page ≤ p ≤ ptr ∧ page_ok s flags p = false
  | Panic => False
  end.
Proof.
  revert page. induction fuel as [|fuel IH]; intros page H0 Hal Hb Hf Hpos; [lia|].
  cbn [check_pages]. destruct (Z.leb_spec page ptr) as [Hle|Hgt].
  2:{ split_and!; [lia|done|done|by left|intros; lia]. }
  unfold mbind, res_bind, into_linux.
  rewrite from_start_size_spec by (unfold PAGE_SIZE_4K in *; lia). cbn [map_err].
  fold (page_ok s flags page). destruct (page_ok s flags page) eqn:Hok; simpl.
  2:{ split; [done|]. exists page. by split_and!. }
  rewrite wrapu_id by (split; unfold PAGE_SIZE_4K in *; lia).
  specialize (IH (page + PAGE_SIZE_4K)).
  assert ((page + PAGE_SIZE_4K) mod PAGE_SIZE_4K = 0) as Hal'
    by by rewrite Zplus_mod, Hal, Z_mod_same_full.
  specialize (IH ltac:(unfold PAGE_SIZE_4K in *; lia) Hal' Hb ltac:(lia)
    ltac:(unfold PAGE_SIZE_4K in *; lia)).
  destruct (check_pages fuel s flags ptr (page + PAGE_SIZE_4K)) as [page'|e|]; [| |done].
  - destruct IH as (H1 & H2 & H3 & H4 & H5).
    split_and!; [unfold PAGE_SIZE_4K in *; lia|done|done|right; lia|].
    intros p Hp Hr. destruct (decide (p = page)) as [->|]; [done|]. apply H5; [done|].
    pose proof (aligned_gap page p Hal Hp ltac:(lia)). lia.
  - destruct IH as (-> & p & Hp & Hr & Hbad). split; [done|]. exists p.
    split_and!; [done|unfold PAGE_SIZE_4K in *; lia|lia|done].
Qed.

Lemma check_pages_fuel ptr page :
  ptr - page < PAGE_SIZE_4K * (Z.of_nat (S (S (Z.to_nat ((ptr - page) / PAGE_SIZE_4K)))) - 1).
Proof.
  pose proof (Z_div_mod_eq_full (ptr - page) PAGE_SIZE_4K).
  pose proof (Z.mod_pos_bound (ptr - page) PAGE_SIZE_4K ltac:(done)).
  unfold PAGE_SIZE_4K in *. lia.
Qed.

(** [n] is the index of the first zero element, below the end of memory. *)
Definition first_zero (elem : Z → Z) (size start n : Z) : Prop :=
  0 ≤ n ∧ elem (start + size * n) = 0 ∧ ∀ i, 0 ≤ i < n → elem (start + size * i) ≠ 0.

Lemma null_loop_spec fuel s elem size flags start page len n :
  0 ≤ start → 0 < size ≤ PAGE_SIZE_4K → start + size * n + 2 * PAGE_SIZE_4K < 2 ^ 64 →
  first_zero elem size start n → 0 ≤ len ≤ n → n - len < Z.of_nat fuel →
  0 ≤ page → page mod PAGE_SIZE_4K = 0 → page ≤ start + size * n + PAGE_SIZE_4K →
  match null_loop fuel s elem size flags start page len with
  | Ok r => r = n ∧
      ∀ p, p mod PAGE_SIZE_4K = 0 → page ≤ p ≤ start + size * n → page_ok s flags p = true
  | Err e => e = EFAULT ∧
      ∃ p, p mod PAGE_SIZE_4K = 0 ∧ page ≤ p ≤ start + size * n ∧ page_ok s flags p = false
  | Panic => False
  end.
Proof.
  intros Hs Hsz Hlt (Hn & Hz & Hnz). revert page len.
  induction fuel as [|fuel IH]; intros page len Hlen Hf H0 Hal Hpg; [lia|].
  cbn [null_loop]. assert (0 ≤ size * len ≤ size * n) as Hm by nia.
  rewrite (wrapu_id 64 (start + size * len)) by (split; unfold PAGE_SIZE_4K in *; lia).
  set (ptr := start + size * len).
  pose proof (check_pages_spec (S (S (Z.to_nat ((ptr - page) / PAGE_SIZE_4K)))) s flags ptr page
    H0 Hal ltac:(lia) (check_pages_fuel ptr page) ltac:(lia)) as Hc.
  unfold mbind, res_bind.
  destruct (check_pages _ s flags ptr page) as [page'|e|]; [| |done].
  2:{ destruct Hc as (-> & p & Hp & Hr & Hbad). split; [done|]. exists p. split_and!; [done|lia|lia|done]. }
  destruct Hc as (H1 & H2 & H3 & H4 & H5). destruct (Z.eqb_spec (elem ptr) 0) as [Hzero|Hzero].
  - assert (len = n) as ->.
    { destruct (decide (len = n)); [done|]. destruct (Hnz len); [lia|done]. }
    split; [done|]. intros p Hp Hr. apply H5; [done|lia].
  - assert (len ≠ n) by (intros ->; done).
    rewrite (wrapu_id 64 (len + 1)) by (split; unfold PAGE_SIZE_4K in *; nia).
    specialize (IH page' (len + 1) ltac:(lia) ltac:(lia) ltac:(lia) H3 ltac:(lia)).
    destruct (null_loop fuel s elem size flags start page' (len + 1)) as [r|e|]; [| |done].
    + destruct IH as [-> Hall]. split; [done|]. intros p Hp Hr.
      destruct (Z.lt_ge_cases p page'); [apply H5; [done|lia]|apply Hall; [done|lia]].
    + destruct IH as (-> & p & Hp & Hr & Hbad). split; [done|]. exists p. split_and!; [done|lia|lia|done].
Qed.


End userptr.

(** ** Witnesses *)

#[local] Existing Instance SampleErrno.

Lemma check_region_sound_witness :
  ∃ s' m', check_region 8190 (mkLayout 8 2) MUT_ACCESS_FLAGS (mem_aspace [], mem_machine)
    = (Ok (), (s', m')) ∧ page_present s' (page_of 8195).
Proof.
  pose proof (check_region_sound (mem_aspace []) mem_machine 8190 MUT_ACCESS_FLAGS (mkLayout 8 2)
    (mem_aspace_aligned []) ltac:(lia) ltac:(done) ltac:(done)) as Hc.
  destruct (check_region 8190 (mkLayout 8 2) MUT_ACCESS_FLAGS (mem_aspace [], mem_machine))
    as [r [s' m']] eqn:Hr.
  assert (r = Ok ()) as ->.
  { change r with (r, (s', m')).1. rewrite <-Hr. vm_compute. reflexivity. }
  exists s', m'. split; [done|]. destruct Hc as (_ & _ & Hc). apply Hc. simpl. lia.
Defined.

Lemma huge_slice_panics_witness :
  get_as_slice (mkLayout 1 1) 4096 (2 ^ 64 - 1) (mem_aspace [], mem_machine)
    = (Panic, (mem_aspace [], mem_machine)).
Proof.
  apply (huge_slice_panics (mkLayout 1 1) 4096 (2 ^ 64 - 1) (mem_aspace [], mem_machine)); done.
Defined.

