(* ===== verification/Alloc.v ===== *)
(** * The global allocator ([src/.arceos/modules/axalloc/src])

    [lib.rs], a heap of bytes that grows by taking pages, and [page.rs], pages
    that are given back when dropped. The two allocators below it come from
    the crate [allocator]. *)

From S2P Require Import Prelude Abi MemBase UserPtr.

#[local] Open Scope Z_scope.

Definition PAGE_SIZE : Z := 4096.
Definition MIN_HEAP_SIZE : Z := 32768.

(** [allocator::AllocError]. *)
Inductive AllocError : Type := AllocInvalidParam | AllocNoMemory | AllocMemoryOverlap | AllocNotAllocated.

(** [allocator::PageAllocator]: [pa_used] are the pages that are handed out.
    An allocation takes pages that were free, at an aligned address, and one
    that fails takes none. *)
Class PageAllocator (Q : Type) := {
  pa_new : Q;
  pa_init : Q → Z → Z → Q;
  pa_alloc : Z → Z → st Q AllocError Z;
  pa_dealloc : Z → Z → Q → Q;
  pa_available : Q → Z;
  pa_used : Q → Z → Prop;
  pa_available_range q : 0 ≤ pa_available q;
  pa_alloc_ok n al q a q' : pa_alloc n al q = (Ok a, q') → 0 < n →
    pa_available q' = pa_available q - n ∧ a mod al = 0 ∧
    (∀ i, 0 ≤ i < n → ¬ pa_used q (a + i * PAGE_SIZE)) ∧
    ∀ p, pa_used q' p ↔ pa_used q p ∨ ∃ i, 0 ≤ i < n ∧ p = a + i * PAGE_SIZE;
  pa_alloc_err n al q e q' : pa_alloc n al q = (Err e, q') → q' = q;
  pa_alloc_no_panic n al q : (pa_alloc n al q).1 ≠ Panic;
}.

(** [allocator::ByteAllocator]: [ba_regions] are the regions it was given;
    what it hands out is part of one. *)
Class ByteAllocator (B : Type) := {
  ba_new : B;
  ba_init : B → Z → Z → B;
  ba_alloc : Layout → st B AllocError Z;
  ba_dealloc : Z → Layout → B → B;
  ba_add_memory : Z → Z → st B AllocError ();
  ba_total : B → Z;
  ba_regions : B → list (Z * Z);
  ba_total_range b : 0 ≤ ba_total b < 2 ^ 64;
  ba_alloc_regions l b r b' : ba_alloc l b = (r, b') → ba_regions b' = ba_regions b;
  ba_alloc_inside l b a b' : ba_alloc l b = (Ok a, b') →
    ∃ s n, (s, n) ∈ ba_regions b ∧ s ≤ a ∧ a + l_size l ≤ s + n;
  ba_alloc_no_panic l b : (ba_alloc l b).1 ≠ Panic;
  ba_add_regions a n b b' : ba_add_memory a n b = (Ok (), b') → ba_regions b' = ba_regions b ++ [(a, n)];
  ba_add_no_panic a n b : (ba_add_memory a n b).1 ≠ Panic;
}.

Section alloc.
Context {B Q : Type} `{HB : !ByteAllocator B} `{HQ : !PageAllocator Q}.

Record GlobalAllocator := mkGlobal { balloc : B; palloc : Q }.
Definition GlobalAllocator_new : GlobalAllocator := mkGlobal ba_new pa_new.
Definition Gst : Type → Type := st GlobalAllocator AllocError.

Definition alloc_pages (num_pages align_pow2 : Z) : Gst Z := λ g,
  let '(r, q) := pa_alloc num_pages align_pow2 (palloc g) in (r, mkGlobal (balloc g) q).
Definition dealloc_pages (pos num_pages : Z) (g : GlobalAllocator) : GlobalAllocator :=
  mkGlobal (balloc g) (pa_dealloc pos num_pages (palloc g)).
Definition add_memory (start size : Z) : Gst () := λ g,
  let '(r, b) := ba_add_memory start size (balloc g) in (r, mkGlobal b (palloc g)).

Definition GlobalAllocator_init (start size : Z) : Gst () :=
  st_lift (rassert (MIN_HEAP_SIZE <? size));;
  st_mod (λ g, mkGlobal (balloc g) (pa_init (palloc g) start size));;
  heap_ptr ← st_unwrap (alloc_pages (MIN_HEAP_SIZE / PAGE_SIZE) PAGE_SIZE);
  st_mod (λ g, mkGlobal (ba_init (balloc g) heap_ptr MIN_HEAP_SIZE) (palloc g)).

(** [usize::next_power_of_two] in release mode: 0 when it does not fit. *)
Definition next_power_of_two (x : Z) : Z := as_usize (if x <=? 1 then 1 else 2 ^ Z.log2_up x).
Definition expand_size (old_size size : Z) : Z := Z.max (next_power_of_two (Z.max old_size size)) PAGE_SIZE.

(** The loop of [alloc]: every turn takes pages, so the pages that are left
    bound it. *)
Fixpoint alloc_loop (fuel : nat) (layout : Layout) : Gst Z :=
  match fuel with
  | O => st_panic
  | S fuel' => λ g,
      match ba_alloc layout (balloc g) with
      | (Ok ptr, b) => (Ok ptr, mkGlobal b (palloc g))
      | (Panic, b) => (Panic, mkGlobal b (palloc g))
      | (Err _, b) =>
          let n := expand_size (ba_total b) (l_size layout) in
          (heap_ptr ← alloc_pages (n / PAGE_SIZE) PAGE_SIZE;
           add_memory heap_ptr n;;
           alloc_loop fuel' layout) (mkGlobal b (palloc g))
      end
  end.
Definition galloc (layout : Layout) : Gst Z := λ g,
  alloc_loop (S (Z.to_nat (pa_available (palloc g)))) layout g.
Definition gdealloc (pos : Z) (layout : Layout) (g : GlobalAllocator) : GlobalAllocator :=
  mkGlobal (ba_dealloc pos layout (balloc g)) (palloc g).

(** [GlobalAlloc]: no memory is the end. *)
Definition GlobalAlloc_alloc (layout : Layout) : Gst Z := st_unwrap (galloc layout).
Definition GlobalAlloc_dealloc (ptr : Z) (layout : Layout) : Gst () := λ g,
  if ptr =? 0 then (Panic, g) else (Ok (), gdealloc ptr layout g).

(** ** Pages ([page.rs]) *)

Record GlobalPage := mkPage { start_vaddr : Z; num_pages : Z }.

Definition alloc_err_to_ax_err (e : AllocError) : AxError :=
  match e with
  | AllocInvalidParam | AllocMemoryOverlap | AllocNotAllocated => InvalidInput
  | AllocNoMemory => NoMemory
  end.

(** Pages and the memory they lie in. *)
Definition Pst : Type → Type := st (GlobalAllocator * (Z → Z)) AxError.
Definition alloc_contiguous (n align_pow2 : Z) : Pst GlobalPage := λ s,
  let '(r, g) := alloc_pages n align_pow2 s.1 in
  (v ← map_err alloc_err_to_ax_err r; Ok (mkPage v n), (g, s.2)).
Definition GlobalPage_alloc : Pst GlobalPage := alloc_contiguous 1 PAGE_SIZE.
Definition page_size (p : GlobalPage) : Z := as_usize (num_pages p * PAGE_SIZE).
Definition page_fill (p : GlobalPage) (byte : Z) (m : Z → Z) : Z → Z := λ x,
  if decide (start_vaddr p ≤ x < start_vaddr p + page_size p) then byte else m x.
Definition alloc_zero : Pst GlobalPage :=
  p ← GlobalPage_alloc; st_mod (λ s, (s.1, page_fill p 0 s.2));; mret p.
Definition page_drop (p : GlobalPage) (s : GlobalAllocator * (Z → Z)) : GlobalAllocator * (Z → Z) :=
  (dealloc_pages (start_vaddr p) (num_pages p) s.1, s.2).

(** ** The loop ends *)

Lemma expand_size_pages old n : PAGE_SIZE ≤ expand_size old n ∧ 0 < expand_size old n / PAGE_SIZE.
Proof.
  unfold expand_size. assert (PAGE_SIZE ≤ Z.max (next_power_of_two (Z.max old n)) PAGE_SIZE) by lia.
  split; [done|]. unfold PAGE_SIZE in *. apply Z.div_str_pos. lia.
Qed.

(** A region that was taken from the page allocator while the loop ran: all
    its pages were free, and are used. *)
Definition taken (q q' : Q) (r : Z * Z) : Prop :=
  PAGE_SIZE ≤ r.2 ∧ ∀ i, 0 ≤ i < r.2 / PAGE_SIZE →
    ¬ pa_used q (r.1 + i * PAGE_SIZE) ∧ pa_used q' (r.1 + i * PAGE_SIZE).

Lemma alloc_loop_spec fuel layout g :
  (Z.to_nat (pa_available (palloc g)) < fuel)%nat →
  match alloc_loop fuel layout g with
  | (Ok p, g') => (∃ rs, ba_regions (balloc g') = ba_regions (balloc g) ++ rs ∧
        Forall (taken (palloc g) (palloc g')) rs) ∧
      (∀ x, pa_used (palloc g) x → pa_used (palloc g') x) ∧
      ∃ s n, (s, n) ∈ ba_regions (balloc g') ∧ s ≤ p ∧ p + l_size layout ≤ s + n
  | (Err _, _) => True
  | (Panic, _) => False
  end.
Proof.
  revert g. induction fuel as [|fuel IH]; intros g Hf; [lia|]. cbn [alloc_loop].
  pose proof (ba_alloc_no_panic layout (balloc g)) as Hnp.
  destruct (ba_alloc layout (balloc g)) as [[p|e|] b] eqn:Ha; simpl in Hnp; [| |done].
  { pose proof (ba_alloc_regions _ _ _ _ Ha) as Hr. apply ba_alloc_inside in Ha as (s & n & Hin & Hs).
    simpl. rewrite Hr. split_and!; [exists []; by rewrite app_nil_r|done|by exists s, n]. }
  pose proof (ba_alloc_regions _ _ _ _ Ha) as Hr.
  set (n := expand_size (ba_total b) (l_size layout)).
  destruct (expand_size_pages (ba_total b) (l_size layout)) as [Hn1 Hn2]. fold n in Hn1, Hn2.
  unfold alloc_pages, add_memory. monad.
  pose proof (pa_alloc_no_panic (n / PAGE_SIZE) PAGE_SIZE (palloc g)) as Hpp.
  destruct (pa_alloc (n / PAGE_SIZE) PAGE_SIZE (palloc g)) as [[heap|e'|] q] eqn:Hp; simpl in Hpp; [|done..].
  apply pa_alloc_ok in Hp as (Hav & _ & Hfree & Hused); [|done].
  pose proof (ba_add_no_panic heap n b) as Hbp. simpl.
  destruct (ba_add_memory heap n b) as [[[]|e'|] b'] eqn:Hb; simpl in Hbp; [|done..].
  apply ba_add_regions in Hb. pose proof (pa_available_range q).
  specialize (IH (mkGlobal b' q)). simpl in IH.
  destruct (alloc_loop fuel layout (mkGlobal b' q)) as [[p|e'|] g']; [|done|apply IH; lia].
  destruct IH as ((rs & Hrs & Hall) & Hmono & Hin); [lia|]. split_and!; [|naive_solver|done].
  exists ((heap, n) :: rs). split; [by rewrite Hrs, Hb, Hr, <-(assoc_L (++))|]. constructor.
  - split; [done|]. simpl. intros i Hi. split; [by apply Hfree|]. apply Hmono, Hused. right. by exists i.
  - eapply Forall_impl; [exact Hall|]. intros [s m] [Hm Ht]. split; [done|]. intros i Hi.
    destruct (Ht i Hi) as [Hno Hyes]. split; [|done]. intros ?. apply Hno, Hused. by left.
Qed.


End alloc.

(** ** Instances

    Pages handed out in turn up to a limit, and a heap that hands out the
    front of the first region that is large enough. *)

Record Bump := mkBump { bump_next : Z; bump_limit : Z }.
Definition bump_left (q : Bump) : Z := Z.max 0 (bump_limit q - Z.max 0 (bump_next q)).
#[global, program] Instance BumpPages : PageAllocator Bump := {|
  pa_new := mkBump 0 0;
  pa_init q s n := mkBump 1 (1 + n / PAGE_SIZE);
  pa_alloc n al := λ q,
    if decide (0 < n ∧ n ≤ bump_left q ∧ al = PAGE_SIZE)
    then (Ok (Z.max 0 (bump_next q) * PAGE_SIZE), mkBump (Z.max 0 (bump_next q) + n) (bump_limit q))
    else (Err AllocNoMemory, q);
  pa_dealloc a n q := q;
  pa_available q := bump_left q;
  pa_used q p := ∃ i, i < Z.max 0 (bump_next q) ∧ p = i * PAGE_SIZE;
|}.
Next Obligation. intros q. simpl. unfold bump_left. lia. Qed.
Next Obligation.
  intros n al q a q'. simpl. case_decide as Hc; [|done]. intros [= <- <-] _. destruct Hc as (Hn & Hl & ->).
  unfold bump_left, PAGE_SIZE in *. simpl. split_and!.
  - lia. - apply Z_mod_mult. - intros i Hi (j & Hj & ?). lia.
  - intros p. split.
    + intros (i & Hi & ->). destruct (decide (i < Z.max 0 (bump_next q))); [left; by exists i|right].
      exists (i - Z.max 0 (bump_next q)). lia.
    + intros [(i & ? & ->)|(i & ? & ->)]; [exists i; lia|]. exists (Z.max 0 (bump_next q) + i). lia.
Qed.
Next Obligation. intros n al q e q'. simpl. case_decide; [done|]. by intros [= _ <-]. Qed.
Next Obligation. intros n al q. simpl. by case_decide. Qed.

Definition first_fit (size : Z) (l : list (Z * Z)) : option (nat * (Z * Z)) :=
  list_find (λ r, size ≤ r.2) l.
#[global, program] Instance FirstFit : ByteAllocator (list (Z * Z)) := {|
  ba_new := [];
  ba_init b s n := [(s, n)];
  ba_alloc l := λ b, match first_fit (l_size l) b with
                     | Some (_, r) => (Ok r.1, b)
                     | None => (Err AllocNoMemory, b)
                     end;
  ba_dealloc p l b := b;
  ba_add_memory a n := λ b, (Ok (), b ++ [(a, n)]);
  ba_total b := 0;
  ba_regions b := b;
|}.
Next Obligation. done. Qed.
Next Obligation. intros l b r b'. simpl. by case_match; repeat case_match; intros [= <- <-]. Qed.
Next Obligation.
  intros l b a b'. simpl. unfold first_fit. destruct (list_find _ b) as [[i [s n]]|] eqn:Hf; [|done].
  intros [= <- <-]. apply list_find_Some in Hf as (Hi & Hle & _). simpl in Hle.
  exists s, n. split_and!; [by eapply list_elem_of_lookup_2|done|lia].
Qed.
Next Obligation. intros l b. simpl. by destruct (first_fit _ b) as [[]|]. Qed.
Next Obligation. by intros a n b b' [= <-]. Qed.
Next Obligation. done. Qed.

