(* ===== verification/Mmap.v ===== *)
(** * Memory calls ([src/api/src/imp/mm/mmap.rs] and [brk.rs])

    [mmap], [munmap], [mprotect] and [brk] on the address space of the calling
    process. The file behind a mapping enters through its size and its
    positioned read. *)

From S2P Require Import Prelude Abi Str MemBase AddrSpace UserPtr.

#[local] Open Scope Z_scope.

(** ** Flags *)

(** [MmapProt] and [MmapFlags]: the bits they know. *)
Definition PROT_READ : Z := 1.
Definition PROT_WRITE : Z := 2.
Definition PROT_EXEC : Z := 4.
Definition PROT_GROWSDOWN : Z := 16777216.
Definition PROT_GROWSUP : Z := 33554432.
Definition MmapProt_all : Z := 50331655.

Definition MAP_SHARED : Z := 1.
Definition MAP_PRIVATE : Z := 2.
Definition MAP_FIXED : Z := 16.
Definition MAP_ANONYMOUS : Z := 32.
Definition MAP_NORESERVE : Z := 16384.
Definition MAP_STACK : Z := 131072.
Definition MmapFlags_all : Z := 147507.

(** [bitflags]: [from_bits_truncate] drops unknown bits, [from_bits] refuses
    them. *)
Definition from_bits_truncate (all x : Z) : Z := Z.land x all.
Definition from_bits (all x : Z) : option Z := if Z.land x all =? x then Some x else None.

(** [impl From<MmapProt> for MappingFlags]. *)
Definition prot_to_mapping (p : Z) : Z :=
  let flags := USER in
  let flags := if contains p PROT_READ then Z.lor flags READ else flags in
  let flags := if contains p PROT_WRITE then Z.lor flags WRITE else flags in
  if contains p PROT_EXEC then Z.lor flags EXECUTE else flags.

(** The heap bounds of a process and the size the platform gives it. *)
Record Heap := mkHeap { heap_bottom : Z; heap_top : Z }.

Definition sys_brk (USER_HEAP_SIZE addr : Z) (h : Heap) : LinuxResult Z * Heap :=
  if negb (addr =? 0) && (heap_bottom h <=? addr)
     && (addr <=? as_usize (heap_bottom h + USER_HEAP_SIZE))
  then (Ok (as_isize addr), mkHeap (heap_bottom h) addr)
  else (Ok (as_isize (heap_top h)), h).

Section mmap.
Context {PT FA MS : Type} `{MA : !MemoryAddr} `{HPT : !PageTable PT} `{HFA : !FrameAlloc FA}
  `{HMS : !MemorySet MS} `{AxErrno}.
Abbreviation AddrSpace := (AddrSpace PT MS).
Abbreviation Machine := (Machine FA).
Abbreviation Ust := (st (AddrSpace * Machine) LinuxError).

(** An operation of the address space whose error is converted by [?]. *)
Definition on_aspace {T} (m : st (AddrSpace * Machine) AxError T) : Ust T :=
  st_map_err ax_to_linux m.

(** Where the mapping goes. *)
Definition mmap_place (start aligned_length map_flags : Z) : Ust Z :=
  if contains map_flags MAP_FIXED then
    if start =? 0 then st_err EINVAL
    else on_aspace (AddrSpace_unmap start aligned_length);; mret start
  else
    s ← st_get;
    let whole := mkRange (AddrSpace_base s.1) (AddrSpace_end s.1) in
    st_lift (ok_or (match find_free_area s.1 start aligned_length whole with
                    | Some a => Some a
                    | None => find_free_area s.1 (AddrSpace_base s.1) aligned_length whole
                    end) ENOMEM).

(** The file part: [file_size] is the outcome of [File::from_fd] and
    [get_attr], [read_at] the bytes read, at most as many as asked for. *)
Definition mmap_file (file_size : LinuxResult Z) (read_at : Z → nat → LinuxResult (list Z))
    (start_addr length offset : Z) : Ust () :=
  file_size ← st_lift file_size;
  if (offset <? 0) || (file_size <=? as_usize offset) then st_err EINVAL else
  let offset := as_usize offset in
  let length := Z.to_nat (Z.min length (file_size - offset)) in
  bytes ← st_lift (read_at offset length);
  let buf := bytes ++ replicate (length - List.length bytes) 0 in
  on_aspace (λ s, let '(r, m) := AddrSpace_write s.1 start_addr buf s.2 in (r, (s.1, m))).

Definition sys_mmap (file_size : LinuxResult Z) (read_at : Z → nat → LinuxResult (list Z))
    (addr length prot flags fd offset : Z) : Ust Z :=
  let permission_flags := from_bits_truncate MmapProt_all prot in
  let map_flags := from_bits_truncate MmapFlags_all flags in
  let start := align_down_4k addr in
  let end_ := align_up_4k (as_usize (addr + length)) in
  let aligned_length := as_usize (end_ - start) in
  start_addr ← mmap_place start aligned_length map_flags;
  let populate := if fd =? -1 then false else negb (contains map_flags MAP_ANONYMOUS) in
  on_aspace (AddrSpace_map_alloc start_addr aligned_length (prot_to_mapping permission_flags) populate);;
  (if populate : bool then mmap_file file_size read_at start_addr length offset else mret ());;
  mret (as_isize start_addr).

Definition sys_munmap (addr length : Z) : Ust Z :=
  let length := align_up_4k length in
  on_aspace (AddrSpace_unmap addr length);;
  mret 0.

Definition sys_mprotect (addr length prot : Z) : Ust Z :=
  match from_bits MmapProt_all prot with
  | None => st_err EINVAL
  | Some permission_flags =>
      if contains permission_flags (Z.lor PROT_GROWSDOWN PROT_GROWSUP) then st_err EINVAL else
      let length := align_up_4k length in
      on_aspace (AddrSpace_protect addr length (prot_to_mapping permission_flags));;
      mret 0
  end.

(** ** Mapping *)

Lemma AddrSpace_map_alloc_Ok start size flags pop s s' u :
  AddrSpace_map_alloc start size flags pop s = (Ok u, s') →
  va_range s'.1 = va_range s.1 ∧
  ∀ a, a ∈ ms_iter (areas s'.1) ↔ a = mkArea start size flags (Alloc pop) ∨ a ∈ ms_iter (areas s.1).
Proof.
  unfold AddrSpace_map_alloc, readS, on_areas, mbind, st_bind.
  destruct (validate_region s.1 start size); [|done..].
  destruct (ms_map _ _ _ _ _) as [[r ms] w] eqn:Hm. unfold res_bind.
  destruct r as [[[]|e|]|e|]; simpl; try done. intros [= <- <-]. simpl.
  apply ms_map_ok in Hm as (_ & Hi & _); [|done]. by split.
Qed.

(** The file part leaves the address space as it is; only bytes change. *)
Lemma mmap_file_space fsz rd start len off s : (mmap_file fsz rd start len off s).2.1 = s.1.
Proof.
  unfold mmap_file, on_aspace, st_map_err. monad.
  destruct fsz as [n|e|]; [|done..]. destruct (_ || _); [done|].
  destruct (rd _ _); [|done..]. by destruct (AddrSpace_write _ _ _ _).
Qed.

(** a mapping that succeeds is an area of the process, of the rounded
    length, with exactly the rights asked for, populated at once only for a
    file; the call returns its address. When it fails after the area was
    created, because the descriptor is bad or the offset lies outside the
    file, the area stays in the address space. *)
Theorem mmap_area (fsz : LinuxResult Z) (rd : Z → nat → LinuxResult (list Z))
    (addr length prot flags fd offset : Z) (start : Z) (s s1 s2 : AddrSpace * Machine) :
  let len := as_usize (align_up_4k (as_usize (addr + length)) - align_down_4k addr) in
  let pop := if fd =? -1 then false
             else negb (contains (from_bits_truncate MmapFlags_all flags) MAP_ANONYMOUS) in
  let area := mkArea start len (prot_to_mapping (from_bits_truncate MmapProt_all prot)) (Alloc pop) in
  mmap_place (align_down_4k addr) len (from_bits_truncate MmapFlags_all flags) s = (Ok start, s1) →
  AddrSpace_map_alloc start len (a_flags area) pop s1 = (Ok (), s2) →
  let '(r, s') := sys_mmap fsz rd addr length prot flags fd offset s in
  area ∈ ms_iter (areas s'.1) ∧
  (pop = false → r = Ok (as_isize start)) ∧
  (∀ e, pop = true → fsz = Err e → r = Err e).
Proof.
  intros len pop area Hplace Hmap. unfold sys_mmap, on_aspace, mbind, st_bind.
  fold len. rewrite Hplace. unfold st_map_err.
  change (a_flags area) with (prot_to_mapping (from_bits_truncate MmapProt_all prot)) in Hmap.
  fold pop. rewrite Hmap. simpl.
  assert (area ∈ ms_iter (areas s2.1)) as Hin.
  { apply AddrSpace_map_alloc_Ok in Hmap as [_ Hi]. apply Hi. by left. }
  destruct pop; [|by split_and!].
  pose proof (mmap_file_space fsz rd start length offset s2) as Hsp.
  destruct (mmap_file fsz rd start length offset s2) as [r s3] eqn:Hf. simpl in Hsp.
  assert (∀ e, fsz = Err e → r = Err e) as He.
  { intros e ->. unfold mmap_file in Hf. monad. by simplify_eq. }
  destruct r as [[]|e|]; simpl; rewrite Hsp; split_and!; try done;
    intros e' _ Hz; by specialize (He e' Hz); simplify_eq.
Qed.

(** [mprotect] looks for both grow flags at once, so a call with only one
    of them is not refused: the flag has no effect. *)
Theorem mprotect_ignores_one_grow_flag (addr length prot grow : Z) (s : AddrSpace * Machine) :
  0 ≤ prot < 8 → grow = PROT_GROWSDOWN ∨ grow = PROT_GROWSUP →
  sys_mprotect addr length (Z.lor prot grow) s = sys_mprotect addr length prot s.
Proof.
  intros Hp Hg. assert (prot = 0 ∨ prot = 1 ∨ prot = 2 ∨ prot = 3 ∨ prot = 4 ∨ prot = 5 ∨
    prot = 6 ∨ prot = 7) as Hc by lia.
  destruct Hg as [-> | ->]; destruct_or! Hc; subst prot; reflexivity.
Qed.

End mmap.

(** ** The heap *)

Definition heap_ok (size : Z) (h : Heap) : Prop :=
  0 ≤ heap_bottom h ∧ heap_bottom h + size < 2 ^ 63 ∧
  heap_bottom h ≤ heap_top h ≤ heap_bottom h + size.

(** [brk] keeps the top of the heap inside the heap. It moves the top
    exactly when the address lies in the heap, and returns the top either
    way. *)
Theorem brk_spec (size addr : Z) (h : Heap) :
  0 ≤ size → 0 < heap_bottom h → heap_ok size h →
  let '(r, h') := sys_brk size addr h in
  heap_ok size h' ∧ r = Ok (heap_top h') ∧ heap_bottom h' = heap_bottom h ∧
  heap_top h' = if decide (heap_bottom h ≤ addr ≤ heap_bottom h + size) then addr else heap_top h.
Proof.
  intros Hs Hb (H0 & Hlt & Ht). unfold sys_brk. ints.
  destruct (negb (addr =? 0) && (heap_bottom h <=? addr) && (addr <=? heap_bottom h + size)) eqn:Hc.
  - rewrite !andb_true_iff, negb_true_iff, Z.eqb_neq, !Z.leb_le in Hc.
    rewrite decide_True by lia. ints.
    split_and!; try done; unfold heap_ok; simpl; lia.
  - rewrite !andb_false_iff, negb_false_iff, Z.eqb_eq, !Z.leb_gt in Hc.
    rewrite decide_False by lia. ints. by split_and!.
Qed.

(** ** Witnesses *)

#[local] Existing Instance SampleErrno.

Definition mem_noarea : AddrSpace pt_list ms_list := mkAddrSpace (mkRange 0 65536) ms_empty [].

Lemma mmap_area_witness :
  (sys_mmap (Err EBADF) (λ _ _, Ok []) 4096 100 PROT_READ MAP_PRIVATE 7 0
     (mem_noarea, mem_machine)).1 = Err EBADF ∧
  mkArea 4096 4096 9 (Alloc true) ∈ ms_iter (areas (sys_mmap (Err EBADF) (λ _ _, Ok [])
     4096 100 PROT_READ MAP_PRIVATE 7 0 (mem_noarea, mem_machine)).2.1).
Proof.
  pose proof (mmap_area (Err EBADF) (λ _ _, Ok []) 4096 100 PROT_READ MAP_PRIVATE 7 0 4096
    (mem_noarea, mem_machine) (mem_noarea, mem_machine)
    (AddrSpace_map_alloc 4096 4096 9 true (mem_noarea, mem_machine)).2
    eq_refl eq_refl) as Hm.
  destruct (sys_mmap _ _ _ _ _ _ _ _ _) as [r s']. destruct Hm as (Hin & _ & Hr).
  split; [by apply Hr|exact Hin].
Defined.

Lemma mprotect_ignores_one_grow_flag_witness :
  sys_mprotect 4096 4096 (Z.lor PROT_READ PROT_GROWSDOWN) (mem_noarea, mem_machine)
    = sys_mprotect 4096 4096 PROT_READ (mem_noarea, mem_machine).
Proof.
  apply (mprotect_ignores_one_grow_flag 4096 4096 PROT_READ PROT_GROWSDOWN); [done|by left].
Defined.

Lemma brk_spec_witness :
  let '(r, h') := sys_brk 65536 4196 (mkHeap 4096 4096) in r = Ok (heap_top h') ∧ heap_top h' = 4196.
Proof.
  destruct (brk_spec 65536 4196 (mkHeap 4096 4096)) as (_ & Hr & _ & Ht); try done.
Defined.
