(* ===== verification/Tasks.v ===== *)
(** * Tasks, the run queue, wait queues and timers

    Model of [src/.arceos/modules/axtask/src]: the task states of [task.rs],
    the run queue of [run_queue.rs], the wait queues of [wait_queue.rs] and
    the timers of [timers.rs], on one CPU. Kernel code that runs with
    interrupts and preemption disabled is one step; a task that blocks goes
    on with the rest of its call when it is scheduled again. The counter of
    preemption guards and the reference counts of tasks are left out, and so
    is what only several CPUs need ([on_cpu], the choice of a run queue). *)

From S2P Require Import Prelude.

#[local] Open Scope Z_scope.

Inductive TaskState : Type := Running | Ready | Blocked | Exited.

#[global] Instance TaskState_eq_dec : EqDecision TaskState.
Proof. solve_decision. Defined.

(** [impl From<u8> for TaskState] and the casts to [u8]. *)
Definition TaskState_code (s : TaskState) : Z :=
  match s with Running => 1 | Ready => 2 | Blocked => 3 | Exited => 4 end.
Definition TaskState_from (z : Z) : res Empty_set TaskState :=
  if z =? 1 then Ok Running else if z =? 2 then Ok Ready
  else if z =? 3 then Ok Blocked else if z =? 4 then Ok Exited else Panic.

(** The fields of [TaskInner] that change; a task is named by its id. *)
Record Task := mkTask {
  t_state : TaskState;
  t_in_wait_queue : bool;
  t_ticket : Z;
  t_need_resched : bool;
  t_exit_code : Z;
}.

(** Wait queues: the one on which joiners of a task wait, the one of the
    garbage collector, the one on which a process waits for its children, and
    all others. *)
Inductive WqId : Type := WqJoin (t : Z) | WqGc | WqChild (n : Z) | WqUser (n : Z).

#[global] Instance WqId_eq_dec : EqDecision WqId.
Proof. solve_decision. Defined.

(** A [TaskWakeupEvent] with its deadline. *)
Record Timer := mkTimer { tm_deadline : Z; tm_ticket : Z; tm_task : Z }.

(** The scheduler of the [scheduler] crate: a collection of ready tasks. *)
Class Scheduler (R : Type) := {
  sched_tasks : R → list Z;
  sched_new : R;
  sched_add : R → Z → R;
  sched_put_prev : R → Z → bool → R;
  sched_pick : R → option (Z * R);
  sched_new_tasks : sched_tasks sched_new = [];
  sched_add_tasks r t : sched_tasks (sched_add r t) ≡ₚ t :: sched_tasks r;
  sched_put_prev_tasks r t p : sched_tasks (sched_put_prev r t p) ≡ₚ t :: sched_tasks r;
  sched_pick_Some r t r' : sched_pick r = Some (t, r') → sched_tasks r ≡ₚ t :: sched_tasks r';
  sched_pick_None r : sched_pick r = None → sched_tasks r = [];
}.

(** [timer_list::TimerList]: [expire_one] takes out one event whose deadline
    has passed. *)
Class TimerList (L : Type) := {
  tl_events : L → list Timer;
  tl_new : L;
  tl_set : L → Timer → L;
  tl_expire_one : L → Z → option (Timer * L);
  tl_new_events : tl_events tl_new = [];
  tl_set_events l e : tl_events (tl_set l e) ≡ₚ e :: tl_events l;
  tl_expire_Some l now e l' : tl_expire_one l now = Some (e, l') →
    tm_deadline e ≤ now ∧ tl_events l ≡ₚ e :: tl_events l';
  tl_expire_None l now : tl_expire_one l now = None → ∀ e, e ∈ tl_events l → now < tm_deadline e;
}.

Section tasks.
Context {R L : Type} `{HR : !Scheduler R} `{HL : !TimerList L}.

(** The first tasks of the CPU, in the order in which [run_queue::init]
    creates them. *)
Definition idle : Z := 1.
Definition init : Z := 2.
Definition gc : Z := 3.

(** The state of the CPU. [next_id] is the counter of task ids; [halted]
    records that the machine was stopped. *)
Record Cpu := mkCpu {
  tasks : Z → Task;
  next_id : Z;
  current : Z;
  scheduler : R;
  queues : WqId → list Z;
  timers : L;
  next_ticket : Z;
  exited_tasks : list Z;
  halted : bool;
}.

Definition set_tasks (f : Z → Task) (c : Cpu) : Cpu :=
  mkCpu f (next_id c) (current c) (scheduler c) (queues c) (timers c) (next_ticket c)
    (exited_tasks c) (halted c).
Definition set_next_id (n : Z) (c : Cpu) : Cpu :=
  mkCpu (tasks c) n (current c) (scheduler c) (queues c) (timers c) (next_ticket c)
    (exited_tasks c) (halted c).
Definition set_current (t : Z) (c : Cpu) : Cpu :=
  mkCpu (tasks c) (next_id c) t (scheduler c) (queues c) (timers c) (next_ticket c)
    (exited_tasks c) (halted c).
Definition set_scheduler (r : R) (c : Cpu) : Cpu :=
  mkCpu (tasks c) (next_id c) (current c) r (queues c) (timers c) (next_ticket c)
    (exited_tasks c) (halted c).
Definition set_queue (q : WqId) (l : list Z) (c : Cpu) : Cpu :=
  mkCpu (tasks c) (next_id c) (current c) (scheduler c)
    (λ q', if decide (q' = q) then l else queues c q') (timers c) (next_ticket c)
    (exited_tasks c) (halted c).
Definition set_timers (l : L) (c : Cpu) : Cpu :=
  mkCpu (tasks c) (next_id c) (current c) (scheduler c) (queues c) l (next_ticket c)
    (exited_tasks c) (halted c).
Definition set_next_ticket (n : Z) (c : Cpu) : Cpu :=
  mkCpu (tasks c) (next_id c) (current c) (scheduler c) (queues c) (timers c) n
    (exited_tasks c) (halted c).
Definition set_exited (l : list Z) (c : Cpu) : Cpu :=
  mkCpu (tasks c) (next_id c) (current c) (scheduler c) (queues c) (timers c) (next_ticket c)
    l (halted c).
Definition terminate (c : Cpu) : Cpu :=
  mkCpu (tasks c) (next_id c) (current c) (scheduler c) (queues c) (timers c) (next_ticket c)
    (exited_tasks c) true.
Definition upd_task (t : Z) (f : Task → Task) (c : Cpu) : Cpu :=
  set_tasks (λ t', if decide (t' = t) then f (tasks c t) else tasks c t') c.

(** No code here returns an error: it succeeds or an assertion fails. *)
Definition Cst : Type → Type := st Cpu Empty_set.

(** ** Task fields ([task.rs]) *)

Definition state (s : Cpu) (t : Z) : TaskState := t_state (tasks s t).
Definition set_state (t : Z) (x : TaskState) : Cpu → Cpu :=
  upd_task t (λ k, mkTask x (t_in_wait_queue k) (t_ticket k) (t_need_resched k) (t_exit_code k)).
(** [compare_exchange]. *)
Definition transition_state (t : Z) (a b : TaskState) (s : Cpu) : bool * Cpu :=
  if decide (state s t = a) then (true, set_state t b s) else (false, s).
Definition is_running (s : Cpu) (t : Z) : bool := bool_decide (state s t = Running).
Definition is_ready (s : Cpu) (t : Z) : bool := bool_decide (state s t = Ready).
Definition is_idle (t : Z) : bool := bool_decide (t = idle).
Definition is_init (t : Z) : bool := bool_decide (t = init).
Definition in_wait_queue (s : Cpu) (t : Z) : bool := t_in_wait_queue (tasks s t).
Definition set_in_wait_queue (t : Z) (b : bool) : Cpu → Cpu :=
  upd_task t (λ k, mkTask (t_state k) b (t_ticket k) (t_need_resched k) (t_exit_code k)).
Definition timer_ticket (s : Cpu) (t : Z) : Z := t_ticket (tasks s t).
Definition store_ticket (t x : Z) : Cpu → Cpu :=
  upd_task t (λ k, mkTask (t_state k) (t_in_wait_queue k) x (t_need_resched k) (t_exit_code k)).
Definition set_timer_ticket (t x : Z) : Cst () :=
  st_lift (rassert (negb (x =? 0)));; st_mod (store_ticket t x).
Definition timer_ticket_expired (t : Z) : Cpu → Cpu := store_ticket t 0.
Definition set_preempt_pending (t : Z) (b : bool) : Cpu → Cpu :=
  upd_task t (λ k, mkTask (t_state k) (t_in_wait_queue k) (t_ticket k) b (t_exit_code k)).
Definition set_exit_code (t x : Z) : Cpu → Cpu :=
  upd_task t (λ k, mkTask (t_state k) (t_in_wait_queue k) (t_ticket k) (t_need_resched k) x).

(** ** Run queue ([run_queue.rs]) *)

Definition put_task_with_state (t : Z) (current_state : TaskState) (preempt : bool) (s : Cpu) :
    bool * Cpu :=
  let '(ok, s) := transition_state t current_state Ready s in
  if ok && negb (is_idle t) then (true, set_scheduler (sched_put_prev (scheduler s) t preempt) s)
  else (false, s).

Definition switch_to (next : Z) (s : Cpu) : Cpu :=
  let s := set_preempt_pending next false s in
  let s := set_state next Running s in
  if decide (current s = next) then s else set_current next s.

Definition resched : Cst () := λ s,
  let '(next, s) := match sched_pick (scheduler s) with
                    | Some (t, r) => (t, set_scheduler r s)
                    | None => (idle, s)
                    end in
  if is_ready s next then (Ok (), switch_to next s) else (Panic, s).

Definition assert_running : Cst () := λ s,
  (if is_running s (current s) then Ok () else Panic, s).
Definition assert_not_idle : Cst () := λ s,
  (if is_idle (current s) then Panic else Ok (), s).

(** [TaskInner::new] with [into_arc]: a ready task with a fresh id. *)
Definition new_task : Cst Z := λ s,
  let t := next_id s in
  (Ok t, set_next_id (as_u64 (t + 1))
    (set_tasks (λ t', if decide (t' = t) then mkTask Ready false 0 false 0 else tasks s t') s)).

Definition add_task (t : Z) : Cst () := λ s,
  if is_ready s t then (Ok (), set_scheduler (sched_add (scheduler s) t) s) else (Panic, s).

(** [axtask::spawn_task]. *)
Definition spawn_task : Cst () := t ← new_task; add_task t.

Definition unblock_task (t : Z) (resched : bool) (s : Cpu) : Cpu :=
  let '(ok, s) := put_task_with_state t Blocked resched s in
  if ok && resched then set_preempt_pending (current s) true s else s.

Definition yield_current : Cst () :=
  assert_running;;
  st_mod (λ s, (put_task_with_state (current s) Running false s).2);;
  resched.

(** [can_preempt] is what the counter of preemption guards says. *)
Definition preempt_resched (can_preempt : bool) : Cst () :=
  assert_running;;
  if can_preempt then
    st_mod (λ s, (put_task_with_state (current s) Running true s).2);;
    resched
  else st_mod (λ s, set_preempt_pending (current s) true s).

Definition blocked_resched (q : WqId) : Cst () :=
  assert_running;; assert_not_idle;;
  st_mod (λ s, set_state (current s) Blocked s);;
  st_mod (λ s, set_in_wait_queue (current s) true s);;
  st_mod (λ s, set_queue q (queues s q ++ [current s]) s);;
  resched.

(** ** Timers ([timers.rs]) *)

Definition set_alarm_wakeup (deadline t : Z) : Cst () :=
  s ← st_get;
  let ticket_id := next_ticket s in
  st_mod (set_next_ticket (as_u64 (ticket_id + 1)));;
  set_timer_ticket t ticket_id;;
  st_mod (λ s, set_timers (tl_set (timers s) (mkTimer deadline ticket_id t)) s).

Definition timer_callback (e : Timer) (s : Cpu) : Cpu :=
  if negb (timer_ticket s (tm_task e) =? tm_ticket e) then s else unblock_task (tm_task e) true s.

(** [check_events] at one moment; an event it takes out is gone, so the
    number of events bounds the loop. *)
Fixpoint check_events_rec (fuel : nat) (now : Z) (s : Cpu) : Cpu :=
  match fuel with
  | O => s
  | S fuel' =>
      match tl_expire_one (timers s) now with
      | Some (e, l) => check_events_rec fuel' now (timer_callback e (set_timers l s))
      | None => s
      end
  end.
Definition check_events (now : Z) (s : Cpu) : Cpu :=
  check_events_rec (length (tl_events (timers s))) now s.

Definition sleep_until (now deadline : Z) : Cst () :=
  assert_running;; assert_not_idle;;
  if now <? deadline then
    s ← st_get;
    set_alarm_wakeup deadline (current s);;
    st_mod (λ s, set_state (current s) Blocked s);;
    resched
  else mret ().

(** ** Wait queues ([wait_queue.rs]) *)

(** [cancel_events], run by the task that waited. *)
Definition cancel_events (q : WqId) (from_timer_list : bool) (s : Cpu) : Cpu :=
  let curr := current s in
  let s := if in_wait_queue s curr
           then set_in_wait_queue curr false (set_queue q (filter (λ t, t ≠ curr) (queues s q)) s)
           else s in
  if from_timer_list then timer_ticket_expired curr s else s.

(** [wait]: before and after the task was off the CPU. *)
Definition wait_enter (q : WqId) : Cst () := blocked_resched q.
Definition wait_resume (q : WqId) : Cst () := st_mod (cancel_events q false).

(** One turn of the loop of [wait_until]: [true] when the call returns. *)
Definition wait_until_pass (q : WqId) (condition : Cpu → bool) : Cst bool :=
  s ← st_get;
  if condition s then st_mod (cancel_events q false);; mret true
  else blocked_resched q;; mret false.

Definition wait_timeout_enter (q : WqId) (deadline : Z) : Cst () :=
  s ← st_get;
  set_alarm_wakeup deadline (current s);;
  blocked_resched q.
(** The rest of [wait_timeout]: still in the queue means timed out. *)
Definition wait_timeout_resume (q : WqId) : Cst bool :=
  s ← st_get;
  let timeout := in_wait_queue s (current s) in
  st_mod (cancel_events q true);;
  mret timeout.

(** One turn of the loop of [wait_timeout_until]. *)
Definition wait_timeout_until_pass (q : WqId) (deadline now : Z) (condition : Cpu → bool) :
    Cst (option bool) :=
  if deadline <=? now then st_mod (cancel_events q true);; mret (Some true) else
  s ← st_get;
  if condition s then st_mod (cancel_events q true);; mret (Some false)
  else blocked_resched q;; mret None.

Definition unblock_one_task (t : Z) (resched : bool) (s : Cpu) : Cpu :=
  unblock_task t resched (set_in_wait_queue t false s).

Definition notify_one (q : WqId) (resched : bool) (s : Cpu) : bool * Cpu :=
  match queues s q with
  | t :: l => (true, unblock_one_task t resched (set_queue q l s))
  | [] => (false, s)
  end.

(** [notify_all]: each turn shortens the queue. *)
Fixpoint notify_all_rec (fuel : nat) (q : WqId) (resched : bool) (s : Cpu) : Cpu :=
  match fuel with
  | O => s
  | S fuel' =>
      let '(more, s) := notify_one q resched s in
      if more then notify_all_rec fuel' q resched s else s
  end.
Definition notify_all (q : WqId) (resched : bool) (s : Cpu) : Cpu :=
  notify_all_rec (S (length (queues s q))) q resched s.

Definition notify_task (q : WqId) (resched : bool) (t : Z) (s : Cpu) : bool * Cpu :=
  match list_find (λ x, x = t) (queues s q) with
  | Some (i, _) => (true, unblock_one_task t resched (set_queue q (delete i (queues s q)) s))
  | None => (false, s)
  end.

Definition requeue (q : WqId) (count : nat) (target : WqId) (s : Cpu) : nat * Cpu :=
  let count := (count `min` length (queues s q))%nat in
  let moved := take count (queues s q) in
  let s := set_queue q (drop count (queues s q)) s in
  (count, match moved with [] => s | _ => set_queue target (queues s target ++ moved) s end).

(** ** Exit and join *)

Definition notify_exit (t exit_code : Z) (s : Cpu) : Cpu :=
  notify_all (WqJoin t) false (set_exit_code t exit_code s).

(** The exit of the initial task stops the machine. *)
Definition exit_current (exit_code : Z) : Cst () :=
  assert_running;; assert_not_idle;;
  s ← st_get;
  if is_init (current s) then st_mod (λ s, terminate (set_exited [] s)) else
  st_mod (λ s, set_state (current s) Exited s);;
  st_mod (λ s, notify_exit (current s) exit_code s);;
  st_mod (λ s, set_exited (exited_tasks s ++ [current s]) s);;
  st_mod (λ s, (notify_one WqGc false s).2);;
  resched.

(** One turn of the loop of [join]. *)
Definition join_pass (t : Z) : Cst (option Z) :=
  ended ← wait_until_pass (WqJoin t) (λ s, bool_decide (state s t = Exited));
  s ← st_get;
  mret (if ended : bool then Some (t_exit_code (tasks s t)) else None).

(** ** Start-up *)

(** An id that no task has yet; nothing looks at it. *)
Definition no_task : Task := mkTask Exited false 0 false 0.

(** [init_scheduler]: [run_queue::init] and [timers::init]. *)
Definition init_scheduler : Cpu :=
  mkCpu (λ t, if decide (t = idle) then mkTask Ready false 0 false 0
              else if decide (t = init) then mkTask Running false 0 false 0
              else if decide (t = gc) then mkTask Ready false 0 false 0 else no_task)
    4 init (sched_add sched_new gc) (λ _, []) tl_new 1 [] false.

(** ** The whole CPU as a state machine

    Everything the running task may do next, and the timer interrupt. The
    two halves of a call that blocks are separate operations, since other
    tasks run in between. *)
Inductive Op : Type :=
| OYield | OPreempt (can_preempt : bool) | OSpawn | OExit (code : Z)
| OSleep (now deadline : Z)
| OWait (q : WqId) | OWaitTimeout (q : WqId) (deadline : Z) | OAlarm (deadline : Z)
| OCancel (q : WqId) (from_timer_list : bool)
| ONotifyOne (q : WqId) (resched : bool) | ONotifyAll (q : WqId) (resched : bool)
| ONotifyTask (q : WqId) (resched : bool) (t : Z) | ORequeue (q : WqId) (count : nat) (target : WqId)
| OTimer (now : Z).

Definition exec (o : Op) : Cst () :=
  match o with
  | OYield => yield_current
  | OPreempt b => preempt_resched b
  | OSpawn => spawn_task
  | OExit code => exit_current code
  | OSleep now deadline => sleep_until now deadline
  | OWait q => wait_enter q
  | OWaitTimeout q deadline => wait_timeout_enter q deadline
  | OAlarm deadline => s ← st_get; set_alarm_wakeup deadline (current s)
  | OCancel q b => st_mod (cancel_events q b)
  | ONotifyOne q r => st_mod (λ s, (notify_one q r s).2)
  | ONotifyAll q r => st_mod (notify_all q r)
  | ONotifyTask q r t => st_mod (λ s, (notify_task q r t s).2)
  | ORequeue q n target => st_mod (λ s, (requeue q n target s).2)
  | OTimer now => st_mod (check_events now)
  end.

(** What the code relies on: the machine runs, the idle task does not block
    or exit, and the 64-bit counters do not run over. *)
Definition legal (o : Op) (c : Cpu) : Prop :=
  halted c = false ∧
  match o with
  | OExit _ | OWait _ => current c ≠ idle
  | OSleep _ _ | OWaitTimeout _ _ | OAlarm _ => current c ≠ idle ∧ next_ticket c ≠ 0
  | OSpawn => next_id c < 2 ^ 64 - 1
  | _ => True
  end.

Definition step (c c' : Cpu) : Prop := ∃ o, legal o c ∧ exec o c = (Ok (), c').

(** ** The invariant *)

(** Something is left that will wake a blocked task: an entry of a wait
    queue, or a timer with the task's ticket. *)
Definition wakeable (c : Cpu) (t : Z) : Prop :=
  (∃ q, t ∈ queues c q) ∨
  (∃ e, e ∈ tl_events (timers c) ∧ tm_task e = t ∧ tm_ticket e = timer_ticket c t).

(** [x] is a task in the middle of being woken. *)
Record core_but (x : option Z) (c : Cpu) : Prop := mkCore {
  core_nodup : NoDup (sched_tasks (scheduler c));
  core_ready t : t ∈ sched_tasks (scheduler c) ↔ state c t = Ready ∧ t ≠ idle;
  core_blocked t : state c t = Blocked → Some t ≠ x → wakeable c t;
  core_idle : state c idle = Ready ∨ state c idle = Running;
  core_fresh : 4 ≤ next_id c ∧ ∀ t, next_id c ≤ t → state c t = Exited;
}.
Abbreviation core := (core_but None).

(** Between giving up the CPU and the choice of the next task. *)
Definition off_cpu (c : Cpu) : Prop := core c ∧ ∀ t, state c t ≠ Running.
(** A task runs; when the machine was halted nothing runs any more. *)
Definition on_cpu (c : Cpu) : Prop := core c ∧ ∀ t, state c t = Running ↔ t = current c.

Lemma state_upd f t t' c :
  state (upd_task t f c) t' = if decide (t' = t) then t_state (f (tasks c t)) else state c t'.
Proof. unfold state, upd_task. simpl. by case_decide. Qed.
Lemma state_set t x t' c : state (set_state t x c) t' = if decide (t' = t) then x else state c t'.
Proof. apply state_upd. Qed.
Lemma ticket_upd f t t' c :
  timer_ticket (upd_task t f c) t'
  = if decide (t' = t) then t_ticket (f (tasks c t)) else timer_ticket c t'.
Proof. unfold timer_ticket, upd_task. simpl. by case_decide. Qed.

Lemma state_sched r t c : state (set_scheduler r c) t = state c t.
Proof. done. Qed.

(** An update that changes no state keeps the invariant if blocked tasks
    stay wakeable. *)
Lemma core_same x y c c' :
  core_but x c → (∀ t, state c' t = state c t) → scheduler c' = scheduler c →
  next_id c' = next_id c →
  (∀ t, state c t = Blocked → Some t ≠ y → Some t ≠ x ∧ (wakeable c t → wakeable c' t)) →
  core_but y c'.
Proof.
  intros [Hnd Hr Hb Hi Hf] Hst Hs Hid Hw.
  split; rewrite ?Hs, ?Hid; try setoid_rewrite Hst; naive_solver.
Qed.

Lemma wakeable_same c c' t :
  queues c' = queues c → timers c' = timers c → timer_ticket c' t = timer_ticket c t →
  wakeable c t → wakeable c' t.
Proof. unfold wakeable. by intros -> -> ->. Qed.

(** A wake-up: some blocked tasks become ready, no other state changes. *)
Definition woke (c c' : Cpu) : Prop :=
  current c' = current c ∧ halted c' = halted c ∧ next_id c' = next_id c ∧
  ∀ t, state c' t = state c t ∨ (state c t = Blocked ∧ state c' t = Ready).

Lemma woke_refl c : woke c c.
Proof. by split_and!; auto. Qed.
Lemma woke_trans a b c : woke a b → woke b c → woke a c.
Proof.
  intros (H1 & H2 & H3 & Hab) (H4 & H5 & H6 & Hbc). split_and!; [congruence..|].
  intros t. destruct (Hab t) as [?|[??]], (Hbc t) as [?|[??]]; intuition congruence.
Qed.
Lemma woke_running c c' t : woke c c' → state c' t = Running ↔ state c t = Running.
Proof. intros (_ & _ & _ & H). destruct (H t) as [->|[-> ->]]; [done|split; done]. Qed.

Lemma unblock_task_spec t r c :
  core_but (Some t) c →
  let c' := unblock_task t r c in
  core c' ∧ woke c c' ∧ queues c' = queues c ∧ timers c' = timers c ∧
  (∀ t', timer_ticket c' t' = timer_ticket c t') ∧
  state c' t = (if decide (state c t = Blocked) then Ready else state c t) ∧
  (∀ t', t' ≠ t → state c' t' = state c t').
Proof.
  intros Hc. pose proof Hc as [Hnd Hr Hb Hi Hf].
  unfold unblock_task, put_task_with_state, transition_state.
  destruct (decide (state c t = Blocked)) as [Ht|Ht].
  2:{ simpl. split_and!; try done; [|apply woke_refl].
      eapply core_same; [exact Hc|done..|]. intros t' Ht' _. split; [congruence|done]. }
  assert (t ≠ idle) as Hne by (intros ->; intuition congruence).
  unfold is_idle. rewrite bool_decide_false by done. cbn [andb negb].
  set (c1 := set_scheduler _ _).
  assert (∀ t', state c1 t' = if decide (t' = t) then Ready else state c t') as Hst.
  { intros t'. unfold c1. apply (state_set t Ready t' c). }
  assert (∀ t', timer_ticket c1 t' = timer_ticket c t') as Htk.
  { intros t'. unfold c1, set_scheduler, timer_ticket. simpl. by case_decide; subst. }
  assert (core c1) as Hc1.
  { assert (t ∉ sched_tasks (scheduler c)) as Hnin.
    { rewrite Hr, Ht. by intros [? _]. }
    split; simpl.
    - rewrite sched_put_prev_tasks. by constructor.
    - intros t'. rewrite sched_put_prev_tasks, elem_of_cons, Hst, Hr.
      destruct (decide (t' = t)) as [->|]; naive_solver.
    - intros t'. rewrite Hst. case_decide; [done|]. intros Hbl _.
      eapply wakeable_same, Hb; naive_solver.
    - rewrite Hst, decide_False by done. done.
    - split; [apply Hf|]. intros t' Hle. rewrite Hst. case_decide; [|by apply Hf].
      subst. destruct Hf as [_ Hf]. specialize (Hf _ Hle). congruence. }
  assert (woke c c1) as Hw.
  { split_and!; try done. intros t'. rewrite Hst. case_decide; subst; auto. }
  destruct r; cbn [andb].
  - set (c2 := set_preempt_pending _ true c1).
    assert (∀ t', state c2 t' = state c1 t') as Hst2.
    { intros t'. unfold c2, set_preempt_pending. rewrite state_upd. by case_decide; subst. }
    assert (∀ t', timer_ticket c2 t' = timer_ticket c1 t') as Htk2.
    { intros t'. unfold c2, set_preempt_pending. rewrite ticket_upd. by case_decide; subst. }
    split_and!; try done.
    + eapply core_same; [exact Hc1|done..|]. intros t' _ _. split; [done|].
      by apply wakeable_same.
    + split_and!; try done. intros t'. rewrite Hst2. apply Hw.
    + intros t'. by rewrite Htk2.
    + by rewrite Hst2, Hst, decide_True.
    + intros t' Hn. by rewrite Hst2, Hst, decide_False.
  - split_and!; try done; [by rewrite Hst, decide_True|]. intros t' Hn. by rewrite Hst, decide_False.
Qed.

Lemma resched_spec c :
  off_cpu c → ∃ c', resched c = (Ok (), c') ∧ on_cpu c' ∧ halted c' = halted c.
Proof.
  intros [[Hnd Hr Hb Hi Hf] Hno]. unfold resched.
  set (pick := match sched_pick (scheduler c) with Some (t, r) => (t, set_scheduler r c)
               | None => (idle, c) end).
  assert (state c pick.1 = Ready ∧ (∃ r, pick.2 = set_scheduler r c ∧ NoDup (sched_tasks r) ∧
    ∀ t, t ∈ sched_tasks r ↔ (state c t = Ready ∧ t ≠ idle) ∧ t ≠ pick.1)) as (Hrd & r & Hp2 & Hnd' & Hr').
  { unfold pick. destruct (sched_pick (scheduler c)) as [[t r]|] eqn:Hp; cbn [fst snd].
    - apply sched_pick_Some in Hp. rewrite Hp in Hnd. apply NoDup_cons in Hnd as [Hnin Hnd].
      assert (t ∈ sched_tasks (scheduler c)) as Ht by (rewrite Hp; set_solver).
      apply Hr in Ht as [Ht Hne]. split; [done|]. exists r. split_and!; [done..|].
      intros t'. rewrite <- Hr, Hp. set_unfold. naive_solver.
    - apply sched_pick_None in Hp. split; [destruct Hi as [?|?]; [done|by destruct (Hno idle)]|].
      exists (scheduler c). split_and!; [by destruct c|done|].
      intros t'. rewrite Hr. rewrite Hp in Hr. set_unfold. naive_solver. }
  destruct pick as [next c1]. cbn [fst snd] in *. subst c1.
  unfold is_ready. rewrite bool_decide_true by exact Hrd. eexists. split; [done|].
  set (c1 := set_scheduler r c). set (c2 := switch_to next c1).
  assert (∀ t, state c2 t = if decide (t = next) then Running else state c t) as Hst.
  { intros t. unfold c2, switch_to. destruct (decide _); [|unfold set_current]; simpl;
      unfold state; simpl; by repeat case_decide. }
  assert (∀ t, timer_ticket c2 t = timer_ticket c t) as Htk.
  { intros t. unfold c2, switch_to. destruct (decide _); unfold timer_ticket; simpl;
      repeat case_decide; subst; done. }
  assert (queues c2 = queues c ∧ timers c2 = timers c ∧ next_id c2 = next_id c ∧ current c2 = next ∧
    scheduler c2 = r ∧ halted c2 = halted c) as (Hq & Htm & Hid & Hcur & Hsc & Hh).
  { unfold c2, switch_to. destruct (decide _) as [He|]; simpl in *; by split_and!. }
  split; [|done]. split; [split|]; rewrite ?Hid, ?Hsc, ?Hcur.
  - done.
  - intros t. rewrite Hr', Hst. case_decide; naive_solver.
  - intros t. rewrite Hst. case_decide; [done|]. intros Hbl _. eapply wakeable_same, Hb; try done.
  - rewrite Hst. case_decide; auto.
  - split; [apply Hf|]. intros t Hle. rewrite Hst. case_decide; [|by apply Hf].
    destruct Hf as [_ Hf]. specialize (Hf _ Hle). congruence.
  - intros t. rewrite Hst. case_decide; [done|]. split; [by intros ?%Hno|done].
Qed.

(** The running task goes back to the scheduler, unless it is the idle task. *)
Lemma put_running_spec p c :
  on_cpu c →
  off_cpu (put_task_with_state (current c) Running p c).2 ∧
  halted (put_task_with_state (current c) Running p c).2 = halted c.
Proof.
  intros [[Hnd Hr Hb Hi Hf] Hrun]. unfold put_task_with_state, transition_state.
  pose proof (proj2 (Hrun (current c)) eq_refl) as Hcur. rewrite decide_True by done. cbn [andb].
  assert (∀ t, state (set_state (current c) Ready c) t
          = if decide (t = current c) then Ready else state c t) as Hst.
  { intros t. apply (state_set (current c) Ready t c). }
  assert (∀ t, timer_ticket (set_state (current c) Ready c) t = timer_ticket c t) as Htk.
  { intros t. unfold set_state. rewrite ticket_upd. by case_decide; subst. }
  assert (∀ t, state c t = Blocked → wakeable (set_state (current c) Ready c) t) as Hw.
  { intros t Ht. eapply wakeable_same, Hb; done. }
  assert (∀ t, next_id c ≤ t → state (set_state (current c) Ready c) t = Exited) as Hf'.
  { intros t Ht. destruct Hf as [_ Hf]. specialize (Hf t Ht). rewrite Hst.
    case_decide; congruence. }
  unfold is_idle. destruct (decide (current c = idle)) as [He|He].
  - rewrite bool_decide_true by done. cbn [negb snd]. split; [|done]. split; [split|]; simpl.
    + done.
    + intros t. rewrite Hst, Hr. case_decide; subst; naive_solver.
    + intros t. rewrite Hst. case_decide; [done|]. auto.
    + rewrite Hst, decide_True by done. by left.
    + by split; [apply Hf|].
    + intros t. rewrite Hst. case_decide; [done|]. by rewrite Hrun.
  - rewrite bool_decide_false by done. cbn [negb snd]. split; [|done]. split; [split|]; simpl.
    + rewrite sched_put_prev_tasks. constructor; [|done]. rewrite Hr. rewrite Hcur. by intros [? _].
    + intros t. rewrite sched_put_prev_tasks, elem_of_cons, Hr.
      rewrite state_sched, Hst.
      case_decide; subst; naive_solver.
    + intros t. rewrite state_sched, Hst. case_decide; [done|]. intros Ht _. by apply Hw.
    + rewrite state_sched, Hst. case_decide; auto.
    + by split; [apply Hf|].
    + intros t. rewrite state_sched, Hst. case_decide; [done|]. by rewrite Hrun.
Qed.

(** Taking a task out of a queue and waking it. *)
Lemma unblock_one_spec q l t r c :
  core c → (∀ t', t' ≠ t → t' ∈ queues c q → t' ∈ l) →
  let c' := unblock_one_task t r (set_queue q l c) in
  core c' ∧ woke c c' ∧ queues c' q = l ∧ (∀ q', q' ≠ q → queues c' q' = queues c q') ∧
  state c' t = (if decide (state c t = Blocked) then Ready else state c t) ∧
  (∀ t', t' ≠ t → state c' t' = state c t').
Proof.
  intros Hc Hl. unfold unblock_one_task. set (c1 := set_in_wait_queue t false (set_queue q l c)).
  assert (∀ t', state c1 t' = state c t') as Hst.
  { intros t'. unfold c1, set_in_wait_queue. rewrite state_upd. by case_decide; subst. }
  assert (∀ t', timer_ticket c1 t' = timer_ticket c t') as Htk.
  { intros t'. unfold c1, set_in_wait_queue. rewrite ticket_upd. by case_decide; subst. }
  assert (core_but (Some t) c1) as Hc1.
  { eapply core_same; [exact Hc|done..|]. intros t' _ Hne. split; [done|].
    intros [[q' Hq']|(e & He & Htm & Htt)]; [left|right; exists e; by rewrite Htk].
    exists q'. unfold c1. simpl. case_decide; subst; [|done]. apply Hl; congruence. }
  destruct (unblock_task_spec t r c1 Hc1) as (? & Hw & Hq & _ & _ & Ht & Ho).
  rewrite Hst in Ht. split; [done|]. split.
  { destruct Hw as (?&?&?&Hw). split_and!; [done..|]. intros t'. rewrite <- Hst. apply Hw. }
  split_and!; [|..|done|].
  - rewrite Hq. unfold c1. simpl. by rewrite decide_True.
  - intros q' Hn. rewrite Hq. unfold c1. simpl. by rewrite decide_False.
  - intros t' Hn. rewrite Ho by done. apply Hst.
Qed.

Lemma notify_one_inv q r c :
  core c → core (notify_one q r c).2 ∧ woke c (notify_one q r c).2 ∧
  queues (notify_one q r c).2 q = tail (queues c q).
Proof.
  intros Hc. unfold notify_one. destruct (queues c q) as [|t l] eqn:Hq; simpl.
  { split_and!; [done|apply woke_refl|done]. }
  destruct (unblock_one_spec q l t r c Hc) as (? & ? & ? & _); [rewrite Hq; set_solver|done].
Qed.

(** The loop of [notify_all] ends, with the queue empty. *)
Lemma notify_all_rec_inv n q r c :
  core c → (length (queues c q) < n)%nat →
  core (notify_all_rec n q r c) ∧ woke c (notify_all_rec n q r c) ∧
  queues (notify_all_rec n q r c) q = [].
Proof.
  revert c. induction n as [|n IH]; intros c Hc Hn; [lia|]. cbn [notify_all_rec].
  destruct (notify_one_inv q r c Hc) as (Hc1 & Hw1 & Hq1). unfold notify_one in *.
  destruct (queues c q) as [|t l] eqn:Hq; cbn [snd] in *; [by split_and!|].
  destruct (IH _ Hc1) as (? & ? & ?); [rewrite Hq1; simpl in *; lia|].
  split_and!; [done|by eapply woke_trans|done].
Qed.

Lemma notify_all_inv q r c :
  core c → core (notify_all q r c) ∧ woke c (notify_all q r c) ∧ queues (notify_all q r c) q = [].
Proof. intros Hc. apply notify_all_rec_inv; [done|lia]. Qed.

(** Every task that slept in the queue is ready. *)
Lemma notify_all_rec_wakes n q r c t :
  core c → (length (queues c q) < n)%nat → t ∈ queues c q → state c t = Blocked →
  state (notify_all_rec n q r c) t = Ready.
Proof.
  revert c. induction n as [|n IH]; intros c Hc Hn Ht Hb; [lia|]. cbn [notify_all_rec].
  unfold notify_one. destruct (queues c q) as [|t0 l] eqn:Hq; [set_solver|]. simpl in Hn.
  destruct (unblock_one_spec q l t0 r c Hc) as (Hc1 & _ & Hq1 & _ & Hs0 & Hso); [rewrite Hq; set_solver|].
  destruct (decide (t = t0)) as [->|Hne].
  - destruct (notify_all_rec_inv n q r _ Hc1) as (_ & Hw & _); [rewrite Hq1; lia|].
    rewrite decide_True in Hs0 by done. destruct Hw as (_ & _ & _ & Hw).
    destruct (Hw t0) as [->|[? _]]; [done|congruence].
  - apply IH; [done|rewrite Hq1; lia|rewrite Hq1; set_solver|by rewrite Hso].
Qed.

Lemma notify_task_inv q r t c :
  core c → core (notify_task q r t c).2 ∧ woke c (notify_task q r t c).2.
Proof.
  intros Hc. unfold notify_task. destruct (list_find _ (queues c q)) as [[i x]|] eqn:Hf; simpl.
  2:{ split; [done|apply woke_refl]. }
  apply list_find_Some in Hf as (Hi & -> & _).
  destruct (unblock_one_spec q (delete i (queues c q)) t r c Hc) as (? & ? & _); [|done].
  intros t' Hne Hin. rewrite (delete_take_drop _ i).
  rewrite <- (take_drop_middle _ _ _ Hi) in Hin. set_solver.
Qed.

Lemma requeue_inv q n target c :
  core c → core (requeue q n target c).2 ∧ woke c (requeue q n target c).2.
Proof.
  intros Hc. unfold requeue. set (k := (n `min` length (queues c q))%nat). cbn [snd].
  set (c1 := set_queue q (drop k (queues c q)) c).
  set (c2 := match take k (queues c q) with [] => c1 | _ => _ end).
  assert (∀ t, state c2 t = state c t) as Hst by (intros t; unfold c2; by destruct (take _ _)).
  split.
  2:{ unfold c2. destruct (take _ _); split_and!; try done; auto. }
  eapply core_same; [exact Hc|done|unfold c2; by destruct (take _ _)..|].
  intros t _ _. split; [done|]. intros [[q' Hq']|He].
  2:{ right. unfold c2. by destruct (take _ _). }
  left. destruct (decide (q' = q)) as [->|Hne].
  - rewrite <- (take_drop k (queues c q)), elem_of_app in Hq'. unfold c2.
    destruct (take k (queues c q)) as [|y l] eqn:Htk; destruct Hq' as [Hin|Hin]; [set_solver| | |].
    + exists q. unfold c1. simpl. by rewrite decide_True.
    + exists target. simpl. rewrite decide_True by done. set_solver.
    + exists q. simpl. case_decide as Ht; [|by rewrite decide_True].
      subst target. rewrite decide_True by done. set_solver.
  - exists q'. unfold c2. destruct (take _ _); simpl; [by rewrite decide_False|].
    case_decide; [|by rewrite decide_False]. subst. rewrite decide_False by done. set_solver.
Qed.

(** The clean-up of a running task concerns no blocked task. *)
Lemma cancel_events_inv q b c :
  on_cpu c → core (cancel_events q b c) ∧ woke c (cancel_events q b c).
Proof.
  intros [Hc Hrun]. set (c' := cancel_events q b c).
  assert (∀ t, state c' t = state c t) as Hst.
  { intros t. unfold c', cancel_events, state. destruct (in_wait_queue c _), b; simpl;
      repeat (case_decide; simpl); congruence. }
  assert (∀ t, t ≠ current c → timer_ticket c' t = timer_ticket c t) as Htk.
  { intros t Hne. unfold c', cancel_events, timer_ticket. destruct (in_wait_queue c _), b; simpl;
      repeat (case_decide; simpl); congruence. }
  assert (∀ q' t, t ≠ current c → t ∈ queues c q' → t ∈ queues c' q') as Hq.
  { intros q' t Hne Hin. unfold c', cancel_events. destruct (in_wait_queue c _), b; simpl; try done.
    all: case_decide; [subst; by apply list_elem_of_filter|done]. }
  assert (current c' = current c ∧ scheduler c' = scheduler c ∧ next_id c' = next_id c ∧
    halted c' = halted c ∧ timers c' = timers c) as (? & Hsc & Hid & ? & Htm).
  { unfold c', cancel_events. by destruct (in_wait_queue c _), b. }
  split; [|split_and!; auto].
  eapply core_same; [exact Hc|done..|]. intros t Hbl _. split; [done|].
  assert (t ≠ current c) as Hne by (intros Ht%Hrun; congruence).
  intros [[q' Hq']|(e & He & Ht & Htt)]; [left; eauto|]. right. exists e. by rewrite Htm, Htk.
Qed.

Lemma on_cpu_woke c c' : on_cpu c → core c' → woke c c' → on_cpu c'.
Proof.
  intros [_ Hrun] Hc' Hw. split; [done|]. intros t. rewrite (woke_running c c') by done.
  rewrite Hrun. destruct Hw as (-> & _). done.
Qed.
Lemma off_cpu_woke c c' : off_cpu c → core c' → woke c c' → off_cpu c'.
Proof. intros [_ Hno] Hc' Hw. split; [done|]. intros t. by rewrite (woke_running c c'). Qed.

Lemma timer_callback_inv e l c :
  core c → tl_events (timers c) ≡ₚ e :: tl_events l →
  let c' := timer_callback e (set_timers l c) in
  core c' ∧ woke c c' ∧ timers c' = l ∧ (∀ t, timer_ticket c' t = timer_ticket c t) ∧
  (timer_ticket c (tm_task e) = tm_ticket e → state c (tm_task e) = Blocked →
   state c' (tm_task e) = Ready).
Proof.
  intros Hc Hl. unfold timer_callback.
  assert (∀ t, (state c t = Blocked → wakeable c t → wakeable (set_timers l c) t) ∨
          t = tm_task e ∧ timer_ticket c t = tm_ticket e) as Hw.
  { intros t. destruct (decide (t = tm_task e ∧ timer_ticket c t = tm_ticket e)) as [|Hn]; [by right|].
    left. intros _ [Hq|(e' & He' & Ht & Htt)]; [by left|]. right. exists e'. split_and!; [|done..].
    rewrite Hl in He'. apply elem_of_cons in He' as [->|]; [|done]. destruct Hn. done. }
  change (timer_ticket (set_timers l c) (tm_task e)) with (timer_ticket c (tm_task e)).
  destruct (Z.eqb_spec (timer_ticket c (tm_task e)) (tm_ticket e)) as [He|He]; cbn [negb].
  - assert (core_but (Some (tm_task e)) (set_timers l c)) as Hc1.
    { eapply core_same; [exact Hc|done..|]. intros t Hbl Hne. split; [done|].
      destruct (Hw t) as [Hw'|[-> _]]; [by apply Hw'|congruence]. }
    destruct (unblock_task_spec (tm_task e) true _ Hc1) as (? & ? & _ & ? & ? & Hs & _).
    split_and!; try done. intros _ Hbl. rewrite Hs. by rewrite decide_True.
  - split; [|split; [split_and!; auto|by split_and!]]. eapply core_same; [exact Hc|done..|].
    intros t Hbl _. split; [done|]. destruct (Hw t) as [Hw'|[-> ?]]; [by apply Hw'|congruence].
Qed.

(** The loop ends with no expired event left. *)
Lemma check_events_inv now n c :
  core c → (length (tl_events (timers c)) ≤ n)%nat →
  core (check_events_rec n now c) ∧ woke c (check_events_rec n now c) ∧
  ∀ e, e ∈ tl_events (timers (check_events_rec n now c)) → now < tm_deadline e.
Proof.
  revert c. induction n as [|n IH]; intros c Hc Hn; cbn [check_events_rec].
  { split_and!; [done|apply woke_refl|]. intros e He.
    destruct (tl_events (timers c)); [set_solver|simpl in Hn; lia]. }
  destruct (tl_expire_one (timers c) now) as [[e l]|] eqn:He.
  2:{ split_and!; [done|apply woke_refl|]. by eapply tl_expire_None. }
  apply tl_expire_Some in He as [_ Hl].
  destruct (timer_callback_inv e l c Hc Hl) as (Hc1 & Hw1 & Ht1 & _).
  destruct (IH _ Hc1) as (? & ? & ?).
  { rewrite Ht1. apply Permutation_length in Hl. simpl in Hl. lia. }
  split_and!; [done|by eapply woke_trans|done].
Qed.

(** A new alarm of the running task. *)
Lemma set_alarm_spec d c :
  on_cpu c → next_ticket c ≠ 0 →
  ∃ c', set_alarm_wakeup d (current c) c = (Ok (), c') ∧ on_cpu c' ∧ halted c' = halted c ∧
    current c' = current c ∧ scheduler c' = scheduler c ∧ next_id c' = next_id c ∧
    (∀ t, state c' t = state c t) ∧
    ∃ e, e ∈ tl_events (timers c') ∧ tm_task e = current c ∧
      tm_ticket e = timer_ticket c' (current c).
Proof.
  intros [Hc Hrun] Hnz. unfold set_alarm_wakeup, set_timer_ticket, rassert.
  unfold mbind, st_bind, st_get, st_mod, st_lift. apply Z.eqb_neq in Hnz. cbn [next_ticket].
  rewrite Hnz. cbn [negb]. eexists. split; [done|]. simpl.
  match goal with |- on_cpu ?x ∧ _ => set (c' := x) end.
  assert (∀ t, state c' t = state c t) as Hst.
  { intros t. unfold c', state. simpl. case_decide; by subst. }
  assert (∀ t, t ≠ current c → timer_ticket c' t = timer_ticket c t) as Htk.
  { intros t Hne. unfold c', timer_ticket. simpl. by rewrite decide_False. }
  assert (timer_ticket c' (current c) = next_ticket c) as Htc.
  { unfold c', timer_ticket. simpl. by rewrite decide_True. }
  split; [split|].
  - eapply core_same; [exact Hc|done..|]. intros t Hbl _. split; [done|].
    assert (t ≠ current c) as Hne by (intros Ht%Hrun; congruence).
    intros [Hq|(e & He & Ht & Htt)]; [by left|]. right. exists e. rewrite Htk by done.
    split_and!; [|done..]. unfold c'. simpl. rewrite tl_set_events. set_solver.
  - intros t. by rewrite Hst.
  - split_and!; try done. eexists (mkTimer d (next_ticket c) (current c)). rewrite Htc. split_and!; [|done..].
    unfold c'. simpl. rewrite tl_set_events. set_solver.
Qed.

Lemma assert_running_ok c : on_cpu c → assert_running c = (Ok (), c).
Proof.
  intros [_ Hrun]. unfold assert_running, is_running. rewrite bool_decide_true; [done|].
  by apply Hrun.
Qed.
Lemma assert_not_idle_ok c : current c ≠ idle → assert_not_idle c = (Ok (), c).
Proof. intros Hne. unfold assert_not_idle, is_idle. by rewrite bool_decide_false. Qed.

(** The running task stops to run, in any state but [Ready], and something
    will wake it if it is blocked. *)
Lemma leave_cpu x c c' :
  on_cpu c → current c ≠ idle → x = Blocked ∨ x = Exited →
  (∀ t, state c' t = if decide (t = current c) then x else state c t) →
  scheduler c' = scheduler c → next_id c' = next_id c →
  (∀ t, t ≠ current c → wakeable c t → wakeable c' t) → (x = Blocked → wakeable c' (current c)) →
  off_cpu c'.
Proof.
  intros [[Hnd Hr Hb Hi [Hf4 Hf]] Hrun] Hne Hx Hst Hs Hid Hw Hwc.
  assert (state c (current c) = Running) as Hcur by by apply Hrun.
  split; [split|]; rewrite ?Hs, ?Hid.
  - done.
  - intros t. rewrite Hr, Hst. case_decide; subst; [|done]. rewrite Hcur. naive_solver.
  - intros t. rewrite Hst. case_decide; subst; [auto|]. intros Ht _. auto.
  - by rewrite Hst, decide_False.
  - split; [done|]. intros t Ht. specialize (Hf t Ht). rewrite Hst. case_decide; congruence.
  - intros t. rewrite Hst. case_decide; [naive_solver|]. by rewrite Hrun.
Qed.

Lemma blocked_resched_spec q c :
  on_cpu c → current c ≠ idle →
  ∃ c', blocked_resched q c = (Ok (), c') ∧ on_cpu c' ∧ halted c' = halted c.
Proof.
  intros Hon Hne. unfold blocked_resched, mbind, st_bind.
  rewrite assert_running_ok, assert_not_idle_ok by done. unfold st_mod.
  apply (resched_spec (set_queue q (queues c q ++ [current c])
    (set_in_wait_queue (current c) true (set_state (current c) Blocked c)))).
  eapply (leave_cpu Blocked c); [done|done|by left|..|done|done| |].
  - intros t. unfold state. simpl. repeat case_decide; done.
  - intros t Hn [[q' Hq']|(e & He & Ht & Htt)]; [left; exists q'|right; exists e].
    + simpl. case_decide; subst; [set_solver|done].
    + split_and!; [done..|]. unfold timer_ticket. simpl. by rewrite !decide_False.
  - intros _. left. exists q. simpl. rewrite decide_True by done. set_solver.
Qed.

(** Rescheduling touches no queue and only a ready task. *)
Lemma resched_frame c c' :
  resched c = (Ok (), c') →
  queues c' = queues c ∧ ∀ t, state c t ≠ Ready → state c' t = state c t.
Proof.
  unfold resched, is_ready. destruct (sched_pick (scheduler c)) as [[t r]|].
  all: case_bool_decide as Hr; [|done]; intros [= <-].
  all: unfold switch_to; destruct (decide _); (split; [done|]); intros t' Ht'.
  all: unfold state; simpl; repeat case_decide; try done; subst t'; by destruct Ht'.
Qed.

(** The task that blocks is asleep at the end of the queue. *)
Lemma blocked_resched_sleeps q c :
  on_cpu c → current c ≠ idle →
  ∃ c', blocked_resched q c = (Ok (), c') ∧ on_cpu c' ∧
    state c' (current c) = Blocked ∧ queues c' q = queues c q ++ [current c].
Proof.
  intros Hon Hne. destruct (blocked_resched_spec q c Hon Hne) as (c' & Hr & Hon' & _).
  exists c'. split_and!; [done|done|..]; revert Hr; unfold blocked_resched, mbind, st_bind;
    rewrite assert_running_ok, assert_not_idle_ok by done; unfold st_mod; intros Hr%resched_frame;
    destruct Hr as [Hq Hs].
  - rewrite Hs; unfold state; simpl; by rewrite !decide_True.
  - rewrite Hq. simpl. by rewrite decide_True.
Qed.

Lemma sleep_until_spec now d c :
  on_cpu c → current c ≠ idle → next_ticket c ≠ 0 →
  ∃ c', sleep_until now d c = (Ok (), c') ∧ on_cpu c' ∧ halted c' = halted c.
Proof.
  intros Hon Hne Hnz. unfold sleep_until, mbind, st_bind.
  rewrite assert_running_ok, assert_not_idle_ok by done.
  destruct (now <? d); [|by exists c]. unfold st_get.
  destruct (set_alarm_spec d c Hon Hnz) as (c1 & -> & Hon1 & <- & Hc1 & _ & _ & _ & e & He & Ht & Htt).
  rewrite <- Hc1 in *. unfold st_mod. apply (resched_spec (set_state (current c1) Blocked c1)).
  eapply (leave_cpu Blocked c1); [done|done|by left|..|done|done| |].
  - intros t. apply state_set.
  - intros t Hn [Hq|(e' & He' & Ht' & Htt')]; [by left|right; exists e']. split_and!; [done..|].
    unfold set_state. rewrite ticket_upd. by rewrite decide_False.
  - intros _. right. exists e. split_and!; [done..|]. unfold set_state. rewrite ticket_upd.
    by rewrite decide_True.
Qed.

Lemma exit_current_spec code c :
  on_cpu c → current c ≠ idle → ∃ c', exit_current code c = (Ok (), c') ∧ on_cpu c'.
Proof.
  intros Hon Hne. unfold exit_current, mbind, st_bind.
  rewrite assert_running_ok, assert_not_idle_ok by done. unfold st_get.
  destruct (is_init (current c)).
  { eexists. split; [done|]. destruct Hon as [Hc Hrun]. split; [|done].
    eapply core_same; [exact Hc|done..]. }
  unfold st_mod. set (c1 := set_state (current c) Exited c).
  set (c2 := notify_exit (current c1) code c1).
  assert (off_cpu (set_exit_code (current c1) code c1)) as H1.
  { eapply (leave_cpu Exited c); [done|done|by right|..|done|done| |done].
    - intros t. unfold state. simpl. repeat case_decide; done.
    - intros t Hn. apply wakeable_same; [done..|]. unfold timer_ticket. simpl. by rewrite !decide_False. }
  destruct (notify_all_inv (WqJoin (current c1)) false _ (proj1 H1)) as (Hc2 & Hw2 & _).
  fold (notify_exit (current c1) code c1) in Hc2, Hw2. fold c2 in Hc2, Hw2.
  pose proof (off_cpu_woke _ _ H1 Hc2 Hw2) as [_ Hno2].
  set (c3 := set_exited _ c2).
  assert (off_cpu c3) as H3.
  { split; [|exact Hno2]. eapply core_same; [exact Hc2|done..]. }
  destruct (notify_one_inv WqGc false c3 (proj1 H3)) as (Hc4 & Hw4 & _).
  destruct (resched_spec _ (off_cpu_woke _ _ H3 Hc4 Hw4)) as (c' & ? & ? & _). by exists c'.
Qed.

Lemma spawn_task_spec c :
  on_cpu c → next_id c < 2 ^ 64 - 1 →
  ∃ c', spawn_task c = (Ok (), c') ∧ on_cpu c' ∧ halted c' = halted c.
Proof.
  intros [[Hnd Hr Hb Hi [Hf4 Hf]] Hrun] Hlt. set (n := next_id c) in *.
  unfold spawn_task, mbind, st_bind, new_task, add_task, is_ready. fold n.
  set (c1 := set_next_id _ _).
  assert (∀ t, state c1 t = if decide (t = n) then Ready else state c t) as Hst.
  { intros t. unfold c1, state. simpl. by case_decide. }
  assert (state c n = Exited) as Hn by (apply Hf; lia).
  assert (n ≠ idle) as Hni by (unfold idle; lia).
  rewrite bool_decide_true by by rewrite Hst, decide_True. eexists. split; [done|].
  split; [|done]. split; [split|].
  - simpl. rewrite sched_add_tasks. constructor; [|done]. rewrite Hr, Hn. by intros [? _].
  - intros t. simpl. rewrite sched_add_tasks, elem_of_cons, Hr, state_sched, Hst.
    case_decide; subst; naive_solver.
  - intros t. rewrite state_sched, Hst. case_decide; [done|]. intros Ht _.
    eapply wakeable_same, Hb; [done..| |done|done]. unfold timer_ticket. simpl. by rewrite decide_False.
  - rewrite state_sched, Hst, decide_False by done. done.
  - simpl. ints. split; [lia|]. intros t Ht.
    rewrite state_sched, Hst, decide_False by lia. apply Hf. lia.
  - intros t. rewrite state_sched, Hst. simpl. case_decide; [|apply Hrun]. subst.
    split; [done|]. intros ->. destruct (Hrun (current c)) as [_ Hc]. specialize (Hc eq_refl). congruence.
Qed.

Lemma woke_exec (f : Cpu → Cpu) c :
  on_cpu c → core (f c) ∧ woke c (f c) → ∃ c', (st_mod f : Cst ()) c = (Ok (), c') ∧ on_cpu c'.
Proof. intros Hon [Hc Hw]. exists (f c). split; [done|]. by eapply on_cpu_woke. Qed.

(** Every operation that is called as the code means it to be succeeds and
    keeps the invariant. *)
Lemma exec_inv o c : on_cpu c → legal o c → ∃ c', exec o c = (Ok (), c') ∧ on_cpu c'.
Proof.
  intros Hon [Hh Hl]. destruct o; simpl in Hl; unfold exec.
  - destruct (resched_spec _ (proj1 (put_running_spec false c Hon))) as (c' & Hr & ? & _).
    exists c'. unfold yield_current, mbind, st_bind. by rewrite assert_running_ok.
  - unfold preempt_resched, mbind, st_bind. rewrite assert_running_ok by done.
    destruct can_preempt.
    + destruct (resched_spec _ (proj1 (put_running_spec true c Hon))) as (c' & Hr & ? & _).
      by exists c'.
    + eexists. split; [done|]. destruct Hon as [Hc Hrun].
      assert (∀ t, state (set_preempt_pending (current c) true c) t = state c t) as Hst.
      { intros t. unfold set_preempt_pending. rewrite state_upd. by case_decide; subst. }
      split; [|intros t; by rewrite Hst]. eapply core_same; [exact Hc|done..|].
      intros t _ _. split; [done|]. apply wakeable_same; [done..|].
      unfold set_preempt_pending. rewrite ticket_upd. by case_decide; subst.
  - destruct (spawn_task_spec c Hon Hl) as (c' & ? & ? & _). by exists c'.
  - by apply exit_current_spec.
  - destruct Hl. destruct (sleep_until_spec now deadline c Hon) as (c' & ? & ? & _); [done..|].
    by exists c'.
  - destruct (blocked_resched_spec q c Hon Hl) as (c' & ? & ? & _). by exists c'.
  - destruct Hl as [Hi Hz]. unfold wait_timeout_enter, mbind, st_bind, st_get.
    destruct (set_alarm_spec deadline c Hon Hz) as (c1 & -> & Hon1 & _ & Hc1 & _).
    destruct (blocked_resched_spec q c1 Hon1) as (c' & ? & ? & _); [by rewrite Hc1|]. by exists c'.
  - destruct Hl as [_ Hz]. unfold mbind, st_bind, st_get.
    destruct (set_alarm_spec deadline c Hon Hz) as (c' & ? & ? & _). by exists c'.
  - apply woke_exec; [done|]. by apply cancel_events_inv.
  - apply woke_exec; [done|]. destruct (notify_one_inv q resched0 c (proj1 Hon)) as (? & ? & _). done.
  - apply woke_exec; [done|]. destruct (notify_all_inv q resched0 c (proj1 Hon)) as (? & ? & _). done.
  - apply woke_exec; [done|]. apply notify_task_inv, Hon.
  - apply woke_exec; [done|]. apply requeue_inv, Hon.
  - apply woke_exec; [done|].
    destruct (check_events_inv now _ c (proj1 Hon) (le_n _)) as (? & ? & _). done.
Qed.

Lemma init_scheduler_inv : on_cpu init_scheduler.
Proof.
  assert (∀ t, state init_scheduler t = if decide (t = idle) then Ready else
    if decide (t = init) then Running else if decide (t = gc) then Ready else Exited) as Hst.
  { intros t. unfold state. simpl. by repeat case_decide. }
  assert (idle ≠ gc ∧ init ≠ gc ∧ idle ≠ init) as (? & ? & ?) by done.
  split; [split|].
  - simpl. rewrite sched_add_tasks, sched_new_tasks. apply NoDup_singleton.
  - intros t. rewrite Hst. simpl. rewrite sched_add_tasks, sched_new_tasks.
    repeat case_decide; subst; set_solver.
  - intros t. rewrite Hst. repeat case_decide; done.
  - by left.
  - split; [done|]. simpl. intros t Ht. rewrite Hst. unfold idle, init, gc.
    by rewrite !decide_False by lia.
  - intros t. rewrite Hst. simpl. repeat case_decide; subst; naive_solver.
Qed.

Lemma reachable_inv c : rtc step init_scheduler c → on_cpu c.
Proof.
  intros Hs. eapply (rtc_preserved step on_cpu); [|exact init_scheduler_inv|exact Hs].
  intros a b (o & Hl & He) Ha. destruct (exec_inv o a Ha Hl) as (b' & He' & Hb). congruence.
Qed.

(** C4: in every state the CPU can get into, exactly the current task is
    running; the scheduler holds every ready task once, apart from the idle
    task; a blocked task is never lost, an entry of some wait queue or a timer
    with its ticket is left to wake it; and no assertion of the scheduler fails
    in whatever the current task or the timer interrupt does next. *)
Theorem scheduler_invariant (c : Cpu) :
  rtc step init_scheduler c →
  (∀ t, state c t = Running ↔ t = current c) ∧
  NoDup (sched_tasks (scheduler c)) ∧
  (∀ t, t ∈ sched_tasks (scheduler c) ↔ state c t = Ready ∧ t ≠ idle) ∧
  (∀ t, state c t = Blocked → wakeable c t) ∧
  ∀ o, legal o c → ∃ c', exec o c = (Ok (), c').
Proof.
  intros Hs. pose proof (reachable_inv c Hs) as Hon.
  destruct (Hon) as [[Hnd Hr Hb _ _] Hrun]. split_and!; auto.
  intros o Hl. destruct (exec_inv o c Hon Hl) as (c' & ? & _). by exists c'.
Qed.

(** [notify_one] takes the task that has waited longest. A blocked one is
    ready afterwards; no other task and no other queue changes. *)
Theorem notify_one_spec (q : WqId) (r : bool) (t : Z) (l : list Z) (c : Cpu) :
  on_cpu c → queues c q = t :: l → state c t = Blocked →
  let '(woken, c') := notify_one q r c in
  woken = true ∧ state c' t = Ready ∧ t ∈ sched_tasks (scheduler c') ∧
  (∀ t', t' ≠ t → state c' t' = state c t') ∧
  queues c' q = l ∧ (∀ q', q' ≠ q → queues c' q' = queues c q') ∧ on_cpu c'.
Proof.
  intros Hon Hq Ht. unfold notify_one. rewrite Hq.
  destruct (unblock_one_spec q l t r c (proj1 Hon)) as (Hc & Hw & Hq' & Ho & Ht' & Hot);
    [rewrite Hq; set_solver|].
  rewrite decide_True in Ht' by done. split_and!; try done; [|by eapply on_cpu_woke].
  apply Hc. split; [done|]. intros ->. destruct Hon as [[_ _ _ Hi _] _]. intuition congruence.
Qed.

(** The timer loop reaches the event of a sleeping task. *)
Lemma check_events_wakes now n c e :
  core c → (length (tl_events (timers c)) ≤ n)%nat → e ∈ tl_events (timers c) →
  tm_deadline e ≤ now → tm_ticket e = timer_ticket c (tm_task e) → state c (tm_task e) = Blocked →
  state (check_events_rec n now c) (tm_task e) = Ready.
Proof.
  revert c. induction n as [|n IH]; intros c Hc Hn He Hd Htk Hbl; cbn [check_events_rec].
  { destruct (tl_events (timers c)); [set_solver|simpl in Hn; lia]. }
  destruct (tl_expire_one (timers c) now) as [[e' l]|] eqn:Hx.
  2:{ pose proof (tl_expire_None _ _ Hx e He). lia. }
  apply tl_expire_Some in Hx as [_ Hl].
  destruct (timer_callback_inv e' l c Hc Hl) as (Hc1 & (_ & _ & _ & Hw1) & Ht1 & Htk1 & Hs1).
  assert (length (tl_events l) ≤ n)%nat as Hn' by (apply Permutation_length in Hl; simpl in Hl; lia).
  destruct (Hw1 (tm_task e)) as [Hs|[_ Hs]].
  - rewrite Hl in He. apply elem_of_cons in He as [->|He].
    { rewrite (Hs1 (eq_sym Htk) Hbl) in Hs. congruence. }
    apply IH; rewrite ?Ht1, ?Htk1; congruence.
  - destruct (check_events_inv now n _ Hc1) as (_ & (_ & _ & _ & Hw) & _); [by rewrite Ht1|].
    destruct (Hw (tm_task e)); intuition congruence.
Qed.

(** after [check_events] no event whose time has come is left, and every
    task that slept until such an event is ready. *)
Theorem check_events_spec (now : Z) (c : Cpu) :
  on_cpu c →
  let c' := check_events now c in
  on_cpu c' ∧ (∀ e, e ∈ tl_events (timers c') → now < tm_deadline e) ∧
  ∀ e, e ∈ tl_events (timers c) → tm_deadline e ≤ now →
    tm_ticket e = timer_ticket c (tm_task e) → state c (tm_task e) = Blocked →
    state c' (tm_task e) = Ready.
Proof.
  intros Hon. destruct (check_events_inv now _ c (proj1 Hon) (le_n _)) as (Hc & Hw & He).
  split_and!; [apply (on_cpu_woke c); done|done|]. intros e. by apply check_events_wakes; [apply Hon|].
Qed.

(** a task that timed out after it was requeued cleans up the queue it
    first waited on, not the one it was moved to. Its entry stays there, and
    the next notification of that queue is spent on it: [notify_one] reports
    success, but no task's state changes, so the task that waits behind it
    stays blocked. *)
Theorem requeued_timeout_swallows_wakeup (q target : WqId) (r : bool) (w : Z) (l : list Z) (c : Cpu) :
  on_cpu c → q ≠ target → queues c target = current c :: w :: l →
  let '(timeout, c1) := wait_timeout_resume q c in
  let '(woken, c2) := notify_one target r c1 in
  timeout = Ok (in_wait_queue c (current c)) ∧ in_wait_queue c1 (current c) = false ∧
  current c ∈ queues c1 target ∧
  woken = true ∧ (∀ t, state c2 t = state c t) ∧ queues c2 target = w :: l.
Proof.
  intros Hon Hne Hq. set (c1 := cancel_events q true c).
  change (wait_timeout_resume q c) with (@Ok Empty_set _ (in_wait_queue c (current c)), c1).
  destruct (cancel_events_inv q true c Hon) as [Hc1 Hw1]. fold c1 in Hc1, Hw1.
  pose proof (on_cpu_woke c c1 Hon Hc1 Hw1) as [_ Hrun1].
  assert (queues c1 target = current c :: w :: l ∧ in_wait_queue c1 (current c) = false ∧
    ∀ t, state c1 t = state c t) as (Hq1 & Hin & Hst).
  { unfold c1, cancel_events, state, in_wait_queue. destruct (t_in_wait_queue _) eqn:Hin; simpl;
      (split_and!; [by rewrite ?decide_False|by rewrite !decide_True|];
       intros t; repeat (case_decide; simpl); congruence). }
  unfold notify_one. rewrite Hq1.
  destruct (unblock_one_spec target (w :: l) (current c) r c1 Hc1) as (_ & _ & Hq2 & _ & Hs & Ho);
    [rewrite Hq1; set_solver|].
  split_and!; try done; [set_solver|]. intros t. rewrite <- Hst.
  destruct (decide (t = current c)) as [->|]; [|by apply Ho]. rewrite Hs.
  destruct Hw1 as (Hcur & _). rewrite decide_False; [done|]. rewrite <- Hcur, (proj2 (Hrun1 _) eq_refl). done.
Qed.

End tasks.
Arguments Cpu : clear implicits.

#[export] Hint Resolve woke_refl woke_trans on_cpu_woke off_cpu_woke : kernel.

(** ** A first-in first-out scheduler and a list of timers *)

#[program] Instance FifoSched : Scheduler (list Z) := {
  sched_tasks r := r;
  sched_new := [];
  sched_add r t := r ++ [t];
  sched_put_prev r t p := if p : bool then t :: r else r ++ [t];
  sched_pick r := match r with t :: r' => Some (t, r') | [] => None end;
}.
Next Obligation. done. Qed.
Next Obligation. intros r t. simpl. by rewrite Permutation_app_comm. Qed.
Next Obligation. intros r t []; simpl; [done|]. by rewrite Permutation_app_comm. Qed.
Next Obligation. by intros [|x r] t r' [= -> ->]. Qed.
Next Obligation. by intros [|x r]. Qed.

Fixpoint expire_list (l : list Timer) (now : Z) : option (Timer * list Timer) :=
  match l with
  | [] => None
  | e :: l' => if tm_deadline e <=? now then Some (e, l')
               else match expire_list l' now with
                    | Some (x, r) => Some (x, e :: r)
                    | None => None
                    end
  end.

Lemma expire_list_Some l now e l' :
  expire_list l now = Some (e, l') → tm_deadline e ≤ now ∧ l ≡ₚ e :: l'.
Proof.
  revert l'. induction l as [|x l IH]; intros l'; simpl; [done|].
  destruct (Z.leb_spec (tm_deadline x) now); [by intros [= -> ->]|].
  destruct (expire_list l now) as [[y r]|]; [|done]. intros [= -> <-].
  destruct (IH r eq_refl) as [? Hp]. split; [done|]. rewrite Hp. constructor.
Qed.
Lemma expire_list_None l now : expire_list l now = None → ∀ e, e ∈ l → now < tm_deadline e.
Proof.
  induction l as [|x l IH]; simpl; [set_solver|].
  destruct (Z.leb_spec (tm_deadline x) now); [done|].
  destruct (expire_list l now) as [[y r]|]; [done|]. set_solver.
Qed.

#[program] Instance ListTimers : TimerList (list Timer) := {
  tl_events l := l; tl_new := []; tl_set l e := e :: l; tl_expire_one := expire_list;
}.
Next Obligation. done. Qed.
Next Obligation. done. Qed.
Next Obligation. apply expire_list_Some. Qed.
Next Obligation. apply expire_list_None. Qed.

(** ** Witnesses *)

Abbreviation cpu := (Cpu (list Z) (list Timer)).

Fixpoint run (l : list Op) (c : cpu) : cpu :=
  match l with [] => c | o :: l' => run l' (exec o c).2 end.

Fixpoint runs_legal (l : list Op) (c : cpu) : bool :=
  match l with
  | [] => true
  | o :: l' =>
      negb (halted c) && bool_decide (current c ≠ idle) && bool_decide (next_ticket c ≠ 0) &&
      (next_id c <? 2 ^ 64 - 1) &&
      match exec o c with (Ok _, c') => runs_legal l' c' | _ => false end
  end.

Lemma run_steps l c : runs_legal l c = true → rtc step c (run l c).
Proof.
  revert c. induction l as [|o l IH]; intros c; [constructor|].
  cbn [runs_legal run]. rewrite !andb_true_iff, negb_true_iff, Z.ltb_lt.
  intros ((((Hh & Hi%bool_decide_eq_true) & Hz%bool_decide_eq_true) & Hid) & He).
  destruct (exec o c) as [[[]|e|] c'] eqn:Hex; [|done..].
  eapply rtc_l; [|by apply IH]. exists o. split; [|done]. split; [done|]. by destruct o.
Qed.

(** The initial task 2 waits on queue 7 with a time limit; task 4 moves it to
    queue 8 and waits there itself; the timer wakes task 2. *)
Definition requeue_trace : list Op :=
  [OSpawn; OSpawn; OWaitTimeout (WqUser 7) 100; OWait WqGc;
   ORequeue (WqUser 7) 1 (WqUser 8); OWait (WqUser 8); OTimer 200; OYield].
Definition requeue_state : cpu := run requeue_trace init_scheduler.

Lemma requeue_state_inv : on_cpu requeue_state.
Proof. apply reachable_inv, run_steps. by vm_compute. Qed.

Lemma scheduler_invariant_witness :
  state requeue_state 2 = Running ∧ state requeue_state 4 = Blocked ∧ wakeable requeue_state 4.
Proof.
  destruct (scheduler_invariant requeue_state) as (_ & _ & _ & Hb & _).
  { apply run_steps. by vm_compute. }
  split_and!; [by vm_compute..|]. apply Hb. by vm_compute.
Defined.

Lemma notify_one_spec_witness :
  (notify_one (WqUser 8) true (run [OCancel (WqUser 8) true] requeue_state)).1 = true ∧
  state (notify_one (WqUser 8) true (run [OCancel (WqUser 8) true] requeue_state)).2 4 = Ready.
Proof.
  pose proof (notify_one_spec (WqUser 8) true 4 [] (run [OCancel (WqUser 8) true] requeue_state)) as H.
  destruct (notify_one _ _ _) as [b c']. destruct H as (? & ? & _); [|by vm_compute..|done].
  eapply on_cpu_woke, (cancel_events_inv _ _ _ requeue_state_inv); [exact requeue_state_inv|].
  apply (cancel_events_inv _ _ _ requeue_state_inv).
Defined.

Lemma check_events_spec_witness :
  let c := run [OSpawn; OSleep 0 50] init_scheduler in
  state c 2 = Blocked ∧ state (check_events 60 c) 2 = Ready.
Proof.
  intros c. split; [by vm_compute|].
  destruct (check_events_spec 60 c) as (_ & _ & H); [|by apply (H (mkTimer 50 1 2)); vm_compute; [left|..]].
  apply reachable_inv, run_steps. by vm_compute.
Defined.

Lemma requeued_timeout_swallows_wakeup_witness :
  let '(timeout, c1) := wait_timeout_resume (WqUser 7) requeue_state in
  let '(woken, c2) := notify_one (WqUser 8) true c1 in
  timeout = Ok true ∧ woken = true ∧ state c2 4 = Blocked.
Proof.
  pose proof (requeued_timeout_swallows_wakeup (WqUser 7) (WqUser 8) true 4 [] requeue_state
    requeue_state_inv ltac:(done) ltac:(by vm_compute)) as H.
  destruct (wait_timeout_resume _ _) as [t c1]. destruct (notify_one _ _ _) as [b c2].
  destruct H as (-> & _ & _ & -> & Hs & _). split_and!; [by vm_compute|done|].
  rewrite Hs. by vm_compute.
Defined.
