(* ===== verification/Mutex.v ===== *)
(** * The sleeping mutex

    Model of [src/.arceos/modules/axsync/src/mutex.rs] with the part of
    [WaitQueue::wait_until] and [WaitQueue::notify_one] it runs. Tasks on
    several CPUs interleave: every access to the owner word and every section
    under the lock of the wait queue is a step of its own. *)

From S2P Require Import Prelude.

#[local] Open Scope Z_scope.

(** Where a task is.
    [TryCas]: at the head of the loop of [lock]; [WantWq]: at the head of the
    loop of [wait_until]; [Checking]: inside it, with the lock of the queue;
    [Enqueue]: the condition was false, the lock is still held; [Sleeping]: off
    the CPU in [blocked_resched]; [Cancel]: about to call [cancel_events];
    [Holding]: owner of the mutex; [Notify]: in [unlock] after the swap;
    [Popping]: in [notify_one] with the lock of the queue; [Crashed]: an
    assertion failed. *)
Inductive Pc : Type :=
| Outside | TryCas | WantWq | Checking | Enqueue | Sleeping | Cancel | Holding | Notify | Popping
| Crashed.

#[global] Instance Pc_eq_dec : EqDecision Pc.
Proof. solve_decision. Defined.

(** [RawMutex] with its wait queue, the lock of that queue, and the tasks. *)
Record RawMutex := mkMutex {
  owner_id : Z;
  wq : list Z;
  wq_lock : option Z;
  in_wq : Z → bool;
  pc : Z → Pc;
}.

Definition RawMutex_new : RawMutex := mkMutex 0 [] None (λ _, false) (λ _, Outside).

Definition upd {A} (f : Z → A) (t : Z) (x : A) : Z → A := λ t', if decide (t' = t) then x else f t'.
Definition at_pc (t : Z) (p : Pc) (m : RawMutex) : RawMutex :=
  mkMutex (owner_id m) (wq m) (wq_lock m) (in_wq m) (upd (pc m) t p).
Definition set_owner (o : Z) (m : RawMutex) : RawMutex :=
  mkMutex o (wq m) (wq_lock m) (in_wq m) (pc m).
Definition set_lock (l : option Z) (m : RawMutex) : RawMutex :=
  mkMutex (owner_id m) (wq m) l (in_wq m) (pc m).
Definition set_wq (l : list Z) (m : RawMutex) : RawMutex :=
  mkMutex (owner_id m) l (wq_lock m) (in_wq m) (pc m).
Definition set_in_wq (t : Z) (b : bool) (m : RawMutex) : RawMutex :=
  mkMutex (owner_id m) (wq m) (wq_lock m) (upd (in_wq m) t b) (pc m).

Definition is_locked (m : RawMutex) : bool := negb (owner_id m =? 0).

(** The compare-and-exchange of [lock]; a weak one may fail for no reason. *)
Definition lock_cas (t : Z) (spurious : bool) (m : RawMutex) : RawMutex :=
  if (owner_id m =? 0) && negb spurious then at_pc t Holding (set_owner t m)
  else if owner_id m =? t then at_pc t Crashed m else at_pc t WantWq m.

Definition try_lock (t : Z) (m : RawMutex) : RawMutex :=
  if owner_id m =? 0 then at_pc t Holding (set_owner t m) else m.

(** [unlock] up to the notification. *)
Definition unlock_swap (t : Z) (m : RawMutex) : RawMutex :=
  let owner := owner_id m in
  let m := set_owner 0 m in
  if owner =? t then at_pc t Notify m else at_pc t Crashed m.

(** Taking the lock of the queue, when it is free. *)
Definition take_wq (t : Z) (p : Pc) (m : RawMutex) : option RawMutex :=
  match wq_lock m with None => Some (at_pc t p (set_lock (Some t) m)) | Some _ => None end.

(** The condition of [wait_until], [!self.is_locked()]. *)
Definition wait_check (t : Z) (m : RawMutex) : RawMutex :=
  if is_locked m then at_pc t Enqueue m else at_pc t Cancel (set_lock None m).

(** [blocked_resched]: marks and queues the task and releases the lock. *)
Definition wait_block (t : Z) (m : RawMutex) : RawMutex :=
  at_pc t Sleeping (set_lock None (set_wq (wq m ++ [t]) (set_in_wq t true m))).

(** [cancel_events], which takes the lock only for a task still queued. *)
Definition wait_cancel (t : Z) (m : RawMutex) : option RawMutex :=
  if in_wq m t then
    match wq_lock m with
    | None => Some (at_pc t TryCas (set_in_wq t false (set_wq (filter (λ u, u ≠ t) (wq m)) m)))
    | Some _ => None
    end
  else Some (at_pc t TryCas m).

(** [notify_one] under the lock; a sleeping task goes on in its loop. *)
Definition notify_pop (t : Z) (m : RawMutex) : RawMutex :=
  match wq m with
  | u :: l =>
      let m := set_in_wq u false (set_wq l m) in
      let m := if decide (pc m u = Sleeping) then at_pc u WantWq m else m in
      at_pc t Outside (set_lock None m)
  | [] => at_pc t Outside (set_lock None m)
  end.

(** What a task does next: it goes on with its call ([spurious] matters for
    the exchange only), or starts a call. A holder goes on by unlocking. *)
Inductive Act : Type := Go (spurious : bool) | CallLock | CallTryLock.

Definition act (t : Z) (a : Act) (m : RawMutex) : option RawMutex :=
  match a, pc m t with
  | CallLock, Outside => Some (at_pc t TryCas m)
  | CallTryLock, Outside => Some (try_lock t m)
  | Go spurious, TryCas => Some (lock_cas t spurious m)
  | Go _, WantWq => take_wq t Checking m
  | Go _, Checking => Some (wait_check t m)
  | Go _, Enqueue => Some (wait_block t m)
  | Go _, Cancel => wait_cancel t m
  | Go _, Holding => Some (unlock_swap t m)
  | Go _, Notify => take_wq t Popping m
  | Go _, Popping => Some (notify_pop t m)
  | _, _ => None
  end.

(** Task ids start at 1. *)
Definition mstep (m m' : RawMutex) : Prop := ∃ t a, t ≠ 0 ∧ act t a m = Some m'.

(** ** The invariant *)

Definition has_wq (p : Pc) : Prop := p = Checking ∨ p = Enqueue ∨ p = Popping.
(** A task on its way to the mutex, or to a notification. *)
Definition active (p : Pc) : Prop :=
  p = TryCas ∨ p = WantWq ∨ p = Checking ∨ p = Cancel ∨ p = Notify ∨ p = Popping.

Record minv (m : RawMutex) : Prop := mkMinv {
  i_zero : pc m 0 = Outside;
  i_owner t : pc m t = Holding ↔ owner_id m = t ∧ t ≠ 0;
  i_lock t : has_wq (pc m t) ↔ wq_lock m = Some t;
  i_queue t : t ∈ wq m ↔ pc m t = Sleeping;
  i_nodup : NoDup (wq m);
  i_flag t : in_wq m t = true ↔ pc m t = Sleeping;
  i_alive t : pc m t ≠ Crashed;
  i_check t : pc m t = Enqueue → owner_id m ≠ 0 ∨ ∃ u, pc m u = Notify;
  i_wake : wq m ≠ [] → owner_id m ≠ 0 ∨ ∃ u, active (pc m u);
}.

Lemma upd_eq {A} (f : Z → A) t x : upd f t x t = x.
Proof. unfold upd. by rewrite decide_True. Qed.
Lemma upd_ne {A} (f : Z → A) t x t' : t' ≠ t → upd f t x t' = f t'.
Proof. intros. unfold upd. by rewrite decide_False. Qed.

(** A task that stays awake and neither holds the mutex nor the lock of the
    queue moves to a place of the same kind. *)
Definition quiet (p : Pc) : Prop := p = Outside ∨ p = TryCas ∨ p = WantWq ∨ p = Cancel.

Lemma minv_quiet t p m :
  minv m → t ≠ 0 → quiet (pc m t) → quiet p → (active (pc m t) → active p) → minv (at_pc t p m).
Proof.
  intros [H0 Ho Hl Hq Hnd Hf Ha Hc Hw] Ht Hpt Hp Hact.
  assert (∀ u, upd (pc m) t p u = if decide (u = t) then p else pc m u) as E by done.
  split; simpl; try setoid_rewrite E.
  - by rewrite decide_False.
  - intros u. rewrite <- Ho. case_decide; subst; [|done]. unfold quiet in *. intuition congruence.
  - intros u. rewrite <- Hl. case_decide; subst; [|done]. unfold quiet, has_wq in *. intuition congruence.
  - intros u. rewrite Hq. case_decide; subst; [|done]. unfold quiet in *. intuition congruence.
  - done.
  - intros u. rewrite Hf. case_decide; subst; [|done]. unfold quiet in *. intuition congruence.
  - intros u. case_decide; [|done]. unfold quiet in *. intuition congruence.
  - intros u. case_decide; [unfold quiet in *; intuition congruence|]. intros Hu.
    destruct (Hc u Hu) as [|[v Hv]]; [by left|right]. exists v. case_decide; [|done].
    subst. unfold quiet in *. intuition congruence.
  - intros Hne. destruct (Hw Hne) as [|[v Hv]]; [by left|right]. exists v.
    case_decide; [subst; auto|done].
Qed.

(** Case analysis on whether another task is the one that moved. *)
Ltac who u t :=
  destruct (decide (u = t)) as [->|?];
    repeat (rewrite upd_eq || rewrite upd_ne by done).

Lemma minv_acquire t m :
  minv m → t ≠ 0 → quiet (pc m t) → owner_id m = 0 → minv (at_pc t Holding (set_owner t m)).
Proof.
  intros [H0 Ho Hl Hq Hnd Hf Ha Hc Hw] Ht Hpt Hz. unfold quiet in Hpt. split; simpl.
  - by rewrite upd_ne.
  - intros u. who u t; [done|]. rewrite Ho. split; intros [??]; congruence.
  - intros u. rewrite <- Hl. unfold has_wq. who u t; intuition congruence.
  - intros u. rewrite Hq. who u t; intuition congruence.
  - done.
  - intros u. rewrite Hf. who u t; intuition congruence.
  - intros u. by who u t.
  - auto.
  - auto.
Qed.

Lemma minv_swap t m : minv m → t ≠ 0 → pc m t = Holding → minv (unlock_swap t m).
Proof.
  intros [H0 Ho Hl Hq Hnd Hf Ha Hc Hw] Ht Hpt. pose proof (proj1 (Ho t) Hpt) as [He _].
  unfold unlock_swap. rewrite He, Z.eqb_refl. split; simpl.
  - by rewrite upd_ne.
  - intros u. who u t; [split; [done|intros [? _]; congruence]|]. rewrite Ho.
    split; intros [??]; congruence.
  - intros u. rewrite <- Hl. unfold has_wq. who u t; intuition congruence.
  - intros u. rewrite Hq. who u t; intuition congruence.
  - done.
  - intros u. rewrite Hf. who u t; intuition congruence.
  - intros u. by who u t.
  - intros u Hu. right. exists t. by rewrite upd_eq.
  - intros _. right. exists t. rewrite upd_eq. unfold active. tauto.
Qed.

(** With the lock of the queue free nobody is about to enqueue itself. *)
Lemma minv_take t p m m' :
  minv m → t ≠ 0 → (pc m t = WantWq ∧ p = Checking) ∨ (pc m t = Notify ∧ p = Popping) →
  take_wq t p m = Some m' → minv m'.
Proof.
  intros [H0 Ho Hl Hq Hnd Hf Ha Hc Hw] Ht Hp. unfold take_wq.
  destruct (wq_lock m) eqn:Hlk; [done|]. intros [= <-].
  assert (∀ u, ¬ has_wq (pc m u)) as Hno by (intros u Hu%Hl; done). split; simpl.
  - by rewrite upd_ne.
  - intros u. rewrite <- Ho. who u t; intuition congruence.
  - intros u. who u t; [unfold has_wq; intuition|]. split; [by intros ?%Hno|congruence].
  - intros u. rewrite Hq. who u t; intuition congruence.
  - done.
  - intros u. rewrite Hf. who u t; intuition congruence.
  - intros u. who u t; [intuition congruence|done].
  - intros u. who u t; [intuition congruence|]. intros Hu. destruct (Hno u). unfold has_wq. auto.
  - intros Hne. destruct (Hw Hne) as [|[v Hv]]; [by left|right]. exists v.
    who v t; [|done]. unfold active. intuition.
Qed.

Lemma minv_check t m : minv m → t ≠ 0 → pc m t = Checking → minv (wait_check t m).
Proof.
  intros [H0 Ho Hl Hq Hnd Hf Ha Hc Hw] Ht Hpt.
  assert (wq_lock m = Some t) as Hlk by (apply Hl; unfold has_wq; auto).
  unfold wait_check, is_locked. destruct (Z.eqb_spec (owner_id m) 0) as [He|He]; cbn [negb].
  - assert (∀ u, u ≠ t → ¬ has_wq (pc m u)) as Hno by (intros u Hne Hu%Hl; congruence).
    split; simpl.
    + by rewrite upd_ne.
    + intros u. rewrite <- Ho. who u t; intuition congruence.
    + intros u. unfold has_wq in *. who u t; [split; [intuition congruence|done]|].
      split; [|done]. intros Hu. by destruct (Hno u).
    + intros u. rewrite Hq. who u t; intuition congruence.
    + done.
    + intros u. rewrite Hf. who u t; intuition congruence.
    + intros u. by who u t.
    + intros u. who u t; [done|]. intros Hu. destruct (Hno u); unfold has_wq; auto.
    + intros _. right. exists t. rewrite upd_eq. unfold active. tauto.
  - split; simpl.
    + by rewrite upd_ne.
    + intros u. rewrite <- Ho. who u t; intuition congruence.
    + intros u. rewrite <- Hl. unfold has_wq. who u t; intuition congruence.
    + intros u. rewrite Hq. who u t; intuition congruence.
    + done.
    + intros u. rewrite Hf. who u t; intuition congruence.
    + intros u. by who u t.
    + auto.
    + auto.
Qed.

Lemma minv_block t m : minv m → t ≠ 0 → pc m t = Enqueue → minv (wait_block t m).
Proof.
  intros [H0 Ho Hl Hq Hnd Hf Ha Hc Hw] Ht Hpt.
  assert (wq_lock m = Some t) as Hlk by (apply Hl; unfold has_wq; auto).
  assert (∀ u, u ≠ t → ¬ has_wq (pc m u)) as Hno by (intros u Hne Hu%Hl; congruence).
  assert (t ∉ wq m) as Hnin by (rewrite Hq; congruence).
  split; simpl.
  - by rewrite upd_ne.
  - intros u. rewrite <- Ho. who u t; intuition congruence.
  - intros u. unfold has_wq in *. who u t; [split; [intuition congruence|done]|].
    split; [|done]. intros Hu. by destruct (Hno u).
  - intros u. rewrite elem_of_app, list_elem_of_singleton, Hq. who u t; intuition congruence.
  - apply NoDup_app. split_and!; [done|set_solver|apply NoDup_singleton].
  - intros u. who u t; [done|apply Hf].
  - intros u. by who u t.
  - intros u. who u t; [done|]. intros Hu. destruct (Hno u); unfold has_wq; auto.
  - intros _. destruct (Hc t Hpt) as [|[v Hv]]; [by left|right]. exists v.
    rewrite upd_ne by congruence. rewrite Hv. unfold active. tauto.
Qed.

Lemma minv_pop t m : minv m → t ≠ 0 → pc m t = Popping → minv (notify_pop t m).
Proof.
  intros [H0 Ho Hl Hq Hnd Hf Ha Hc Hw] Ht Hpt.
  assert (wq_lock m = Some t) as Hlk by (apply Hl; unfold has_wq; auto).
  assert (∀ u, u ≠ t → ¬ has_wq (pc m u)) as Hno by (intros u Hne Hu%Hl; congruence).
  unfold notify_pop. destruct (wq m) as [|x l] eqn:Hwq.
  - split; simpl; rewrite ?Hwq.
    + by rewrite upd_ne.
    + intros u. rewrite <- Ho. who u t; intuition congruence.
    + intros u. unfold has_wq in *. who u t; [split; [intuition congruence|done]|].
      split; [|done]. intros Hu. by destruct (Hno u).
    + intros u. rewrite Hq. who u t; intuition congruence.
    + done.
    + intros u. rewrite Hf. who u t; intuition congruence.
    + intros u. by who u t.
    + intros u. who u t; [done|]. intros Hu. destruct (Hno u); unfold has_wq; auto.
    + done.
  - assert (pc m x = Sleeping) as Hx by (apply Hq; set_solver).
    assert (x ≠ t) as Hxt by congruence. apply NoDup_cons in Hnd as [Hnx Hnd].
    cbn [pc set_in_wq set_wq]. rewrite decide_True by done.
    assert (∀ u, u ∈ l ↔ pc m u = Sleeping ∧ u ≠ x) as Hq'.
    { intros u. rewrite <- Hq, elem_of_cons. split; [|tauto]. intros Hu. split; [auto|by intros ->]. }
    split; simpl.
    + rewrite upd_ne by done. rewrite upd_ne by congruence. done.
    + intros u. rewrite <- Ho. who u t; [intuition congruence|]. who u x; intuition congruence.
    + intros u. unfold has_wq in *. who u t; [split; [intuition congruence|done]|].
      split; [|done]. who u x; [intuition congruence|]. intros Hu. by destruct (Hno u).
    + intros u. rewrite Hq'. who u t; [intuition congruence|]. who u x; intuition congruence.
    + done.
    + intros u. who u t; [rewrite Hf; intuition congruence|].
      who u x; [done|apply Hf].
    + intros u. who u t; [done|]. by who u x.
    + intros u. who u t; [done|]. who u x; [done|]. intros Hu. destruct (Hno u); unfold has_wq; auto.
    + intros _. right. exists x. rewrite upd_ne, upd_eq by done. unfold active. tauto.
Qed.

#[export] Hint Resolve minv_take minv_check minv_block minv_swap minv_pop : kernel.

Lemma minv_act t a m m' : minv m → t ≠ 0 → act t a m = Some m' → minv m'.
Proof.
  intros Hm Ht. unfold act.
  destruct a as [sp| |], (pc m t) eqn:Hpt; try done.
  - intros [= <-]. unfold lock_cas. destruct (Z.eqb_spec (owner_id m) 0) as [He|He], sp; cbn [andb negb].
    2:{ apply minv_acquire; [done..| |done]. rewrite Hpt. unfold quiet. auto. }
    all: destruct (Z.eqb_spec (owner_id m) t) as [He'|He'];
      [exfalso; pose proof (proj2 (i_owner _ Hm t) (conj He' Ht)); congruence|].
    all: apply minv_quiet; rewrite ?Hpt; unfold quiet, active; tauto.
  - eauto with kernel.
  - intros [= <-]. auto with kernel.
  - intros [= <-]. auto with kernel.
  - unfold wait_cancel. destruct (in_wq m t) eqn:Hin.
    { apply (i_flag _ Hm) in Hin. congruence. }
    intros [= <-]. apply minv_quiet; rewrite ?Hpt; unfold quiet, active; tauto.
  - intros [= <-]. auto with kernel.
  - eauto with kernel.
  - intros [= <-]. auto with kernel.
  - intros [= <-]. apply minv_quiet; rewrite ?Hpt; unfold quiet, active; tauto.
  - intros [= <-]. unfold try_lock. destruct (Z.eqb_spec (owner_id m) 0); [|done].
    apply minv_acquire; [done..| |done]. rewrite Hpt. unfold quiet. auto.
Qed.

Lemma minv_reachable m : rtc mstep RawMutex_new m → minv m.
Proof.
  intros Hs. eapply (rtc_preserved mstep minv); [|split; simpl|exact Hs]; try done.
  - intros a b (t & x & Ht & Hx) Ha. by eapply minv_act.
  - intros t. split; [done|]. intros [<- ?]. done.
  - intros t. unfold has_wq. split; [intros [?|[?|?]]; done|done].
  - intros t. split; [set_solver|done].
  - constructor.
Qed.

(** C5: however the tasks interleave, at most one of them holds the mutex, it
    is the one the owner word names, and neither assertion of [lock] and
    [unlock] fails. *)
Theorem mutual_exclusion (m : RawMutex) :
  rtc mstep RawMutex_new m →
  (∀ t u, pc m t = Holding → pc m u = Holding → t = u) ∧
  (∀ t, pc m t = Holding ↔ owner_id m = t ∧ t ≠ 0) ∧ (∀ t, pc m t ≠ Crashed).
Proof.
  intros Hs%minv_reachable. split_and!; [|apply Hs..].
  intros t u [??]%(i_owner _ Hs) [??]%(i_owner _ Hs). congruence.
Qed.

(** C6: no wake-up of the mutex is lost. While a task sleeps on it, the mutex
    has an owner, or some task is on its way to take it or to notify; and
    there is always a task inside a call, or holding the mutex, that can move. *)
Theorem no_lost_wakeup (m : RawMutex) (t : Z) :
  rtc mstep RawMutex_new m → pc m t = Sleeping →
  (owner_id m ≠ 0 ∨ ∃ u, active (pc m u)) ∧
  ∃ u m', u ≠ 0 ∧ pc m u ≠ Outside ∧ act u (Go false) m = Some m'.
Proof.
  intros Hs%minv_reachable Ht. pose proof Hs as [H0 Ho Hl Hq Hnd Hf Ha Hc Hw].
  assert (owner_id m ≠ 0 ∨ ∃ u, active (pc m u)) as Hact.
  { apply Hw. apply Hq in Ht. by destruct (wq m); [apply elem_of_nil in Ht|]. }
  split; [done|].
  assert (∀ u, pc m u ≠ Outside → u ≠ 0) as Hnz by (intros u Hu ->; congruence).
  destruct (wq_lock m) as [v|] eqn:Hlk.
  - assert (has_wq (pc m v)) as Hv by by apply Hl. unfold act. destruct Hv as [Hv|[Hv|Hv]]; exists v; rewrite Hv;
      eexists; (split_and!; [apply Hnz; congruence|done|done]).
  - destruct Hact as [Hown|[u Hu]].
    + exists (owner_id m). assert (pc m (owner_id m) = Holding) as Hh by by apply Ho.
      unfold act. rewrite Hh. by eexists.
    + exists u. assert (pc m u ≠ Outside) as Hout by (unfold active in Hu; intuition congruence).
      assert (in_wq m u ≠ true) as Hin by (rewrite Hf; unfold active in Hu; intuition congruence).
      apply not_true_is_false in Hin. unfold act, take_wq, wait_cancel. rewrite Hlk, Hin.
      destruct Hu as [E|[E|[E|[E|[E|E]]]]]; rewrite E; eexists;
        (split_and!; [apply Hnz; congruence|done|done]).
Qed.

(** ** Witnesses: task 1 takes the mutex, task 2 goes to sleep on it *)

Definition mutex_trace : list (Z * Act) :=
  [(1, CallLock); (1, Go false); (2, CallLock); (2, Go false); (2, Go false); (2, Go false); (2, Go false)].
Fixpoint mrun (l : list (Z * Act)) (m : RawMutex) : option RawMutex :=
  match l with
  | [] => Some m
  | (t, a) :: l' => if decide (t = 0) then None else m' ← act t a m; mrun l' m'
  end.

Lemma mrun_steps l m m' : mrun l m = Some m' → rtc mstep m m'.
Proof.
  revert m. induction l as [|[t a] l IH]; intros m; simpl; [by intros [= <-]; constructor|].
  case_decide; [done|]. destruct (act t a m) as [m1|] eqn:Ha; simpl; [|done].
  intros Hr. eapply rtc_l; [|by apply IH]. by exists t, a.
Qed.

Definition mutex_state : RawMutex := default RawMutex_new (mrun mutex_trace RawMutex_new).

Lemma mutual_exclusion_witness : pc mutex_state 1 = Holding ∧ owner_id mutex_state = 1.
Proof.
  destruct (mutual_exclusion mutex_state) as (_ & Ho & _).
  { apply (mrun_steps mutex_trace). by vm_compute. }
  split; [by vm_compute|]. apply (Ho 1). by vm_compute.
Defined.

Lemma no_lost_wakeup_witness :
  pc mutex_state 2 = Sleeping ∧ ∃ u m', u ≠ 0 ∧ act u (Go false) mutex_state = Some m'.
Proof.
  destruct (no_lost_wakeup mutex_state 2) as (_ & u & m' & ? & _ & ?).
  { apply (mrun_steps mutex_trace). by vm_compute. }
  { by vm_compute. }
  split; [by vm_compute|]. by exists u, m'.
Defined.
