(* ===== verification/Futex.v ===== *)
(** * Futexes

    Model of [src/core/src/futex.rs] (the table of a process that maps an
    address to a wait queue, with the reference counts of the queues) and
    [src/api/src/imp/futex.rs]. *)

From S2P Require Import Prelude Abi Tasks.

#[local] Open Scope Z_scope.

Definition FUTEX_WAIT : Z := 0.
Definition FUTEX_WAKE : Z := 1.
Definition FUTEX_REQUEUE : Z := 3.
Definition FUTEX_CMP_REQUEUE : Z := 4.
(** As a [u32]. *)
Definition FUTEX_CMD_MASK : Z := 4294966911.

(** ** The table

    A queue is named by a number; [strong] is the reference count of its
    [Arc], and [guards] are the [WaitQueueGuard]s that exist, each with its
    key and queue. *)
Record FutexTable := mkFutex {
  entries : gmap Z Z;
  strong : Z → Z;
  guards : list (Z * Z);
  next_queue : Z;
}.

Definition FutexTable_new : FutexTable := mkFutex ∅ (λ _, 0) [] 0.

Definition add_strong (n d : Z) (f : FutexTable) : FutexTable :=
  mkFutex (entries f) (λ m, if decide (m = n) then strong f m + d else strong f m) (guards f)
    (next_queue f).
Definition set_guards (l : list (Z * Z)) (f : FutexTable) : FutexTable :=
  mkFutex (entries f) (strong f) l (next_queue f).
Definition set_entries (e : gmap Z Z) (f : FutexTable) : FutexTable :=
  mkFutex e (strong f) (guards f) (next_queue f).

(** A clone of the queue's [Arc] in a guard. *)
Definition new_guard (addr n : Z) (f : FutexTable) : (Z * Z) * FutexTable :=
  ((addr, n), set_guards ((addr, n) :: guards f) (add_strong n 1 f)).

Definition futex_get (addr : Z) (f : FutexTable) : option (Z * Z) * FutexTable :=
  match entries f !! addr with
  | None => (None, f)
  | Some n => let '(g, f) := new_guard addr n f in (Some g, f)
  end.

Definition get_or_insert (addr : Z) (f : FutexTable) : (Z * Z) * FutexTable :=
  match entries f !! addr with
  | Some n => new_guard addr n f
  | None =>
      let n := next_queue f in
      new_guard addr n (mkFutex (<[addr := n]> (entries f))
        (λ m, if decide (m = n) then 1 else strong f m) (guards f) (n + 1))
  end.

(** [table.remove] drops the reference the table holds. *)
Definition table_remove (key : Z) (f : FutexTable) : FutexTable :=
  match entries f !! key with
  | Some n => add_strong n (-1) (set_entries (delete key (entries f)) f)
  | None => f
  end.

(** [Drop for WaitQueueGuard], then the drop of its field. *)
Definition drops_entry (g : Z * Z) (is_empty : bool) (f : FutexTable) : bool :=
  (strong f g.2 =? 1) && is_empty.
Definition drop_guard (g : Z * Z) (is_empty : bool) (f : FutexTable) : FutexTable :=
  let f := if drops_entry g is_empty f then table_remove g.1 f else f in
  match list_find (λ x, x = g) (guards f) with
  | Some (i, _) => add_strong g.2 (-1) (set_guards (delete i (guards f)) f)
  | None => f
  end.

(** ** The system call *)

Section futex.
Context {R L : Type} `{HR : !Scheduler R} `{HL : !TimerList L}.

Definition Fst : Type → Type := st (FutexTable * Cpu R L) LinuxError.

Definition on_table {A} (f : FutexTable → A * FutexTable) : Fst A := λ s,
  (Ok (f s.1).1, ((f s.1).2, s.2)).
Definition on_queues {A} (f : Cpu R L → A * Cpu R L) : Fst A := λ s,
  (Ok (f s.2).1, (s.1, (f s.2).2)).
Definition on_task {A} (m : Cst A) : Fst A :=
  st_zoom snd (λ c s, (s.1, c)) (st_map_err (λ e : Empty_set, match e with end) m).
Definition drop_wq (g : Z * Z) : Fst () := λ s,
  (Ok (), (drop_guard g (bool_decide (queues s.2 (WqUser g.2) = [])) s.1, s.2)).

(** [for _ in 0..value { if !wq.notify_one(false) { break; } count += 1; }]. *)
Fixpoint notify_n (n : nat) (q : WqId) (c : Cpu R L) : Z * Cpu R L :=
  match n with
  | O => (0, c)
  | S n' =>
      let '(woken, c) := notify_one q false c in
      if woken : bool then let '(count, c) := notify_n n' q c in (1 + count, c) else (0, c)
  end.

(** [FUTEX_WAIT] up to the point where the task is off the CPU. [word] is the
    value read through [uaddr], [timeout] what was read through the third
    pointer, a duration. The check of the word and the wait are two steps:
    the lock of the queue is taken by the wait only. *)
Definition futex_wait_check (word : LinuxResult Z) (value : Z) : Fst () :=
  w ← st_lift word;
  if negb (w =? value) then st_err EAGAIN else mret ().
Definition futex_wait_block (addr : Z) (timeout : LinuxResult (option Z)) (now : Z) :
    Fst ((Z * Z) * bool) :=
  wq ← on_table (get_or_insert addr);
  match timeout with
  | Err e => drop_wq wq;; st_err e
  | Panic => st_panic
  | Ok (Some dur) => on_task (wait_timeout_enter (WqUser wq.2) (now + dur));; mret (wq, true)
  | Ok None => on_task (wait_enter (WqUser wq.2));; mret (wq, false)
  end.
Definition futex_wait_begin (word : LinuxResult Z) (addr value : Z)
    (timeout : LinuxResult (option Z)) (now : Z) : Fst ((Z * Z) * bool) :=
  futex_wait_check word value;; futex_wait_block addr timeout now.
(** The rest, when the task runs again. *)
Definition futex_wait_end (wq : Z * Z) (timeout : bool) : Fst Z :=
  (if timeout then on_task (wait_timeout_resume (WqUser wq.2));; mret ()
   else on_task (wait_resume (WqUser wq.2)));;
  drop_wq wq;; mret 0.

Definition futex_wake (addr value : Z) : Fst Z :=
  wq ← on_table (futex_get addr);
  match wq with
  | None => mret 0
  | Some wq =>
      count ← on_queues (notify_n (Z.to_nat value) (WqUser wq.2));
      drop_wq wq;; mret count
  end.

Definition futex_requeue (word : LinuxResult Z) (cmp : bool) (addr value value2 addr2 value3 : Z) :
    Fst Z :=
  (if cmp then w ← st_lift word; if negb (w =? value3) then st_err EAGAIN else mret () else mret ());;
  wq ← on_table (futex_get addr);
  wq2 ← on_table (get_or_insert addr2);
  count ← match wq with
          | None => mret 0
          | Some wq =>
              count ← on_queues (notify_n (Z.to_nat value) (WqUser wq.2));
              more ← (if count =? as_isize value
                      then on_queues (requeue (WqUser wq.2) (Z.to_nat value2) (WqUser wq2.2))
                      else mret 0%nat);
              drop_wq wq;; mret (as_isize (count + Z.of_nat more))
          end;
  drop_wq wq2;; mret count.

(** A call that does not block, or the first part of one that does. *)
Definition sys_futex (word : LinuxResult Z) (addr futex_op value timeout_addr : Z)
    (timeout : LinuxResult (option Z)) (now addr2 value3 : Z) : Fst (Z + (Z * Z) * bool) :=
  let command := Z.land futex_op FUTEX_CMD_MASK in
  if command =? FUTEX_WAIT then
    w ← futex_wait_begin word addr value timeout now; mret (inr w)
  else if command =? FUTEX_WAKE then
    count ← futex_wake addr value;
    on_task yield_current;;
    mret (inl count)
  else if (command =? FUTEX_REQUEUE) || (command =? FUTEX_CMP_REQUEUE) then
    count ← futex_requeue word (command =? FUTEX_CMP_REQUEUE) addr value (as_u32 timeout_addr) addr2
              value3;
    mret (inl count)
  else st_err ENOSYS.

(** ** Reference counts *)

Definition guards_of (n : Z) (l : list (Z * Z)) : Z := Z.of_nat (length (filter (λ g, g.2 = n) l)).

Record futex_ok (f : FutexTable) : Prop := mkFutexOk {
  fo_count a n : entries f !! a = Some n → strong f n = 1 + guards_of n (guards f);
  fo_guard a n : (a, n) ∈ guards f → entries f !! a = Some n;
  fo_fresh a n : entries f !! a = Some n → n < next_queue f;
  fo_inj a b n : entries f !! a = Some n → entries f !! b = Some n → a = b;
}.

Lemma guards_of_cons n a m l : guards_of n ((a, m) :: l) = guards_of n l + (if decide (m = n) then 1 else 0).
Proof. unfold guards_of. rewrite filter_cons. simpl. case_decide; simpl; lia. Qed.
Lemma guards_of_perm n l l' : l ≡ₚ l' → guards_of n l = guards_of n l'.
Proof. intros Hp. unfold guards_of. by rewrite Hp. Qed.

Lemma new_guard_ok a n f :
  futex_ok f → entries f !! a = Some n →
  futex_ok (new_guard a n f).2 ∧ entries (new_guard a n f).2 = entries f.
Proof.
  intros [Hc Hg Hf Hi] Ha. split; [|done]. split; simpl.
  - intros b m Hb. rewrite guards_of_cons. case_decide as Hm; [subst|].
    + rewrite decide_True by done. rewrite (Hc b n) by done. lia.
    + rewrite decide_False by congruence. rewrite (Hc b m) by done. lia.
  - intros b m [[= -> ->]|Hin]%elem_of_cons; auto.
  - done.
  - done.
Qed.

Lemma futex_get_ok a f :
  futex_ok f → futex_ok (futex_get a f).2 ∧ entries (futex_get a f).2 = entries f.
Proof.
  intros Hf. unfold futex_get. destruct (entries f !! a) as [n|] eqn:Ha; [|done].
  by apply (new_guard_ok a n f).
Qed.

Lemma get_or_insert_ok a f :
  futex_ok f → let '(g, f') := get_or_insert a f in
  futex_ok f' ∧ entries f ⊆ entries f' ∧ g.1 = a ∧ entries f' !! a = Some g.2 ∧ g ∈ guards f'.
Proof.
  intros Hf. unfold get_or_insert. destruct (entries f !! a) as [n|] eqn:Ha.
  { destruct (new_guard_ok a n f Hf Ha) as [Hok He]. simpl in *. rewrite Ha. split_and!; try done.
    set_solver. }
  set (n := next_queue f). set (f1 := mkFutex _ _ _ _).
  pose proof Hf as [Hc Hg Hn Hi].
  assert (guards_of n (guards f) = 0) as Hz.
  { unfold guards_of. destruct (filter _ _) as [|[b m] l] eqn:Hfl; [done|].
    assert ((b, m) ∈ filter (λ g : Z * Z, g.2 = n) (guards f)) as Hin by (rewrite Hfl; set_solver).
    apply list_elem_of_filter in Hin as [Hm Hin]. simpl in Hm. apply Hg, Hn in Hin. lia. }
  assert (futex_ok f1) as H1.
  { split; unfold f1; simpl.
    - intros b m. destruct (decide (b = a)) as [->|Hne].
      + rewrite lookup_insert_eq. intros [= <-]. rewrite decide_True by done. lia.
      + rewrite lookup_insert_ne by done. intros Hb. pose proof (Hn b m Hb).
        rewrite decide_False by lia. by apply (Hc b).
    - intros b m Hin. rewrite lookup_insert_ne; [by apply Hg|]. intros ->. apply Hg in Hin. congruence.
    - intros b m. destruct (decide (b = a)) as [->|Hne].
      + rewrite lookup_insert_eq. intros [= <-]. lia.
      + rewrite lookup_insert_ne by done. intros Hb. pose proof (Hn b m Hb). lia.
    - intros b d m. destruct (decide (b = a)) as [->|], (decide (d = a)) as [->|];
        rewrite ?lookup_insert_eq, ?lookup_insert_ne by done; [done|..|apply Hi].
      + intros [= <-] Hd. pose proof (Hn d _ Hd). lia.
      + intros Hb [= <-]. pose proof (Hn b _ Hb). lia. }
  assert (entries f1 !! a = Some n) as He by apply lookup_insert_eq.
  destruct (new_guard_ok a n f1 H1 He) as [Hok Hent]. simpl in *. split_and!; try done; [|set_solver].
  by apply insert_subseteq.
Qed.

(** A guard keeps a reference beside the table's, so its own drop never sees
    the count 1. *)
Lemma drops_entry_false g b f : futex_ok f → g ∈ guards f → drops_entry g b f = false.
Proof.
  intros [Hc Hg Hf Hi] Hin. destruct g as [a n]. unfold drops_entry. simpl.
  rewrite (Hc a n) by auto. unfold guards_of.
  assert ((a, n) ∈ filter (λ g : Z * Z, g.2 = n) (guards f)) as Hn by by apply list_elem_of_filter.
  destruct (filter _ _) as [|x l]; [set_solver|]. simpl length.
  destruct (Z.eqb_spec (1 + Z.of_nat (S (length l))) 1); [lia|done].
Qed.

Lemma drop_guard_ok g b f :
  futex_ok f → g ∈ guards f →
  futex_ok (drop_guard g b f) ∧ entries (drop_guard g b f) = entries f ∧
  ∀ g', g' ∈ guards f → g' ≠ g → g' ∈ guards (drop_guard g b f).
Proof.
  intros Hok Hin. unfold drop_guard. rewrite drops_entry_false by done.
  destruct (list_find (λ x, x = g) (guards f)) as [[i x]|] eqn:Hfind; [|done].
  apply list_find_Some in Hfind as (Hi & -> & _). destruct g as [a n].
  pose proof (delete_Permutation _ _ _ Hi) as Hp.
  split; [|split; [done|intros g' Hg' Hne; simpl; rewrite Hp in Hg'; set_solver]]. destruct Hok as [Hc Hg Hf Hj]. split; simpl.
  - intros b' m Hb. pose proof (Hc b' m Hb) as Hs. rewrite (guards_of_perm m _ _ Hp), guards_of_cons in Hs.
    repeat case_decide; simplify_eq; lia.
  - intros b' m Hbm. apply Hg. rewrite Hp. set_solver.
  - done.
  - done.
Qed.

(** ** The calls *)

#[local] Abbreviation core := (core_but None).

Lemma notify_n_spec n q c :
  core c →
  let '(count, c') := notify_n n q c in
  count = Z.of_nat (n `min` length (queues c q)) ∧ core c' ∧ woke c c' ∧
  queues c' q = drop n (queues c q) ∧ (∀ q', q' ≠ q → queues c' q' = queues c q') ∧
  (∀ t, t ∈ take n (queues c q) → state c t = Blocked → state c' t = Ready) ∧
  (∀ t, t ∉ take n (queues c q) → state c' t = state c t).
Proof.
  revert c. induction n as [|n IH]; intros c Hc; cbn [notify_n].
  { split_and!; try done; [apply woke_refl|set_solver]. }
  unfold notify_one. destruct (queues c q) as [|t l] eqn:Hq.
  { split_and!; try done; [apply woke_refl|set_solver]. }
  destruct (unblock_one_spec q l t false c Hc) as (Hc1 & Hw1 & Hq1 & Ho1 & Ht1 & Hs1);
    [rewrite Hq; set_solver|].
  set (c1 := unblock_one_task t false (set_queue q l c)) in *.
  specialize (IH c1 Hc1). destruct (notify_n n q c1) as [count c'].
  destruct IH as (-> & Hc' & Hw' & Hq' & Ho' & Hb' & Hs'). rewrite Hq1 in *.
  split_and!; [simpl; lia|done|by eapply woke_trans|done| | |].
  - intros q' Hne. rewrite Ho', Ho1; done.
  - intros u. cbn [take]. rewrite elem_of_cons. intros Hu Hbl. destruct (decide (u = t)) as [->|Hne].
    + rewrite decide_True in Ht1 by done.
      destruct Hw' as (_ & _ & _ & Hw'). destruct (Hw' t) as [->|[? ->]]; done.
    + destruct Hu as [?|Hu]; [done|]. apply Hb'; [done|]. by rewrite Hs1.
  - intros u. cbn [take]. rewrite not_elem_of_cons. intros [Hne Hu].
    rewrite Hs', Hs1 by done. done.
Qed.

(** [FUTEX_WAKE] wakes the tasks that wait on the address in the order in
    which they came, at most as many as asked for, returns how many, and
    changes nothing else. *)
Theorem futex_wake_spec (addr value n : Z) (f : FutexTable) (c : Cpu R L) :
  futex_ok f → on_cpu c → 0 ≤ value → entries f !! addr = Some n →
  let waiting := queues c (WqUser n) in
  let '(r, (f', c')) := futex_wake addr value (f, c) in
  r = Ok (Z.min value (Z.of_nat (length waiting))) ∧ futex_ok f' ∧ entries f' = entries f ∧ on_cpu c' ∧
  queues c' (WqUser n) = drop (Z.to_nat value) waiting ∧
  (∀ q, q ≠ WqUser n → queues c' q = queues c q) ∧
  (∀ t, t ∈ take (Z.to_nat value) waiting → state c t = Blocked → state c' t = Ready) ∧
  (∀ t, t ∉ take (Z.to_nat value) waiting → state c' t = state c t).
Proof.
  intros Hf Hc Hv Ha waiting. unfold futex_wake, futex_get, mbind, st_bind, on_table. cbn [fst snd].
  rewrite Ha. destruct (new_guard_ok addr n f Hf Ha) as [Hf1 He1].
  unfold new_guard in *. cbn [fst snd] in *. set (f1 := set_guards _ _) in *.
  unfold on_queues. cbn [fst snd]. pose proof (notify_n_spec (Z.to_nat value) (WqUser n) c (proj1 Hc)) as H.
  destruct (notify_n (Z.to_nat value) (WqUser n) c) as [count c'].
  destruct H as (Hcount & Hc' & Hw & Hq & Ho & Hb & Hs). unfold drop_wq. cbn [fst snd].
  destruct (drop_guard_ok (addr, n) (bool_decide (queues c' (WqUser n) = [])) f1 Hf1) as (Hf2 & He2 & _);
    [unfold f1; set_solver|].
  split; [rewrite Hcount; f_equal; unfold waiting; lia|].
  split; [exact Hf2|]. split; [by rewrite He2, He1|]. split; [eauto with kernel|done].
Qed.

Lemma requeue_spec q k q' (c : Cpu R L) :
  q ≠ q' → let '(moved, c') := requeue q k q' c in
  moved = (k `min` length (queues c q))%nat ∧ queues c' q = drop k (queues c q) ∧
  queues c' q' = queues c q' ++ take k (queues c q) ∧ ∀ t, state c' t = state c t.
Proof.
  intros Hne. unfold requeue. set (m := (k `min` length (queues c q))%nat).
  assert (take m (queues c q) = take k (queues c q) ∧ drop m (queues c q) = drop k (queues c q)) as [-> ->].
  { unfold m. destruct (Nat.le_ge_cases k (length (queues c q))).
    - by rewrite Nat.min_l.
    - rewrite Nat.min_r, !take_ge, !drop_ge by lia. done. }
  split; [done|]. destruct (take k (queues c q)) eqn:Ht; simpl.
  - rewrite decide_True, decide_False, app_nil_r by done. done.
  - rewrite decide_False, !decide_True by done. rewrite decide_False by done. done.
Qed.

(** C36: [FUTEX_REQUEUE] wakes the first [value] tasks that wait on the address
    and moves the next [value2] ones, in order, behind those that wait on the
    second address; it returns the number of tasks woken or moved. No task is
    lost or queued twice. *)
Theorem futex_requeue_spec (addr value value2 addr2 value3 n n2 : Z) (f : FutexTable) (c : Cpu R L) :
  futex_ok f → on_cpu c → 0 ≤ value < 2 ^ 32 → 0 ≤ value2 < 2 ^ 32 → addr ≠ addr2 →
  entries f !! addr = Some n → entries f !! addr2 = Some n2 →
  Z.of_nat (length (queues c (WqUser n))) < 2 ^ 62 →
  let waiting := queues c (WqUser n) in
  let '(r, (f', c')) := futex_requeue (Ok value3) true addr value value2 addr2 value3 (f, c) in
  r = Ok (Z.min (value + value2) (Z.of_nat (length waiting))) ∧ futex_ok f' ∧ on_cpu c' ∧
  queues c' (WqUser n) = drop (Z.to_nat value2) (drop (Z.to_nat value) waiting) ∧
  queues c' (WqUser n2)
    = queues c (WqUser n2) ++ take (Z.to_nat value2) (drop (Z.to_nat value) waiting) ∧
  (∀ t, t ∈ take (Z.to_nat value) waiting → state c t = Blocked → state c' t = Ready) ∧
  (∀ t, t ∉ take (Z.to_nat value) waiting → state c' t = state c t).
Proof.
  intros Hf Hc Hv Hv2 Hne Ha Ha2 Hlen waiting.
  assert (n ≠ n2) as Hnn by (intros ->; by apply Hne, (fo_inj f Hf _ _ n2)).
  unfold futex_requeue, mbind, st_bind, st_lift. rewrite Z.eqb_refl. cbn [negb mret st_ret].
  unfold on_table, futex_get, get_or_insert. cbn [fst snd]. rewrite Ha.
  destruct (new_guard_ok addr n f Hf Ha) as [Hf1 He1].
  destruct (new_guard addr n f) as [g1 f1] eqn:Hg1. cbn [fst snd] in *.
  rewrite He1, Ha2. destruct (new_guard_ok addr2 n2 f1 Hf1) as [Hf2 He2]; [by rewrite He1|].
  destruct (new_guard addr2 n2 f1) as [g2 f2] eqn:Hg2. cbn [fst snd] in *.
  injection Hg1 as <- <-. injection Hg2 as <- <-. set (f1 := set_guards _ _) in *.
  set (f2 := set_guards ((addr2, n2) :: _) _) in *. unfold on_queues. cbn [fst snd].
  pose proof (notify_n_spec (Z.to_nat value) (WqUser n) c (proj1 Hc)) as H.
  destruct (notify_n (Z.to_nat value) (WqUser n) c) as [count c1].
  destruct H as (-> & Hc1 & Hw & Hq & Ho & Hb & Hs). cbn [fst snd]. fold waiting in Hq, Hb, Hs, Hlen |- *.
  ints.
  pose proof (requeue_spec (WqUser n) (Z.to_nat value2) (WqUser n2) c1 ltac:(congruence)) as Hr.
  pose proof (requeue_inv (WqUser n) (Z.to_nat value2) (WqUser n2) c1 Hc1) as [Hc2 Hw2].
  assert (∀ b b', futex_ok (drop_guard (addr2, n2) b (drop_guard (addr, n) b' f2))) as Hfin.
  { intros b b'. destruct (drop_guard_ok (addr, n) b' f2 Hf2) as (? & _ & Hg); [unfold f2; set_solver|].
    apply drop_guard_ok; [done|]. apply Hg; [unfold f2; set_solver|congruence]. }
  destruct (Z.eqb_spec (Z.of_nat (Z.to_nat value `min` length waiting)) value) as [Hk|Hk].
  - cbn [fst snd]. destruct (requeue (WqUser n) (Z.to_nat value2) (WqUser n2) c1) as [moved c2].
    destruct Hr as (-> & Hq2 & Hq2' & Hs2). cbn [fst snd]. unfold drop_wq. cbn [fst snd].
    rewrite wraps_id by (unfold in_s; rewrite ?Hq, ?length_drop; lia).
    split; [f_equal; rewrite Hq, length_drop; lia|]. split; [apply Hfin|].
    split; [eauto with kernel|]. cbn [fst snd]. rewrite Hq2, Hq2', Hq, Ho by congruence.
    split_and!; [done..| |]; intros t Ht; rewrite Hs2; auto.
  - cbn [mret st_ret]. unfold drop_wq. cbn [fst snd].
    assert (drop (Z.to_nat value) waiting = []) as Hd by (apply drop_ge; lia).
    ints. split; [f_equal; lia|]. split; [apply Hfin|].
    split; [eauto with kernel|]. cbn [fst snd]. rewrite Hq, Hd, Ho, drop_nil, take_nil, app_nil_r by congruence.
    by split_and!.
Qed.

(** [FUTEX_WAIT] does not check the word under the lock of the queue. When
    another CPU changes the word and calls [FUTEX_WAKE] after the check, the
    wake-up finds an empty queue and returns 0, and the waiting task then goes
    to sleep all the same, although the word no longer has the value it was
    told to wait on. *)
Theorem futex_wait_misses_wakeup (addr old value n : Z) (f : FutexTable) (c : Cpu R L) :
  futex_ok f → on_cpu c → current c ≠ idle → 0 ≤ value →
  entries f !! addr = Some n → queues c (WqUser n) = [] →
  futex_wait_check (Ok old) old (f, c) = (Ok (), (f, c)) ∧
  ∃ f1 c1 f2 c2, futex_wake addr value (f, c) = (Ok 0, (f1, c1)) ∧ current c1 = current c ∧
    futex_wait_block addr (Ok None) 0 (f1, c1) = (Ok ((addr, n), false), (f2, c2)) ∧
    state c2 (current c) = Blocked ∧ queues c2 (WqUser n) = [current c].
Proof.
  intros Hf Hc Hi Hv Ha Hq.
  split; [unfold futex_wait_check, mbind, st_bind, st_lift; by rewrite Z.eqb_refl|].
  destruct (new_guard_ok addr n f Hf Ha) as [Hf1 He1].
  assert (futex_wake addr value (f, c) = (Ok 0, (drop_guard (addr, n) true (new_guard addr n f).2, c))) as Hw.
  { unfold futex_wake, on_table, futex_get, mbind, st_bind. cbn [fst snd]. rewrite Ha.
    unfold on_queues. cbn [fst snd new_guard].
    assert (notify_n (Z.to_nat value) (WqUser n) c = (0, c)) as ->.
    { destruct (Z.to_nat value); [done|]. cbn [notify_n]. unfold notify_one. by rewrite Hq. }
    unfold drop_wq. cbn [fst snd]. by rewrite Hq. }
  destruct (drop_guard_ok (addr, n) true _ Hf1) as (Hf2 & He2 & _); [set_solver|].
  set (f1 := drop_guard _ _ _) in *.
  destruct (blocked_resched_sleeps (WqUser n) c Hc Hi) as (c2 & Hb & _ & Hs & Hq2).
  exists f1, c, (new_guard addr n f1).2, c2. split_and!; [done|done| |done|by rewrite Hq2, Hq].
  unfold futex_wait_block, on_table, get_or_insert, mbind, st_bind. cbn [fst snd].
  rewrite He2, He1, Ha. unfold on_task, st_zoom, st_map_err, wait_enter. cbn [fst snd new_guard].
  by rewrite Hb.
Qed.

(** What the calls do to the table: guards come and go. *)
Inductive table_step (f : FutexTable) : FutexTable → Prop :=
| ts_get a : table_step f (futex_get a f).2
| ts_insert a : table_step f (get_or_insert a f).2
| ts_drop g b : g ∈ guards f → table_step f (drop_guard g b f).

(** a queue that has been entered in the table stays there for good: the
    guard that is dropped last still sees two references, its own and the
    table's, so the branch that removes the entry is never taken. *)
Theorem futex_queues_never_removed (f f' : FutexTable) :
  rtc table_step FutexTable_new f → rtc table_step f f' →
  entries f ⊆ entries f' ∧ ∀ g b, g ∈ guards f' → drops_entry g b f' = false.
Proof.
  assert (∀ a b, table_step a b → futex_ok a → futex_ok b ∧ entries a ⊆ entries b) as Hstep.
  { intros a b [x|x|g e Hg] Ha.
    - destruct (futex_get_ok x a Ha) as [? ->]. done.
    - pose proof (get_or_insert_ok x a Ha) as H. by destruct (get_or_insert x a); destruct H as (? & ? & _).
    - destruct (drop_guard_ok g e a Ha Hg) as (? & -> & _). done. }
  intros H0 H1. assert (futex_ok f) as Hf.
  { eapply (rtc_preserved table_step); [|split|exact H0]; try done.
    - intros a b Hab Ha. by apply (Hstep a b).
    - intros a n Ha. set_solver. }
  clear H0. assert (futex_ok f' ∧ entries f ⊆ entries f') as [Hf' Hsub].
  { induction H1 as [x|x y z Hxy Hyz IH]; [done|]. destruct (Hstep x y Hxy Hf) as [Hy Hsub].
    destruct (IH Hy) as [? Hyz']. split; [done|]. by etrans. }
  split; [done|]. intros g b Hg. by apply drops_entry_false.
Qed.

End futex.

(** ** Witnesses *)

(** Task 2 waits at address 4096 and task 4 at address 8192; gc runs. *)
Definition futex_cpu : cpu := run
  [OSpawn; OWait (WqUser 0); OYield; OWait (WqUser 1)] init_scheduler.
Definition futex_table : FutexTable := (get_or_insert 8192 (get_or_insert 4096 FutexTable_new).2).2.

Lemma futex_table_ok : futex_ok futex_table.
Proof.
  unfold futex_table. assert (futex_ok FutexTable_new) as H0.
  { split; try done. intros a n Ha. set_solver. }
  pose proof (get_or_insert_ok 4096 _ H0) as H1. destruct (get_or_insert 4096 _) as [g f].
  destruct H1 as (H1 & _). pose proof (get_or_insert_ok 8192 _ H1) as H2.
  destruct (get_or_insert 8192 _) as [g' f']. apply H2.
Qed.
Lemma futex_cpu_inv : on_cpu futex_cpu.
Proof. apply reachable_inv, run_steps. by vm_compute. Qed.

Lemma futex_wake_spec_witness :
  (futex_wake 4096 5 (futex_table, futex_cpu)).1 = Ok 1 ∧
  state (futex_wake 4096 5 (futex_table, futex_cpu)).2.2 2 = Ready.
Proof.
  pose proof (futex_wake_spec 4096 5 0 futex_table futex_cpu futex_table_ok futex_cpu_inv
    ltac:(done) ltac:(by vm_compute)) as H.
  destruct (futex_wake _ _ _) as [r [f' c']]. destruct H as (-> & _ & _ & _ & _ & _ & Hb & _).
  split; [by vm_compute|]. apply Hb; [by apply (bool_decide_unpack _); vm_compute|by vm_compute].
Defined.

Lemma futex_requeue_spec_witness :
  (futex_requeue (Ok 7) true 4096 0 1 8192 7 (futex_table, futex_cpu)).1 = Ok 1 ∧
  queues (futex_requeue (Ok 7) true 4096 0 1 8192 7 (futex_table, futex_cpu)).2.2 (WqUser 1) = [4; 2].
Proof.
  pose proof (futex_requeue_spec 4096 0 1 8192 7 0 1 futex_table futex_cpu futex_table_ok futex_cpu_inv
    ltac:(done) ltac:(done) ltac:(done) ltac:(by vm_compute) ltac:(by vm_compute) ltac:(by vm_compute)) as H.
  destruct (futex_requeue _ _ _ _ _ _ _ _) as [r [f' c']]. destruct H as (-> & _ & _ & _ & Hq & _).
  split; [by vm_compute|]. cbn [fst snd]. rewrite Hq. by vm_compute.
Defined.

Lemma futex_queues_never_removed_witness :
  entries futex_table ⊆ entries (drop_guard (4096, 0) true futex_table).
Proof.
  apply (futex_queues_never_removed futex_table).
  - eapply rtc_l; [apply (ts_insert _ 4096)|]. eapply rtc_l; [apply (ts_insert _ 8192)|]. constructor.
  - apply rtc_once, ts_drop. vm_compute. by right; left.
Defined.

(** Task 4 calls [FUTEX_WAIT] at the address 8192, where nobody waits. *)
Lemma futex_wait_misses_wakeup_witness :
  let c : cpu := run [OSpawn; OYield; OYield] init_scheduler in
  ∃ f1 c1 f2 c2, futex_wake 8192 1 (futex_table, c) = (Ok 0, (f1, c1)) ∧
    futex_wait_block 8192 (Ok None) 0 (f1, c1) = (Ok ((8192, 1), false), (f2, c2)) ∧
    state c2 4 = Blocked.
Proof.
  intros c. destruct (futex_wait_misses_wakeup 8192 7 1 1 futex_table c) as
    (_ & f1 & c1 & f2 & c2 & ? & _ & ? & Hs & _); [exact futex_table_ok| |by vm_compute..|].
  - apply reachable_inv, run_steps. by vm_compute.
  - exists f1, c1, f2, c2. split_and!; [done|done|exact Hs].
Defined.
