(* ===== verification/Process.v ===== *)
(** * Processes: their data, exit and wait

    [src/core/src/task.rs] (the data of threads and processes and the tables
    that find them), [src/api/src/imp/task/exit.rs], [wait.rs] and
    [thread.rs]. The tree of processes with its threads, groups and sessions
    is the crate [axprocess], and signals are the crate [axsignal]; the
    classes [ProcTree] and [AxSignal] state what the calls rely on. What the
    kernel shares between processes by [Arc] is named by a number, so that
    sharing an object differs from having an equal one. *)

From S2P Require Import Prelude Abi Str Pipe FdTable MemBase AddrSpace UserPtr Mmap Tasks Futex.

#[local] Open Scope Z_scope.

(** ** The crates *)

Inductive Ref : Type := RThread (tid : Z) | RProcess (pid : Z) | RGroup (pgid : Z) | RSession (sid : Z).

(** [axprocess]. A process is named by its pid and a thread by its tid.
    [live] tells whether an [Arc] of the object is left. [thread_exit] takes
    the thread out of its process, keeps the exit code unless the group is
    exiting already, and tells whether the thread was the last one.
    [process_exit] turns a process into a zombie, which stays a child of its
    parent until [free]; only the children of the zombie get a new parent. *)
Class ProcTree (P : Type) := {
  process_of : P → Z → Z;
  parent : P → Z → option Z;
  children : P → Z → list Z;
  pgid : P → Z → Z;
  sid : P → Z → Z;
  threads : P → Z → list Z;
  is_zombie : P → Z → bool;
  exit_code : P → Z → Z;
  is_group_exited : P → Z → bool;
  live : P → Ref → bool;
  fork : P → Z → Z → P;
  new_thread : P → Z → Z → P;
  thread_exit : P → Z → Z → bool * P;
  process_exit : P → Z → P;
  group_exit : P → Z → P;
  free : P → Z → P;
  fork_parent t p c : parent (fork t p c) c = Some p;
  fork_children t p c q : c ∉ children t p →
    q ∈ children (fork t p c) p ↔ q = c ∨ q ∈ children t p;
  fork_fresh t p c : p ≠ c →
    threads (fork t p c) c = [] ∧ is_group_exited (fork t p c) c = false ∧ is_zombie (fork t p c) c = false;
  new_thread_threads t p tid x : x ∈ threads (new_thread t p tid) p ↔ x = tid ∨ x ∈ threads t p;
  new_thread_exited t p tid q : is_group_exited (new_thread t p tid) q = is_group_exited t q;
  new_thread_of t p tid : process_of (new_thread t p tid) tid = p;
  new_thread_tree t p tid q : parent (new_thread t p tid) q = parent t q ∧
    children (new_thread t p tid) q = children t q;
  thread_exit_last t tid code p : process_of t tid = p →
    (thread_exit t tid code).1 = true ↔ ∀ x, x ∈ threads t p → x = tid;
  thread_exit_code t tid code p : process_of t tid = p → is_group_exited t p = false →
    exit_code (thread_exit t tid code).2 p = code;
  thread_exit_tree t tid code q : parent (thread_exit t tid code).2 q = parent t q ∧
    children (thread_exit t tid code).2 q = children t q ∧
    is_zombie (thread_exit t tid code).2 q = is_zombie t q ∧
    is_group_exited (thread_exit t tid code).2 q = is_group_exited t q;
  process_exit_zombie t p par q : parent t p = Some par →
    is_zombie (process_exit t p) q = bool_decide (q = p) || is_zombie t q;
  process_exit_tree t p q : parent (process_exit t p) p = parent t p ∧
    exit_code (process_exit t p) q = exit_code t q ∧
    is_group_exited (process_exit t p) q = is_group_exited t q ∧
    (q ≠ p → ∀ c, c ∈ children t q → c ∈ children (process_exit t p) q);
  group_exit_tree t p q : children (group_exit t p) q = children t q ∧
    is_zombie (group_exit t p) q = is_zombie t q ∧ exit_code (group_exit t p) q = exit_code t q;
  free_tree t p q : is_zombie t p = true →
    children (free t p) q = filter (λ c, c ≠ p) (children t q) ∧
    is_zombie (free t p) q = is_zombie t q ∧ exit_code (free t p) q = exit_code t q;
  free_process_of t p tid : process_of (free t p) tid = process_of t tid;
}.

(** [axsignal]: the signal managers of all threads and processes; a manager
    of a process is made from its table of actions, and one of a thread from
    the manager of its process. A number from 1 to 64 is a signal, and 0 is
    none. What is sent is the record [siginfo]: the number, the code and the
    other bytes. *)
Record SignalInfo := mkInfo { si_signo : Z; si_code : Z; si_rest : list Z }.
Definition SignalInfo_new (signo code : Z) : SignalInfo := mkInfo signo code [].
Definition SI_KERNEL : Z := 128.

Class AxSignal (S : Type) := {
  from_repr : Z → option Z;
  send_process : S → Z → SignalInfo → S;
  send_thread : S → Z → SignalInfo → S;
  sig_new_process : S → Z → Z → S;
  sig_new_thread : S → Z → Z → S;
  from_repr_signal z : 1 ≤ z ≤ 64 → from_repr z = Some z;
  from_repr_none z : ¬ (1 ≤ z ≤ 64) → from_repr z = None;
}.

Definition WNOHANG : Z := 1.
Definition WUNTRACED : Z := 2.
Definition WEXITED : Z := 4.
Definition WCONTINUED : Z := 8.
Definition WNOWAIT : Z := 16777216.
Definition WNOTHREAD : Z := 536870912.
Definition WALL : Z := 1073741824.
Definition WCLONE : Z := 2147483648.
Definition WaitOptions_all : Z :=
  foldr Z.lor 0 [WNOHANG; WUNTRACED; WEXITED; WCONTINUED; WNOWAIT; WNOTHREAD; WALL; WCLONE].

Definition SIGKILL : Z := 9.
Definition SIGCHLD : Z := 17.
Definition U32 : Layout := mkLayout 4 4.

(** ** Data ([core/src/task.rs]) *)

(** The fields of [ProcessData]; those that are [Arc]s, and the resources of
    its namespace, by name. *)
Record ProcessData := mkProcessData {
  exe_path : str;
  pd_aspace : Z;
  ns_fd_table : Z;
  ns_current_dir : Z;
  ns_current_dir_path : Z;
  pd_heap : Heap;
  child_exit_wq : WqId;
  exit_signal : option Z;
  signal_actions : Z;
  futex_table : FutexTable;
}.

(** [ProcessData::new]; [n] names what it allocates: the queue, and the queues
    its futex table will allocate, which start at a number of their own. *)
Definition ProcessData_new (heap_base n : Z) (path : str) (aspace actions : Z) (signo : option Z)
    (fd_table dir dir_path : Z) : ProcessData :=
  mkProcessData path aspace fd_table dir dir_path (mkHeap heap_base heap_base) (WqChild n) signo actions
    (mkFutex ∅ (λ _, 0) [] (2 ^ 64 * n)).

Definition is_clone_child (d : ProcessData) : bool :=
  bool_decide (exit_signal d ≠ Some SIGCHLD).

Section process.
Context {PT FA MS P S R L D : Type} `{MA : !MemoryAddr} `{HPT : !PageTable PT}
  `{HFA : !FrameAlloc FA} `{HMS : !MemorySet MS} `{FO : !FlattenObjects FileLike AX_FILE_LIMIT}
  `{HP : !ProcTree P} `{HS : !AxSignal S} `{HR : !Scheduler R} `{HL : !TimerList L} `{AxErrno}.

Abbreviation fd_table := (table FileLike AX_FILE_LIMIT).
Abbreviation AddrSpace := (AddrSpace PT MS).
Abbreviation Machine := (Machine FA).

(** A task that has not begun: its stack pointer, thread pointer and return
    value, and where it stores its id; the other registers are those of the
    trap frame of the parent. *)
Record Start := mkStart {
  st_sp : option Z; st_tls : option Z; st_retval : Z; set_child_tid : option Z; st_aspace : Z
}.

(** Everything the calls work on: the tree and the signals, the CPU, the
    data of processes, the field [clear_child_tid] of threads, the tables of
    [task.rs], and the shared objects. *)
Record World := mkWorld {
  tree : P;
  sigs : S;
  cpu : Cpu R L;
  procs : gmap Z ProcessData;
  clear_child_tid : gmap Z Z;
  thread_table : gmap Z Z;
  process_table : gmap Z Z;
  group_table : gmap Z Z;
  session_table : gmap Z Z;
  spaces : gmap Z AddrSpace;
  machine : Machine;
  fd_tables : gmap Z fd_table;
  current_dirs : gmap Z D;
  current_dir_paths : gmap Z str;
  next_arc : Z;
  starts : gmap Z Start;
}.

Definition Kst : Type → Type := st World LinuxError.

Definition set_tree (t : P) (w : World) : World :=
  mkWorld t (sigs w) (cpu w) (procs w) (clear_child_tid w) (thread_table w) (process_table w)
    (group_table w) (session_table w) (spaces w) (machine w) (fd_tables w) (current_dirs w)
    (current_dir_paths w) (next_arc w) (starts w).
Definition set_sigs (s : S) (w : World) : World :=
  mkWorld (tree w) s (cpu w) (procs w) (clear_child_tid w) (thread_table w) (process_table w)
    (group_table w) (session_table w) (spaces w) (machine w) (fd_tables w) (current_dirs w)
    (current_dir_paths w) (next_arc w) (starts w).
Definition set_cpu (c : Cpu R L) (w : World) : World :=
  mkWorld (tree w) (sigs w) c (procs w) (clear_child_tid w) (thread_table w) (process_table w)
    (group_table w) (session_table w) (spaces w) (machine w) (fd_tables w) (current_dirs w)
    (current_dir_paths w) (next_arc w) (starts w).
Definition set_proc (p : Z) (d : ProcessData) (w : World) : World :=
  mkWorld (tree w) (sigs w) (cpu w) (<[p := d]> (procs w)) (clear_child_tid w) (thread_table w)
    (process_table w) (group_table w) (session_table w) (spaces w) (machine w) (fd_tables w)
    (current_dirs w) (current_dir_paths w) (next_arc w) (starts w).
Definition set_clear_child_tid (t a : Z) (w : World) : World :=
  mkWorld (tree w) (sigs w) (cpu w) (procs w) (<[t := a]> (clear_child_tid w)) (thread_table w)
    (process_table w) (group_table w) (session_table w) (spaces w) (machine w) (fd_tables w)
    (current_dirs w) (current_dir_paths w) (next_arc w) (starts w).
Definition set_tables (tt pt gt stb : gmap Z Z) (w : World) : World :=
  mkWorld (tree w) (sigs w) (cpu w) (procs w) (clear_child_tid w) tt pt gt stb (spaces w) (machine w)
    (fd_tables w) (current_dirs w) (current_dir_paths w) (next_arc w) (starts w).
Definition set_space (i : Z) (s : AddrSpace) (m : Machine) (w : World) : World :=
  mkWorld (tree w) (sigs w) (cpu w) (procs w) (clear_child_tid w) (thread_table w) (process_table w)
    (group_table w) (session_table w) (<[i := s]> (spaces w)) m (fd_tables w) (current_dirs w)
    (current_dir_paths w) (next_arc w) (starts w).
Definition set_memory (sp : gmap Z AddrSpace) (m : Machine) (w : World) : World :=
  mkWorld (tree w) (sigs w) (cpu w) (procs w) (clear_child_tid w) (thread_table w) (process_table w)
    (group_table w) (session_table w) sp m (fd_tables w) (current_dirs w) (current_dir_paths w)
    (next_arc w) (starts w).
Definition set_dirs (ds : gmap Z D) (ps : gmap Z str) (w : World) : World :=
  mkWorld (tree w) (sigs w) (cpu w) (procs w) (clear_child_tid w) (thread_table w) (process_table w)
    (group_table w) (session_table w) (spaces w) (machine w) (fd_tables w) ds ps (next_arc w) (starts w).
Definition set_next_arc (n : Z) (w : World) : World :=
  mkWorld (tree w) (sigs w) (cpu w) (procs w) (clear_child_tid w) (thread_table w) (process_table w)
    (group_table w) (session_table w) (spaces w) (machine w) (fd_tables w) (current_dirs w)
    (current_dir_paths w) n (starts w).
Definition set_start (t : Z) (x : Start) (w : World) : World :=
  mkWorld (tree w) (sigs w) (cpu w) (procs w) (clear_child_tid w) (thread_table w) (process_table w)
    (group_table w) (session_table w) (spaces w) (machine w) (fd_tables w) (current_dirs w)
    (current_dir_paths w) (next_arc w) (<[t := x]> (starts w)).
Definition set_fd_table (i : Z) (t : fd_table) (w : World) : World :=
  mkWorld (tree w) (sigs w) (cpu w) (procs w) (clear_child_tid w) (thread_table w) (process_table w)
    (group_table w) (session_table w) (spaces w) (machine w) (<[i := t]> (fd_tables w))
    (current_dirs w) (current_dir_paths w) (next_arc w) (starts w).

(** ** The current thread and its process *)

(** [data().unwrap()]. *)
Definition data_of (p : Z) : Kst ProcessData := λ w, (unwrap_opt (procs w !! p), w).
Definition current_process : Kst Z := st_gets (λ w, process_of (tree w) (current (cpu w))).
Definition process_data : Kst ProcessData := p ← current_process; data_of p.

(** A step on the memory of the current process. *)
Definition on_space {A} (i : Z) (m : st (AddrSpace * Machine) LinuxError A) : Kst A := λ w,
  match spaces w !! i with
  | Some s => let '(r, (s', m')) := m (s, machine w) in (r, set_space i s' m' w)
  | None => (Panic, w)
  end.
Definition on_user {A} (m : st (AddrSpace * Machine) LinuxError A) : Kst A :=
  d ← process_data; on_space (pd_aspace d) m.
(** It changes the memory only. *)
Lemma on_user_memory {A} (m : st (AddrSpace * Machine) LinuxError A) w r w' :
  on_user m w = (r, w') → ∃ sp mc, w' = set_memory sp mc w.
Proof.
  assert (∃ sp mc, w = set_memory sp mc w) as Hsame by (exists (spaces w), (machine w); by destruct w).
  unfold on_user, process_data, current_process, data_of, on_space. monad.
  destruct (procs w !! _) as [d|]; simpl; [|by intros [= <- <-]].
  destruct (spaces w !! pd_aspace d) as [s|]; [|by intros [= <- <-]].
  destruct (m (s, machine w)) as [r' [s' m']]. intros [= <- <-]. by eexists _, m'.
Qed.

(** A store through a reference that [get_as_mut] gave out. *)
Definition store_u32 (a v : Z) : Kst () :=
  on_user (λ sm, (Ok (), (sm.1, (AddrSpace_write sm.1 a (le_bytes 4 (as_u32 v)) sm.2).2))).
Definition on_cpu_task {A} (m : Cst A) : Kst A :=
  st_zoom cpu set_cpu (st_map_err (λ e : Empty_set, match e with end) m).

(** ** Tables

    Lookups in the weak maps find an entry only while its object is alive. *)
Definition weak_get (t : P) (ref : Z → Ref) (m : gmap Z Z) (k : Z) : option Z :=
  match m !! k with Some x => if live t (ref x) then Some x else None | None => None end.
Definition contains_key (t : P) (ref : Z → Ref) (m : gmap Z Z) (k : Z) : bool :=
  bool_decide (is_Some (weak_get t ref m k)).

Definition add_thread_to_table (tid : Z) (w : World) : World :=
  let t := tree w in
  let tt := <[tid := tid]> (thread_table w) in
  let p := process_of t tid in
  if contains_key t RProcess (process_table w) p
  then set_tables tt (process_table w) (group_table w) (session_table w) w else
  let pt := <[p := p]> (process_table w) in
  let g := pgid t p in
  if contains_key t RGroup (group_table w) g then set_tables tt pt (group_table w) (session_table w) w else
  let gt := <[g := g]> (group_table w) in
  let s := sid t g in
  if contains_key t RSession (session_table w) s then set_tables tt pt gt (session_table w) w else
  set_tables tt pt gt (<[s := s]> (session_table w)) w.

Definition get_thread (tid : Z) (w : World) : LinuxResult Z :=
  ok_or (weak_get (tree w) RThread (thread_table w) tid) ESRCH.
Definition get_process (pid : Z) (w : World) : LinuxResult Z :=
  ok_or (weak_get (tree w) RProcess (process_table w) pid) ESRCH.
Definition get_process_group (g : Z) (w : World) : LinuxResult Z :=
  ok_or (weak_get (tree w) RGroup (group_table w) g) ESRCH.
Definition get_session (s : Z) (w : World) : LinuxResult Z :=
  ok_or (weak_get (tree w) RSession (session_table w) s) ESRCH.

(** ** Thread calls ([imp/task/thread.rs]) *)

Definition sys_getpid : Kst Z := current_process.
Definition sys_getppid : Kst Z :=
  p ← current_process; w ← st_get; st_lift (unwrap_opt (parent (tree w) p)).
Definition sys_gettid : Kst Z := st_gets (λ w, current (cpu w)).
Definition sys_set_tid_address (a : Z) : Kst Z :=
  w ← st_get;
  st_mod (set_clear_child_tid (current (cpu w)) a);;
  mret (as_isize (current (cpu w))).

(** ** Signals ([api/src/signal.rs]) *)

Definition send_signal_process (p : Z) (sig : SignalInfo) : Kst () :=
  w ← st_get;
  match procs w !! p with
  | None => st_err EPERM
  | Some _ => st_mod (λ w, set_sigs (send_process (sigs w) p sig) w)
  end.
(** Every thread a process lists carries its data. *)
Definition send_signal_thread (t : Z) (sig : SignalInfo) : Kst () :=
  st_mod (λ w, set_sigs (send_thread (sigs w) t sig) w).

(** ** Exit ([imp/task/exit.rs]) *)

(** Clear the word the thread registered, wake a waiter on it, and yield;
    [true] when it did. *)
Definition exit_clear_tid : Kst bool :=
  w ← st_get;
  r ← st_ok (on_user (get_as_mut U32 (default 0 (clear_child_tid w !! current (cpu w)))));
  match r with
  | None => mret false
  | Some a =>
      store_u32 a 0;;
      p ← current_process;
      d ← process_data;
      w ← st_get;
      let '(guard, f) := futex_get a (futex_table d) in
      let set_futex f := set_proc p (mkProcessData (exe_path d) (pd_aspace d) (ns_fd_table d)
        (ns_current_dir d) (ns_current_dir_path d) (pd_heap d) (child_exit_wq d) (exit_signal d)
        (signal_actions d) f) in
      match guard with
      | None => mret ()
      | Some g =>
          let c := (notify_one (WqUser g.2) false (cpu w)).2 in
          st_mod (λ w, set_futex (drop_guard g (bool_decide (queues c (WqUser g.2) = [])) f)
                         (set_cpu c w))
      end;;
      on_cpu_task yield_current;; mret true
  end.

(** What the parent of a process that exits is told. *)
Definition notify_parent (p : Z) : Kst () :=
  w ← st_get;
  match parent (tree w) p with
  | None => mret ()
  | Some par =>
      match procs w !! p ≫= exit_signal with
      | Some signo => st_ok (send_signal_process par (SignalInfo_new signo SI_KERNEL));; mret ()
      | None => mret ()
      end;;
      match procs w !! par with
      | Some d => st_mod (λ w, set_cpu (notify_all (child_exit_wq d) false (cpu w)) w)
      | None => mret ()
      end
  end.

Definition clear_fd_table (p : Z) : Kst () :=
  d ← data_of p;
  st_mod (λ w, match fd_tables w !! ns_fd_table d with
               | Some t => set_fd_table (ns_fd_table d) (clear t) w
               | None => w
               end).

Fixpoint kill_threads (l : list Z) : Kst () :=
  match l with
  | [] => mret ()
  | t :: l' => st_ok (send_signal_thread t (SignalInfo_new SIGKILL SI_KERNEL) : Kst ());; kill_threads l'
  end.

(** The exit of the current thread, up to the switch to another task. *)
Definition exit_thread (code : Z) (group : bool) : Kst () :=
  p ← current_process;
  w ← st_get;
  let '(last, t) := thread_exit (tree w) (current (cpu w)) code in
  st_mod (set_tree t);;
  (if last : bool then
     st_mod (λ w, set_tree (process_exit (tree w) p) w);;
     notify_parent p;;
     st_mod (λ w, set_tree (process_exit (tree w) p) w);;
     clear_fd_table p
   else mret ());;
  w ← st_get;
  (if group && negb (is_group_exited (tree w) p) then
     st_mod (λ w, set_tree (group_exit (tree w) p) w);;
     w ← st_get;
     kill_threads (threads (tree w) p)
   else mret ()).

Definition do_exit_rest (code : Z) (group : bool) : Kst () :=
  exit_thread code group;; on_cpu_task (exit_current code).
(** [do_exit]: when the first part yielded, other tasks run, and the rest
    follows when the thread runs again; the result tells that it has not yet. *)
Definition do_exit (code : Z) (group : bool) : Kst bool :=
  yielded ← exit_clear_tid;
  if yielded : bool then mret true else do_exit_rest code group;; mret false.

(** [exit_code << 8] on an [i32]. *)
Definition exit_status (code : Z) : Z := as_i32 (Z.shiftl code 8).
Definition sys_exit (code : Z) : Kst bool := do_exit (exit_status code) false.
Definition sys_exit_group (code : Z) : Kst bool := do_exit (exit_status code) true.

(** ** Wait ([imp/task/wait.rs]) *)

Inductive WaitPid : Type := WAny | WPid (pid : Z) | WPgid (pgid : Z).

Definition WaitPid_apply (t : P) (x : WaitPid) (child : Z) : bool :=
  match x with
  | WAny => true
  | WPid pid => child =? pid
  | WPgid g => pgid t child =? g
  end.

Definition wait_target (t : P) (process pid : Z) : WaitPid :=
  if pid =? -1 then WAny
  else if pid =? 0 then WPgid (pgid t process)
  else if 0 <? pid then WPid (as_u32 pid)
  else WPgid (as_u32 (as_i32 (- pid))).

(** Both filters, in order, child by child. *)
Fixpoint select_children (x : WaitPid) (options : Z) (l : list Z) : Kst (list Z) :=
  match l with
  | [] => mret []
  | c :: l' =>
      w ← st_get;
      if negb (WaitPid_apply (tree w) x c) then select_children x options l' else
      keep ← (if contains options WALL then mret true
              else d ← data_of c; mret (Bool.eqb (contains options WCLONE) (is_clone_child d)));
      rest ← select_children x options l';
      mret (if keep : bool then c :: rest else rest)
  end.

Definition waitpid_begin (pid exit_code_ptr options : Z) : Kst (list Z * option Z) :=
  p ← current_process;
  w ← st_get;
  cs ← select_children (wait_target (tree w) p pid) options (children (tree w) p);
  match cs with
  | [] => st_err ECHILD
  | _ =>
      a ← (if exit_code_ptr =? 0 then mret None
           else a ← on_user (get_as_mut U32 exit_code_ptr); mret (Some a));
      mret (cs, a)
  end.

(** One turn of the loop: the value the call returns, or nothing when the
    task went to sleep. *)
Definition waitpid_pass (cs : list Z) (exit_code_ptr : option Z) (options : Z) : Kst (option Z) :=
  w ← st_get;
  match list_find (λ c, is_zombie (tree w) c = true) cs with
  | Some (_, c) =>
      (if contains options WNOWAIT then mret ()
       else st_mod (λ w, set_tree (free (tree w) c) w));;
      match exit_code_ptr with
      | Some a => w ← st_get; store_u32 a (exit_code (tree w) c)
      | None => mret ()
      end;;
      mret (Some (as_isize c))
  | None =>
      if contains options WNOHANG then mret (Some 0) else
      d ← process_data;
      on_cpu_task (wait_enter (child_exit_wq d));;
      mret None
  end.

(** The call up to its return or its first sleep, and from one sleep to the
    next. *)
Definition sys_waitpid (pid exit_code_ptr options : Z) : Kst (option Z) :=
  let options := from_bits_truncate WaitOptions_all options in
  '(cs, a) ← waitpid_begin pid exit_code_ptr options;
  waitpid_pass cs a options.
Definition waitpid_again (cs : list Z) (exit_code_ptr : option Z) (options : Z) : Kst (option Z) :=
  d ← process_data;
  on_cpu_task (wait_resume (child_exit_wq d));;
  waitpid_pass cs exit_code_ptr options.

(** ** What [waitpid] waits for *)

Definition selects (t : P) (process pid c : Z) : Prop :=
  pid = -1 ∨ (pid = 0 ∧ pgid t c = pgid t process) ∨ (0 < pid ∧ c = pid) ∨
  (pid < -1 ∧ pgid t c = - pid).

Definition candidate (w : World) (pid options c : Z) : Prop :=
  let p := process_of (tree w) (current (cpu w)) in
  c ∈ children (tree w) p ∧ selects (tree w) p pid c ∧
  (contains options WALL = true ∨
   ∃ d, procs w !! c = Some d ∧ contains options WCLONE = is_clone_child d).

Lemma wait_target_selects t process pid c :
  in_s 32 pid → WaitPid_apply t (wait_target t process pid) c = true ↔ selects t process pid c.
Proof.
  intros Hpid. unfold in_s in Hpid. unfold wait_target, selects.
  destruct (Z.eqb_spec pid (-1)); [simpl; naive_solver|].
  destruct (Z.eqb_spec pid 0); [simpl; rewrite Z.eqb_eq; naive_solver lia|].
  destruct (Z.ltb_spec 0 pid); simpl; rewrite Z.eqb_eq.
  - ints. naive_solver lia.
  - assert (as_u32 (as_i32 (- pid)) = - pid) as ->; [|naive_solver lia].
    destruct (decide (pid = - 2 ^ 31)) as [->|]; [done|]. ints. done.
Qed.

Lemma select_children_spec x options l w :
  (∀ c, c ∈ l → WaitPid_apply (tree w) x c = true → is_Some (procs w !! c)) →
  ∃ cs, select_children x options l w = (Ok cs, w) ∧
    ∀ c, c ∈ cs ↔ c ∈ l ∧ WaitPid_apply (tree w) x c = true ∧
      (contains options WALL = true ∨
       ∃ d, procs w !! c = Some d ∧ contains options WCLONE = is_clone_child d).
Proof.
  induction l as [|c l IH]; intros Hd; cbn [select_children].
  { exists []. split; [done|]. set_solver. }
  destruct IH as (cs & Hcs & Hel); [set_solver|]. monad. destruct (WaitPid_apply (tree w) x c) eqn:Ha; simpl.
  2:{ exists cs. split; [done|]. intros b. rewrite Hel, elem_of_cons.
      split; [tauto|]. intros ([->|?] & ? & ?); [congruence|tauto]. }
  destruct (Hd c) as [d Hdc]; [set_solver|done|].
  assert (∀ b, b ∈ c :: cs ↔ b = c ∨ b ∈ cs) as Hcons by (intros b; apply elem_of_cons).
  destruct (contains options WALL) eqn:Hw; simpl.
  { rewrite Hcs. exists (c :: cs). split; [done|]. intros b. rewrite Hcons, elem_of_cons, Hel.
    split; [intros [->|?]; tauto|tauto]. }
  unfold data_of. rewrite Hdc. simpl. rewrite Hcs. eexists. split; [done|]. intros b.
  destruct (Bool.eqb _ _) eqn:Hb.
  - apply Bool.eqb_prop in Hb. rewrite Hcons, elem_of_cons, Hel. split; [|tauto].
    intros [->|?]; [|tauto]. split_and!; [by left|done|]. right. by exists d.
  - apply Bool.eqb_false_iff in Hb. rewrite elem_of_cons, Hel. split; [tauto|].
    intros ([->|?] & ? & Hor); [|tauto]. destruct Hor as [?|(d' & ? & ?)]; congruence.
Qed.

(** The first half of the call, without a place for the exit code. *)
Lemma waitpid_begin_spec w pid options :
  in_s 32 pid →
  (∀ c, c ∈ children (tree w) (process_of (tree w) (current (cpu w))) → is_Some (procs w !! c)) →
  (waitpid_begin pid 0 options w = (Err ECHILD, w) ∧ ∀ c, ¬ candidate w pid options c) ∨
  ∃ cs, waitpid_begin pid 0 options w = (Ok (cs, None), w) ∧ cs ≠ [] ∧
    ∀ c, c ∈ cs ↔ candidate w pid options c.
Proof.
  intros Hpid Hd. unfold waitpid_begin, current_process. monad.
  edestruct select_children_spec as (cs & -> & Hel); [by intros; apply Hd|].
  assert (∀ c, c ∈ cs ↔ candidate w pid options c) as Hcand.
  { intros c. rewrite Hel. unfold candidate. by rewrite wait_target_selects. }
  destruct cs as [|c cs]; [left|right; eexists; by split_and!].
  split; [done|]. intros c. rewrite <-Hcand. set_solver.
Qed.


(** ** Exit *)

Lemma store_u32_ok w a v d sp :
  procs w !! process_of (tree w) (current (cpu w)) = Some d → spaces w !! pd_aspace d = Some sp →
  store_u32 a v w = (Ok (), set_space (pd_aspace d) sp
    (AddrSpace_write sp a (le_bytes 4 (as_u32 v)) (machine w)).2 w).
Proof.
  intros Hd Hs. unfold store_u32, on_user, process_data, current_process, data_of. monad.
  rewrite Hd. simpl. unfold on_space. by rewrite Hs.
Qed.

(** The exit code is in the second byte of the status. *)
Lemma status_byte code : Z.land (Z.shiftr (exit_status code) 8) 255 = Z.land code 255.
Proof.
  apply Z.bits_inj'. intros n Hn. rewrite !Z.land_spec, Z.shiftr_spec by done.
  destruct (decide (n < 8)) as [Hlt|]; [|by rewrite (Z.bits_above_log2 255 n), !andb_false_r by (simpl; lia)].
  f_equal. unfold exit_status, wraps. change (2 ^ 32) with (2 ^ 32).
  rewrite <-(Z.mod_pow2_bits_low (_ - _) 32) by lia.
  rewrite Zminus_mod_idemp_l, Z.add_simpl_r, Z.mod_pow2_bits_low by lia.
  rewrite Z.shiftl_spec by lia. f_equal. lia.
Qed.

Lemma kill_threads_spec l w : ∃ s, kill_threads l w = (Ok (), set_sigs s w).
Proof.
  revert w. induction l as [|t l IH]; intros w; simpl; [exists (sigs w); by destruct w|].
  unfold send_signal_thread, st_ok. monad. destruct (IH (set_sigs (send_thread (sigs w) t (SignalInfo_new SIGKILL SI_KERNEL)) w)) as [s ->].
  by exists s.
Qed.

Lemma notify_parent_spec w p par dp :
  parent (tree w) p = Some par → procs w !! par = Some dp →
  ∃ s, notify_parent p w
    = (Ok (), set_cpu (notify_all (child_exit_wq dp) false (cpu w)) (set_sigs s w)).
Proof.
  intros Hpar Hdp. unfold notify_parent, send_signal_process, st_ok. monad. rewrite Hpar.
  destruct (option_bind _ _ exit_signal (procs w !! p)) as [signo|]; simpl; rewrite Hdp; simpl;
    rewrite ?Hdp; [by eexists|]. exists (sigs w). by destruct w.
Qed.

(** The last thread of a process exits. *)
Lemma exit_thread_last w code group p par d dp :
  process_of (tree w) (current (cpu w)) = p →
  (∀ x, x ∈ threads (tree w) p → x = current (cpu w)) →
  parent (tree w) p = Some par → par ≠ p → p ∈ children (tree w) par →
  is_group_exited (tree w) p = false → procs w !! p = Some d → procs w !! par = Some dp →
  ∃ w1, exit_thread code group w = (Ok (), w1) ∧
    cpu w1 = notify_all (child_exit_wq dp) false (cpu w) ∧ procs w1 = procs w ∧
    is_zombie (tree w1) p = true ∧ exit_code (tree w1) p = code ∧ p ∈ children (tree w1) par ∧
    fd_tables w1 = alter clear (ns_fd_table d) (fd_tables w).
Proof.
  intros Hp Hlast Hpar Hne Hch Hg Hd Hdp.
  pose proof (proj2 (thread_exit_last (tree w) (current (cpu w)) code p Hp) Hlast) as Hl.
  pose proof (thread_exit_code (tree w) (current (cpu w)) code p Hp Hg) as Hcode.
  pose proof (thread_exit_tree (tree w) (current (cpu w)) code) as Ht.
  unfold exit_thread, current_process, clear_fd_table, data_of. monad. rewrite Hp.
  destruct (thread_exit (tree w) (current (cpu w)) code) as [last t]. simpl in *. subst last.
  assert (parent (process_exit t p) p = Some par) as Hpar1.
  { destruct (process_exit_tree t p p) as [-> _]. by destruct (Ht p) as [-> _]. }
  change (tree (set_tree t w)) with t.
  destruct (notify_parent_spec (set_tree (process_exit t p) (set_tree t w)) p par dp) as [s ->]; [done..|].
  simpl. rewrite Hd. simpl.
  set (t2 := process_exit (process_exit t p) p).
  assert (is_zombie t2 p = true ∧ exit_code t2 p = code ∧ p ∈ children t2 par) as (Hz & Hc & Hin).
  { unfold t2. split_and!.
    - rewrite (process_exit_zombie _ _ par) by done. by rewrite bool_decide_true.
    - destruct (process_exit_tree (process_exit t p) p p) as (_ & -> & _).
      by destruct (process_exit_tree t p p) as (_ & -> & _).
    - apply process_exit_tree, process_exit_tree; [done..|]. by destruct (Ht par) as (_ & -> & _). }
  set (w2 := match _ with Some _ => _ | None => _ end).
  assert (tree w2 = t2 ∧ cpu w2 = notify_all (child_exit_wq dp) false (cpu w) ∧ procs w2 = procs w ∧
    fd_tables w2 = alter clear (ns_fd_table d) (fd_tables w)) as (Ht2 & Hcpu & Hpr & Hfd).
  { rewrite <-insert_as_alter. unfold w2. by destruct (fd_tables w !! ns_fd_table d). }
  rewrite Ht2. destruct (group && negb (is_group_exited t2 p)).
  - destruct (kill_threads_spec (threads (group_exit t2 p) p) (set_tree (group_exit t2 p) w2)) as [s' Hk].
    cbn beta. rewrite Ht2, Hk. eexists. split; [done|]. simpl.
    destruct (group_exit_tree t2 p p) as (_ & -> & ->), (group_exit_tree t2 p par) as (-> & _).
    by split_and!.
  - exists w2. rewrite Ht2. by split_and!.
Qed.

(** From then on the parent gets the child and its status, and the child is
    gone. *)
Lemma exit_reaches_parent w status p par group d dp :
  process_of (tree w) (current (cpu w)) = p →
  (∀ x, x ∈ threads (tree w) p → x = current (cpu w)) →
  parent (tree w) p = Some par → par ≠ p → p ∈ children (tree w) par →
  is_group_exited (tree w) p = false → procs w !! p = Some d → procs w !! par = Some dp →
  core_but None (cpu w) → 0 < p < 2 ^ 31 →
  ∃ w1, exit_thread status group w = (Ok (), w1) ∧
    cpu w1 = notify_all (child_exit_wq dp) false (cpu w) ∧ procs w1 = procs w ∧ p ∈ children (tree w1) par ∧
    (∀ t, t ∈ queues (cpu w) (child_exit_wq dp) → state (cpu w) t = Blocked → state (cpu w1) t = Ready) ∧
    fd_tables w1 = alter clear (ns_fd_table d) (fd_tables w) ∧
    ∀ w2 sp cs options a, tree w2 = tree w1 → contains options WNOWAIT = false → p ∈ cs → (∀ c, c ∈ cs → c = p) →
      procs w2 !! process_of (tree w2) (current (cpu w2)) = Some dp →
      spaces w2 !! pd_aspace dp = Some sp →
      ∃ w3, waitpid_pass cs (Some a) options w2 = (Ok (Some p), w3) ∧ p ∉ children (tree w3) par ∧
        machine w3 = (AddrSpace_write sp a (le_bytes 4 (as_u32 status)) (machine w2)).2.
Proof.
  intros Hp Hlast Hpar Hne Hch Hg Hd Hdp Hcore Hr.
  destruct (exit_thread_last w status group p par d dp) as
    (w1 & Hex & Hcpu & Hpr & Hz & Hc & Hin & Hfd); [done..|].
  exists w1. split_and!; [done..| |done|].
  { intros t Ht Hb. rewrite Hcpu. apply notify_all_rec_wakes; [done|lia|done..]. }
  intros w2 sp cs options a Htree Hnw Hp' Hcs Hd2 Hsp. unfold waitpid_pass. monad. rewrite Htree in *.
  destruct (list_find _ cs) as [[i c]|] eqn:Hf.
  2:{ apply list_find_None in Hf. rewrite Forall_forall in Hf. by destruct (Hf p Hp'). }
  apply list_find_Some in Hf as (Hi%list_elem_of_lookup_2%Hcs & _). subst c. rewrite Hnw. simpl. rewrite Htree. destruct (free_tree (tree w1) p p Hz) as (_ & _ & ->).
  destruct (free_tree (tree w1) p par Hz) as (Hch' & _ & _).
  rewrite (store_u32_ok _ _ _ dp sp), Hc by (simpl; rewrite ?free_process_of; done).
  simpl. ints. eexists. split; [done|]. simpl. split; [|done].
  rewrite Hch'. by intros [? _]%list_elem_of_filter.
Qed.

(** C11: what a child leaves reaches its parent. When the last thread of a
    child exits, every thread of the parent that sleeps for children is ready
    to run, and the descriptor table of the child is closed. From then on a
    [waitpid] of the parent for that child returns its pid at once, with the
    exit code in the second byte of the status, and the child is gone. *)
Theorem exit_then_wait (w : World) (code options p par a : Z) (group : bool) (d dp : ProcessData) :
  process_of (tree w) (current (cpu w)) = p →
  (∀ x, x ∈ threads (tree w) p → x = current (cpu w)) →
  parent (tree w) p = Some par → par ≠ p → p ∈ children (tree w) par →
  is_group_exited (tree w) p = false → procs w !! p = Some d → procs w !! par = Some dp →
  core_but None (cpu w) → 0 < p < 2 ^ 31 →
  ∃ w1, exit_thread (exit_status code) group w = (Ok (), w1) ∧
    (∀ t, t ∈ queues (cpu w) (child_exit_wq dp) → state (cpu w) t = Blocked → state (cpu w1) t = Ready) ∧
    fd_tables w1 = alter clear (ns_fd_table d) (fd_tables w) ∧
    ∀ w2 sp, tree w2 = tree w1 → contains options WNOWAIT = false →
      procs w2 !! process_of (tree w2) (current (cpu w2)) = Some dp →
      spaces w2 !! pd_aspace dp = Some sp →
      ∃ w3, waitpid_pass [p] (Some a) options w2 = (Ok (Some p), w3) ∧ p ∉ children (tree w3) par ∧
        machine w3 = (AddrSpace_write sp a (le_bytes 4 (as_u32 (exit_status code))) (machine w2)).2 ∧
        Z.land (Z.shiftr (exit_status code) 8) 255 = Z.land code 255.
Proof.
  intros Hp Hlast Hpar Hne Hch Hg Hd Hdp Hcore Hr.
  destruct (exit_reaches_parent w (exit_status code) p par group d dp) as
    (w1 & Hex & _ & _ & _ & Hwake & Hfd & Hwait); [done..|].
  exists w1. split_and!; [done..|]. intros w2 sp Ht Hnw Hd2 Hsp.
  destruct (Hwait w2 sp [p] options a) as (w3 & Hw & Hgone & Hm); [done|done|by left|set_solver|done..|]. exists w3. split_and!; [done..|].
  apply status_byte.
Qed.

(** two threads of a process that wait for the same child both reap it:
    the children were collected before they went to sleep, and a child that
    the first of them freed is still a zombie for the second, which returns
    its pid again although the process has no such child any more. *)
Theorem child_reaped_twice (w : World) (cs : list Z) (c options : Z) (d : ProcessData) :
  c ∈ cs → (∀ x, x ∈ cs → is_zombie (tree w) x = true → x = c) →
  is_zombie (tree w) c = true → contains options WNOWAIT = false → in_u 32 c →
  procs w !! process_of (tree w) (current (cpu w)) = Some d →
  ∃ w1, waitpid_again cs None options w = (Ok (Some c), w1) ∧
    (∀ q, c ∉ children (tree w1) q) ∧
    ∀ w2, tree w2 = tree w1 → procs w2 !! process_of (tree w2) (current (cpu w2)) = Some d →
      ∃ w3, waitpid_again cs None options w2 = (Ok (Some c), w3).
Proof.
  intros Hin Huniq Hz Hnw Hc Hd. unfold in_u in Hc.
  assert (∀ w', (∀ x, is_zombie (tree w') x = is_zombie (tree w) x) →
    procs w' !! process_of (tree w') (current (cpu w')) = Some d →
    ∃ cw, waitpid_again cs None options w' = (Ok (Some c), set_tree (free (tree w') c) (set_cpu cw w')))
    as Hpass.
  { intros w' Hsame Hd'. unfold waitpid_again, waitpid_pass, process_data, current_process, data_of,
      on_cpu_task, st_zoom, st_map_err, wait_resume. monad. rewrite Hd'. simpl.
    destruct (list_find _ cs) as [[i x]|] eqn:Hf.
    - apply list_find_Some in Hf as (Hi & Hx & _). rewrite Hsame in Hx.
      assert (x = c) as -> by (apply Huniq; [by eapply list_elem_of_lookup_2|done]).
      rewrite Hnw. simpl. ints. by eexists.
    - apply list_find_None in Hf. rewrite Forall_forall in Hf. destruct (Hf c Hin). by rewrite Hsame. }
  destruct (Hpass w) as [cw Hw]; [done..|]. eexists. split; [exact Hw|]. simpl. split.
  - intros q. destruct (free_tree (tree w) c q Hz) as (-> & _). by intros [? _]%list_elem_of_filter.
  - intros w2 Htree Hd2. destruct (Hpass w2) as [cw2 Hw2]; [|done|by eexists].
    intros x. rewrite Htree. by apply free_tree.
Qed.

End process.

(** ** Instances

    A small tree in which the children of a zombie stay where they are, and
    signals as the list of what was sent. *)

Record PNode := mkPNode {
  n_parent : option Z; n_children : list Z; n_threads : list Z;
  n_zombie : bool; n_code : Z; n_group_exited : bool
}.
Record PTree := mkPTree { nodes : Z → PNode; owner : Z → Z }.

Definition upd_node (p : Z) (f : PNode → PNode) (t : PTree) : PTree :=
  mkPTree (λ q, if decide (q = p) then f (nodes t q) else nodes t q) (owner t).

#[global, program] Instance TreeProcs : ProcTree PTree := {|
  process_of t tid := owner t tid;
  parent t p := n_parent (nodes t p);
  children t p := n_children (nodes t p);
  pgid t p := 1;
  sid t g := 1;
  threads t p := n_threads (nodes t p);
  is_zombie t p := n_zombie (nodes t p);
  exit_code t p := n_code (nodes t p);
  is_group_exited t p := n_group_exited (nodes t p);
  live t r := true;
  fork t p c :=
    upd_node p (λ n, mkPNode (n_parent n) (n_children n ++ [c]) (n_threads n) (n_zombie n) (n_code n)
      (n_group_exited n))
      (upd_node c (λ n, mkPNode (Some p) (n_children n) [] false 0 false) t);
  new_thread t p tid :=
    let t := upd_node p (λ n, mkPNode (n_parent n) (n_children n) (n_threads n ++ [tid]) (n_zombie n)
      (n_code n) (n_group_exited n)) t in
    mkPTree (nodes t) (λ x, if decide (x = tid) then p else owner t x);
  thread_exit t tid code :=
    let p := owner t tid in
    let rest := filter (λ x, x ≠ tid) (n_threads (nodes t p)) in
    (bool_decide (rest = []), upd_node p (λ n, mkPNode (n_parent n) (n_children n) rest (n_zombie n)
      (if n_group_exited n then n_code n else code) (n_group_exited n)) t);
  process_exit t p := upd_node p (λ n, mkPNode (n_parent n) (n_children n) (n_threads n) true (n_code n)
      (n_group_exited n)) t;
  group_exit t p := upd_node p (λ n, mkPNode (n_parent n) (n_children n) (n_threads n) (n_zombie n)
      (n_code n) true) t;
  free t p := mkPTree (λ q, let n := nodes t q in mkPNode (n_parent n) (filter (λ c, c ≠ p) (n_children n))
      (n_threads n) (n_zombie n) (n_code n) (n_group_exited n)) (owner t);
|}.
Next Obligation. intros t p c. simpl. repeat case_decide; subst; done. Qed.
Next Obligation. intros t p c q _. simpl. rewrite decide_True by done. case_decide; subst; set_solver. Qed.
Next Obligation.
  intros t p c Hne. simpl. rewrite (decide_True (P:=c = c)) by done. by rewrite !decide_False.
Qed.
Next Obligation. intros t p tid x. simpl. rewrite decide_True by done. simpl. set_solver. Qed.
Next Obligation. intros t p tid q. simpl. by case_decide. Qed.
Next Obligation. intros t p tid. simpl. by rewrite decide_True. Qed.
Next Obligation. intros t p tid q. simpl. by case_decide. Qed.
Next Obligation.
  intros t tid code p <-. simpl. rewrite bool_decide_eq_true. split.
  - intros Hf x Hx. destruct (decide (x = tid)) as [|Hne]; [done|].
    assert (x ∈ filter (λ x, x ≠ tid) (n_threads (nodes t (owner t tid)))) as Hin by by apply list_elem_of_filter.
    rewrite Hf in Hin. set_solver.
  - intros Hall. destruct (filter _ _) as [|x l] eqn:Hf; [done|].
    assert (x ∈ filter (λ x, x ≠ tid) (n_threads (nodes t (owner t tid)))) as Hin by (rewrite Hf; left).
    apply list_elem_of_filter in Hin as [Hne Hin]. by destruct (Hne (Hall x Hin)).
Qed.
Next Obligation. intros t tid code p <- Hg. simpl in *. rewrite decide_True by done. by rewrite Hg. Qed.
Next Obligation. intros t tid code q. simpl. by case_decide. Qed.
Next Obligation. intros t p par q _. simpl. case_decide; subst; case_bool_decide; done. Qed.
Next Obligation. intros t p q. simpl. repeat case_decide; subst; done. Qed.
Next Obligation. intros t p q. simpl. by case_decide. Qed.
Next Obligation. done. Qed.
Next Obligation. done. Qed.

#[global, program] Instance SentSignals : AxSignal (list (Z * SignalInfo)) := {|
  from_repr z := if decide (1 ≤ z ≤ 64) then Some z else None;
  send_process s p sig := s ++ [(p, sig)];
  send_thread s t sig := s ++ [(t, sig)];
  sig_new_process s p actions := s;
  sig_new_thread s p t := s;
|}.
Next Obligation. intros z Hz. simpl. by rewrite decide_True. Qed.
Next Obligation. intros z Hz. simpl. by rewrite decide_False. Qed.

(** ** A parent, process 1, and its child, process 5 *)

Definition sample_data : ProcessData :=
  mkProcessData [] 0 0 0 0 (mkHeap 4096 4096) (WqChild 7) (Some SIGCHLD) 0 FutexTable_new.
Definition sample_tree (zombie : bool) (running : Z) : PTree :=
  mkPTree (λ p, if decide (p = 1) then mkPNode None [5] [init] false 0 false
                else mkPNode (Some 1) [] [init] zombie 0 false)
    (λ _, running).
#[local] Existing Instance SampleErrno.
Abbreviation SampleWorld :=
  (World (PT:=pt_list) (FA:=counter) (MS:=ms_list) (P:=PTree) (S:=list (Z * SignalInfo)) (R:=list Z)
    (L:=list Timer) (D:=Z)).
Definition sample_world (t : PTree) : SampleWorld :=
  mkWorld t [] init_scheduler {[1 := sample_data; 5 := sample_data]} ∅ ∅ ∅ ∅ ∅
    {[0 := mem_aspace []]} mem_machine {[0 := stdio_table]} {[0 := 7]} {[0 := []]} 1 ∅.


Lemma exit_then_wait_witness :
  ∃ w1, exit_thread (exit_status 3) false (sample_world (sample_tree false 5)) = (Ok (), w1) ∧
    ∀ c, ∃ w3, waitpid_pass [5] (Some 4096) 0 (set_cpu c (set_tree (tree w1)
      (sample_world (sample_tree false 1)))) = (Ok (Some 5), w3).
Proof.
  destruct (exit_then_wait (sample_world (sample_tree false 5)) 3 0 5 1 4096 false sample_data sample_data)
    as (w1 & Hex & _ & _ & Hw).
  - done.
  - intros x Hx. by apply list_elem_of_singleton in Hx.
  - done.
  - done.
  - by left.
  - done.
  - done.
  - done.
  - apply init_scheduler_inv.
  - lia.
  - exists w1. split; [done|]. intros c.
    destruct (Hw (set_cpu c (set_tree (tree w1) (sample_world (sample_tree false 1)))) (mem_aspace []))
      as (w3 & Hp & _); try done; [|by exists w3].
    assert (w1 = (exit_thread (exit_status 3) false (sample_world (sample_tree false 5))).2) as ->
      by by rewrite Hex.
    vm_compute. reflexivity.
Defined.

Lemma child_reaped_twice_witness :
  ∃ w1, waitpid_again [5] None 0 (sample_world (sample_tree true 1)) = (Ok (Some 5), w1) ∧
    5 ∉ children (tree w1) 1 ∧ (waitpid_again [5] None 0 w1).1 = Ok (Some 5).
Proof.
  destruct (child_reaped_twice (sample_world (sample_tree true 1)) [5] 5 0 sample_data)
    as (w1 & Hw & Hc & Hagain); [by left|set_solver|done..|].
  exists w1. split_and!; [done|apply Hc|].
  destruct (Hagain w1) as [w3 ->]; [done| |done].
  assert (w1 = (waitpid_again [5] None 0 (sample_world (sample_tree true 1))).2) as ->
    by by rewrite Hw.
  vm_compute. reflexivity.
Defined.
