(* ===== verification/Clone.v ===== *)
(** * Creating threads and processes ([src/api/src/imp/task/clone.rs])

    [clone] with all its flags, over the world of [Process], and [fork]. What
    the new process shares with the old one is shared by name. *)

From S2P Require Import Prelude Abi Str Pipe FdTable MemBase AddrSpace UserPtr Mmap Tasks Futex Process.

#[local] Open Scope Z_scope.

Definition CLONE_VM : Z := 0x100.
Definition CLONE_FS : Z := 0x200.
Definition CLONE_FILES : Z := 0x400.
Definition CLONE_SIGHAND : Z := 0x800.
Definition CLONE_PTRACE : Z := 0x2000.
Definition CLONE_VFORK : Z := 0x4000.
Definition CLONE_PARENT : Z := 0x8000.
Definition CLONE_THREAD : Z := 0x10000.
Definition CLONE_NEWNS : Z := 0x20000.
Definition CLONE_SYSVSEM : Z := 0x40000.
Definition CLONE_SETTLS : Z := 0x80000.
Definition CLONE_PARENT_SETTID : Z := 0x100000.
Definition CLONE_CHILD_CLEARTID : Z := 0x200000.
Definition CLONE_UNTRACED : Z := 0x800000.
Definition CLONE_CHILD_SETTID : Z := 0x1000000.
Definition CLONE_NEWCGROUP : Z := 0x2000000.
Definition CLONE_NEWUTS : Z := 0x4000000.
Definition CLONE_NEWIPC : Z := 0x8000000.
Definition CLONE_NEWUSER : Z := 0x10000000.
Definition CLONE_NEWPID : Z := 0x20000000.
Definition CLONE_NEWNET : Z := 0x40000000.
Definition CLONE_IO : Z := 0x80000000.

Definition CloneFlags_all : Z :=
  foldr Z.lor 0 [CLONE_VM; CLONE_FS; CLONE_FILES; CLONE_SIGHAND; CLONE_PTRACE; CLONE_VFORK; CLONE_PARENT;
    CLONE_THREAD; CLONE_NEWNS; CLONE_SYSVSEM; CLONE_SETTLS; CLONE_PARENT_SETTID; CLONE_CHILD_CLEARTID;
    CLONE_UNTRACED; CLONE_CHILD_SETTID; CLONE_NEWCGROUP; CLONE_NEWUTS; CLONE_NEWIPC; CLONE_NEWUSER;
    CLONE_NEWPID; CLONE_NEWNET; CLONE_IO].
Definition FLAG_MASK : Z := 0xff.

Section clone.
Context {PT FA MS P S R L D : Type} `{MA : !MemoryAddr} `{HPT : !PageTable PT}
  `{HFA : !FrameAlloc FA} `{HMS : !MemorySet MS} `{FO : !FlattenObjects FileLike AX_FILE_LIMIT}
  `{HP : !ProcTree P} `{HS : !AxSignal S} `{HR : !Scheduler R} `{HL : !TimerList L} `{AxErrno}.
Abbreviation AddrSpace := (AddrSpace PT MS).
Abbreviation World :=
  (World (PT:=PT) (FA:=FA) (MS:=MS) (P:=P) (S:=S) (R:=R) (L:=L) (D:=D)).
Abbreviation Kst := (st World LinuxError).

(** The kernel's own address space, whether the architecture copies its
    mappings into user spaces, and where the user heap begins. *)
Variables (kernel : AddrSpace) (copies_kernel : bool) (USER_HEAP_BASE : Z).

(** ** Parts *)

(** [Arc::new]: a name nothing has yet. *)
Definition new_arc : Kst Z := λ w, (Ok (next_arc w), set_next_arc (next_arc w + 1) w).

(** [TaskInner::new] takes an id; [spawn_task] makes the task ready. *)
Definition alloc_id : Cst (R:=R) (L:=L) Z := λ c,
  (Ok (next_id c), set_next_id (as_u64 (next_id c + 1)) c).
Definition start_task (t : Z) : Cst (R:=R) (L:=L) () :=
  st_mod (λ c, set_tasks (λ t', if decide (t' = t) then mkTask Ready false 0 false 0 else tasks c t') c);;
  add_task t.

Definition copy_from_kernel (s : AddrSpace) : AxResult AddrSpace :=
  if copies_kernel then copy_mappings_from kernel s else Ok s.

(** A private copy of address space [i]. *)
Definition clone_aspace (i : Z) : Kst Z :=
  w ← st_get;
  s ← st_lift (unwrap_opt (spaces w !! i));
  let '(r, m) := clone_or_err s (machine w) in
  st_mod (set_space i s m);;
  new ← st_lift (into_linux r);
  match copy_from_kernel new with
  | Ok new => n ← new_arc; st_mod (set_space n new m);; mret n
  | Err e =>
      let '(r, m) := AddrSpace_drop e (new, m) in
      st_mod (set_space i s m);; st_lift (into_linux r)
  | Panic => st_panic
  end.

(** [init_new(copy_inner())] of the three resources of a namespace. *)
Definition copy_fd_table (i : Z) : Kst Z :=
  w ← st_get;
  t ← st_lift (unwrap_opt (fd_tables w !! i));
  t ← st_lift (copy_inner t);
  n ← new_arc;
  st_mod (set_fd_table n t);;
  mret n.
Definition copy_dir (i : Z) : Kst Z :=
  w ← st_get;
  x ← st_lift (unwrap_opt (current_dirs w !! i));
  n ← new_arc;
  st_mod (λ w, set_dirs (<[n := x]> (current_dirs w)) (current_dir_paths w) w);;
  mret n.
Definition copy_dir_path (i : Z) : Kst Z :=
  w ← st_get;
  x ← st_lift (unwrap_opt (current_dir_paths w !! i));
  n ← new_arc;
  st_mod (λ w, set_dirs (current_dirs w) (<[n := x]> (current_dir_paths w)) w);;
  mret n.

(** The branch without [CLONE_THREAD]: a new process [tid]; the result is the
    process and its address space. *)
Definition clone_process (flags tid : Z) (exit_signal : option Z) : Kst (Z * Z) :=
  cur ← current_process;
  d ← process_data;
  par ← (if contains flags CLONE_PARENT
         then w ← st_get; st_lift (ok_or (parent (tree w) cur) EINVAL)
         else mret cur);
  aspace ← (if contains flags CLONE_VM then mret (pd_aspace d) else clone_aspace (pd_aspace d));
  w ← st_get;
  actions ← (if contains flags CLONE_SIGHAND
             then match procs w !! par with Some it => mret (signal_actions it) | None => new_arc end
             else new_arc);
  n ← new_arc;
  fds ← (if contains flags CLONE_FILES then mret (ns_fd_table d) else copy_fd_table (ns_fd_table d));
  dir ← (if contains flags CLONE_FS then mret (ns_current_dir d) else copy_dir (ns_current_dir d));
  dir_path ← (if contains flags CLONE_FS then mret (ns_current_dir_path d)
              else copy_dir_path (ns_current_dir_path d));
  let data := ProcessData_new USER_HEAP_BASE n (exe_path d) aspace actions exit_signal fds dir dir_path in
  st_mod (λ w, set_tree (fork (tree w) par tid) (set_proc tid data
    (set_sigs (sig_new_process (sigs w) tid actions) w)));;
  mret (tid, aspace).

(** The task, up to the decision what it belongs to: the user pointers are
    checked and the id of the child stored for the parent. Task ids stay below
    [2^32], so that a thread is named by the id of its task. *)
Definition clone_begin (flags parent_tid child_tid : Z) : Kst (option Z * Z) :=
  set_tid ← (if contains flags CLONE_CHILD_SETTID
             then a ← on_user (get_as_mut U32 child_tid); mret (Some a) else mret None);
  t ← on_cpu_task alloc_id;
  (if contains flags CLONE_PARENT_SETTID
   then a ← on_user (get_as_mut U32 parent_tid); store_u32 a (as_u32 t) else mret ());;
  mret (set_tid, t).

(** The thread of process [p] for the task, which then runs. *)
Definition clone_thread (flags child_tid t p : Z) (x : Start) : Kst () :=
  let tid := as_u32 t in
  data_of p;;
  st_mod (λ w, set_sigs (sig_new_thread (sigs w) p tid) w);;
  st_mod (set_clear_child_tid tid (if contains flags CLONE_CHILD_CLEARTID then child_tid else 0));;
  st_mod (λ w, set_tree (new_thread (tree w) p tid) w);;
  st_mod (add_thread_to_table tid);;
  st_mod (set_start t x);;
  on_cpu_task (start_task t).

Definition sys_clone (flags stack parent_tid child_tid tls : Z) : Kst Z :=
  let exit_sig := Z.land flags FLAG_MASK in
  let flags := from_bits_truncate CloneFlags_all (Z.ldiff flags FLAG_MASK) in
  if negb (exit_sig =? 0) && contains flags (Z.lor CLONE_THREAD CLONE_PARENT) then st_err EINVAL else
  if contains flags CLONE_THREAD && negb (contains flags (Z.lor CLONE_VM CLONE_SIGHAND))
  then st_err EINVAL else
  let exit_signal := from_repr (as_u8 exit_sig) in
  let sp := if stack =? 0 then None else Some stack in
  let tp := if contains flags CLONE_SETTLS then Some tls else None in
  '(set_tid, t) ← clone_begin flags parent_tid child_tid;
  '(p, aspace) ← (if contains flags CLONE_THREAD
                  then cur ← current_process; d ← process_data; mret (cur, pd_aspace d)
                  else clone_process flags (as_u32 t) exit_signal);
  clone_thread flags child_tid t p (mkStart sp tp 0 set_tid aspace);;
  mret (as_isize (as_u32 t)).

Definition sys_fork : Kst Z := sys_clone SIGCHLD 0 0 0 0.

(** The first steps of a new task in the kernel ([new_user_task]): it stores
    its id where it was told to. *)
Definition task_begin : Kst () :=
  w ← st_get;
  match starts w !! current (cpu w) ≫= set_child_tid with
  | Some a => store_u32 a (as_u32 (current (cpu w)))
  | None => mret ()
  end.

(** ** Shared and private objects *)

(** An object of the child: the one of the parent, or a new one with an
    equivalent value. *)
Definition shares_or_copies {A} (eqv : A → A → Prop) (share : bool) (next : Z) (m m' : gmap Z A)
    (i j : Z) : Prop :=
  if share then j = i
  else next ≤ j ∧ ∃ x y, m !! i = Some x ∧ m' !! j = Some y ∧ eqv x y.

Definition same_files (t t' : table FileLike AX_FILE_LIMIT) : Prop := ∀ i, fo_get t' i = fo_get t i.

(** A step that only adds objects: what had a name keeps its value. *)
Record adds (w w' : World) : Prop := {
  adds_tree : tree w' = tree w;
  adds_sigs : sigs w' = sigs w;
  adds_procs : procs w' = procs w;
  adds_cpu : cpu w' = cpu w;
  adds_next : next_arc w ≤ next_arc w';
  adds_spaces i : i < next_arc w → spaces w' !! i = spaces w !! i;
  adds_fds i : i < next_arc w → fd_tables w' !! i = fd_tables w !! i;
  adds_dirs i : i < next_arc w → current_dirs w' !! i = current_dirs w !! i;
  adds_paths i : i < next_arc w → current_dir_paths w' !! i = current_dir_paths w !! i;
}.

#[local] Instance adds_preorder : PreOrder adds.
Proof.
  split; [by intros w; split|].
  intros a b c [Ht Hs Hp Hc Hn Hsp Hf Hd Hpa] [Ht' Hs' Hp' Hc' Hn' Hsp' Hf' Hd' Hpa'].
  split; [congruence..|lia| | | |]; intros i Hi.
  - rewrite Hsp' by lia. by apply Hsp. - rewrite Hf' by lia. by apply Hf.
  - rewrite Hd' by lia. by apply Hd. - rewrite Hpa' by lia. by apply Hpa.
Qed.

Lemma new_arc_adds w : adds w (set_next_arc (next_arc w + 1) w).
Proof. split; simpl; try done. lia. Qed.

Lemma copy_inner_same t t' : copy_inner t = Ok t' → same_files t t'.
Proof.
  unfold copy_inner. intros Hc. destruct (copy_ids_get t (fo_ids t) fo_new) as (u & Hu & Hg).
  - intros i. apply fo_ids_spec.
  - intros i. rewrite fo_get_new. by intros [].
  - assert (u = t') as -> by congruence. intros i. rewrite Hg, fo_get_new. case_decide as Hi; [done|].
    rewrite fo_ids_spec in Hi. symmetry. by apply eq_None_not_Some.
Qed.

Lemma shares_widen {A} (eqv : A → A → Prop) share n n0 (m m0 m' m1 : gmap Z A) i j :
  n0 ≤ n → m !! i = m0 !! i → m1 !! j = m' !! j →
  shares_or_copies eqv share n m m' i j → shares_or_copies eqv share n0 m0 m1 i j.
Proof.
  intros Hn Hi Hj. unfold shares_or_copies. destruct share; [done|].
  intros (? & x & y & ? & ? & ?). split; [lia|]. exists x, y. split_and!; congruence.
Qed.

Lemma share_fd_table_spec (share : bool) i w n w' :
  i < next_arc w → (if share then mret i else copy_fd_table i) w = (Ok n, w') →
  adds w w' ∧ n < next_arc w' ∧
  shares_or_copies same_files share (next_arc w) (fd_tables w) (fd_tables w') i n.
Proof.
  intros Hi. destruct share; [by intros [= <- <-]|]. unfold copy_fd_table, new_arc. monad.
  destruct (fd_tables w !! i) as [t|] eqn:Ht; simpl; [|done].
  destruct (copy_inner t) as [t'|?|] eqn:Hc; simpl; [|done..]. intros [= <- <-]. simpl.
  split; [|split; [lia|]].
  - split; simpl; try done; [lia|]. intros j Hj. by rewrite lookup_insert_ne by lia.
  - split; [done|]. exists t, t'. rewrite lookup_insert_eq. split_and!; [done..|by apply copy_inner_same].
Qed.

Lemma share_dir_spec (share : bool) i w n w' :
  i < next_arc w → (if share then mret i else copy_dir i) w = (Ok n, w') →
  adds w w' ∧ n < next_arc w' ∧
  shares_or_copies (=) share (next_arc w) (current_dirs w) (current_dirs w') i n.
Proof.
  intros Hi. destruct share; [by intros [= <- <-]|]. unfold copy_dir, new_arc. monad.
  destruct (current_dirs w !! i) as [t|] eqn:Ht; simpl; [|done]. intros [= <- <-]. simpl.
  split; [|split; [lia|]].
  - split; simpl; try done; [lia|]. intros j Hj. by rewrite lookup_insert_ne by lia.
  - split; [done|]. exists t, t. by rewrite lookup_insert_eq.
Qed.

Lemma share_dir_path_spec (share : bool) i w n w' :
  i < next_arc w → (if share then mret i else copy_dir_path i) w = (Ok n, w') →
  adds w w' ∧ n < next_arc w' ∧
  shares_or_copies (=) share (next_arc w) (current_dir_paths w) (current_dir_paths w') i n.
Proof.
  intros Hi. destruct share; [by intros [= <- <-]|]. unfold copy_dir_path, new_arc. monad.
  destruct (current_dir_paths w !! i) as [t|] eqn:Ht; simpl; [|done]. intros [= <- <-]. simpl.
  split; [|split; [lia|]].
  - split; simpl; try done; [lia|]. intros j Hj. by rewrite lookup_insert_ne by lia.
  - split; [done|]. exists t, t. by rewrite lookup_insert_eq.
Qed.

(** A private copy of an address space: what [clone_or_err] makes of it, with
    the kernel's mappings. *)
Definition cloned_space (s new : AddrSpace) : Prop :=
  ∃ m s0 m', clone_or_err s m = (Ok s0, m') ∧ copy_from_kernel s0 = Ok new.

Lemma share_aspace_spec (share : bool) i w n w' :
  i < next_arc w → (if share then mret i else clone_aspace i) w = (Ok n, w') →
  adds w w' ∧ n < next_arc w' ∧
  shares_or_copies cloned_space share (next_arc w) (spaces w) (spaces w') i n.
Proof.
  intros Hi. destruct share; [by intros [= <- <-]|]. unfold clone_aspace, new_arc. monad.
  destruct (spaces w !! i) as [s|] eqn:Hs; simpl; [|done].
  destruct (clone_or_err s (machine w)) as [[s0|?|] m] eqn:Hc; simpl; [|done..].
  destruct (copy_from_kernel s0) as [new|e|] eqn:Hk; simpl; [| |done].
  2:{ destruct (AddrSpace_drop e (s0, m)) as [[?|?|] ?] eqn:Hd; [|done..].
      revert Hd. unfold AddrSpace_drop. by repeat case_match. }
  intros [= <- <-]. simpl. split; [|split; [lia|]].
  - split; simpl; try done; [lia|]. intros j Hj. rewrite lookup_insert_ne by lia.
    destruct (decide (j = i)) as [->|]; [by rewrite lookup_insert_eq|by rewrite lookup_insert_ne].
  - split; [done|]. exists s, new. rewrite lookup_insert_eq. split_and!; [done..|]. by exists (machine w), s0, m.
Qed.

(** ** A new process *)

(** The objects of a process exist. *)
Definition names_below (n : Z) (d : ProcessData) : Prop :=
  pd_aspace d < n ∧ ns_fd_table d < n ∧ ns_current_dir d < n ∧ ns_current_dir_path d < n.

(** What a new process [dc] has of the process [d] that called [clone] and of
    the process [par] that will be its parent. *)
Record inherits (flags : Z) (par : Z) (d dc : ProcessData) (w w' : World) : Prop := {
  inh_path : exe_path dc = exe_path d;
  inh_heap : pd_heap dc = mkHeap USER_HEAP_BASE USER_HEAP_BASE;
  inh_aspace : shares_or_copies cloned_space (contains flags CLONE_VM) (next_arc w)
    (spaces w) (spaces w') (pd_aspace d) (pd_aspace dc);
  inh_files : shares_or_copies same_files (contains flags CLONE_FILES) (next_arc w)
    (fd_tables w) (fd_tables w') (ns_fd_table d) (ns_fd_table dc);
  inh_dir : shares_or_copies (=) (contains flags CLONE_FS) (next_arc w)
    (current_dirs w) (current_dirs w') (ns_current_dir d) (ns_current_dir dc);
  inh_dir_path : shares_or_copies (=) (contains flags CLONE_FS) (next_arc w)
    (current_dir_paths w) (current_dir_paths w') (ns_current_dir_path d) (ns_current_dir_path dc);
  inh_actions : if contains flags CLONE_SIGHAND
    then ∀ it, procs w !! par = Some it → signal_actions dc = signal_actions it
    else next_arc w ≤ signal_actions dc;
}.

Lemma clone_actions_spec (share : bool) par w n w' :
  (if share then match procs w !! par with Some it => mret (signal_actions it) | None => new_arc end
   else new_arc) w = (Ok n, w') →
  adds w w' ∧ if share then ∀ it, procs w !! par = Some it → n = signal_actions it else next_arc w ≤ n.
Proof.
  destruct share; [destruct (procs w !! par) as [it|]|]; intros [= <- <-].
  - split; [done|]. by intros ? [= ->].
  - split; [apply new_arc_adds|done].
  - split; [apply new_arc_adds|done].
Qed.

Definition clone_parent (flags : Z) (t : P) (cur : Z) : option Z :=
  if contains flags CLONE_PARENT then parent t cur else Some cur.

Lemma clone_process_spec w flags tid sig p asp w' d :
  procs w !! process_of (tree w) (current (cpu w)) = Some d → names_below (next_arc w) d →
  clone_process flags tid sig w = (Ok (p, asp), w') →
  ∃ par dc, clone_parent flags (tree w) (process_of (tree w) (current (cpu w))) = Some par ∧
    p = tid ∧ asp = pd_aspace dc ∧ exit_signal dc = sig ∧ tree w' = fork (tree w) par tid ∧
    procs w' = <[tid := dc]> (procs w) ∧ cpu w' = cpu w ∧ inherits flags par d dc w w' ∧
    (∀ i, i < next_arc w → fd_tables w' !! i = fd_tables w !! i).
Proof.
  intros Hd (Ha & Hf & Hdir & Hpath) Hcl. unfold clone_process in Hcl.
  apply st_bind_Ok in Hcl as (cur & w0 & [= <- <-] & Hcl).
  apply st_bind_Ok in Hcl as (d' & w0 & Hd' & Hcl).
  assert (d' = d ∧ w0 = w) as [-> ->].
  { revert Hd'. unfold process_data, current_process, data_of. monad. rewrite Hd. by intros [= <- <-]. }
  apply st_bind_Ok in Hcl as (par & w0 & Hpar & Hcl).
  assert (clone_parent flags (tree w) (process_of (tree w) (current (cpu w))) = Some par ∧ w0 = w) as [Hp ->].
  { revert Hpar. unfold clone_parent. destruct (contains flags CLONE_PARENT); monad; [|by intros [= <- <-]].
    destruct (parent _ _); [|done]. by intros [= <- <-]. }
  apply st_bind_Ok in Hcl as (asp' & w1 & Has & Hcl).
  apply share_aspace_spec in Has as (Hw1 & Hasp & Hsas); [|done].
  apply st_bind_Ok in Hcl as (? & ? & [= <- <-] & Hcl).
  apply st_bind_Ok in Hcl as (act & w2 & Hact & Hcl). apply clone_actions_spec in Hact as (Hw2 & Hact).
  apply st_bind_Ok in Hcl as (n & w3 & Hn & Hcl).
  assert (adds w2 w3) as Hw3 by (injection Hn as <- <-; apply new_arc_adds).
  assert (adds w w3) as Hw03 by by do 2 (etrans; [eassumption|]).
  apply st_bind_Ok in Hcl as (fds & w4 & Hfds & Hcl).
  apply share_fd_table_spec in Hfds as (Hw4 & Hfn & Hsf); [|pose proof (adds_next _ _ Hw03); lia].
  assert (adds w w4) as Hw04 by by etrans.
  apply st_bind_Ok in Hcl as (dir & w5 & Hds & Hcl).
  apply share_dir_spec in Hds as (Hw5 & Hdn & Hsd); [|pose proof (adds_next _ _ Hw04); lia].
  assert (adds w w5) as Hw05 by by etrans.
  apply st_bind_Ok in Hcl as (dp & w6 & Hdp & Hcl).
  apply share_dir_path_spec in Hdp as (Hw6 & Hpn & Hsp); [|pose proof (adds_next _ _ Hw05); lia].
  assert (adds w w6) as Hw06 by by etrans. injection Hcl as <- <- <-.
  exists par, (ProcessData_new USER_HEAP_BASE n (exe_path d) asp' act sig fds dir dp). split; [done|]. simpl.
  split_and!; [done|done|done|by rewrite (adds_tree _ _ Hw06)|by rewrite (adds_procs _ _ Hw06)|by rewrite (adds_cpu _ _ Hw06)| |apply (adds_fds _ _ Hw06)].
  assert (adds w4 w6) as Hw46 by by etrans. assert (adds w1 w6) as Hw16 by by do 4 (etrans; [eassumption|]).
  split; simpl; [done|done|..].
  - eapply shares_widen, Hsas; [done|done|]. by apply (adds_spaces _ _ Hw16).
  - eapply shares_widen, Hsf; [apply Hw03|by apply (adds_fds _ _ Hw03)|by apply (adds_fds _ _ Hw46)].
  - eapply shares_widen, Hsd; [apply Hw04|by apply (adds_dirs _ _ Hw04)|by apply (adds_dirs _ _ Hw6)].
  - eapply shares_widen, Hsp; [apply Hw05|by apply (adds_paths _ _ Hw05)|done].
  - pose proof (adds_next _ _ Hw1). rewrite (adds_procs _ _ Hw1) in Hact.
    destruct (contains flags CLONE_SIGHAND); [done|lia].
Qed.

(** ** The rest of the call *)

Lemma clone_begin_spec flags parent_tid child_tid w x t w' :
  clone_begin flags parent_tid child_tid w = (Ok (x, t), w') →
  t = next_id (cpu w) ∧
  ∃ sp mc, w' = set_memory sp mc (set_cpu (set_next_id (as_u64 (next_id (cpu w) + 1)) (cpu w)) w).
Proof.
  intros Hcl. apply st_bind_Ok in Hcl as (set_tid & w1 & H1 & Hcl).
  assert (∃ sp mc, w1 = set_memory sp mc w) as (sp1 & mc1 & ->).
  { destruct (contains flags CLONE_CHILD_SETTID).
    - apply st_bind_Ok in H1 as (a & w0 & H1 & [= <- <-]). by eapply on_user_memory.
    - injection H1 as <- <-. exists (spaces w), (machine w). by destruct w. }
  apply st_bind_Ok in Hcl as (t' & w2 & [= <- <-] & Hcl). simpl in Hcl.
  apply st_bind_Ok in Hcl as ([] & w3 & H3 & [= <- <- <-]). split; [done|].
  destruct (contains flags CLONE_PARENT_SETTID).
  - apply st_bind_Ok in H3 as (a & w0 & Ha & H3). apply on_user_memory in Ha as (? & ? & ->).
    apply on_user_memory in H3 as (? & ? & ->). by eexists _, _.
  - injection H3 as <-. by eexists _, _.
Qed.

Lemma add_thread_to_table_frame tid (w : World) :
  ∃ tt pt gt st, add_thread_to_table tid w = set_tables tt pt gt st w.
Proof. unfold add_thread_to_table. repeat case_match; by eexists _, _, _, _. Qed.

Lemma clone_thread_spec flags child_tid t p x w w' :
  clone_thread flags child_tid t p x w = (Ok (), w') →
  tree w' = new_thread (tree w) p (as_u32 t) ∧ procs w' = procs w ∧ spaces w' = spaces w ∧
  fd_tables w' = fd_tables w ∧ current_dirs w' = current_dirs w ∧
  current_dir_paths w' = current_dir_paths w ∧ state (cpu w') t = Ready ∧
  t ∈ sched_tasks (scheduler (cpu w')).
Proof.
  intros Hcl. apply st_bind_Ok in Hcl as (? & w0 & Hd & Hcl). injection Hd as _ <-.
  repeat (apply st_bind_Ok in Hcl as ([] & ? & [= <-] & Hcl)).
  edestruct add_thread_to_table_frame as (tt & pt' & gt & stb & Heq). rewrite Heq in Hcl.
  unfold on_cpu_task, st_zoom, st_map_err, start_task, add_task in Hcl. monad.
  destruct (is_ready _ t) eqn:Hr; [|done]. injection Hcl as <-. simpl. split_and!; try done.
  - unfold state. simpl. by rewrite decide_True.
  - rewrite sched_add_tasks. by left.
Qed.

Lemma low_byte z : as_u8 (Z.land z 255) = Z.land z 255.
Proof.
  apply wrapu_id. change 255 with (Z.ones 8). rewrite Z.land_ones by done. apply Z.mod_pos_bound. done.
Qed.

Lemma clone_makes_process (w w' : World) (flags stack parent_tid child_tid tls r : Z) (d : ProcessData) :
  let f := from_bits_truncate CloneFlags_all (Z.ldiff flags FLAG_MASK) in
  let cur := process_of (tree w) (current (cpu w)) in
  contains f CLONE_THREAD = false → procs w !! cur = Some d → names_below (next_arc w) d →
  in_u 32 (next_id (cpu w)) →
  sys_clone flags stack parent_tid child_tid tls w = (Ok r, w') →
  ∃ par dc sp mc, r = next_id (cpu w) ∧ clone_parent f (tree w) cur = Some par ∧
    tree w' = new_thread (fork (tree w) par r) r r ∧ parent (tree w') r = Some par ∧ process_of (tree w') r = r ∧
    procs w' = <[r := dc]> (procs w) ∧ exit_signal dc = from_repr (Z.land flags FLAG_MASK) ∧
    inherits f par d dc (set_memory sp mc w) w' ∧
    (∀ i, i < next_arc w → fd_tables w' !! i = fd_tables w !! i) ∧
    state (cpu w') r = Ready ∧ r ∈ sched_tasks (scheduler (cpu w')).
Proof.
  intros f cur Hth Hd Hn Hid. unfold in_u in Hid. unfold sys_clone. fold f. clearbody f.
  destruct (negb _ && _); [done|]. rewrite Hth. cbn [andb]. intros Hcl.
  apply st_bind_Ok in Hcl as ([set_tid t] & w1 & Hb & Hcl).
  apply clone_begin_spec in Hb as (-> & sp & mc & ->).
  apply st_bind_Ok in Hcl as ([p asp] & w2 & Hp & Hcl).
  rewrite (wrapu_id 32) in Hp, Hcl by done. unfold FLAG_MASK in Hp. rewrite low_byte in Hp.
  eapply clone_process_spec in Hp as
    (par & dc & Hpar & -> & -> & Hsig & Htree & Hprocs & Hcpu & [] & Hfds); [|done..].
  apply st_bind_Ok in Hcl as ([] & w3 & Ht & [= <- <-]).
  apply clone_thread_spec in Ht as (Htree' & Hprocs' & Hsp & Hfd & Hdir & Hpath & Hst & Hsch).
  revert Htree'. ints. intros Htree'. exists par, dc, sp, mc.
  split_and!; [done|done|by rewrite Htree', Htree|..|by rewrite Hprocs'|done| |by rewrite Hfd|done|done].
  - rewrite Htree', (proj1 (new_thread_tree _ _ _ _)), Htree. apply fork_parent.
  - rewrite Htree'. apply new_thread_of.
  - by split; rewrite ?Hsp, ?Hfd, ?Hdir, ?Hpath.
Qed.

Lemma clone_new_process (w w' : World) (flags stack parent_tid child_tid tls r : Z) (d : ProcessData) :
  let f := from_bits_truncate CloneFlags_all (Z.ldiff flags FLAG_MASK) in
  let cur := process_of (tree w) (current (cpu w)) in
  contains f CLONE_THREAD = false → procs w !! cur = Some d → names_below (next_arc w) d →
  in_u 32 (next_id (cpu w)) →
  sys_clone flags stack parent_tid child_tid tls w = (Ok r, w') →
  ∃ par dc sp mc, r = next_id (cpu w) ∧ clone_parent f (tree w) cur = Some par ∧
    parent (tree w') r = Some par ∧ process_of (tree w') r = r ∧
    procs w' = <[r := dc]> (procs w) ∧ exit_signal dc = from_repr (Z.land flags FLAG_MASK) ∧
    inherits f par d dc (set_memory sp mc w) w' ∧
    (∀ i, i < next_arc w → fd_tables w' !! i = fd_tables w !! i) ∧
    state (cpu w') r = Ready ∧ r ∈ sched_tasks (scheduler (cpu w')).
Proof.
  intros f cur Hth Hd Hn Hid Hcl. eapply clone_makes_process in Hcl as (par & dc & sp & mc & ? & ? & _ & ?); [|done..].
  by exists par, dc, sp, mc.
Qed.


(** a successful [clone] with [CLONE_THREAD] adds a ready thread to the
    calling process; it is refused unless memory and signal actions are shared
    too. The data of the processes and the descriptor tables do not change. *)
Theorem sys_clone_thread (w w' : World) (flags stack parent_tid child_tid tls r : Z) :
  let f := from_bits_truncate CloneFlags_all (Z.ldiff flags FLAG_MASK) in
  let cur := process_of (tree w) (current (cpu w)) in
  contains f CLONE_THREAD = true → in_u 32 (next_id (cpu w)) →
  sys_clone flags stack parent_tid child_tid tls w = (Ok r, w') →
  contains f CLONE_VM = true ∧ contains f CLONE_SIGHAND = true ∧
  r = next_id (cpu w) ∧ tree w' = new_thread (tree w) cur r ∧ process_of (tree w') r = cur ∧
  procs w' = procs w ∧ fd_tables w' = fd_tables w ∧
  state (cpu w') r = Ready ∧ r ∈ sched_tasks (scheduler (cpu w')).
Proof.
  intros f cur Hth Hid. unfold in_u in Hid. unfold sys_clone. fold f. clearbody f.
  destruct (negb _ && _); [done|]. rewrite Hth. cbn [andb].
  destruct (contains f (Z.lor CLONE_VM CLONE_SIGHAND)) eqn:Hvs; [|done]. cbn [negb]. intros Hcl.
  apply contains_lor in Hvs as [Hvm Hsig].
  apply st_bind_Ok in Hcl as ([set_tid t] & w1 & Hb & Hcl).
  apply clone_begin_spec in Hb as (-> & sp & mc & ->).
  apply st_bind_Ok in Hcl as ([p asp] & w2 & Hp & Hcl).
  apply st_bind_Ok in Hp as (? & ? & [= <- <-] & Hp). apply st_bind_Ok in Hp as (d & ? & Hd & [= <- <- <-]).
  assert (x = set_memory sp mc (set_cpu (set_next_id (as_u64 (next_id (cpu w) + 1)) (cpu w)) w)) as ->.
  { revert Hd. unfold process_data, data_of, current_process. monad. by intros [= _ <-]. }
  apply st_bind_Ok in Hcl as ([] & w3 & Ht & [= <- <-]).
  apply clone_thread_spec in Ht as (Htree & Hprocs & _ & Hfd & _ & _ & Hst & Hsch).
  revert Htree. ints. intros Htree. split_and!; try done. rewrite Htree. apply new_thread_of.
Qed.

(** A process made by [clone] starts with an empty heap, wherever the heap of
    its parent ended: the break it reads back is the base of the heap. *)
Theorem clone_resets_break (w w' : World) (flags stack parent_tid child_tid tls r size : Z) (d : ProcessData) :
  let f := from_bits_truncate CloneFlags_all (Z.ldiff flags FLAG_MASK) in
  contains f CLONE_THREAD = false → procs w !! process_of (tree w) (current (cpu w)) = Some d →
  names_below (next_arc w) d → in_u 32 (next_id (cpu w)) →
  sys_clone flags stack parent_tid child_tid tls w = (Ok r, w') →
  ∃ dc, procs w' !! r = Some dc ∧
    (sys_brk size 0 (pd_heap d)).1 = Ok (as_isize (heap_top (pd_heap d))) ∧
    (sys_brk size 0 (pd_heap dc)).1 = Ok (as_isize USER_HEAP_BASE).
Proof.
  intros f Hth Hd Hn Hid Hcl. eapply clone_new_process in Hcl as
    (par & dc & sp & mc & _ & _ & _ & _ & Hp & _ & Hinh & _); [|done..].
  exists dc. rewrite Hp, lookup_insert_eq. split_and!; [done..|].
  destruct Hinh as [_ Hh _ _ _ _ _]. by rewrite Hh.
Qed.

(** Under [CLONE_PARENT] and [CLONE_SIGHAND] the child shares the signal
    actions of the caller's parent, not those of the caller. *)
Theorem clone_sibling_shares_grandparent_actions (w w' : World)
    (flags stack parent_tid child_tid tls r par : Z) (d dp : ProcessData) :
  let f := from_bits_truncate CloneFlags_all (Z.ldiff flags FLAG_MASK) in
  contains f CLONE_THREAD = false → contains f CLONE_PARENT = true → contains f CLONE_SIGHAND = true →
  procs w !! process_of (tree w) (current (cpu w)) = Some d →
  parent (tree w) (process_of (tree w) (current (cpu w))) = Some par → procs w !! par = Some dp →
  names_below (next_arc w) d → in_u 32 (next_id (cpu w)) →
  sys_clone flags stack parent_tid child_tid tls w = (Ok r, w') →
  ∃ dc, procs w' !! r = Some dc ∧ signal_actions dc = signal_actions dp.
Proof.
  intros f Hth Hpf Hsf Hd Hpar Hdp Hn Hid Hcl. eapply clone_new_process in Hcl as
    (par' & dc & sp & mc & _ & Hcp & _ & _ & Hp & _ & Hinh & _); [|done..].
  unfold clone_parent in Hcp. fold f in Hcp. rewrite Hpf in Hcp.
  exists dc. rewrite Hp, lookup_insert_eq. split; [done|].
  destruct Hinh as [_ _ _ _ _ _ Ha]. fold f in Ha. rewrite Hsf in Ha. apply Ha. simpl. congruence.
Qed.

(** the last thread of a process closes every descriptor of the table it
    uses, so when a child that shares the table of its parent ([CLONE_FILES])
    exits, all files of the parent are closed. *)
Theorem exit_closes_shared_table (w : World) (code p par : Z) (group : bool) (d dp : ProcessData)
    (t : table FileLike AX_FILE_LIMIT) :
  process_of (tree w) (current (cpu w)) = p →
  (∀ x, x ∈ threads (tree w) p → x = current (cpu w)) →
  parent (tree w) p = Some par → par ≠ p → p ∈ children (tree w) par →
  is_group_exited (tree w) p = false → procs w !! p = Some d → procs w !! par = Some dp →
  ns_fd_table d = ns_fd_table dp → fd_tables w !! ns_fd_table dp = Some t →
  ∃ w1 t1, exit_thread code group w = (Ok (), w1) ∧ procs w1 !! par = Some dp ∧
    fd_tables w1 !! ns_fd_table dp = Some t1 ∧ ∀ fd, get_file_like t1 fd = Err EBADF.
Proof.
  intros Hp Hlast Hpar Hne Hch Hg Hd Hdp Hsh Ht.
  destruct (exit_thread_last w code group p par d dp) as (w1 & Hex & _ & Hpr & _ & _ & _ & Hfd); [done..|].
  exists w1, (clear t). rewrite Hpr, Hfd, Hsh, lookup_alter_eq, Ht. split_and!; [done..|].
  intros fd. unfold get_file_like, clear. rewrite remove_ids_get. case_decide as Hi; [done|].
  rewrite fo_ids_spec in Hi. apply eq_None_not_Some in Hi. by rewrite Hi.
Qed.

End clone.

(** ** Process 1 forks, makes a thread, and a child that shares its table exits *)

#[local] Existing Instance SampleErrno.
Definition clone_sample : SampleWorld := sample_world (sample_tree false 1).
Definition fork_sample (flags : Z) : LinuxResult Z * SampleWorld :=
  sys_clone (mem_aspace []) false 8192 flags 0 0 0 0 clone_sample.
Definition THREAD_FLAGS : Z := Z.lor CLONE_THREAD (Z.lor CLONE_VM CLONE_SIGHAND).

Lemma fork_sample_ok flags : (fork_sample flags).1 = Ok 4 → ∃ w', fork_sample flags = (Ok 4, w').
Proof. destruct (fork_sample flags) as [r w']. simpl. intros ->. by exists w'. Qed.


Lemma sys_clone_thread_witness :
  ∃ w', fork_sample THREAD_FLAGS = (Ok 4, w') ∧ process_of (tree w') 4 = 1.
Proof.
  destruct (fork_sample_ok THREAD_FLAGS) as [w' Hw]; [vm_compute; reflexivity|].
  destruct (sys_clone_thread (mem_aspace []) false 8192 clone_sample w' THREAD_FLAGS 0 0 0 0 4)
    as (_ & _ & _ & _ & Hp & _); [done|done|exact Hw|]. by exists w'.
Defined.

Lemma clone_resets_break_witness :
  ∃ w' dc, fork_sample SIGCHLD = (Ok 4, w') ∧ procs w' !! 4 = Some dc ∧
    (sys_brk 65536 0 (pd_heap dc)).1 = Ok 8192.
Proof.
  destruct (fork_sample_ok SIGCHLD) as [w' Hw]; [vm_compute; reflexivity|].
  destruct (clone_resets_break (mem_aspace []) false 8192 clone_sample w' SIGCHLD 0 0 0 0 4 65536 sample_data)
    as (dc & Hp & _ & Hb); [done|done|done|done|exact Hw|]. by exists w', dc.
Defined.

Lemma exit_closes_shared_table_witness :
  ∃ w1 t1, exit_thread 0 false (sample_world (sample_tree false 5)) = (Ok (), w1) ∧
    fd_tables w1 !! 0 = Some t1 ∧ get_file_like t1 1 = Err EBADF.
Proof.
  destruct (exit_closes_shared_table (sample_world (sample_tree false 5)) 0 5 1 false sample_data sample_data
    stdio_table) as (w1 & t1 & Hex & _ & Ht & Hget); try done.
  - intros x Hx. by apply list_elem_of_singleton in Hx.
  - by left.
  - exists w1, t1. split_and!; [done..|apply Hget].
Defined.
