(* ===== verification/Load.v ===== *)
(** * Loading programs

    [src/core/src/mm.rs] (mapping an ELF file, scripts and dynamic
    executables, the initial stack and the heap), [src/api/src/imp/task/execve.rs]
    and the start of the first process in [src/entry.rs]. Parsing ELF files and
    laying out the initial stack are the crates [xmas_elf] and
    [kernel_elf_parser]; the class [ElfCrates] has what the loader uses of
    them. Files are read through the file API. *)

From S2P Require Import Prelude Abi Str Pipe FdTable Vfs Fops FileApi MemBase AddrSpace AddrClone Image UserPtr Mmap Tasks Futex Process Clone.

#[local] Open Scope Z_scope.

(** A program header to load. *)
Record Segment := mkSegment {
  s_vaddr : Z; s_memsz : Z; s_offset : Z; s_filesz : Z; s_flags : Z
}.

(** What [ELFParser] tells about a file once it knows where to put it. *)
Record Parsed (AUX : Type) := mkParsed {
  ph_load : list Segment; elf_entry : Z; auxv_vector : Z → AUX
}.
Arguments mkParsed {AUX} _ _ _.
Arguments ph_load {AUX} _.
Arguments elf_entry {AUX} _.
Arguments auxv_vector {AUX} _ _.

(** [elf_interp] is the data of the first header of type [Interp]: [Some None]
    when the crate gives it in another form than plain bytes. *)
Class ElfCrates (ELF AUX : Type) := {
  ElfFile_new : list Z → option ELF;
  elf_interp : ELF → option (option (list Z));
  ELFParser_new : ELF → Z → option Z → Z → option (Parsed AUX);
  app_stack_region : list str → list str → AUX → Z → Z → list Z;
}.

(** The addresses of the platform's configuration. *)
Record Plat := mkPlat {
  USER_SPACE_BASE : Z; USER_SPACE_SIZE : Z; USER_INTERP_BASE : Z;
  SIGNAL_TRAMPOLINE : Z; trampoline_paddr : Z;
  USER_STACK_TOP : Z; USER_STACK_SIZE : Z; USER_HEAP_BASE : Z; USER_HEAP_SIZE : Z;
}.

(** ** Strings *)

(** [char::is_ascii_whitespace]; it leaves U+000B out. *)
Definition is_ascii_whitespace (c : ascii) : bool :=
  is_whitespace c && negb (nat_of_ascii c =? 11)%nat.
Definition trim_ascii (s : str) : str := trim_matches is_ascii_whitespace s.

(** [splitn(2, f)]. *)
Fixpoint splitn2 (f : ascii → bool) (s : str) : list str :=
  match s with
  | [] => [[]]
  | c :: s' => if f c then [[]; s'] else
      match splitn2 f s' with x :: xs => (c :: x) :: xs | [] => [[c]] end
  end.

(** [rsplit_once('/')]. *)
Definition rsplit_once (s : str) (c : ascii) : option (str * str) :=
  i ← rfind s c; Some (take i s, drop (S i) s).

(** [CStr::from_bytes_with_nul]: one NUL, at the end. *)
Definition from_bytes_with_nul (bs : list Z) : option (list Z) :=
  match last bs with
  | Some 0 => let s := take (length bs - 1) bs in if bool_decide (0 ∈ s) then None else Some s
  | _ => None
  end.

(** The line after [#!], at most up to byte 256 of the file. *)
Definition script_head (data : list Z) : list Z := drop 2 (take 256 data).
Definition script_line (data : list Z) : list Z :=
  take (default (length (script_head data)) (fst <$> list_find (λ c, c = 10) (script_head data)))
    (script_head data).
Definition is_script (data : list Z) : bool := bool_decide (take 2 data = [35; 33]).
Definition script_args (line : str) (args : list str) : list str :=
  (trim_ascii <$> splitn2 is_ascii_whitespace (trim line)) ++ args.

(** The paths of the GNU dynamic loaders, which stand for the C library. *)
Definition replace_interp (p : str) : str :=
  if bool_decide (p = $"/lib/ld-linux-riscv64-lp64.so.1")
     || bool_decide (p = $"/lib64/ld-linux-loongarch-lp64d.so.1")
     || bool_decide (p = $"/lib64/ld-linux-x86-64.so.2")
     || bool_decide (p = $"/lib/ld-linux-aarch64.so.1")
  then $"/musl/lib/libc.so" else p.

Section load.
Context {PT FA MS D FS N A ELF AUX : Type} `{MA : !MemoryAddr} `{HPT : !PageTable PT}
  `{HFA : !FrameAlloc FA} `{HMS : !MemorySet MS} `{V : !AxfsVfs D FS N A} `{RE : !ReadToEnd}
  `{HE : !ElfCrates ELF AUX}.
Abbreviation AddrSpace := (AddrSpace PT MS).
Abbreviation Machine := (Machine FA).
Abbreviation Vfs := (Vfs D FS N).
Abbreviation Ast := (st (AddrSpace * Machine) AxError).
Variables (plat : Plat) (utf8 : list Z → option str).

(** The loader works on an address space, the machine and the file system. *)
Definition Lst : Type → Type := st (AddrSpace * Machine * Vfs) AxError.
Definition on_mem {X} (m : Ast X) : Lst X := st_zoom fst (λ a s, (a, s.2)) m.
Definition on_fs {X} (m : st Vfs AxError X) : Lst X := st_zoom snd (λ v s, (s.1, v)) m.

Definition new_user_aspace_empty : AxResult AddrSpace :=
  new_empty (USER_SPACE_BASE plat) (USER_SPACE_SIZE plat).

Definition map_trampoline : Ast () :=
  AddrSpace_map_linear (SIGNAL_TRAMPOLINE plat) (trampoline_paddr plat) PAGE_SIZE_4K
    (Z.lor READ (Z.lor EXECUTE USER)).

(** [uspace.write] as a step. *)
Definition write_mem (start : Z) (buf : list Z) : Ast () := λ s,
  let '(r, m) := AddrSpace_write s.1 start buf s.2 in (r, (s.1, m)).

(** [slice.get(a..b)]. *)
Definition get_slice (l : list Z) (a b : Z) : option (list Z) :=
  if (a <=? b) && (b <=? Z.of_nat (length l)) then Some (take (Z.to_nat (b - a)) (drop (Z.to_nat a) l))
  else None.

(** The body of the loop of [map_elf]. *)
Definition map_segment (data : list Z) (x : Segment) : Ast () :=
  let seg_pad := align_offset_4k (s_vaddr x) in
  st_lift (rassert (seg_pad =? s_offset x mod PAGE_SIZE_4K));;
  let size := Z.land (as_usize (s_memsz x + seg_pad + PAGE_SIZE_4K - 1)) (Z.lnot (PAGE_SIZE_4K - 1)) in
  AddrSpace_map_alloc (align_down_4k (s_vaddr x)) size (s_flags x) true;;
  bytes ← st_lift (ok_or (get_slice data (s_offset x) (as_usize (s_offset x + s_filesz x))) InvalidData);
  write_mem (s_vaddr x) bytes.
Fixpoint map_segments (data : list Z) (l : list Segment) : Ast () :=
  match l with [] => mret () | x :: l' => map_segment data x;; map_segments data l' end.

Definition map_elf (elf : ELF) (data : list Z) : Ast (Z * AUX) :=
  s ← st_get;
  let base := AddrSpace_base s.1 in
  x ← st_lift (ok_or (ELFParser_new elf (USER_INTERP_BASE plat) (Some (as_isize base)) base) InvalidData);
  map_segments data (ph_load x);;
  mret (elf_entry x, auxv_vector x PAGE_SIZE_4K).

(** The end of [load_user_app]: a static executable or an interpreter. *)
Definition load_elf (elf : ELF) (data : list Z) (args envs : list str) : Ast (Z * Z) :=
  '(entry, auxv) ← map_elf elf data;
  let ustack_end := USER_STACK_TOP plat in
  let ustack_size := USER_STACK_SIZE plat in
  let ustack_start := as_usize (ustack_end - ustack_size) in
  let stack_data := app_stack_region args envs auxv ustack_start ustack_size in
  AddrSpace_map_alloc ustack_start ustack_size (Z.lor READ (Z.lor WRITE USER)) true;;
  AddrSpace_map_alloc (USER_HEAP_BASE plat) (USER_HEAP_SIZE plat) (Z.lor READ (Z.lor WRITE USER)) true;;
  let user_sp := as_usize (ustack_end - Z.of_nat (length stack_data)) in
  write_mem user_sp stack_data;;
  mret (entry, user_sp).

(** [load_user_app]. The fuel is the room on the kernel stack for recursive
    calls, and running out of it stops the kernel. *)
Fixpoint load_user_app (fuel : nat) (args envs : list str) : Lst (Z * Z) :=
  match fuel with
  | O => st_panic
  | S fuel' =>
      match args with
      | [] => st_err InvalidInput
      | path :: _ =>
          data ← on_fs (api_read path);
          if is_script data then
            line ← st_lift (ok_or (utf8 (script_line data)) InvalidData);
            load_user_app fuel' (script_args line args) envs
          else
            elf ← st_lift (ok_or (ElfFile_new data) InvalidData);
            match elf_interp elf with
            | Some None => st_panic
            | Some (Some bs) =>
                name ← st_lift (ok_or (from_bytes_with_nul bs ≫= utf8) InvalidData);
                p ← on_fs (reading (absolute_path name));
                load_user_app fuel' (replace_interp p :: args) envs
            | None => on_mem (load_elf elf data args envs)
            end
      end
  end.

(** ** The image of a program *)

Abbreviation owned s va := (alloc_page (ms_iter (areas s)) (page_of va)).

(** A step of the loader: what the program owned it keeps, with its bytes. *)
Record keeps (s : AddrSpace) (m : Machine) (s' : AddrSpace) (m' : Machine) : Prop := {
  kp_ok : space_ok s' m';
  kp_range : va_range s' = va_range s;
  kp_owned va : owned s va → owned s' va;
  kp_view va : owned s va → view s' m' va = view s m va;
}.
Lemma keeps_trans s m s1 m1 s2 m2 : keeps s m s1 m1 → keeps s1 m1 s2 m2 → keeps s m s2 m2.
Proof.
  intros [Ho Hr Hw Hv] [Ho' Hr' Hw' Hv']. split; [done|congruence|auto|].
  intros va Hva. rewrite Hv' by auto. auto.
Qed.

(** The bytes of a segment: those of the file, then zeros. *)
Definition shows (data : list Z) (x : Segment) (s : AddrSpace) (m : Machine) : Prop :=
  (∀ i, 0 ≤ i < s_filesz x → owned s (s_vaddr x + i) ∧
     view s m (s_vaddr x + i) = data !! Z.to_nat (s_offset x + i)) ∧
  (∀ i, s_filesz x ≤ i < s_memsz x → owned s (s_vaddr x + i) ∧ zero_or_absent (view s m (s_vaddr x + i))).
Definition segment_wf (x : Segment) : Prop :=
  0 ≤ s_vaddr x ∧ 0 ≤ s_offset x ∧ 0 ≤ s_filesz x ≤ s_memsz x ∧
  s_vaddr x + s_memsz x + 2 * PAGE_SIZE_4K < 2 ^ 64 ∧ s_offset x + s_filesz x < 2 ^ 64.

Lemma shows_keeps data x s m s' m' : keeps s m s' m' → shows data x s m → shows data x s' m'.
Proof.
  intros Hk [Hf Hz]. split.
  - intros i Hi. destruct (Hf i Hi) as [Ho Hv]. rewrite (kp_view _ _ _ _ Hk) by done.
    split; [by eapply kp_owned|done].
  - intros i Hi. destruct (Hz i Hi) as [Ho Hv]. rewrite (kp_view _ _ _ _ Hk) by done.
    split; [by eapply kp_owned|done].
Qed.

Lemma map_alloc_keeps s m start size flags s' m' :
  space_ok s m → 0 ≤ start → 0 ≤ size → start + size < 2 ^ 64 →
  AddrSpace_map_alloc start size flags true (s, m) = (Ok (), (s', m')) →
  keeps s m s' m' ∧ ∀ va, start ≤ va < start + size →
    ¬ owned s va ∧ owned s' va ∧ zero_or_absent (view s' m' va).
Proof.
  intros Hok Hs Hn Hlt Hm. apply map_alloc_view in Hm as (Hok' & Hr & Hin & Hv & Hz); [|done..]. split.
  - split; [done|done| |done]. intros va (a & n & Ha & Hp & Hb). exists a, n. split_and!; [|done..].
    apply Hin. by right.
  - intros va Hva. destruct (Hz va Hva). split_and!; [done| |done].
    eapply area_alloc_page; [apply (so_areas s' m' Hok')|apply Hin; by left|done|done].
Qed.

Lemma land_page a : 0 ≤ a → Z.land a (Z.lnot (PAGE_SIZE_4K - 1)) = a - a mod PAGE_SIZE_4K.
Proof.
  intros Ha. change (PAGE_SIZE_4K - 1) with (Z.ones 12). rewrite <-Z.ldiff_land, Z.ldiff_ones_r by lia.
  rewrite Z.shiftl_mul_pow2, Z.shiftr_div_pow2 by lia. change PAGE_SIZE_4K with (2 ^ 12).
  pose proof (Z_div_mod_eq_full a (2 ^ 12)). lia.
Qed.

Lemma get_slice_Some l a b r :
  0 ≤ a → get_slice l a b = Some r → Z.of_nat (length r) = b - a ∧
  ∀ i, 0 ≤ i < b - a → r !! Z.to_nat i = l !! Z.to_nat (a + i).
Proof.
  unfold get_slice. intros Ha. destruct (Z.leb_spec a b), (Z.leb_spec b (Z.of_nat (length l))); try done.
  simpl. intros [= <-]. rewrite length_take, length_drop. split; [lia|]. intros i Hi.
  rewrite lookup_take_lt, lookup_drop by lia. f_equal. lia.
Qed.

Lemma map_segment_keeps data x s m s' m' :
  space_ok s m → segment_wf x → map_segment data x (s, m) = (Ok (), (s', m')) →
  keeps s m s' m' ∧ shows data x s' m'.
Proof.
  intros Hok (Hv0 & Ho0 & Hfm & Hv1 & Ho1).
  pose proof (Z.mod_pos_bound (s_vaddr x) PAGE_SIZE_4K ltac:(done)) as Hpad.
  assert (PAGE_SIZE_4K = 4096) as HP by done.
  unfold map_segment. rewrite align_offset_4k_spec, align_down_4k_spec by lia. monad.
  destruct (rassert _) as [[]|?|]; [|done..].
  rewrite (wrapu_id 64 (s_memsz x + _ + _ - _)) by (unfold in_u; lia). rewrite land_page by lia.
  set (n := s_memsz x + s_vaddr x mod PAGE_SIZE_4K + PAGE_SIZE_4K - 1). fold (page_of (s_vaddr x)).
  pose proof (Z.mod_pos_bound n PAGE_SIZE_4K ltac:(done)) as Hn. pose proof (page_of_le (s_vaddr x)) as Hpg.
  set (sz := n - n mod PAGE_SIZE_4K).
  assert (page_of (s_vaddr x) + s_vaddr x mod PAGE_SIZE_4K = s_vaddr x) as Hpo by (unfold page_of; lia).
  assert (s_vaddr x + s_memsz x ≤ page_of (s_vaddr x) + sz ≤ s_vaddr x + s_memsz x + PAGE_SIZE_4K) as Hsz.
  { unfold sz, n in *. lia. }
  destruct (AddrSpace_map_alloc _ _ _ _ _) as [[[]|?|] [s1 m1]] eqn:Hm; [|done..].
  pose proof (Z.mod_le (s_vaddr x) PAGE_SIZE_4K Hv0 ltac:(done)).
  apply map_alloc_keeps in Hm as [Hk Hown]; [|done|lia..].
  rewrite wrapu_id by (unfold in_u; lia).
  destruct (get_slice data _ _) as [bytes|] eqn:Hg; simpl; [|done].
  apply get_slice_Some in Hg as [Hlen Hbytes]; [|done].
  unfold write_mem. simpl. destruct (AddrSpace_write s1 (s_vaddr x) bytes m1) as [[[]|?|] m2] eqn:Hw; try done.
  intros [= <- <-].
  apply write_view in Hw as (Hok2 & Hin & Hout); [|apply Hk|done|lia|intros i Hi; apply Hown; lia]. split.
  - destruct Hk as [_ Hr Hw Hv]. split; [done..|]. intros va Hva.
    rewrite Hout, Hv; [done|done|by apply Hw|]. intros Hin'. destruct (Hown va) as [Hno _]; [lia|done].
  - split.
    + intros i Hi. split; [apply Hown; lia|]. rewrite <-Hbytes by lia.
      rewrite <-(Z2Nat.id i) at 1 by lia. apply Hin. lia.
    + intros i Hi. destruct (Hown (s_vaddr x + i)) as (_ & ? & Hz); [lia|]. split; [done|].
      rewrite Hout by (done || lia). done.
Qed.

Lemma map_segments_keeps data l s m s' m' :
  space_ok s m → Forall segment_wf l → map_segments data l (s, m) = (Ok (), (s', m')) →
  keeps s m s' m' ∧ Forall (λ x, shows data x s' m') l.
Proof.
  intros Hok Hl. revert s m Hok. induction Hl as [|x l Hx Hl IH]; intros s m Hok; cbn [map_segments].
  { intros [= <- <-]. split; [by split|done]. }
  intros ([] & [s1 m1] & Hm & Hr)%st_bind_Ok. apply map_segment_keeps in Hm as [Hk Hsh]; [|done..].
  apply IH in Hr as [Hk' Hall]; [|apply Hk]. split; [by eapply keeps_trans|].
  constructor; [by eapply shows_keeps|done].
Qed.

(** The addresses of the platform are in order. *)
Definition plat_ok : Prop :=
  0 ≤ USER_STACK_SIZE plat ≤ USER_STACK_TOP plat ∧ USER_STACK_TOP plat + (PAGE_SIZE_4K - 1) < 2 ^ 64 ∧
  0 ≤ USER_HEAP_BASE plat ∧ 0 ≤ USER_HEAP_SIZE plat ∧ USER_HEAP_BASE plat + USER_HEAP_SIZE plat < 2 ^ 64.

(** What the program [elf] sees at its start with the stack pointer [sp]: the
    bytes of its file in its segments and zeros in the rest of them, the stack
    data from [sp] to the top of the stack and zeros below, and zeros in the
    heap. *)
Definition image (x : Parsed AUX) (data stack : list Z) (sp : Z) (s : AddrSpace) (m : Machine) : Prop :=
  Forall (λ seg, shows data seg s m) (ph_load x) ∧
  (∀ i, (i < length stack)%nat → view s m (sp + Z.of_nat i) = stack !! i) ∧
  (∀ va, USER_STACK_TOP plat - USER_STACK_SIZE plat ≤ va < sp → zero_or_absent (view s m va)) ∧
  (∀ va, USER_HEAP_BASE plat ≤ va < USER_HEAP_BASE plat + USER_HEAP_SIZE plat →
     zero_or_absent (view s m va)).

(** The stack data of a command line. *)
Definition initial_stack (x : Parsed AUX) (args envs : list str) : list Z :=
  app_stack_region args envs (auxv_vector x PAGE_SIZE_4K)
    (USER_STACK_TOP plat - USER_STACK_SIZE plat) (USER_STACK_SIZE plat).

(** A file that can be loaded into [s]: what the parser tells about it, with
    segments that are in order and a stack that fits. *)
Definition loadable (elf : ELF) (x : Parsed AUX) (args envs : list str) (s : AddrSpace) : Prop :=
  ELFParser_new elf (USER_INTERP_BASE plat) (Some (as_isize (AddrSpace_base s))) (AddrSpace_base s) = Some x ∧
  Forall segment_wf (ph_load x) ∧
  Z.of_nat (length (initial_stack x args envs)) ≤ USER_STACK_SIZE plat.

Lemma load_elf_shows (elf : ELF) (data : list Z) (args envs : list str) (x : Parsed AUX)
    (s s' : AddrSpace) (m m' : Machine) (entry sp : Z) :
  plat_ok → space_ok s m → loadable elf x args envs s →
  load_elf elf data args envs (s, m) = (Ok (entry, sp), (s', m')) →
  let stack := initial_stack x args envs in
  entry = elf_entry x ∧ sp = USER_STACK_TOP plat - Z.of_nat (length stack) ∧ keeps s m s' m' ∧
  image x data stack sp s' m'.
Proof.
  intros (Hst & Htop & Hh0 & Hhs & Hh1) Hok (Hx & Hwf & Hlen) Hload stack. revert Hload. unfold load_elf.
  unfold initial_stack in Hlen, stack.
  set (stack_start := USER_STACK_TOP plat - USER_STACK_SIZE plat) in *. fold stack in Hlen.
  assert (PAGE_SIZE_4K = 4096) as HP by done.
  intros ([e aux] & [s1 m1] & Hm & Hr)%st_bind_Ok. unfold map_elf in Hm. monad. rewrite Hx in Hm. simpl in Hm.
  destruct (map_segments data (ph_load x) (s, m)) as [[[]|?|] s1'] eqn:Hsegs; [|done..].
  injection Hm as <- <- ->. apply map_segments_keeps in Hsegs as [Hk1 Hsh]; [|done..].
  rewrite (wrapu_id 64 stack_start) in Hr by (unfold in_u, stack_start; lia). fold stack in Hr.
  rewrite wrapu_id in Hr by (unfold in_u; lia). set (p := USER_STACK_TOP plat - Z.of_nat (length stack)) in *.
  destruct (AddrSpace_map_alloc stack_start _ _ _ _) as [[[]|?|] [s2 m2]] eqn:Hm2; [|done..].
  apply map_alloc_keeps in Hm2 as [Hk2 Hown2]; [|apply Hk1|unfold stack_start; lia..].
  destruct (AddrSpace_map_alloc (USER_HEAP_BASE plat) _ _ _ _) as [[[]|?|] [s3 m3]] eqn:Hm3; [|done..].
  apply map_alloc_keeps in Hm3 as [Hk3 Hown3]; [|apply Hk2|lia..].
  unfold write_mem in Hr. simpl in Hr. destruct (AddrSpace_write s3 p stack m3) as [[[]|?|] m4] eqn:Hw; try done.
  injection Hr as <- <- <- <-.
  assert (∀ va, stack_start ≤ va < USER_STACK_TOP plat → owned s3 va ∧ zero_or_absent (view s3 m3 va)) as Hst3.
  { intros va Hva. destruct (Hown2 va) as (_ & Ho & Hz); [unfold stack_start in *; lia|].
    rewrite (kp_view _ _ _ _ Hk3) by done. split; [by eapply kp_owned|done]. }
  apply write_view in Hw as (Hok4 & Hin & Hout); [|apply Hk3|unfold p; lia..|].
  2:{ intros i Hi. apply Hst3. unfold p, stack_start in *. lia. }
  assert (keeps s1 m1 s3 m4) as Hk4.
  { pose proof (keeps_trans _ _ _ _ _ _ Hk2 Hk3) as [_ Hr Ho Hv]. split; [done..|]. intros va Hva.
    rewrite Hout, Hv; [done|done|by apply Ho|]. intros Hr'.
    destruct (Hown2 va) as [Hno _]; [unfold p, stack_start in *; lia|done]. }
  unfold image. fold stack_start. split_and!; [done|done|by eapply keeps_trans| |done|..].
  - eapply Forall_impl; [exact Hsh|]. intros seg. by apply shows_keeps.
  - intros va Hva. destruct (Hst3 va) as [Ho Hz]; [unfold p in *; lia|]. by rewrite Hout by (done || lia).
  - intros va Hva. destruct (Hown3 va) as (Hno & Ho & Hz); [lia|]. rewrite Hout; [done|done|].
    intros Hr. destruct (Hown2 va) as (_ & Ho2 & _); [unfold p, stack_start in *; lia|done].
Qed.


(** ** Which program runs *)

(** Following scripts and interpreters from a command line [k] times leads to
    an executable and the command line it gets. *)
Inductive resolves (v : Vfs) : nat → list str → list str → ELF → list Z → Prop :=
  | resolves_elf path args data elf :
      api_read path v = (Ok data, v) → is_script data = false → ElfFile_new data = Some elf →
      elf_interp elf = None → resolves v 0 (path :: args) (path :: args) elf data
  | resolves_script k path args args' data data' line elf :
      api_read path v = (Ok data, v) → is_script data = true → utf8 (script_line data) = Some line →
      resolves v k (script_args line (path :: args)) args' elf data' →
      resolves v (S k) (path :: args) args' elf data'
  | resolves_interp k path args args' data data' elf' elf bs name p :
      api_read path v = (Ok data, v) → is_script data = false → ElfFile_new data = Some elf' →
      elf_interp elf' = Some (Some bs) → from_bytes_with_nul bs ≫= utf8 = Some name →
      absolute_path name v = Ok p → resolves v k (replace_interp p :: path :: args) args' elf data' →
      resolves v (S k) (path :: args) args' elf data'.

Lemma load_follows (v : Vfs) (k fuel : nat) (args args' envs : list str) (elf : ELF) (data : list Z)
    (sm : AddrSpace * Machine) :
  resolves v k args args' elf data → (k < fuel)%nat →
  load_user_app fuel args envs (sm, v) =
    let '(r, sm') := load_elf elf data args' envs sm in (r, (sm', v)).
Proof.
  intros Hr. revert fuel. induction Hr as [path args data elf Hd Hs He Hi
    |k path args args' data data' line elf Hd Hs Hl Hr IH
    |k path args args' data data' elf' elf bs name p Hd Hs He Hi Hn Hp Hr IH]; intros [|fuel] Hf; try lia;
    cbn [load_user_app]; unfold on_fs, on_mem, st_zoom, reading; monad; rewrite Hd; simpl; rewrite Hs.
  - rewrite He; simpl. rewrite Hi. unfold st_zoom. simpl. by destruct (load_elf _ _ _ _ sm).
  - rewrite Hl. simpl. apply IH. lia.
  - rewrite He; simpl. rewrite Hi, Hn; simpl. rewrite Hp. apply IH. lia.
Qed.

(** loading follows scripts and dynamic executables to the program that
    runs in the end: a script is handed to its interpreter with the
    interpreter's argument and its own path before its arguments, an
    executable with an interpreter is handed to it with its path; the kernel
    stack has to have room for the calls. *)
Theorem load_resolves (v : Vfs) (k fuel : nat) (args args' envs : list str) (elf : ELF) (data : list Z)
    (sm : AddrSpace * Machine) :
  resolves v k args args' elf data → (k < fuel)%nat →
  load_user_app fuel args envs (sm, v) =
    let '(r, sm') := load_elf elf data args' envs sm in (r, (sm', v)).
Proof. apply load_follows. Qed.

(** a script whose interpreter is itself recurses without end: no kernel
    stack is deep enough for it. *)
Theorem self_script_overflows (v : Vfs) (path : str) (data : list Z) (line : str)
    (sm : AddrSpace * Machine) (envs args : list str) (fuel : nat) :
  api_read path v = (Ok data, v) → is_script data = true → utf8 (script_line data) = Some line →
  (trim_ascii <$> splitn2 is_ascii_whitespace (trim line)) !! 0%nat = Some path →
  load_user_app fuel (path :: args) envs (sm, v) = (Panic, (sm, v)).
Proof.
  intros Hd Hs Hl Hh. revert args. induction fuel as [|fuel IH]; intros args; [done|].
  cbn [load_user_app]. unfold on_fs, st_zoom. monad. rewrite Hd. simpl. rewrite Hs, Hl. simpl.
  unfold script_args. destruct (trim_ascii <$> _) as [|p rest]; [done|]. injection Hh as ->. apply IH.
Qed.

(** an executable with a segment whose address and file offset differ
    within a page stops the kernel when it is loaded. *)
Theorem misaligned_segment_panics (data : list Z) (x : Segment) (l : list Segment)
    (sm : AddrSpace * Machine) :
  0 ≤ s_vaddr x < 2 ^ 64 → s_vaddr x mod PAGE_SIZE_4K ≠ s_offset x mod PAGE_SIZE_4K →
  map_segments data (x :: l) sm = (Panic, sm).
Proof.
  intros Hv Hne. cbn [map_segments]. unfold map_segment. monad.
  rewrite align_offset_4k_spec, (proj2 (Z.eqb_neq _ _)) by done. done.
Qed.
End load.

(** ** Replacing a program, and the first one *)

Section exec.
Context {PT FA MS P S R L Di FS N A ELF AUX : Type} `{MA : !MemoryAddr} `{HPT : !PageTable PT}
  `{HFA : !FrameAlloc FA} `{HMS : !MemorySet MS} `{FO : !FlattenObjects FileLike AX_FILE_LIMIT}
  `{HP : !ProcTree P} `{HS : !AxSignal S} `{HR : !Scheduler R} `{HL : !TimerList L} `{AxErrno}
  `{V : !AxfsVfs Di FS N A} `{RE : !ReadToEnd} `{HE : !ElfCrates ELF AUX}.
Abbreviation AddrSpace := (AddrSpace PT MS).
Abbreviation Vfs := (Vfs Di FS N).
Abbreviation World :=
  (World (PT:=PT) (FA:=FA) (MS:=MS) (P:=P) (S:=S) (R:=R) (L:=L) (D:=VfsNodeRef N)).
Abbreviation Kst := (st World LinuxError).
Abbreviation Lst := (Lst (PT:=PT) (FA:=FA) (MS:=MS) (D:=Di) (FS:=FS) (N:=N)).
Variables (plat : Plat) (utf8 : list Z → option str).
(** Steps for reading strings, and room on the kernel stack. *)
Variables (steps depth : nat).

(** Both on the world and the file system as the process sees it. *)
Definition Xst : Type → Type := st (World * Vfs) LinuxError.
Definition on_world {X} (m : Kst X) : Xst X := st_zoom fst (λ w s, (w, s.2)) m.
Definition on_loader {E X} (i : Z) (m : st (AddrSpace * Machine FA * Vfs) E X) : st (World * Vfs) E X := λ s,
  match spaces s.1 !! i with
  | Some sp =>
      let '(r, (sp', mc, v)) := m (sp, machine s.1, s.2) in (r, (set_space i sp' mc s.1, v))
  | None => (Panic, s)
  end.

(** Reading user memory; pages that are not mapped yet read as zeros. *)
Definition user_read {X} (f : AddrSpace → Machine FA → LinuxResult X) : Kst X :=
  d ← process_data;
  w ← st_get;
  st_lift (s ← unwrap_opt (spaces w !! pd_aspace d); f s (machine w)).
Definition user_word (n : nat) (s : AddrSpace) (m : Machine FA) (a : Z) : Z :=
  le_value (AddrSpace_read s m a (replicate n 0)).2.
Definition user_str (p : Z) : Kst str :=
  user_read (λ s m, get_as_str steps utf8 (user_word 1 s m) p s).
Definition user_ptrs (p : Z) : Kst (list Z) :=
  user_read (λ s m, '(a, len) ← get_as_null_terminated steps (user_word 8 s m) (mkLayout 8 8) p s;
    Ok ((λ i, user_word 8 s m (a + 8 * Z.of_nat i)) <$> seq 0 (Z.to_nat len))).
Fixpoint user_strs (ps : list Z) : Kst (list str) :=
  match ps with [] => mret [] | p :: ps' => x ← user_str p; xs ← user_strs ps'; mret (x :: xs) end.
Definition user_args (p : Z) : Kst (list str) := ps ← user_ptrs p; user_strs ps.

Definition set_exe_path (path : str) (d : ProcessData) : ProcessData :=
  mkProcessData path (pd_aspace d) (ns_fd_table d) (ns_current_dir d) (ns_current_dir_path d) (pd_heap d)
    (child_exit_wq d) (exit_signal d) (signal_actions d) (futex_table d).

(** The old memory goes, the new program comes. *)
Definition replace_memory (i : Z) (args envs : list str) : Xst (Z * Z) :=
  st_map_err ax_to_linux (on_loader i (on_mem unmap_user_areas));;
  st_map_err ax_to_linux (on_loader i (on_mem (map_trampoline plat)));;
  st_map_err (λ _, ENOENT) (on_loader i (load_user_app plat utf8 depth args envs)).

(** [sys_execve]: on success the thread goes on at the entry point with the
    new stack, which is the result. *)
Definition sys_execve (path argv envp : Z) : Xst (Z * Z) :=
  path ← on_world (user_str path);
  args ← on_world (user_args argv);
  envs ← on_world (user_args envp);
  p ← on_world current_process;
  s ← st_get;
  if (1 <? length (threads (tree s.1) p))%nat then st_err EAGAIN else
  d ← on_world process_data;
  r ← replace_memory (pd_aspace d) args envs;
  st_mod (λ s, (set_proc p (set_exe_path path d) s.1, s.2));;
  mret r.

(** [run_user_app], up to waiting for the task; the resources of the kernel's
    own namespace and the init process have fixed names. The result is the
    task and its first user context. *)
Variables (kernel : AddrSpace) (copies_kernel : bool) (init_pid g_fd g_dir g_dir_path : Z).

Definition run_user_app (args envs : list str) : Xst (Z * (Z * Z * Z)) :=
  space ← st_lift (unwrap (new_user_aspace_empty plat ≫= copy_from_kernel kernel copies_kernel));
  n ← on_world new_arc;
  st_mod (λ s, (set_space n space (machine s.1) s.1, s.2));;
  st_unwrap (on_loader n (on_mem (map_trampoline plat)));;
  match args with
  | [] => st_panic
  | exe :: _ =>
      let dir := match rsplit_once exe slash with Some (d, _) => d | None => [] end in
      st_unwrap (st_zoom snd (λ v s, (s.1, v)) (set_current_dir dir) : st (World * Vfs) AxError ());;
      st_mod (λ s, (set_dirs (<[g_dir := CURRENT_DIR s.2]> (current_dirs s.1))
                      (<[g_dir_path := CURRENT_DIR_PATH s.2]> (current_dir_paths s.1)) s.1, s.2));;
      '(entry, sp) ← st_unwrap (on_loader n (load_user_app plat utf8 depth args envs));
      t ← on_world (on_cpu_task alloc_id);
      actions ← on_world new_arc;
      wq ← on_world new_arc;
      fds ← on_world (copy_fd_table g_fd);
      dir ← on_world (copy_dir g_dir);
      dir_path ← on_world (copy_dir_path g_dir_path);
      let tid := as_u32 t in
      let data := ProcessData_new (USER_HEAP_BASE plat) wq exe n actions (Some SIGCHLD) fds dir dir_path in
      st_mod (λ s, (set_tree (fork (tree s.1) init_pid tid) (set_proc tid data
        (set_sigs (sig_new_process (sigs s.1) tid actions) s.1)), s.2));;
      on_world (clone_thread 0 0 t tid (mkStart (Some sp) None 2333 None n));;
      mret (t, (entry, sp, 2333))
  end.

(** ** What execve does *)

Lemma user_read_same {X} (f : AddrSpace → Machine FA → LinuxResult X) (w : World) : (user_read f w).2 = w.
Proof.
  unfold user_read, process_data, current_process, data_of. monad. by destruct (procs w !! _).
Qed.
Lemma user_strs_same ps (w : World) : (user_strs ps w).2 = w.
Proof.
  revert w. induction ps as [|p ps IH]; intros w; cbn [user_strs]; [done|]. unfold mbind, st_bind.
  pose proof (user_read_same (λ s m, get_as_str steps utf8 (user_word 1 s m) p s) w) as Hs.
  unfold user_str. destruct (user_read _ w) as [[x|?|] w1]; simpl in Hs; subst w1; [|done..].
  specialize (IH w). destruct (user_strs ps w) as [[xs|?|] w1]; simpl in IH; by subst w1.
Qed.
Lemma user_args_same p (w : World) : (user_args p w).2 = w.
Proof.
  unfold user_args, mbind, st_bind, user_ptrs.
  match goal with |- context [user_read ?f w] => pose proof (user_read_same f w) as Hs end.
  destruct (user_read _ w) as [[x|?|] w1]; simpl in Hs; subst w1; [apply user_strs_same|done..].
Qed.

(** The command line a call is given. *)
Record execve_args (w : World) (path argv envp : Z) (name : str) (args envs : list str) : Prop := {
  ea_path : (user_str path w).1 = Ok name;
  ea_args : (user_args argv w).1 = Ok args;
  ea_envs : (user_args envp w).1 = Ok envs;
}.

(** The process of the caller, its data, its address space. *)
Definition caller (w : World) (p : Z) (d : ProcessData) (s : AddrSpace) : Prop :=
  process_of (tree w) (current (cpu w)) = p ∧ procs w !! p = Some d ∧ spaces w !! pd_aspace d = Some s.

Lemma set_space_twice i (s s' : AddrSpace) m m' (w : World) :
  set_space i s' m' (set_space i s m w) = set_space i s' m' w.
Proof. unfold set_space; simpl. by rewrite insert_insert_eq. Qed.

Lemma sys_execve_unfold (w : World) (v : Vfs) path argv envp name args envs p d s :
  execve_args w path argv envp name args envs → caller w p d s →
  sys_execve path argv envp (w, v) =
    if (1 <? length (threads (tree w) p))%nat then (Err EAGAIN, (w, v)) else
    let '(r, wv) := replace_memory (pd_aspace d) args envs (w, v) in
    match r with
    | Ok x => (Ok x, (set_proc p (set_exe_path name d) wv.1, wv.2))
    | Err e => (Err e, wv)
    | Panic => (Panic, wv)
    end.
Proof.
  intros [Hp Ha He] (Hcur & Hd & Hs).
  pose proof (user_read_same (λ s m, get_as_str steps utf8 (user_word 1 s m) path s) w) as Hps.
  pose proof (user_args_same argv w) as Has. pose proof (user_args_same envp w) as Hes.
  unfold user_str in Hp. unfold sys_execve, on_world, st_zoom, user_str.
  unfold mbind, st_bind, st_get, st_err, st_mod, mret, st_ret. cbn [fst snd].
  rewrite Hps, Hp, Has, Ha, Hes, He. unfold current_process, st_gets. cbn [fst snd]. rewrite Hcur.
  destruct (1 <? _)%nat; [done|]. unfold process_data, current_process, data_of, st_gets, mbind, st_bind.
  cbn [fst snd]. rewrite Hcur, Hd. cbn [unwrap_opt fst snd].
  by destruct (replace_memory _ _ _ (w, v)) as [[x|e|] [w' v']].
Qed.

Lemma on_loader_run {E X} i (f : st (AddrSpace * Machine FA * Vfs) E X) (w : World) v s r s' m' v' :
  spaces w !! i = Some s → f (s, machine w, v) = (r, (s', m', v')) →
  on_loader i f (w, v) = (r, (set_space i s' m' w, v')).
Proof. intros Hs Hf. unfold on_loader. cbn [fst snd]. by rewrite Hs, Hf. Qed.

Lemma replace_memory_load (w : World) (v : Vfs) i args envs s s1 m1 s2 m2 :
  spaces w !! i = Some s → unmap_user_areas (s, machine w) = (Ok (), (s1, m1)) →
  map_trampoline plat (s1, m1) = (Ok (), (s2, m2)) →
  replace_memory i args envs (w, v) =
    let '(r, (s3, m3, v3)) := load_user_app plat utf8 depth args envs (s2, m2, v) in
    (map_err (λ _, ENOENT) r, (set_space i s3 m3 w, v3)).
Proof.
  intros Hs Hu Ht. unfold replace_memory, st_map_err, mbind, st_bind. cbv beta.
  rewrite (on_loader_run i (on_mem unmap_user_areas) w v s (Ok ()) s1 m1 v);
    [|done|unfold on_mem, st_zoom; cbn [fst snd]; by rewrite Hu]. cbn [fst snd map_err].
  rewrite (on_loader_run i (on_mem (map_trampoline plat)) _ v s1 (Ok ()) s2 m2 v);
    [|apply lookup_insert_eq|unfold on_mem, st_zoom; cbn [fst snd machine set_space]; by rewrite Ht].
  cbn [fst snd map_err]. destruct (load_user_app _ _ _ _ _ _) as [r [[s3 m3] v3]] eqn:Hl.
  rewrite (on_loader_run i _ _ v s2 r s3 m3 v3); [|apply lookup_insert_eq|done].
  cbn [fst snd]. by rewrite !set_space_twice.
Qed.



(** the path given to execve does not choose the program; the first
    argument does. Calls with different paths and the same arguments have the
    same outcome and leave the same memory. *)
Theorem execve_ignores_path (w : World) (v : Vfs) (path1 path2 argv envp : Z) (name1 name2 : str)
    (args envs : list str) (p : Z) (d : ProcessData) (s : AddrSpace) :
  execve_args w path1 argv envp name1 args envs → execve_args w path2 argv envp name2 args envs →
  caller w p d s →
  (sys_execve path1 argv envp (w, v)).1 = (sys_execve path2 argv envp (w, v)).1 ∧
  spaces (sys_execve path1 argv envp (w, v)).2.1 = spaces (sys_execve path2 argv envp (w, v)).2.1 ∧
  machine (sys_execve path1 argv envp (w, v)).2.1 = machine (sys_execve path2 argv envp (w, v)).2.1.
Proof.
  intros H1 H2 Hc.
  rewrite (sys_execve_unfold w v path1 argv envp name1 args envs p d s H1 Hc).
  rewrite (sys_execve_unfold w v path2 argv envp name2 args envs p d s H2 Hc).
  destruct (1 <? _)%nat; [done|]. by destruct (replace_memory _ _ _ (w, v)) as [[x|e|] wv].
Qed.

(** the first program becomes a process of its own, a child of the init
    process with an empty heap, that tells its end by SIGCHLD; its only thread
    is ready to run. *)
Theorem first_process_spec (w w' : World) (v v' : Vfs) (args envs : list str) (t : Z) (uctx : Z * Z * Z) :
  run_user_app args envs (w, v) = (Ok (t, uctx), (w', v')) →
  let tid := as_u32 t in
  ∃ exe rest d, args = exe :: rest ∧ uctx.2 = 2333 ∧ procs w' !! tid = Some d ∧ exe_path d = exe ∧
    pd_heap d = mkHeap (USER_HEAP_BASE plat) (USER_HEAP_BASE plat) ∧ exit_signal d = Some SIGCHLD ∧
    parent (tree w') tid = Some init_pid ∧ process_of (tree w') tid = tid ∧
    state (cpu w') t = Ready ∧ t ∈ sched_tasks (scheduler (cpu w')).
Proof.
  intros Hr. unfold run_user_app in Hr.
  apply st_bind_Ok in Hr as (space & s0 & _ & Hr). apply st_bind_Ok in Hr as (n & s1 & _ & Hr).
  apply st_bind_Ok in Hr as (? & s2 & _ & Hr). apply st_bind_Ok in Hr as (? & s3 & _ & Hr).
  destruct args as [|exe rest]; [done|].
  apply st_bind_Ok in Hr as (? & s4 & _ & Hr). apply st_bind_Ok in Hr as (? & s5 & _ & Hr).
  apply st_bind_Ok in Hr as ([entry sp] & s6 & Hload & Hr).
  apply st_bind_Ok in Hr as (t' & s7 & Hid & Hr). apply st_bind_Ok in Hr as (act & s8 & Ha & Hr).
  apply st_bind_Ok in Hr as (wq & s9 & Hwq & Hr). apply st_bind_Ok in Hr as (fds & s10 & Hf & Hr).
  apply st_bind_Ok in Hr as (dir & s11 & Hd & Hr). apply st_bind_Ok in Hr as (pa & s12 & Hpa & Hr).
  apply st_bind_Ok in Hr as ([] & s13 & [= <-] & Hr). apply st_bind_Ok in Hr as ([] & s14 & Hcl & Hr).
  injection Hr as <- <- ->. unfold on_world, st_zoom in Hcl. cbn [fst snd] in Hcl.
  destruct (clone_thread _ _ _ _ _ _) as [r w1] eqn:Hth. cbn [fst snd] in Hcl. injection Hcl as -> <- _.
  apply clone_thread_spec in Hth as (Ht & Hp & _ & _ & _ & _ & Hst & Hin).
  exists exe, rest. eexists. split_and!; [done|done|rewrite Hp; apply lookup_insert_eq|done..| | |done|done].
  - rewrite Ht, (proj1 (new_thread_tree _ _ _ _)). apply fork_parent.
  - rewrite Ht. apply new_thread_of.
Qed.
End exec.

(** ** Witnesses

    Every file with contents is an executable with one segment at [0x2000]:
    its first byte and a zero. *)
#[local] Existing Instance LoopRead.
#[local] Existing Instance SampleErrno.
#[local] Instance SimElf : ElfCrates (list Z) () := {|
  ElfFile_new d := if decide (d = []) then None else Some d;
  elf_interp _ := None;
  ELFParser_new _ _ _ _ := Some (mkParsed [mkSegment 8192 2 0 1 (Z.lor USER READ)] 8192 (λ _, ()));
  app_stack_region _ _ _ _ _ := [7; 8];
|}.
Definition app_parsed : Parsed () := mkParsed [mkSegment 8192 2 0 1 (Z.lor USER READ)] 8192 (λ _, ()).
Definition app_plat : Plat := mkPlat 0 65536 0 49152 4096 40960 8192 45056 4096.
Definition app_space : AddrSpace pt_list ms_list := mkAddrSpace (mkRange 0 65536) ms_empty [].
Definition app_machine (mem : Z → Z) : Machine counter := mkMachine (mkCounter 8 30) mem.
Definition latin1 (bs : list Z) : option str := Some (to_str bs).

Lemma app_plat_ok : plat_ok app_plat.
Proof. unfold plat_ok; simpl. unfold PAGE_SIZE_4K. lia. Qed.
Lemma app_space_ok m : space_ok app_space m.
Proof.
  split; simpl; [unfold AddrSpace_base, AddrSpace_end, PAGE_SIZE_4K; simpl; lia|by constructor|done|].
  split; simpl; done.
Qed.
Lemma app_loadable elf args envs (s : AddrSpace pt_list ms_list) : loadable app_plat elf app_parsed args envs s.
Proof.
  split; [done|]. split; [|simpl; lia]. repeat constructor; simpl; unfold PAGE_SIZE_4K; lia.
Qed.


Lemma load_resolves_witness :
  (load_user_app app_plat latin1 1 [$"/a"] [] (app_space, app_machine (λ _, 255), mem_boot_a)).1 =
    Ok (8192, 40958).
Proof.
  rewrite (load_resolves app_plat latin1 mem_boot_a 0 1 [$"/a"] [$"/a"] [] [104; 105] [104; 105]).
  - vm_compute. reflexivity.
  - apply resolves_elf; vm_compute; reflexivity.
  - lia.
Defined.

(** The script [/s] with the line [#!/s]. *)
Definition mem_boot_s : Vfs mem_disk Z (Z * str) :=
  set_disk (mem_insert (0, $"s") (NodeFile, [35; 33; 47; 115; 10]) (disk mem_boot)) mem_boot.
Lemma self_script_overflows_witness :
  (load_user_app app_plat latin1 100 [$"/s"] [] (app_space, app_machine (λ _, 255), mem_boot_s)).1 = Panic.
Proof.
  rewrite (self_script_overflows app_plat latin1 mem_boot_s $"/s" [35; 33; 47; 115; 10] $"/s");
    [reflexivity|vm_compute; reflexivity..].
Defined.

Lemma misaligned_segment_panics_witness :
  (map_segments [] [mkSegment 8192 2 1 1 0] (app_space, app_machine (λ _, 255))).1 = Panic.
Proof.
  rewrite (misaligned_segment_panics [] (mkSegment 8192 2 1 1 0) [] (app_space, app_machine (λ _, 255)));
    [reflexivity|simpl; lia|vm_compute; discriminate].
Defined.

(** Process 1 calls execve: two paths, an argument vector with [/a] and an
    empty environment in its first page. *)
Definition exec_memory : list Z :=
  [47; 97; 0; 0; 0; 0; 0; 0] ++ le_bytes 8 4096 ++ le_bytes 8 0 ++ le_bytes 8 0 ++ [47; 98; 0].
Abbreviation ExecWorld :=
  (World (PT:=pt_list) (FA:=counter) (MS:=ms_list) (P:=PTree) (S:=list (Z * SignalInfo)) (R:=list Z)
    (L:=list Timer) (D:=VfsNodeRef (Z * str))).
Definition exec_world : ExecWorld :=
  mkWorld (sample_tree false 1) [] init_scheduler {[1 := sample_data]} ∅ ∅ ∅ ∅ ∅
    {[0 := mem_aspace [(4096, (28672, 11))]]}
    (app_machine (λ x, default 0 (exec_memory !! Z.to_nat (x - 28672))))
    {[0 := stdio_table]} {[0 := RootNode]} {[0 := $"/"]} 1 ∅.
Definition exec_cleared : AxResult () * (AddrSpace pt_list ms_list * Machine counter) :=
  unmap_user_areas (mem_aspace [(4096, (28672, 11))], machine exec_world).
Definition exec_ready : AxResult () * (AddrSpace pt_list ms_list * Machine counter) :=
  map_trampoline app_plat exec_cleared.2.

Lemma exec_world_args path name :
  (user_str latin1 100 path exec_world).1 = Ok name →
  execve_args latin1 100 exec_world path 4104 4120 name [$"/a"] [].
Proof. intros Hp. split; [exact Hp|vm_compute; reflexivity..]. Qed.
Lemma exec_world_caller : caller exec_world 1 sample_data (mem_aspace [(4096, (28672, 11))]).
Proof. split_and!; reflexivity. Qed.
Lemma exec_cleared_ok : unmap_user_areas (mem_aspace [(4096, (28672, 11))], machine exec_world) =
  (Ok (), exec_cleared.2).
Proof. unfold exec_cleared. apply injective_projections; [vm_compute; reflexivity|done]. Qed.
Lemma exec_ready_ok : map_trampoline app_plat exec_cleared.2 = (Ok (), exec_ready.2).
Proof. unfold exec_ready. apply injective_projections; [vm_compute; reflexivity|done]. Qed.
Lemma exec_ready_space : space_ok exec_ready.2.1 exec_ready.2.2.
Proof.
  set (tramp := mkArea 49152 4096 13 (Linear 45056)).
  assert (ms_iter (areas exec_ready.2.1) = [tramp]) as Ha by (vm_compute; reflexivity).
  assert (pt exec_ready.2.1 = [(49152, (4096, 13))]) as Hq by (vm_compute; reflexivity).
  assert (va_range exec_ready.2.1 = mkRange 0 65536) as Hr by (vm_compute; reflexivity).
  assert (∀ p, ¬ alloc_page [tramp] p) as Hno.
  { intros p (a & n & Hin & _ & Hb). apply list_elem_of_singleton in Hin as ->. done. }
  split; rewrite ?Ha, ?Hq; unfold AddrSpace_base, AddrSpace_end; rewrite ?Hr; simpl.
  - unfold PAGE_SIZE_4K. lia.
  - repeat constructor; simpl; unfold a_end; simpl; unfold PAGE_SIZE_4K; lia || done.
  - intros p f fl Hp _ Hf. exists tramp. split; [set_solver|]. unfold pt_page in Hf. rewrite Hp, Z.sub_0_r in Hf.
    destruct (decide (p = 49152)) as [->|Hne]; [vm_compute; done|].
    simpl in Hf. by rewrite decide_False in Hf.
  - split; simpl; intros; by edestruct Hno.
Qed.



Lemma execve_ignores_path_witness :
  (sys_execve app_plat latin1 100 1 4096 4104 4120 (exec_world, mem_boot_a)).1 =
  (sys_execve app_plat latin1 100 1 4128 4104 4120 (exec_world, mem_boot_a)).1.
Proof.
  pose proof (exec_world_args 4096 $"/a" ltac:(vm_compute; reflexivity)) as H1.
  pose proof (exec_world_args 4128 $"/b" ltac:(vm_compute; reflexivity)) as H2.
  exact (proj1 (execve_ignores_path app_plat latin1 100 1 exec_world mem_boot_a 4096 4128 4104 4120 _ _ _ _
    _ _ _ H1 H2 exec_world_caller)).
Defined.

Definition first_run : LinuxResult (Z * (Z * Z * Z)) * (ExecWorld * Vfs mem_disk Z (Z * str)) :=
  run_user_app app_plat latin1 1 app_space false 1 0 0 0 [$"/a"] [] (exec_world, mem_boot_a).
Lemma first_run_ok : ∃ t uctx w' v', first_run = (Ok (t, uctx), (w', v')).
Proof.
  assert (is_ok first_run.1 = true) as Hr by (vm_compute; reflexivity).
  destruct first_run as [[[t uctx]|e|] [w' v']]; [by exists t, uctx, w', v'|done..].
Qed.
Lemma first_process_spec_witness :
  ∃ t uctx w' v', first_run = (Ok (t, uctx), (w', v')) ∧ parent (tree w') (as_u32 t) = Some 1.
Proof.
  destruct first_run_ok as (t & uctx & w' & v' & Hrun). exists t, uctx, w', v'. split; [exact Hrun|].
  destruct (first_process_spec app_plat latin1 1 app_space false 1 0 0 0 exec_world w' mem_boot_a v'
    [$"/a"] [] t uctx Hrun) as (exe & rest & d & _ & _ & _ & _ & _ & _ & Hp & _). exact Hp.
Defined.
