(* ===== verification/Time.v ===== *)
(** * Times: accounting, conversions and the calls that use them

    Model of [src/core/src/time.rs] (user and kernel time of a task and its
    interval timer), [src/api/src/time.rs] (conversions between the kernel's
    durations and the C structures), [src/api/src/imp/time.rs] and
    [sys_nanosleep] of [src/api/src/imp/task/schedule.rs]. *)

From S2P Require Import Prelude Abi.

#[local] Open Scope Z_scope.

(** ** Time accounting ([core/src/time.rs]) *)

Inductive TimerType : Type := TIMER_NONE | TIMER_REAL | TIMER_VIRTUAL | TIMER_PROF.

#[global] Instance TimerType_eq_dec : EqDecision TimerType.
Proof. solve_decision. Defined.

(** [impl From<usize>]: [try_from] on the number as an [i32]. *)
Definition TimerType_from (num : Z) : TimerType :=
  let n := as_i32 num in
  if n =? -1 then TIMER_NONE else if n =? 0 then TIMER_REAL
  else if n =? 1 then TIMER_VIRTUAL else if n =? 2 then TIMER_PROF else TIMER_NONE.

Record TimeStat := mkTimeStat {
  utime_ns : Z; stime_ns : Z; user_timestamp : Z; kernel_timestamp : Z;
  timer_type : TimerType; timer_interval_ns : Z; timer_remained_ns : Z;
}.

Definition TimeStat_new : TimeStat := mkTimeStat 0 0 0 0 TIMER_NONE 0 0.
Definition output (s : TimeStat) : Z * Z := (utime_ns s, stime_ns s).
Definition TimeStat_reset (now : Z) (s : TimeStat) : TimeStat :=
  mkTimeStat 0 0 0 now (timer_type s) (timer_interval_ns s) (timer_remained_ns s).

Definition update_timer (delta : Z) (s : TimeStat) : TimeStat :=
  if timer_remained_ns s =? 0 then s
  else if delta <? timer_remained_ns s then
    mkTimeStat (utime_ns s) (stime_ns s) (user_timestamp s) (kernel_timestamp s) (timer_type s)
      (timer_interval_ns s) (timer_remained_ns s - delta)
  else s.

Definition switch_into_kernel_mode (now : Z) (s : TimeStat) : TimeStat :=
  let delta := as_usize (now - kernel_timestamp s) in
  let s := mkTimeStat (as_usize (utime_ns s + delta)) (stime_ns s) (user_timestamp s) now
             (timer_type s) (timer_interval_ns s) (timer_remained_ns s) in
  if decide (timer_type s ≠ TIMER_NONE) then update_timer delta s else s.

Definition switch_into_user_mode (now : Z) (s : TimeStat) : TimeStat :=
  let delta := as_usize (now - kernel_timestamp s) in
  let s := mkTimeStat (utime_ns s) (as_usize (stime_ns s + delta)) now (kernel_timestamp s)
             (timer_type s) (timer_interval_ns s) (timer_remained_ns s) in
  if decide (timer_type s = TIMER_REAL ∨ timer_type s = TIMER_PROF) then update_timer delta s else s.

Definition switch_from_old_task (now : Z) (s : TimeStat) : TimeStat :=
  let delta := as_usize (now - kernel_timestamp s) in
  let s := mkTimeStat (utime_ns s) (as_usize (stime_ns s + delta)) (user_timestamp s) now
             (timer_type s) (timer_interval_ns s) (timer_remained_ns s) in
  if decide (timer_type s = TIMER_REAL ∨ timer_type s = TIMER_PROF) then update_timer delta s else s.

Definition switch_to_new_task (now : Z) (s : TimeStat) : TimeStat :=
  let delta := as_usize (now - kernel_timestamp s) in
  let s := mkTimeStat (utime_ns s) (stime_ns s) (user_timestamp s) now
             (timer_type s) (timer_interval_ns s) (timer_remained_ns s) in
  if decide (timer_type s = TIMER_REAL) then update_timer delta s else s.

Definition set_timer (interval remained type : Z) (s : TimeStat) : bool * TimeStat :=
  let s := mkTimeStat (utime_ns s) (stime_ns s) (user_timestamp s) (kernel_timestamp s)
             (TimerType_from type) interval remained in
  (bool_decide (timer_type s ≠ TIMER_NONE), s).

(** ** Durations ([core::time::Duration]) *)

Record Duration := mkDuration { dur_secs : Z; dur_nanos : Z }.

Definition NANOS_PER_SEC : Z := 1000000000.
Definition NANOS_PER_MICROS : Z := 1000.

(** [Duration::new] panics when the carry overflows the seconds. *)
Definition Duration_new {E} (secs nanos : Z) : res E Duration :=
  if secs + nanos / NANOS_PER_SEC <? 2 ^ 64
  then Ok (mkDuration (secs + nanos / NANOS_PER_SEC) (nanos mod NANOS_PER_SEC)) else Panic.
Definition subsec_micros (d : Duration) : Z := dur_nanos d / NANOS_PER_MICROS.
Definition as_nanos (d : Duration) : Z := dur_secs d * NANOS_PER_SEC + dur_nanos d.
(** [checked_sub] and [+], which panics on overflow. *)
Definition checked_sub (a b : Duration) : option Duration :=
  if as_nanos b <=? as_nanos a
  then Some (mkDuration ((as_nanos a - as_nanos b) / NANOS_PER_SEC)
                        ((as_nanos a - as_nanos b) mod NANOS_PER_SEC)) else None.
Definition dur_add {E} (a b : Duration) : res E Duration :=
  let n := as_nanos a + as_nanos b in
  if n / NANOS_PER_SEC <? 2 ^ 64 then Ok (mkDuration (n / NANOS_PER_SEC) (n mod NANOS_PER_SEC))
  else Panic.

(** ** Conversions ([api/src/time.rs]) *)

Record timespec := mkTimespec { tv_sec : Z; tv_nsec : Z }.
Record timeval := mkTimeval { tvl_sec : Z; tvl_usec : Z }.

Definition timespec_from_time_value (tv : Duration) : timespec :=
  mkTimespec (as_i64 (dur_secs tv)) (as_i64 (dur_nanos tv)).
Definition timespec_to_time_value {E} (ts : timespec) : res E Duration :=
  Duration_new (as_u64 (tv_sec ts)) (as_u32 (tv_nsec ts)).
Definition timeval_from_time_value (tv : Duration) : timeval :=
  mkTimeval (as_i64 (dur_secs tv)) (as_i64 (subsec_micros tv)).
Definition timeval_to_time_value {E} (tv : timeval) : res E Duration :=
  Duration_new (as_u64 (tvl_sec tv)) (as_u32 (as_u32 (tvl_usec tv) * 1000)).

(** ** System calls *)

Definition CLOCK_REALTIME : Z := 0.
Definition CLOCK_MONOTONIC : Z := 1.

(** [ts] is the outcome of the check of the user pointer. *)
Definition sys_clock_gettime (wall monotonic : Duration) (clock_id : Z) (ts : LinuxResult ()) :
    LinuxResult (Z * timespec) :=
  now ← (if as_u32 clock_id =? CLOCK_REALTIME then Ok wall
         else if as_u32 clock_id =? CLOCK_MONOTONIC then Ok monotonic else Err EINVAL);
  _ ← ts;
  mret (0, timespec_from_time_value now).

Definition sys_gettimeofday (wall : Duration) (ts : LinuxResult ()) : LinuxResult (Z * timeval) :=
  _ ← ts; mret (0, timeval_from_time_value wall).

Record Tms := mkTms { tms_utime : Z; tms_stime : Z; tms_cutime : Z; tms_cstime : Z }.

(** [time_stat_output]. *)
Definition time_stat_output (s : TimeStat) : Z * Z * Z * Z :=
  let '(u, t) := output s in
  (u / NANOS_PER_SEC, u / NANOS_PER_MICROS, t / NANOS_PER_SEC, t / NANOS_PER_MICROS).

Definition sys_times (s : TimeStat) (ticks : Z) (tms : LinuxResult ()) : LinuxResult (Z * Tms) :=
  let '(_, utime_us, _, stime_us) := time_stat_output s in
  _ ← tms;
  mret (as_isize ticks, mkTms utime_us stime_us utime_us stime_us).

(** [sys_nanosleep]: what was asked of the scheduler, and what was stored
    through [rem]. [busybox] is whether the task has that name; [now] and
    [after] are the clock around the sleep. *)
Definition sys_nanosleep (req : LinuxResult timespec) (rem : LinuxResult (option ()))
    (busybox : bool) (now after : Duration) : LinuxResult (option Duration * option timespec) :=
  req ← req;
  if (tv_nsec req <? 0) || (999999999 <? tv_nsec req) || (tv_sec req <? 0) then Err EINVAL else
  dur ← timespec_to_time_value req;
  let slept := if busybox then None else Some dur in
  actual ← match checked_sub after now with Some d => Ok d | None => Panic end;
  match checked_sub dur actual with
  | Some diff =>
      rem ← rem;
      mret (slept, match rem with Some _ => Some (timespec_from_time_value diff) | None => None end)
  | None => mret (slept, None)
  end.

(** ** Conversions keep the time *)

Definition dur_ok (d : Duration) : Prop := 0 ≤ dur_secs d < 2 ^ 63 ∧ 0 ≤ dur_nanos d < NANOS_PER_SEC.

(** a duration that fits survives the trip through a [timespec], and the
    one through a [timeval] rounds it down to a microsecond. *)
Theorem time_value_roundtrip (tv : Duration) :
  dur_ok tv →
  timespec_to_time_value (timespec_from_time_value tv) = @Ok LinuxError _ tv ∧
  timeval_to_time_value (timeval_from_time_value tv)
    = @Ok LinuxError _ (mkDuration (dur_secs tv) (dur_nanos tv - dur_nanos tv mod 1000)).
Proof.
  destruct tv as [s n]. unfold dur_ok, NANOS_PER_SEC. simpl. intros [Hs Hn].
  assert (0 ≤ n / 1000 < 1000000) as Hm.
  { split; [apply Z.div_pos; lia|apply Z.div_lt_upper_bound; lia]. }
  unfold timespec_to_time_value, timespec_from_time_value, timeval_to_time_value,
    timeval_from_time_value, subsec_micros, Duration_new, NANOS_PER_SEC, NANOS_PER_MICROS. simpl.
  ints.
  rewrite !Z.div_small, !Z.mod_small, Z.add_0_r by lia.
  assert ((s <? 2 ^ 64) = true) as -> by (apply Z.ltb_lt; lia).
  split; [done|]. do 2 f_equal. pose proof (Z_div_mod_eq_full n 1000). lia.
Qed.

(** [nanosleep] refuses exactly the requests that are not a time, and no
    request makes it panic; the remaining time it stores is the request less
    the time that has passed. *)
Theorem nanosleep_spec (req : timespec) (rem : option ()) (busybox : bool) (now after : Duration) :
  in_s 64 (tv_sec req) → in_s 64 (tv_nsec req) → 0 ≤ as_nanos now ≤ as_nanos after →
  let valid := 0 ≤ tv_sec req ∧ 0 ≤ tv_nsec req < NANOS_PER_SEC in
  let total := tv_sec req * NANOS_PER_SEC + tv_nsec req in
  let left := total - (as_nanos after - as_nanos now) in
  match sys_nanosleep (Ok req) (Ok rem) busybox now after with
  | Err e => e = EINVAL ∧ ¬ valid
  | Ok (slept, out) =>
      valid ∧ slept = (if busybox then None else Some (mkDuration (tv_sec req) (tv_nsec req))) ∧
      (out = None ↔ left < 0 ∨ rem = None) ∧
      ∀ ts, out = Some ts → left = tv_sec ts * NANOS_PER_SEC + tv_nsec ts
  | Panic => False
  end.
Proof.
  destruct req as [s n]. unfold in_s. simpl. intros Hs Hn Hclock.
  unfold sys_nanosleep, mbind, res_bind. simpl. unfold NANOS_PER_SEC.
  destruct (Z.ltb_spec n 0); [simpl; split; [done|lia]|].
  destruct (Z.ltb_spec 999999999 n); [simpl; split; [done|lia]|].
  destruct (Z.ltb_spec s 0); [simpl; split; [done|lia]|]. cbn [orb].
  unfold timespec_to_time_value, Duration_new, NANOS_PER_SEC. cbn [tv_sec tv_nsec].
  ints. rewrite Z.div_small, Z.mod_small, Z.add_0_r by lia.
  destruct (Z.ltb_spec s (2 ^ 64)); [|lia].
  unfold checked_sub at 1. destruct (Z.leb_spec (as_nanos now) (as_nanos after)); [|lia].
  set (d := as_nanos after - as_nanos now).
  assert (∀ x, as_nanos (mkDuration (x / NANOS_PER_SEC) (x mod NANOS_PER_SEC)) = x) as Hns.
  { intros x. unfold as_nanos. simpl. pose proof (Z_div_mod_eq_full x NANOS_PER_SEC). lia. }
  unfold checked_sub. rewrite Hns. unfold as_nanos at 1. cbn [dur_secs dur_nanos]. unfold NANOS_PER_SEC.
  destruct (Z.leb_spec d (s * 1000000000 + n)) as [Hle|Hgt]; simpl.
  - split; [lia|]. split; [done|]. unfold as_nanos. cbn [dur_secs dur_nanos]. unfold NANOS_PER_SEC.
    set (l := s * 1000000000 + n - d). assert (0 ≤ l) as Hl by lia.
    destruct rem; [|split; [split; auto|done]]. split; [split; [done|intros [?|?]; [lia|done]]|].
    intros ts [= <-].
    unfold timespec_from_time_value. cbn [tv_sec tv_nsec dur_secs dur_nanos].
    pose proof (Z.mod_pos_bound l 1000000000 ltac:(lia)).
    pose proof (Z_div_mod_eq_full l 1000000000).
    ints. lia.
  - split; [lia|]. split; [done|]. split; [split; [lia|done]|done].
Qed.

(** ** Accounting *)

(** time is counted twice. The kernel's time stamp stays where it was when
    a task goes back to user mode, so on the next entry the time since the
    last entry, its part in the kernel included, is added to the user time as
    well: the two sums grow by more than the time that has passed. *)
Theorem kernel_time_counted_twice (s : TimeStat) (enter leave again : Z) :
  0 ≤ enter ≤ leave → leave ≤ again → again < 2 ^ 62 →
  kernel_timestamp s = enter → timer_type s = TIMER_NONE →
  0 ≤ utime_ns s < 2 ^ 62 → 0 ≤ stime_ns s < 2 ^ 62 →
  let s' := switch_into_kernel_mode again (switch_into_user_mode leave s) in
  utime_ns s' = utime_ns s + (again - enter) ∧ stime_ns s' = stime_ns s + (leave - enter) ∧
  (utime_ns s' + stime_ns s') - (utime_ns s + stime_ns s) = (again - enter) + (leave - enter).
Proof.
  destruct s as [u st us k ty iv rm]. simpl. intros H1 H2 H3 -> -> Hu Hst.
  unfold switch_into_user_mode, switch_into_kernel_mode. simpl.
  ints. lia.
Qed.

(** What happens to the timer of a task that runs. *)
Inductive time_step (s : TimeStat) : TimeStat → Prop :=
| ts_kernel now : time_step s (switch_into_kernel_mode now s)
| ts_user now : time_step s (switch_into_user_mode now s)
| ts_old now : time_step s (switch_from_old_task now s)
| ts_new now : time_step s (switch_to_new_task now s).

Lemma update_timer_pos d s : 0 ≤ d → 0 < timer_remained_ns s → 0 < timer_remained_ns (update_timer d s).
Proof.
  intros Hd Hs. unfold update_timer. destruct (_ =? 0); [done|].
  destruct (Z.ltb_spec d (timer_remained_ns s)); simpl; lia.
Qed.

(** an interval timer never runs out: the tick that would take the
    remaining time to zero is ignored, so a timer that was set stays set
    however long the task runs. *)
Theorem timer_never_expires (s s' : TimeStat) :
  rtc time_step s s' → 0 < timer_remained_ns s → 0 < timer_remained_ns s'.
Proof.
  intros Hr Hs. eapply (rtc_preserved time_step (λ s, 0 < timer_remained_ns s)); [|exact Hs|exact Hr].
  intros a b [now|now|now|now] Ha;
    unfold switch_into_kernel_mode, switch_into_user_mode, switch_from_old_task, switch_to_new_task;
    (case_decide; [|done]); (apply update_timer_pos; [by apply wrapu_range|done]).
Qed.

(** ** Witnesses *)

Lemma time_value_roundtrip_witness :
  timespec_to_time_value (timespec_from_time_value (mkDuration 5 1999)) = @Ok LinuxError _ (mkDuration 5 1999).
Proof. apply time_value_roundtrip. by unfold dur_ok. Defined.

Lemma nanosleep_spec_witness :
  match sys_nanosleep (Ok (mkTimespec 2 0)) (Ok (Some ())) false (mkDuration 10 0) (mkDuration 11 500) with
  | Ok (slept, Some ts) => 999999500 = tv_sec ts * NANOS_PER_SEC + tv_nsec ts
  | _ => False
  end.
Proof.
  pose proof (nanosleep_spec (mkTimespec 2 0) (Some ()) false (mkDuration 10 0) (mkDuration 11 500)
    ltac:(done) ltac:(done) ltac:(done)) as H.
  destruct (sys_nanosleep _ _ _ _ _) as [[slept [ts|]]|e|] eqn:Hr; try done.
  destruct H as (_ & _ & _ & H). exact (H ts eq_refl).
Defined.

Lemma kernel_time_counted_twice_witness :
  utime_ns (switch_into_kernel_mode 30 (switch_into_user_mode 20 (TimeStat_reset 10 TimeStat_new))) = 20.
Proof.
  apply (kernel_time_counted_twice (TimeStat_reset 10 TimeStat_new) 10 20 30); done.
Defined.

Lemma timer_never_expires_witness :
  0 < timer_remained_ns (switch_to_new_task 1000 (set_timer 5 5 0 TimeStat_new).2).
Proof.
  apply (timer_never_expires (set_timer 5 5 0 TimeStat_new).2); [|done].
  apply rtc_once, ts_new.
Defined.
