(* ===== verification/Poll.v ===== *)
(** * Polling

    [poll] and [ppoll] ([src/api/src/imp/fs/io_mpx/poll.rs]) over the
    [FileLike] objects of the descriptor table. The loop gives up the CPU
    between its turns; what other tasks do meanwhile is part of the input. *)

From S2P Require Import Prelude Abi Str Pipe FdTable Time.

#[local] Open Scope Z_scope.


Record pollfd := mkPollfd { fd : Z; events : Z; revents : Z }.
Definition set_revents (r : Z) (p : pollfd) : pollfd := mkPollfd (fd p) (events p) r.

(** The [poll] of the objects and the interfaces of the network; [W] is the
    state of all of them. *)
Class PollOps (W : Type) := {
  fl_poll : FileLike → st W LinuxError PollState;
  net_poll : W → W;
}.

(** [wall_time() >= d]. *)
Definition dur_le (a b : Duration) : bool := as_nanos a <=? as_nanos b.

Section poll.
Context {W : Type} `{PO : !PollOps W} `{FO : !FlattenObjects FileLike AX_FILE_LIMIT}.
Variable t : table FileLike AX_FILE_LIMIT.

(** The events of a descriptor that is ready. *)
Definition ready_events (p : pollfd) (x : PollState) : Z :=
  let r := if negb (Z.land (events p) POLLIN =? 0) && poll_readable x then POLLIN else 0 in
  if negb (Z.land (events p) POLLOUT =? 0) && poll_writable x then Z.lor r POLLOUT else r.

(** The body of the [for] loop. *)
Definition poll_one (p : pollfd) : st W LinuxError Z := λ w,
  match get_file_like t (fd p) with
  | Ok f =>
      match fl_poll f w with
      | (Ok x, w') => (Ok (ready_events p x), w')
      | (Err _, w') => (Ok POLLERR, w')
      | (Panic, w') => (Panic, w')
      end
  | Err _ => (Ok POLLNVAL, w)
  | Panic => (Panic, w)
  end.
Fixpoint poll_pass (fds : list pollfd) (res : Z) : st W LinuxError (list pollfd * Z) :=
  match fds with
  | [] => mret ([], res)
  | p :: fds' =>
      r ← poll_one p;
      '(ps, n) ← poll_pass fds' (if r =? 0 then res else as_isize (res + 1));
      mret (set_revents (as_i16 r) p :: ps, n)
  end.

(** One turn of [loop] at the time [now]: [None] goes on. *)
Definition poll_turn (fds : list pollfd) (deadline : option Duration) (now : Duration) :
    st W LinuxError (option Z * list pollfd) :=
  st_mod net_poll;;
  '(ps, n) ← poll_pass fds 0;
  mret (if 0 <? n then (Some n, ps)
        else match deadline with
             | Some d => if dur_le d now then (Some 0, ps) else (None, ps)
             | None => (None, ps)
             end).

(** The loop. After turn [k] the other tasks do [others k], and turn [k] reads
    the clock [clock k]; the fuel bounds the turns, [None] when it runs out. *)
Fixpoint poll_loop (fuel k : nat) (others : nat → W → W) (clock : nat → Duration) (fds : list pollfd)
    (deadline : option Duration) : st W LinuxError (option (Z * list pollfd)) :=
  match fuel with
  | O => mret None
  | S fuel' =>
      '(o, ps) ← poll_turn fds deadline (clock k);
      match o with
      | Some n => mret (Some (n, ps))
      | None => st_mod (others k);; poll_loop fuel' (S k) others clock ps deadline
      end
  end.
Definition do_poll (fuel : nat) (others : nat → W → W) (clock : nat → Duration) (start : Duration)
    (fds : list pollfd) (timeout : option Duration) : st W LinuxError (option (Z * list pollfd)) :=
  deadline ← st_lift match timeout with Some x => Some <$> dur_add start x | None => Ok None end;
  poll_loop fuel 0 others clock fds deadline.

(** [TimeValue::from_millis]. *)
Definition from_millis (ms : Z) : Duration := mkDuration (ms / 1000) (ms mod 1000 * 1000000).

Definition sys_poll (fuel : nat) (others : nat → W → W) (clock : nat → Duration) (start : Duration)
    (fds : LinuxResult (list pollfd)) (timeout : Z) : st W LinuxError (option (Z * list pollfd)) :=
  fds ← st_lift fds;
  do_poll fuel others clock start fds (if timeout <? 0 then None else Some (from_millis (as_u64 timeout))).
Definition sys_ppoll (fuel : nat) (others : nat → W → W) (clock : nat → Duration) (start : Duration)
    (fds : LinuxResult (list pollfd)) (timeout : LinuxResult (option timespec)) :
    st W LinuxError (option (Z * list pollfd)) :=
  fds ← st_lift fds;
  ts ← st_lift timeout;
  d ← st_lift match ts with Some ts => Some <$> timespec_to_time_value ts | None => Ok None end;
  do_poll fuel others clock start fds d.

(** ** What a turn finds *)

(** Asking an object whether it is ready changes nothing and does not panic. *)
Definition pure_polls : Prop := ∀ f w, (fl_poll f w).2 = w ∧ (fl_poll f w).1 ≠ Panic.

(** The events of a descriptor in a state. *)
Definition found (w : W) (p : pollfd) : Z :=
  match get_file_like t (fd p) with
  | Ok f => match (fl_poll f w).1 with Ok x => ready_events p x | _ => POLLERR end
  | _ => POLLNVAL
  end.
Definition ready (w : W) (fds : list pollfd) : list pollfd := filter (λ p, found w p ≠ 0) fds.
Definition answered (w : W) (fds : list pollfd) : list pollfd :=
  (λ p, set_revents (found w p) p) <$> fds.

Lemma found_small w p : 0 ≤ found w p < 64.
Proof.
  unfold found, ready_events. destruct (get_file_like t (fd p)) as [f|?|]; [|done..].
  destruct (fl_poll f w).1 as [x|?|]; [|done..].
  destruct (negb _ && poll_readable x), (negb _ && poll_writable x); done.
Qed.

Lemma poll_one_found w p : pure_polls → poll_one p w = (Ok (found w p), w).
Proof.
  intros Hp. unfold poll_one, found. destruct (get_file_like t (fd p)) as [f|?|] eqn:Hg; [|done|].
  - destruct (Hp f w) as [Hs Hn]. destruct (fl_poll f w) as [[x|?|] w']; simpl in *; by subst w'.
  - unfold get_file_like in Hg. by destruct (fo_get t _).
Qed.

Lemma poll_pass_found w fds n :
  pure_polls → 0 ≤ n → n + Z.of_nat (length fds) < 2 ^ 63 →
  poll_pass fds n w = (Ok (answered w fds, n + Z.of_nat (length (ready w fds))), w).
Proof.
  intros Hp. revert n. induction fds as [|p fds IH]; intros n Hn Hl; cbn [poll_pass].
  { unfold mret, st_ret. simpl. by rewrite Z.add_0_r. }
  unfold mbind, st_bind, mret, st_ret. rewrite poll_one_found by done. pose proof (found_small w p) as Hs.
  cbn [length] in Hl. unfold ready, answered. rewrite filter_cons, fmap_cons.
  destruct (Z.eqb_spec (found w p) 0) as [Hz|Hz].
  - rewrite IH by lia. rewrite decide_False by tauto. by ints.
  - rewrite decide_True by done. rewrite (wraps_id 64) by (unfold in_s; lia). rewrite IH by lia.
    cbn [length]. rewrite (wraps_id 16) by (unfold in_s; lia). unfold ready, answered.
    do 3 f_equal. lia.
Qed.

(** ** The loop *)

Variables (others : nat → W → W) (clock : nat → Duration) (deadline : option Duration).

(** The state in which turn [k] polls. *)
Fixpoint at_turn (k : nat) (w : W) : W :=
  match k with O => net_poll w | S k' => net_poll (others k' (at_turn k' w)) end.
Definition expired (k : nat) : bool :=
  match deadline with Some d => dur_le d (clock k) | None => false end.
Definition ends (w : W) (fds : list pollfd) (k : nat) : Prop :=
  ready (at_turn k w) fds ≠ [] ∨ expired k = true.

Lemma ready_answered w w' fds : ready w (answered w' fds) = answered w' (ready w fds).
Proof.
  unfold ready, answered. induction fds as [|p fds IH]; [done|]. rewrite fmap_cons, !filter_cons.
  assert (found w (set_revents (found w' p) p) = found w p) as -> by done.
  case_decide; [rewrite fmap_cons|]; by rewrite IH.
Qed.
Lemma answered_answered w w' fds : answered w (answered w' fds) = answered w fds.
Proof. unfold answered. rewrite <-list_fmap_compose. by apply list_fmap_ext. Qed.

Lemma poll_turn_found w fds k :
  pure_polls → Z.of_nat (length fds) < 2 ^ 63 →
  let w' := net_poll w in
  poll_turn fds deadline (clock k) w =
    (Ok (if decide (ready w' fds = []) then if expired k then Some 0 else None
         else Some (Z.of_nat (length (ready w' fds))), answered w' fds), w').
Proof.
  intros Hp Hl w'. unfold poll_turn, mbind, st_bind, st_mod, mret, st_ret.
  rewrite poll_pass_found by (done || lia). rewrite Z.add_0_l. unfold expired. fold w'.
  destruct (ready w' fds) as [|p ps] eqn:Hr.
  - rewrite decide_True by done. simpl. by destruct deadline as [d|]; [destruct (dur_le d (clock k))|].
  - rewrite decide_False by done. destruct (Z.ltb_spec 0 (Z.of_nat (length (p :: ps)))); [done|simpl in *; lia].
Qed.

Lemma poll_loop_found w fds fuel k j ps :
  pure_polls → Z.of_nat (length fds) < 2 ^ 63 → (k ≤ j < k + fuel)%nat →
  ends w fds j → (∀ i, (k ≤ i < j)%nat → ¬ ends w fds i) →
  ∀ w', net_poll w' = at_turn k w → (ps = fds ∨ ∃ v, ps = answered v fds) →
  let v := at_turn j w in
  poll_loop fuel k others clock ps deadline w' = (Ok (Some (Z.of_nat (length (ready v fds)), answered v fds)), v).
Proof.
  intros Hp Hl. revert k ps. induction fuel as [|fuel IH]; intros k ps Hj Hend Hno w' Hw' Hps v; [lia|].
  cbn [poll_loop]. unfold mbind at 1, st_bind at 1.
  assert (Z.of_nat (length ps) < 2 ^ 63) as Hlp.
  { destruct Hps as [->|[v0 ->]]; [done|]. unfold answered. by rewrite length_fmap. }
  rewrite poll_turn_found by done. rewrite Hw'.
  assert (∀ v, answered v ps = answered v fds) as Han.
  { intros v1. destruct Hps as [->|[v0 ->]]; [done|]. apply answered_answered. }
  assert (∀ v, length (ready v ps) = length (ready v fds)) as Hre.
  { intros v1. destruct Hps as [->|[v0 ->]]; [done|]. rewrite ready_answered. unfold answered. by rewrite length_fmap. }
  assert (∀ v, ready v ps = [] ↔ ready v fds = []) as Hnil.
  { intros v1. rewrite <-!length_zero_iff_nil. by rewrite Hre. }
  destruct (decide (k = j)) as [->|Hne].
  - destruct (decide (ready (at_turn j w) ps = [])) as [He|He].
    + destruct Hend as [Hend|Hend]; [by apply Hnil in He|]. rewrite Hend. unfold mret, st_ret. fold v in He |- *.
      apply Hnil in He. rewrite He, Han. done.
    + unfold mret, st_ret. fold v. by rewrite Han, Hre.
  - assert (¬ ends w fds k) as Hk by (apply Hno; lia).
    rewrite decide_True by (apply Hnil; apply dec_stable; intros Hc; apply Hk; by left).
    assert (expired k = false) as -> by (apply not_true_iff_false; intros Hc; apply Hk; by right).
    unfold mbind, st_bind, st_mod. apply IH; [lia|done|intros; apply Hno; lia|done|].
    right. exists (at_turn k w). apply Han.
Qed.


(** A negative descriptor, which the caller wants ignored, is reported as
    invalid and counted. *)
Lemma negative_fd_found w p : in_s 32 (fd p) → fd p < 0 → found w p = POLLNVAL.
Proof.
  intros Hs Hn. unfold found, get_file_like. destruct (fo_get t (as_usize (fd p))) as [f|] eqn:Hg; [|done].
  destruct (fo_get_range t (as_usize (fd p))) as [_ Hr]; [by eexists|].
  unfold AX_FILE_LIMIT, in_s in *. unfold wrapu in Hr.
  rewrite <-(Z.mod_add _ 1), Z.mod_small in Hr; lia.
Qed.
End poll.

(** ** Witness: the three standard streams, nothing ready until turn 2 *)
#[local] Instance CountPoll : PollOps nat := {|
  fl_poll _ w := (Ok {| poll_readable := (2 <=? w)%nat; poll_writable := false |}, w);
  net_poll w := w;
|}.
