(* ===== verification/PosixFd.v ===== *)
(** * Descriptors of unikernel applications

    The POSIX calls of ArceOS ([src/.arceos/api/arceos_posix_api/src]): the
    macro that turns a result into a C value ([utils.rs]), the table of
    descriptors ([imp/fd_ops.rs]) and the limits ([imp/resources.rs]). The
    table is the crate [flatten_objects] as in FdTable; the objects [F] behind
    the trait [FileLike] are of any kind. *)

From S2P Require Import Prelude Abi Str FdTable.

#[local] Open Scope Z_scope.

(** [syscall_body!]: the closure runs, and an error becomes its negated
    number; the result is a C [int]. *)
Definition syscall_body `{AxErrno} {S} (m : st S LinuxError Z) : st S LinuxError Z := λ s,
  match m s with
  | (Ok v, s') => (Ok (as_i32 v), s')
  | (Err e, s') => (Ok (- errno_code e), s')
  | (Panic, s') => (Panic, s')
  end.

Definition F_GETFD : Z := 1.
Definition RLIMIT_DATA : Z := 2.
Definition RLIMIT_STACK : Z := 3.
Definition RLIMIT_NOFILE : Z := 7.

Section posix_fd.
Context {F : Type} `{FO : !FlattenObjects F AX_FILE_LIMIT} `{AxErrno}.
Abbreviation fd_table := (table F AX_FILE_LIMIT).

(** ** The table *)

Definition posix_get (t : fd_table) (fd : Z) : LinuxResult F := ok_or (fo_get t (as_usize fd)) EBADF.
Definition posix_add (f : F) : st fd_table LinuxError Z := λ t,
  match fo_add t f with
  | Some (id, t') => (Ok (as_i32 id), t')
  | None => (Err EMFILE, t)
  end.
Definition posix_remove (fd : Z) : st fd_table LinuxError () := λ t,
  match fo_remove t (as_usize fd) with
  | Some (_, t') => (Ok (), t')
  | None => (Err EBADF, t)
  end.

(** ** Calls *)

Definition posix_close (fd : Z) : st fd_table LinuxError Z :=
  if (0 <=? fd) && (fd <=? 2) then mret 0
  else syscall_body (posix_remove fd;; mret 0).

Definition posix_dup_fd (old_fd : Z) : st fd_table LinuxError Z :=
  t ← st_get; f ← st_lift (posix_get t old_fd); posix_add f.
Definition posix_dup (old_fd : Z) : st fd_table LinuxError Z := syscall_body (posix_dup_fd old_fd).

(** [set_nonblocking] is the method of the object. *)
Variable set_nonblocking : F → bool → LinuxResult ().

Definition posix_fcntl (fd cmd arg : Z) : st fd_table LinuxError Z :=
  syscall_body
    (if as_u32 cmd =? F_DUPFD then posix_dup_fd fd
     else if as_u32 cmd =? F_DUPFD_CLOEXEC then posix_dup_fd fd
     else if as_u32 cmd =? F_SETFL then
       if (fd =? 0) || (fd =? 1) || (fd =? 2) then mret 0 else
       t ← st_get;
       f ← st_lift (posix_get t fd);
       st_lift (set_nonblocking f (0 <? Z.land arg O_NONBLOCK));;
       mret 0
     else mret 0).

Definition posix_dup2 (old_fd new_fd : Z) : st fd_table LinuxError Z :=
  syscall_body
    (if old_fd =? new_fd then
       r ← posix_fcntl old_fd F_GETFD 0;
       if 0 <=? r then mret old_fd else mret r
     else if AX_FILE_LIMIT <=? as_usize new_fd then st_err EBADF else
     t ← st_get;
     f ← st_lift (posix_get t old_fd);
     match fo_add_at t (as_usize new_fd) f with
     | Some t' => st_put t';; mret new_fd
     | None => st_err EMFILE
     end).

(** The standard streams are the first three descriptors. *)
Definition posix_init_stdio (stdin stdout stderr : F) : LinuxResult fd_table :=
  t0 ← unwrap_opt (fo_add_at fo_new 0 stdin);
  t1 ← unwrap_opt (fo_add_at t0 1 stdout);
  unwrap_opt (fo_add_at t1 2 stderr).

(** ** Limits

    The limits are written through the pointer when it is not null; the
    result is what is there afterwards. *)
Definition known_resource (resource : Z) : bool :=
  let r := as_u32 resource in (r =? RLIMIT_DATA) || (r =? RLIMIT_STACK) || (r =? RLIMIT_NOFILE).
Definition sys_getrlimit (TASK_STACK_SIZE resource : Z) : st (option (Z * Z)) LinuxError Z :=
  syscall_body
    (if negb (known_resource resource) then st_err EINVAL else
     st_mod (fmap (λ old,
       if as_u32 resource =? RLIMIT_STACK then (TASK_STACK_SIZE, TASK_STACK_SIZE)
       else if as_u32 resource =? RLIMIT_NOFILE then (AX_FILE_LIMIT, AX_FILE_LIMIT) else old));;
     mret 0).
Definition sys_setrlimit (resource : Z) : st (option (Z * Z)) LinuxError Z :=
  syscall_body (if negb (known_resource resource) then st_err EINVAL else mret 0).

(** ** What the calls promise *)

Lemma posix_index fd : in_s 32 fd → 0 ≤ fd → as_usize fd = fd.
Proof. intros Hs Hn. unfold in_s in Hs. by ints. Qed.
Lemma posix_index_neg fd : in_s 32 fd → fd < 0 → AX_FILE_LIMIT ≤ as_usize fd.
Proof.
  intros Hs Hn. unfold in_s, AX_FILE_LIMIT, wrapu in *.
  rewrite <-(Z.mod_add _ 1), Z.mod_small by lia. lia.
Qed.

(** [dup2] on every branch. Two equal descriptors are accepted whether or not
    they are open. Else a new descriptor out of range or an old one that is not
    open fail with [EBADF], and a new one that is open already with [EMFILE]
    instead of being replaced; each failure leaves the table alone. On success
    the new descriptor is the object of the old one and nothing else changes. *)
Theorem posix_dup2_spec (t : fd_table) (old_fd new_fd : Z) :
  in_s 32 old_fd → in_s 32 new_fd →
  if decide (old_fd = new_fd) then posix_dup2 old_fd new_fd t = (Ok old_fd, t)
  else if decide (0 ≤ new_fd < AX_FILE_LIMIT) then
    match fo_get t old_fd with
    | None => posix_dup2 old_fd new_fd t = (Ok (- errno_code EBADF), t)
    | Some f =>
        match fo_get t new_fd with
        | Some _ => posix_dup2 old_fd new_fd t = (Ok (- errno_code EMFILE), t)
        | None => ∃ t', posix_dup2 old_fd new_fd t = (Ok new_fd, t') ∧
            ∀ j, fo_get t' j = if decide (j = new_fd) then Some f else fo_get t j
        end
    end
  else posix_dup2 old_fd new_fd t = (Ok (- errno_code EBADF), t).
Proof.
  intros Ho Hn. pose proof (wraps_id 32 old_fd ltac:(lia) Ho) as Hwo.
  pose proof (wraps_id 32 new_fd ltac:(lia) Hn) as Hwn.
  assert (fo_get t (as_usize old_fd) = fo_get t old_fd) as Hget.
  { destruct (decide (0 ≤ old_fd)); [by rewrite posix_index|].
    assert (∀ i, ¬ (0 ≤ i < AX_FILE_LIMIT) → fo_get t i = None) as Hnone.
    { intros i Hi. destruct (fo_get t i) eqn:E; [|done]. destruct Hi. apply (fo_get_range t i). by eexists. }
    rewrite !Hnone; [done|lia|pose proof (posix_index_neg old_fd Ho); lia]. }
  unfold posix_dup2, syscall_body. case_decide as He.
  { rewrite (proj2 (Z.eqb_eq _ _) He). monad. by rewrite Hwo. }
  rewrite (proj2 (Z.eqb_neq _ _) He). case_decide as Hr.
  - assert ((AX_FILE_LIMIT <=? as_usize new_fd) = false) as ->.
    { rewrite posix_index by (done || lia). apply Z.leb_gt. lia. }
    unfold posix_get. monad. rewrite Hget, (posix_index new_fd) by (done || lia).
    destruct (fo_get t old_fd) as [f|]; [simpl|done].
    destruct (fo_add_at t new_fd f) as [t'|] eqn:Ha; simpl.
    + destruct (fo_get t new_fd) eqn:E.
      { exfalso. assert (fo_add_at t new_fd f = None) by (apply fo_add_at_None; right; by eexists). congruence. }
      exists t'. rewrite Hwn. split; [done|]. by apply fo_add_at_Some.
    + apply fo_add_at_None in Ha as [?|[g ->]]; [lia|done].
  - assert ((AX_FILE_LIMIT <=? as_usize new_fd) = true) as ->; [|done]. apply Z.leb_le.
    destruct (decide (0 ≤ new_fd)); [rewrite posix_index by done; lia|]. apply posix_index_neg; [done|lia].
Qed.

(** [close] never closes the standard streams, and reports success. *)
Lemma posix_close_streams (t : fd_table) fd : 0 ≤ fd ≤ 2 → posix_close fd t = (Ok 0, t).
Proof. intros [H1%Z.leb_le H2%Z.leb_le]. unfold posix_close. by rewrite H1, H2. Qed.

End posix_fd.

#[local] Existing Instance SampleErrno.
Lemma posix_dup2_spec_witness :
  posix_dup2 (F:=nat) (λ _ _, Ok ()) 0 1 (<[0 := 7%nat]> (<[1 := 8%nat]> ∅)) =
    (Ok (-24), <[0 := 7%nat]> (<[1 := 8%nat]> ∅)).
Proof.
  pose proof (posix_dup2_spec (F:=nat) (λ _ _, Ok ()) (<[0 := 7%nat]> (<[1 := 8%nat]> ∅)) 0 1
    ltac:(unfold in_s; lia) ltac:(unfold in_s; lia)) as Hd.
  rewrite decide_False in Hd by done. rewrite decide_True in Hd by (unfold AX_FILE_LIMIT; lia). exact Hd.
Defined.
