(* ===== verification/Mpx.v ===== *)
(** * Waiting for several descriptors: [select] and [epoll]

    [src/.arceos/api/arceos_posix_api/src/imp/io_mpx]. Both poll the network
    and then every object of interest until one is ready or the time is over,
    and give up the CPU between two turns; what other tasks do meanwhile and
    what the clock shows are arguments. *)

From Stdlib Require Import Sorted.
From S2P Require Import Prelude Abi Str Pipe FdTable Time Poll PosixFd.

#[local] Open Scope Z_scope.

(** The objects of the table: an epoll instance, named by its address, or
    another one. *)
Record PosixObj := mkObj { po_id : Z; po_epoll : bool }.
Record epoll_event := mkEvent { ev_events : Z; ev_data : Z }.

(** The [poll] of the other objects and of the network. *)
Class MpxOps (W : Type) := {
  mpx_poll : PosixObj → st W LinuxError PollState;
  mpx_net : W → W;
}.

Definition FD_SETSIZE : Z := 1024.
Definition BITS_PER_USIZE : Z := 64.
Definition div_ceil (a b : Z) : Z := (a + (b - 1)) / b.

Definition EPOLLIN : Z := 1.
Definition EPOLLOUT : Z := 4.
Definition EPOLLERR : Z := 8.
Definition EPOLL_CTL_ADD : Z := 1.
Definition EPOLL_CTL_DEL : Z := 2.
Definition EPOLL_CTL_MOD : Z := 3.

(** ** [BTreeMap]: an association list in the order of its keys *)

Abbreviation Interest := (list (Z * epoll_event)).
Fixpoint bt_get (k : Z) (m : Interest) : option epoll_event :=
  match m with [] => None | (i, e) :: m' => if k =? i then Some e else bt_get k m' end.
Fixpoint bt_insert (k : Z) (x : epoll_event) (m : Interest) : Interest :=
  match m with
  | [] => [(k, x)]
  | (i, e) :: m' =>
      if k =? i then (k, x) :: m' else if k <? i then (k, x) :: m else (i, e) :: bt_insert k x m'
  end.
Definition bt_remove (k : Z) (m : Interest) : Interest := filter (λ p, p.1 ≠ k) m.

(** ** [fd_set] in user memory: null, or sixteen words *)

Record Fds := mkFds { readfds : option (list Z); writefds : option (list Z); exceptfds : option (list Z) }.

(** The expression [unsafe { *fds }] is a block whose value is a copy of the
    set, so what is assigned to its fields is lost. *)
Definition on_copy (f : list Z → list Z) (bits : list Z) : list Z := let copy := f bits in bits.
Definition zero_fd_set (nfds : Z) (fds : option (list Z)) : option (list Z) :=
  let n := Z.to_nat (div_ceil nfds BITS_PER_USIZE) in
  on_copy (λ bits, replicate n 0 ++ drop n bits) <$> fds.
Definition set_fd_set (fd : Z) (fds : option (list Z)) : option (list Z) :=
  on_copy (alter (λ x, Z.lor x (Z.shiftl 1 (fd mod BITS_PER_USIZE))) (Z.to_nat (fd / BITS_PER_USIZE))) <$> fds.

(** [FdSets]: the words that cover [nfds], of each set. *)
Record FdSets := mkFdSets { fs_nfds : Z; fs_read : list Z; fs_write : list Z; fs_except : list Z }.
Definition FdSets_from (nfds : Z) (x : Fds) : FdSets :=
  let nfds := Z.min nfds FD_SETSIZE in
  let n := Z.to_nat (div_ceil nfds BITS_PER_USIZE) in
  let copy o := match o with None => replicate n 0 | Some bits => take n bits end in
  mkFdSets nfds (copy (readfds x)) (copy (writefds x)) (copy (exceptfds x)).

Section mpx.
Context {W : Type} `{MO : !MpxOps W} `{FO : !FlattenObjects PosixObj AX_FILE_LIMIT} `{AxErrno}.

(** The table, the epoll instances with their lists of interest, the address
    of the next object, and the state of the other objects. *)
Record PS := mkPS { p_table : table PosixObj AX_FILE_LIMIT; p_epolls : gmap Z Interest; p_next : Z; p_world : W }.
Definition set_table t (s : PS) : PS := mkPS t (p_epolls s) (p_next s) (p_world s).
Definition set_epolls m (s : PS) : PS := mkPS (p_table s) m (p_next s) (p_world s).
Definition set_world w (s : PS) : PS := mkPS (p_table s) (p_epolls s) (p_next s) w.

(** The method [poll]; an epoll instance has none. *)
Definition obj_poll (f : PosixObj) : st PS LinuxError PollState :=
  if po_epoll f then st_err ENOSYS else st_zoom p_world set_world (mpx_poll f).
(** [get_file_like(fd)?.poll()], with the error of the object as a value. *)
Definition poll_fd (fd : Z) : st PS LinuxError (PollState + LinuxError) := λ s,
  match posix_get (p_table s) fd with
  | Ok f => match obj_poll f s with
            | (Ok x, s') => (Ok (inl x), s')
            | (Err e, s') => (Ok (inr e), s')
            | (Panic, s') => (Panic, s')
            end
  | Err e => (Err e, s)
  | Panic => (Panic, s)
  end.

(** [axnet::poll_interfaces]. *)
Definition net_turn {A} (y : PS * A) : PS * A := (set_world (mpx_net (p_world y.1)) y.1, y.2).

(** [syscall_body!] of a call that may still wait: [None]. *)
Definition waiting_body {S} (m : st S LinuxError (option Z)) : st S LinuxError (option Z) := λ s,
  match m s with
  | (Ok o, s') => (Ok (as_i32 <$> o), s')
  | (Err e, s') => (Ok (Some (- errno_code e)), s')
  | (Panic, s') => (Panic, s')
  end.

(** ** The loop of both calls

    One turn: [None] when the call goes on waiting. *)
Section loop.
Context {S : Type} (net : S → S) (scan : st S LinuxError Z) (deadline : option Duration)
  (others : nat → S → S) (clock : nat → Duration).
Definition timed_out (k : nat) : bool :=
  match deadline with Some d => dur_le d (clock k) | None => false end.
Definition mpx_turn (k : nat) : st S LinuxError (option Z) :=
  st_mod net;;
  n ← scan;
  mret (if 0 <? n then Some n else if timed_out k then Some 0 else None).
Fixpoint mpx_loop (fuel k : nat) : st S LinuxError (option Z) :=
  match fuel with
  | O => mret None
  | Datatypes.S fuel' =>
      o ← mpx_turn k;
      match o with
      | Some n => mret (Some n)
      | None => st_mod (others k);; mpx_loop fuel' (Datatypes.S k)
      end
  end.
End loop.

(** ** [select] *)

Abbreviation Sst := (st (PS * Fds) LinuxError).
Definition on_files {A} (m : st PS LinuxError A) : Sst A := st_zoom fst (λ s x, (s, x.2)) m.
Definition mark_read (fd : Z) : Sst () :=
  st_mod (λ x, (x.1, mkFds (set_fd_set fd (readfds x.2)) (writefds x.2) (exceptfds x.2))).
Definition mark_write (fd : Z) : Sst () :=
  st_mod (λ x, (x.1, mkFds (readfds x.2) (set_fd_set fd (writefds x.2)) (exceptfds x.2))).
Definition mark_except (fd : Z) : Sst () :=
  st_mod (λ x, (x.1, mkFds (readfds x.2) (writefds x.2) (set_fd_set fd (exceptfds x.2)))).

(** What is done for one descriptor whose bit is set in some set. *)
Definition select_one (fd rb wb eb bit res : Z) : Sst Z :=
  r ← on_files (poll_fd (as_i32 fd));
  match r with
  | inl x =>
      res ← (if poll_readable x && negb (Z.land rb bit =? 0) then mark_read fd;; mret (res + 1) else mret res);
      (if poll_writable x && negb (Z.land wb bit =? 0) then mark_write fd;; mret (res + 1) else mret res)
  | inr _ => if negb (Z.land eb bit =? 0) then mark_except fd;; mret (res + 1) else mret res
  end.
(** The inner loop, over the bits of a word; 64 turns are enough. *)
Fixpoint bit_loop (fuel : nat) (nfds i j rb wb eb res : Z) : Sst Z :=
  if (j <? BITS_PER_USIZE) && (i + j <? nfds) then
    match fuel with
    | O => st_panic
    | S fuel' =>
        let bit := Z.shiftl 1 j in
        if Z.land (Z.lor (Z.lor rb wb) eb) bit =? 0 then bit_loop fuel' nfds i (j + 1) rb wb eb res else
        res ← select_one (i + j) rb wb eb bit res;
        bit_loop fuel' nfds i (j + 1) rb wb eb res
    end
  else mret res.
(** The outer loop; reading past the words would be out of bounds. *)
Fixpoint word_loop (nfds i : Z) (rs ws es : list Z) (res : Z) : Sst Z :=
  if i <? nfds then
    match rs, ws, es with
    | rb :: rs', wb :: ws', eb :: es' =>
        if Z.lor (Z.lor rb wb) eb =? 0 then word_loop nfds (i + BITS_PER_USIZE) rs' ws' es' res else
        res ← bit_loop 64 nfds i 0 rb wb eb res;
        word_loop nfds (i + BITS_PER_USIZE) rs' ws' es' res
    | _, _, _ => st_panic
    end
  else mret res.
Definition FdSets_poll_all (x : FdSets) : Sst Z :=
  word_loop (fs_nfds x) 0 (fs_read x) (fs_write x) (fs_except x) 0.

(** The timeout is the time value it was converted to; [start] is the time of
    the call. *)
Definition select_loop (others : nat → PS * Fds → PS * Fds) (clock : nat → Duration) (fuel : nat)
    (nfds : Z) (deadline : option Duration) : Sst (option Z) :=
  s ← st_get;
  let sets := FdSets_from nfds s.2 in
  st_mod (λ s, (s.1, mkFds (zero_fd_set nfds (readfds s.2)) (zero_fd_set nfds (writefds s.2))
                       (zero_fd_set nfds (exceptfds s.2))));;
  mpx_loop net_turn (FdSets_poll_all sets) deadline others clock fuel 0.
Definition select_deadline (start : Duration) (timeout : option Duration) : LinuxResult (option Duration) :=
  match timeout with Some x => Some <$> dur_add start x | None => Ok None end.
Definition sys_select (others : nat → PS * Fds → PS * Fds) (clock : nat → Duration) (start : Duration)
    (fuel : nat) (nfds : Z) (timeout : option Duration) : Sst (option Z) :=
  waiting_body
    (if nfds <? 0 then st_err EINVAL else
     let nfds := Z.min (as_usize nfds) FD_SETSIZE in
     deadline ← st_lift (select_deadline start timeout);
     select_loop others clock fuel nfds deadline).

(** ** [epoll] *)

Definition Epoll_from_fd (fd : Z) (s : PS) : LinuxResult Z :=
  f ← posix_get (p_table s) fd; if po_epoll f then Ok (po_id f) else Err EINVAL.
Definition interest (s : PS) (e : Z) : Interest := default [] (p_epolls s !! e).
Definition set_interest (e : Z) (m : Interest) (s : PS) : PS := set_epolls (<[e := m]> (p_epolls s)) s.

Definition EEXIST : LinuxError := LinuxOther 17.
Definition control (e op fd : Z) (event : epoll_event) : st PS LinuxError Z :=
  s ← st_get;
  st_lift (posix_get (p_table s) (as_i32 fd));;
  let m := interest s e in
  (if as_u32 op =? EPOLL_CTL_ADD then
     match bt_get fd m with None => st_mod (set_interest e (bt_insert fd event m)) | Some _ => st_err EEXIST end
   else if as_u32 op =? EPOLL_CTL_MOD then
     match bt_get fd m with Some _ => st_mod (set_interest e (bt_insert fd event m)) | None => st_err ENOENT end
   else if as_u32 op =? EPOLL_CTL_DEL then
     match bt_get fd m with Some _ => st_mod (set_interest e (bt_remove fd m)) | None => st_err ENOENT end
   else st_err EINVAL);;
  mret 0.

(** The state is followed by the caller's buffer; [events[n] = x] panics past
    its end. *)
Abbreviation Est := (st (PS * list epoll_event) LinuxError).
Definition put_event (x : epoll_event) (n : Z) : Est Z := λ s,
  if n <? Z.of_nat (length s.2) then (Ok (n + 1), (s.1, <[Z.to_nat n := x]> s.2)) else (Panic, s).
Definition report (r : PollState + LinuxError) (ev : epoll_event) (n : Z) : Est Z :=
  match r with
  | inr _ =>
      if negb (Z.land (ev_events ev) EPOLLERR =? 0) then put_event (mkEvent EPOLLERR (ev_data ev)) n else mret n
  | inl x =>
      n ← (if poll_readable x && negb (Z.land (ev_events ev) EPOLLIN =? 0)
           then put_event (mkEvent EPOLLIN (ev_data ev)) n else mret n);
      (if poll_writable x && negb (Z.land (ev_events ev) EPOLLOUT =? 0)
       then put_event (mkEvent EPOLLOUT (ev_data ev)) n else mret n)
  end.
Fixpoint epoll_scan (m : Interest) (n : Z) : Est Z :=
  match m with
  | [] => mret n
  | (infd, ev) :: m' =>
      r ← st_zoom fst (λ s x, (s, x.2)) (poll_fd (as_i32 infd));
      n ← report r ev n;
      epoll_scan m' n
  end.
Definition Epoll_poll_all (e : Z) : Est Z := s ← st_get; epoll_scan (interest s.1 e) 0.

Definition sys_epoll_create (size : Z) : st PS LinuxError Z :=
  syscall_body
    (if size <? 0 then st_err EINVAL else
     s ← st_get;
     let e := p_next s in
     st_mod (λ s, mkPS (p_table s) (<[e := []]> (p_epolls s)) (e + 1) (p_world s));;
     st_zoom p_table set_table (posix_add (mkObj e true))).
Definition sys_epoll_ctl (epfd op fd : Z) (event : epoll_event) : st PS LinuxError Z :=
  syscall_body
    (s ← st_get;
     e ← st_lift (Epoll_from_fd epfd s);
     control e (as_usize op) (as_usize fd) event).
(** The buffer has [maxevents] entries. *)
Definition sys_epoll_wait (others : nat → PS * list epoll_event → PS * list epoll_event)
    (clock : nat → Duration) (start : Duration) (fuel : nat) (epfd maxevents timeout : Z) :
    st (PS * list epoll_event) LinuxError (option Z) :=
  waiting_body
    (if maxevents <=? 0 then st_err EINVAL else
     deadline ← st_lift (if timeout <? 0 then Ok None else Some <$> dur_add start (from_millis (as_u64 timeout)));
     s ← st_get;
     e ← st_lift (Epoll_from_fd epfd s.1);
     mpx_loop net_turn (Epoll_poll_all e) deadline others clock fuel 0).

(** ** The first turn that ends the wait *)

Section first_turn.
Context {S : Type} (net : S → S) (scan : st S LinuxError Z) (deadline : option Duration)
  (others : nat → S → S) (clock : nat → Duration) (reads : S → LinuxResult Z) (after : S → S).
Hypothesis scan_is : ∀ s, scan s = (reads s, after s).
Hypothesis reads_nonneg : ∀ s n, reads s = Ok n → 0 ≤ n.

(** The state in which turn [k] scans. *)
Fixpoint scanned (k : nat) (s : S) : S :=
  match k with O => net s | Datatypes.S k' => net (others k' (after (scanned k' s))) end.
Definition ends_at (s : S) (k : nat) : Prop :=
  reads (scanned k s) ≠ Ok 0 ∨ timed_out deadline clock k = true.

Lemma mpx_turn_is k s :
  mpx_turn net scan deadline clock k s =
    (match reads (net s) with
     | Ok n => Ok (if 0 <? n then Some n else if timed_out deadline clock k then Some 0 else None)
     | Err e => Err e
     | Panic => Panic
     end, after (net s)).
Proof.
  unfold mpx_turn, mbind, st_bind, st_mod, mret, st_ret. rewrite scan_is. by destruct (reads (net s)).
Qed.

Lemma mpx_loop_from s fuel k j s0 :
  net s0 = scanned k s → (k ≤ j < k + fuel)%nat → ends_at s j → (∀ i, (k ≤ i < j)%nat → ¬ ends_at s i) →
  mpx_loop net scan deadline others clock fuel k s0 =
    (match reads (scanned j s) with Ok n => Ok (Some n) | Err e => Err e | Panic => Panic end, after (scanned j s)).
Proof.
  revert k s0. induction fuel as [|fuel IH]; intros k s0 Hs Hj Hend Hno; [lia|].
  cbn [mpx_loop]. unfold mbind at 1, st_bind at 1. rewrite mpx_turn_is, Hs.
  destruct (decide (k = j)) as [->|Hne].
  - destruct (reads (scanned j s)) as [n|e|] eqn:Hr; [|done..]. pose proof (reads_nonneg _ _ Hr).
    destruct (Z.ltb_spec 0 n); [done|]. assert (n = 0) as -> by lia.
    destruct Hend as [Hend|Hto]; [by rewrite Hr in Hend|by rewrite Hto].
  - assert (¬ ends_at s k) as Hk by (apply Hno; lia). unfold ends_at in Hk.
    assert (reads (scanned k s) = Ok 0) as -> by (apply dec_stable; tauto).
    assert (timed_out deadline clock k = false) as -> by (apply not_true_iff_false; tauto).
    simpl. unfold mbind, st_bind, st_mod. apply IH; [done|lia|done|]. intros; apply Hno; lia.
Qed.
End first_turn.

(** ** [epoll_ctl] keeps a map from descriptors to events *)

Definition keys_sorted (m : Interest) : Prop := StronglySorted Z.lt m.*1.
Definition as_map (m : Interest) : gmap Z epoll_event := list_to_map m.

Lemma bt_get_is k m : bt_get k m = as_map m !! k.
Proof.
  induction m as [|[i ev] m IH]; simpl; [done|]. destruct (Z.eqb_spec k i) as [->|Hne].
  - unfold as_map. simpl. by rewrite lookup_insert_eq.
  - unfold as_map in *. simpl. by rewrite lookup_insert_ne.
Qed.
Lemma bt_insert_keys k x m i : i ∈ (bt_insert k x m).*1 ↔ i = k ∨ i ∈ m.*1.
Proof.
  induction m as [|[j ev] m IH]; simpl; [set_solver|].
  destruct (Z.eqb_spec k j) as [->|]; [set_solver|]. destruct (k <? j); simpl; set_solver.
Qed.
Lemma bt_insert_sorted k x m : keys_sorted m → keys_sorted (bt_insert k x m).
Proof.
  unfold keys_sorted. induction m as [|[j ev] m IH]; simpl; [repeat constructor|].
  intros [Hs Hj]%StronglySorted_inv. destruct (Z.eqb_spec k j) as [->|]; [by constructor|].
  destruct (Z.ltb_spec k j); simpl.
  - constructor; [by constructor|]. constructor; [done|]. eapply Forall_impl; [done|]. simpl. lia.
  - constructor; [by apply IH|]. apply Forall_forall. intros i [->|Hi]%bt_insert_keys; [lia|].
    by apply (proj1 (Forall_forall _ _) Hj).
Qed.
Lemma bt_insert_map k x m : as_map (bt_insert k x m) = <[k := x]> (as_map m).
Proof.
  unfold as_map. induction m as [|[j ev] m IH]; simpl; [done|].
  destruct (Z.eqb_spec k j) as [->|]; simpl; [by rewrite insert_insert_eq|].
  destruct (k <? j); simpl; [done|]. rewrite IH. by apply insert_insert_ne.
Qed.
Lemma bt_remove_sorted k m : keys_sorted m → keys_sorted (bt_remove k m).
Proof.
  unfold keys_sorted, bt_remove. induction m as [|[j ev] m IH]; [done|].
  intros [Hs Hj]%StronglySorted_inv. rewrite filter_cons. case_decide; [|by apply IH].
  simpl. constructor; [by apply IH|]. apply Forall_forall.
  intros i ((i' & ev') & -> & [_ Hi]%list_elem_of_filter)%list_elem_of_fmap.
  apply (proj1 (Forall_forall _ _) Hj). apply list_elem_of_fmap. by exists (i', ev').
Qed.
Lemma bt_remove_map k m : as_map (bt_remove k m) = delete k (as_map m).
Proof.
  unfold as_map, bt_remove. induction m as [|[j ev] m IH]; [simpl; by rewrite delete_empty|].
  rewrite filter_cons. case_decide as Hj; simpl in *.
  - rewrite IH. by rewrite delete_insert_ne.
  - subst j. by rewrite delete_insert_eq, IH.
Qed.

(** What the three operations do to a map. *)
Definition ctl_model (op fd : Z) (event : epoll_event) (m : gmap Z epoll_event) :
    LinuxResult (gmap Z epoll_event) :=
  if op =? EPOLL_CTL_ADD then if m !! fd is Some _ then Err EEXIST else Ok (<[fd := event]> m)
  else if op =? EPOLL_CTL_MOD then if m !! fd is Some _ then Ok (<[fd := event]> m) else Err ENOENT
  else if op =? EPOLL_CTL_DEL then if m !! fd is Some _ then Ok (delete fd m) else Err ENOENT
  else Err EINVAL.

Lemma interest_set e e' m s : interest (set_interest e m s) e' = if decide (e' = e) then m else interest s e'.
Proof.
  unfold interest, set_interest. simpl. case_decide as He; [subst; by rewrite lookup_insert_eq|].
  by rewrite lookup_insert_ne.
Qed.

(** C32: [epoll_ctl] on an open descriptor refines the operations of a map from
    descriptors to events: it adds an entry that is not there, replaces or
    removes one that is, and fails otherwise, leaving everything as it was.
    The entries stay in the order of their descriptors, and no other epoll
    instance, descriptor or object is touched. *)
Theorem epoll_ctl_refines epfd op fd event (s : PS) e f :
  in_s 32 op → 0 ≤ op → in_s 32 fd → 0 ≤ fd →
  Epoll_from_fd epfd s = Ok e → posix_get (p_table s) fd = Ok f → keys_sorted (interest s e) →
  let s' := (sys_epoll_ctl epfd op fd event s).2 in
  match ctl_model op fd event (as_map (interest s e)) with
  | Ok m =>
      (sys_epoll_ctl epfd op fd event s).1 = Ok 0 ∧ as_map (interest s' e) = m ∧ keys_sorted (interest s' e) ∧
      (∀ e', e' ≠ e → interest s' e' = interest s e') ∧
      p_table s' = p_table s ∧ p_world s' = p_world s ∧ p_next s' = p_next s
  | Err err => sys_epoll_ctl epfd op fd event s = (Ok (- errno_code err), s)
  | Panic => False
  end.
Proof.
  intros Ho Ho' Hf Hf' He Hget Hsort. unfold sys_epoll_ctl, syscall_body, control, ctl_model.
  unfold in_s in Ho. rewrite posix_index, posix_index by (done || unfold in_s; lia).
  unfold mbind, st_bind, st_get, st_lift. rewrite He. cbn [fst snd].
  rewrite (wraps_id 32 fd), Hget by (done || lia).
  replace (as_u32 op) with op by (unfold wrapu; rewrite Z.mod_small; lia). rewrite bt_get_is.
  destruct (op =? EPOLL_CTL_ADD); [|destruct (op =? EPOLL_CTL_MOD); [|destruct (op =? EPOLL_CTL_DEL)]];
    destruct (as_map (interest s e) !! fd); try done; unfold st_mod, mret, st_ret; cbn [fst snd];
    rewrite interest_set, decide_True by done;
    (repeat split; [first [apply bt_insert_map|apply bt_remove_map]
                   |first [by apply bt_insert_sorted|by apply bt_remove_sorted]
                   |intros e' Hne; by rewrite interest_set, decide_False]).
Qed.

(** ** The scan of [select] counts the ready descriptors *)

(** Asking an object whether it is ready changes nothing and does not panic. *)
Definition pure_objects : Prop := ∀ f w, (mpx_poll f w).2 = w ∧ (mpx_poll f w).1 ≠ Panic.
Hypothesis pure : pure_objects.

Lemma poll_fd_pure fd s : (poll_fd fd s).2 = s ∧ (poll_fd fd s).1 ≠ Panic.
Proof.
  unfold poll_fd, posix_get. destruct (fo_get _ _) as [f|]; [|done]. simpl. unfold obj_poll.
  destruct (po_epoll f); [done|]. unfold st_zoom. destruct (pure f (p_world s)) as [Hs Hn].
  destruct (mpx_poll f (p_world s)) as [[x|e|] w]; simpl in *; subst w; by destruct s.
Qed.

(** Which of the three sets a descriptor is in. *)
Abbreviation Query := (Z → bool * bool * bool).
Definition asked (q : Query) (fd : Z) : bool := (q fd).1.1 || (q fd).1.2 || (q fd).2.
Definition ready_for (q : Query) (fd : Z) (r : PollState + LinuxError) : Z :=
  match r with
  | inl x => Z.b2z (poll_readable x && (q fd).1.1) + Z.b2z (poll_writable x && (q fd).1.2)
  | inr _ => Z.b2z (q fd).2
  end.
(** The reference: one descriptor after the other. *)
Fixpoint count_ready (s : PS) (q : Query) (l : list Z) (res : Z) : LinuxResult Z :=
  match l with
  | [] => Ok res
  | fd :: l' =>
      if asked q fd then
        match (poll_fd fd s).1 with
        | Ok r => count_ready s q l' (res + ready_for q fd r)
        | Err e => Err e
        | Panic => Panic
        end
      else count_ready s q l' res
  end.

Lemma count_ready_app s q l1 l2 res :
  count_ready s q (l1 ++ l2) res =
    match count_ready s q l1 res with Ok n => count_ready s q l2 n | Err e => Err e | Panic => Panic end.
Proof.
  revert res. induction l1 as [|fd l1 IH]; intros res; simpl; [done|].
  destruct (asked q fd); [|done]. by destruct (poll_fd fd s).1.
Qed.
Lemma count_ready_ext s q q' l res :
  (∀ fd, fd ∈ l → q fd = q' fd) → count_ready s q l res = count_ready s q' l res.
Proof.
  revert res. induction l as [|fd l IH]; intros res Hq; simpl; [done|].
  unfold asked, ready_for. rewrite (Hq fd) by set_solver.
  destruct (_ || _); [destruct (poll_fd fd s).1|]; try done; apply IH; set_solver.
Qed.
Lemma count_ready_nonneg s q l res n : 0 ≤ res → count_ready s q l res = Ok n → 0 ≤ n.
Proof.
  revert res. induction l as [|fd l IH]; intros res Hr; simpl; [by intros [= <-]|].
  destruct (asked q fd); [|by apply IH]. destruct (poll_fd fd s).1 as [r|e|]; [|done..]. apply IH.
  unfold ready_for. destruct r; repeat destruct (_ && _); destruct (q fd).2; simpl; lia.
Qed.
Lemma count_ready_none s q l res : (∀ fd, fd ∈ l → asked q fd = false) → count_ready s q l res = Ok res.
Proof.
  revert res. induction l as [|fd l IH]; intros res Hq; simpl; [done|].
  rewrite (Hq fd) by set_solver. apply IH. set_solver.
Qed.

Lemma land_bit x j : 0 ≤ j → (Z.land x (Z.shiftl 1 j) =? 0) = negb (Z.testbit x j).
Proof.
  intros Hj. rewrite Z.shiftl_1_l. destruct (Z.testbit x j) eqn:Hb; simpl.
  - apply Z.eqb_neq. intros He. apply (f_equal (λ z, Z.testbit z j)) in He.
    rewrite Z.land_spec, Hb, Z.pow2_bits_true, Z.bits_0 in He by done. done.
  - apply Z.eqb_eq, Z.bits_inj'. intros n Hn. rewrite Z.land_spec, Z.bits_0, Z.pow2_bits_eqb by done.
    destruct (Z.eqb_spec j n); [subst; by rewrite Hb|apply andb_false_r].
Qed.

Definition word_query (i rb wb eb : Z) : Query := λ fd,
  (Z.testbit rb (fd - i), Z.testbit wb (fd - i), Z.testbit eb (fd - i)).

Lemma set_fd_set_same fd o : set_fd_set fd o = o.
Proof. by destruct o. Qed.

Lemma select_one_is i j rb wb eb res s x :
  0 ≤ j → 0 ≤ i + j < 2 ^ 31 →
  select_one (i + j) rb wb eb (Z.shiftl 1 j) res (s, x) =
    (match (poll_fd (i + j) s).1 with
     | Ok r => Ok (res + ready_for (word_query i rb wb eb) (i + j) r)
     | Err e => Err e
     | Panic => Panic
     end, (s, x)).
Proof.
  intros Hj Hij. unfold select_one, on_files, st_zoom. rewrite (wraps_id 32) by (unfold in_s; lia).
  unfold mbind, st_bind, mret, st_ret, mark_read, mark_write, mark_except, st_mod. cbn [fst snd].
  destruct (poll_fd_pure (i + j) s) as [Hs _]. rewrite Hs. rewrite !land_bit, !negb_involutive by done.
  unfold ready_for, word_query. replace (i + j - i) with j by lia. cbn [fst snd].
  destruct (poll_fd (i + j) s).1 as [[y|e]|e|]; [| |done..].
  - destruct (poll_readable y && Z.testbit rb j), (poll_writable y && Z.testbit wb j);
      cbn [fst snd readfds writefds exceptfds]; rewrite ?set_fd_set_same; destruct x; simpl; do 2 f_equal; lia.
  - destruct (Z.testbit eb j); cbn [fst snd readfds writefds exceptfds]; rewrite ?set_fd_set_same;
      destruct x; simpl; do 2 f_equal; lia.
Qed.

Lemma bit_loop_is fuel nfds i j rb wb eb res s x :
  0 ≤ i → 0 ≤ j ≤ 64 → nfds ≤ 1024 → 64 - j ≤ Z.of_nat fuel →
  bit_loop fuel nfds i j rb wb eb res (s, x) =
    (count_ready s (word_query i rb wb eb) (seqZ (i + j) (Z.min 64 (nfds - i) - j)) res, (s, x)).
Proof.
  intros Hi. revert j res. induction fuel as [|fuel IH]; intros j res Hj Hn Hf.
  { cbn [bit_loop]. rewrite (proj2 (Z.ltb_ge j _)) by (unfold BITS_PER_USIZE; lia). simpl.
    rewrite seqZ_nil by lia. done. }
  cbn [bit_loop]. unfold BITS_PER_USIZE.
  destruct (Z.ltb_spec j 64) as [Hj'|]; [destruct (Z.ltb_spec (i + j) nfds) as [Hl|]|];
    cbn [andb]; try (rewrite seqZ_nil by lia; done).
  rewrite seqZ_cons by lia. cbn [count_ready].
  replace (Z.succ (i + j)) with (i + (j + 1)) by lia.
  replace (Z.pred (Z.min 64 (nfds - i) - j)) with (Z.min 64 (nfds - i) - (j + 1)) by lia.
  assert (asked (word_query i rb wb eb) (i + j) = Z.testbit (Z.lor (Z.lor rb wb) eb) j) as ->.
  { unfold asked, word_query. cbn [fst snd]. rewrite !Z.lor_spec. by replace (i + j - i) with j by lia. }
  rewrite land_bit by lia. destruct (Z.testbit _ j); cbn [negb].
  - unfold mbind, st_bind. rewrite select_one_is by lia.
    destruct (poll_fd (i + j) s).1 as [r|e|]; [|done..]. apply IH; lia.
  - apply IH; lia.
Qed.

(** The words of the three sets, from the descriptor [i] on. *)
Definition words_query (i : Z) (rs ws es : list Z) : Query := λ fd,
  let bit l := Z.testbit (default 0 (l !! Z.to_nat ((fd - i) / 64))) ((fd - i) mod 64) in (bit rs, bit ws, bit es).

Lemma words_query_head i rb wb eb rs ws es fd :
  i ≤ fd < i + 64 → words_query i (rb :: rs) (wb :: ws) (eb :: es) fd = word_query i rb wb eb fd.
Proof.
  intros Hfd. unfold words_query, word_query. rewrite Z.div_small, Z.mod_small by lia. done.
Qed.
Lemma words_query_tail i rb wb eb rs ws es fd :
  i + 64 ≤ fd → words_query i (rb :: rs) (wb :: ws) (eb :: es) fd = words_query (i + 64) rs ws es fd.
Proof.
  intros Hfd. unfold words_query. replace (fd - i) with ((fd - (i + 64)) + 1 * 64) by lia.
  rewrite Z.div_add, Z.mod_add by lia.
  assert (0 ≤ (fd - (i + 64)) / 64) by (apply Z.div_pos; lia).
  rewrite Z2Nat.inj_add, Nat.add_comm by lia. done.
Qed.

Lemma word_loop_is nfds i rs ws es res s x :
  0 ≤ i → nfds ≤ 1024 → nfds - i ≤ 64 * Z.of_nat (length rs) → length ws = length rs → length es = length rs →
  word_loop nfds i rs ws es res (s, x) =
    (count_ready s (words_query i rs ws es) (seqZ i (nfds - i)) res, (s, x)).
Proof.
  intros Hi Hn. revert i ws es res Hi. induction rs as [|rb rs IH]; intros i ws es res Hi Hl Hw He.
  { destruct ws, es; try done. cbn [word_loop]. simpl in Hl.
    rewrite (proj2 (Z.ltb_ge i nfds)), seqZ_nil by lia. done. }
  destruct ws as [|wb ws], es as [|eb es]; try done. cbn [word_loop]. cbn [length] in Hl, Hw, He.
  destruct (Z.ltb_spec i nfds) as [Hlt|]; [|by rewrite seqZ_nil by lia].
  assert (seqZ i (nfds - i) = seqZ (i + 0) (Z.min 64 (nfds - i) - 0) ++ seqZ (i + 64) (nfds - (i + 64))) as ->.
  { rewrite Z.add_0_r, Z.sub_0_r. destruct (decide (64 ≤ nfds - i)).
    - rewrite Z.min_l by lia. rewrite <-seqZ_app by lia. f_equal. lia.
    - rewrite Z.min_r by lia. by rewrite (seqZ_nil (i + 64)), app_nil_r by lia. }
  rewrite count_ready_app.
  rewrite (count_ready_ext s _ (word_query i rb wb eb) (seqZ (i + 0) _)).
  2:{ intros fd Hfd%elem_of_seqZ. apply words_query_head. lia. }
  assert (∀ n, count_ready s (words_query i (rb :: rs) (wb :: ws) (eb :: es)) (seqZ (i + 64) (nfds - (i + 64))) n =
    count_ready s (words_query (i + 64) rs ws es) (seqZ (i + 64) (nfds - (i + 64))) n) as Htail.
  { intros n. apply count_ready_ext. intros fd Hfd%elem_of_seqZ. apply words_query_tail. lia. }
  destruct (Z.eqb_spec (Z.lor (Z.lor rb wb) eb) 0) as [Hz|Hz].
  - rewrite count_ready_none, Htail; [apply IH; unfold BITS_PER_USIZE; lia|].
    intros fd _. unfold asked, word_query. cbn [fst snd]. by rewrite <-!Z.lor_spec, Hz, Z.bits_0.
  - unfold mbind, st_bind. rewrite bit_loop_is by lia.
    destruct (count_ready s (word_query i rb wb eb) _ res) as [n|e|]; [|done..].
    rewrite Htail. apply IH; unfold BITS_PER_USIZE; lia.
Qed.

(** A set is null or has its sixteen words. *)
Definition set_ok (o : option (list Z)) : Prop := ∀ bits, o = Some bits → length bits = 16%nat.
Definition sets_ok (x : Fds) : Prop := set_ok (readfds x) ∧ set_ok (writefds x) ∧ set_ok (exceptfds x).
Definition in_set (o : option (list Z)) (fd : Z) : bool :=
  match o with
  | None => false
  | Some bits => Z.testbit (default 0 (bits !! Z.to_nat (fd / 64))) (fd mod 64)
  end.
Definition sets_query (x : Fds) : Query := λ fd,
  (in_set (readfds x) fd, in_set (writefds x) fd, in_set (exceptfds x) fd).
(** What a scan counts among the first [nfds] descriptors. *)
Definition select_count (nfds : Z) (x : Fds) (s : PS) : LinuxResult Z :=
  count_ready s (sets_query x) (seqZ 0 (Z.min nfds FD_SETSIZE)) 0.

Definition copied (n : nat) (o : option (list Z)) : list Z :=
  match o with None => replicate n 0 | Some bits => take n bits end.
Lemma copied_length n o : set_ok o → (n ≤ 16)%nat → length (copied n o) = n.
Proof.
  intros Ho Hn. destruct o as [bits|]; simpl; [|apply length_replicate].
  rewrite length_take, (Ho bits) by done. lia.
Qed.
Lemma copied_bit n o fd :
  0 ≤ fd < 64 * Z.of_nat n →
  Z.testbit (default 0 (copied n o !! Z.to_nat ((fd - 0) / 64))) ((fd - 0) mod 64) = in_set o fd.
Proof.
  intros Hfd. rewrite Z.sub_0_r.
  assert (Z.to_nat (fd / 64) < n)%nat.
  { apply Nat2Z.inj_lt. rewrite Z2Nat.id by (apply Z.div_pos; lia). apply Z.div_lt_upper_bound; lia. }
  destruct o as [bits|]; simpl.
  - by rewrite lookup_take_lt.
  - rewrite lookup_replicate_2 by done. apply Z.bits_0.
Qed.

Lemma select_scan_is nfds x y :
  sets_ok x → FdSets_poll_all (FdSets_from nfds x) y = (select_count nfds x y.1, y).
Proof.
  destruct y as [s x']. intros (Hr & Hw & He). unfold FdSets_poll_all, FdSets_from. cbn [fs_nfds fs_read fs_write fs_except].
  set (n := Z.min nfds FD_SETSIZE). set (k := Z.to_nat (div_ceil n BITS_PER_USIZE)).
  assert (n ≤ 1024) as Hn by (unfold n, FD_SETSIZE; lia).
  assert (n ≤ 64 * Z.of_nat k ∧ (k ≤ 16)%nat) as [Hk Hk'].
  { unfold k, div_ceil, BITS_PER_USIZE. pose proof (Z.div_mod (n + (64 - 1)) 64 ltac:(lia)).
    pose proof (Z.mod_pos_bound (n + (64 - 1)) 64 ltac:(lia)). lia. }
  fold (copied k (readfds x)) (copied k (writefds x)) (copied k (exceptfds x)).
  rewrite word_loop_is; rewrite ?copied_length by done; [|lia..]. unfold select_count. fold n.
  rewrite Z.sub_0_r. f_equal. apply count_ready_ext. intros fd Hfd%elem_of_seqZ.
  unfold words_query, sets_query. by rewrite !copied_bit by lia.
Qed.

(** The turn [j] ends the wait. *)
Definition select_ends nfds x deadline others clock : PS * Fds → nat → Prop :=
  ends_at net_turn deadline others clock (λ y, select_count nfds x y.1) id.
Abbreviation select_state others := (scanned (S:=PS * Fds) net_turn others id).

Lemma zero_fd_set_same n o : zero_fd_set n o = o.
Proof. by destruct o. Qed.

(** The result of a call: an error is its negated number. *)
Definition call_result (r : LinuxResult Z) : LinuxResult (option Z) :=
  match r with Ok n => Ok (Some (as_i32 n)) | Err e => Ok (Some (- errno_code e)) | Panic => Panic end.


(** ** The scan of [epoll_wait] reports the ready events in order *)

(** The events of one descriptor, and those of a list of interest up to the
    first descriptor that is not open. *)
Definition events_of (r : PollState + LinuxError) (ev : epoll_event) : list epoll_event :=
  let wanted b m := if b && negb (Z.land (ev_events ev) m =? 0) then [mkEvent m (ev_data ev)] else [] in
  match r with
  | inr _ => wanted true EPOLLERR
  | inl x => wanted (poll_readable x) EPOLLIN ++ wanted (poll_writable x) EPOLLOUT
  end.
Fixpoint list_events (s : PS) (m : Interest) : list epoll_event * LinuxResult () :=
  match m with
  | [] => ([], Ok ())
  | (fd, ev) :: m' =>
      match (poll_fd (as_i32 fd) s).1 with
      | Ok r => let x := list_events s m' in (events_of r ev ++ x.1, x.2)
      | Err e => ([], Err e)
      | Panic => ([], Panic)
      end
  end.

Fixpoint put_all (l : list epoll_event) (n : Z) : Est Z :=
  match l with [] => mret n | x :: l' => n' ← put_event x n; put_all l' n' end.

Lemma report_is r ev n s : report r ev n s = put_all (events_of r ev) n s.
Proof.
  unfold report, events_of. destruct r as [x|e]; cbn [andb].
  - destruct (poll_readable x && _), (poll_writable x && _); cbn [put_all app];
      unfold mbind, st_bind, mret, st_ret; try done; destruct (put_event _ n s) as [[?|?|] ?]; try done;
      by destruct (put_event _ _ _) as [[?|?|] ?].
  - destruct (negb _); cbn [put_all]; unfold mbind, st_bind, mret, st_ret; [|done].
    by destruct (put_event _ n s) as [[?|?|] ?].
Qed.

Lemma list_inserts_out (i : nat) (l buf : list epoll_event) : (length buf ≤ i)%nat → list_inserts i l buf = buf.
Proof.
  revert i. induction l as [|x l IH]; intros i Hi; simpl; [done|]. rewrite IH by lia.
  by apply list_insert_ge.
Qed.

Lemma put_all_is l n s buf :
  0 ≤ n ≤ Z.of_nat (length buf) →
  put_all l n (s, buf) =
    (if n + Z.of_nat (length l) <=? Z.of_nat (length buf) then Ok (n + Z.of_nat (length l)) else Panic,
     (s, list_inserts (Z.to_nat n) l buf)).
Proof.
  revert n buf. induction l as [|x l IH]; intros n buf Hn; cbn [put_all length].
  { rewrite (proj2 (Z.leb_le _ _)) by lia. simpl. unfold mret, st_ret. do 2 f_equal. lia. }
  unfold mbind, st_bind, put_event. cbn [fst snd].
  destruct (Z.ltb_spec n (Z.of_nat (length buf))) as [Hl|Hl].
  - rewrite IH by (rewrite length_insert; lia). rewrite length_insert.
    replace (n + 1 + Z.of_nat (length l)) with (n + Z.of_nat (Datatypes.S (length l))) by lia.
    f_equal. f_equal. cbn [list_inserts]. rewrite Z2Nat.inj_add by lia. rewrite Nat.add_1_r.
    by rewrite list_insert_inserts_lt by lia.
  - rewrite (proj2 (Z.leb_gt _ _)) by lia. f_equal. f_equal. by rewrite list_inserts_out by lia.
Qed.

Definition scan_result (n : Z) (x : list epoll_event * LinuxResult ()) (buf : list epoll_event) : LinuxResult Z :=
  if n + Z.of_nat (length x.1) <=? Z.of_nat (length buf) then
    match x.2 with Ok _ => Ok (n + Z.of_nat (length x.1)) | Err e => Err e | Panic => Panic end
  else Panic.

Lemma list_inserts_front (l buf : list epoll_event) :
  list_inserts 0 l buf = take (length buf) l ++ drop (length l) buf.
Proof.
  revert buf. induction l as [|x l IH]; intros [|y buf]; simpl; try done.
  - by rewrite list_inserts_nil.
  - rewrite list_inserts_cons. simpl. by rewrite IH.
Qed.

Lemma epoll_scan_is m n s buf :
  0 ≤ n ≤ Z.of_nat (length buf) →
  epoll_scan m n (s, buf) =
    (scan_result n (list_events s m) buf, (s, list_inserts (Z.to_nat n) (list_events s m).1 buf)).
Proof.
  revert n buf. induction m as [|[fd ev] m IH]; intros n buf Hn; cbn [epoll_scan list_events].
  { unfold scan_result. simpl. rewrite (proj2 (Z.leb_le _ _)), Z.add_0_r by lia. done. }
  unfold mbind, st_bind, st_zoom. cbn [fst snd]. destruct (poll_fd_pure (as_i32 fd) s) as [Hs Hp].
  destruct (poll_fd (as_i32 fd) s) as [[r|e|] s1]; cbn [fst snd] in *; subst s1; [| |done].
  2:{ unfold scan_result. simpl. by rewrite (proj2 (Z.leb_le _ _)) by lia. }
  rewrite report_is, put_all_is by lia. unfold scan_result. cbn [fst snd]. rewrite length_app.
  set (l := events_of r ev). destruct (list_events s m) as [l' o] eqn:Hm. cbn [fst snd].
  destruct (Z.leb_spec (n + Z.of_nat (length l)) (Z.of_nat (length buf))) as [Hle|Hgt].
  - rewrite IH by (rewrite length_inserts; lia). unfold scan_result.
    cbn [fst snd]. rewrite length_inserts, Nat2Z.inj_add, Z.add_assoc.
    f_equal. f_equal. rewrite Z2Nat.inj_add, Nat2Z.id by lia. by rewrite list_inserts_app_l, Nat.add_comm.
  - rewrite (proj2 (Z.leb_gt _ _)) by lia. f_equal. f_equal.
    rewrite list_inserts_app_l. symmetry. apply list_inserts_out. rewrite length_inserts. lia.
Qed.

Definition epoll_ready (e : Z) (s : PS) : list epoll_event * LinuxResult () := list_events s (interest s e).
Definition epoll_reads (e : Z) (y : PS * list epoll_event) : LinuxResult Z := scan_result 0 (epoll_ready e y.1) y.2.
Definition epoll_after (e : Z) (y : PS * list epoll_event) : PS * list epoll_event :=
  (y.1, list_inserts 0 (epoll_ready e y.1).1 y.2).
Definition epoll_ends e deadline others clock : PS * list epoll_event → nat → Prop :=
  ends_at net_turn deadline others clock (epoll_reads e) (epoll_after e).

Lemma epoll_scan_all e y : Epoll_poll_all e y = (epoll_reads e y, epoll_after e y).
Proof. destruct y as [s buf]. apply epoll_scan_is. lia. Qed.
Lemma epoll_reads_nonneg e y n : epoll_reads e y = Ok n → 0 ≤ n.
Proof.
  unfold epoll_reads, scan_result. destruct (_ <=? _); [|done]. destruct (epoll_ready e y.1).2; [|done..].
  intros [= <-]. lia.
Qed.

Definition epoll_deadline (start : Duration) (timeout : Z) : LinuxResult (option Duration) :=
  if timeout <? 0 then Ok None else Some <$> dur_add start (from_millis (as_u64 timeout)).

(** [epoll_wait] ends at the first turn in which some event is ready, a
    descriptor of interest is not open any more, or the time is over. The
    events are reported in the order of the descriptors, read before write, at
    the front of the caller's buffer, and the rest of the buffer is left
    alone; more ready events than the buffer holds make the kernel panic. *)
Theorem epoll_wait_spec others clock start fuel epfd e maxevents timeout deadline (s : PS) buf (j : nat) :
  0 < maxevents → epoll_deadline start timeout = Ok deadline → Epoll_from_fd epfd s = Ok e →
  (j < fuel)%nat → epoll_ends e deadline others clock (s, buf) j →
  (∀ i, (i < j)%nat → ¬ epoll_ends e deadline others clock (s, buf) i) →
  let y := scanned net_turn others (epoll_after e) j (s, buf) in
  let evs := (epoll_ready e y.1).1 in
  sys_epoll_wait others clock start fuel epfd maxevents timeout (s, buf) =
    (if Z.of_nat (length evs) <=? Z.of_nat (length y.2) then
       match (epoll_ready e y.1).2 with
       | Ok _ => Ok (Some (as_i32 (Z.of_nat (length evs))))
       | Err err => Ok (Some (- errno_code err))
       | Panic => Panic
       end
     else Panic, (y.1, take (length y.2) evs ++ drop (length evs) y.2)).
Proof.
  intros Hm Hd He Hj Hend Hno y evs. unfold sys_epoll_wait, waiting_body.
  rewrite (proj2 (Z.leb_gt _ _)) by done. fold (epoll_deadline start timeout). rewrite Hd.
  unfold mbind, st_bind, st_get, st_lift. cbn [fst snd]. rewrite He.
  rewrite (mpx_loop_from net_turn _ deadline others clock (epoll_reads e) (epoll_after e) (epoll_scan_all e)
    (epoll_reads_nonneg e) (s, buf) fuel 0 j (s, buf)); [|done|lia|exact Hend|intros; apply Hno; lia].
  fold y. unfold epoll_reads, epoll_after, scan_result. fold evs. rewrite Z.add_0_l.
  rewrite list_inserts_front.
  destruct (Z.of_nat (length evs) <=? _); [|done]. by destruct (epoll_ready e y.1).2.
Qed.

(** A descriptor that was closed while it is in a list of interest: it can not
    be removed, and waiting on the instance does not succeed any more. *)
Lemma list_events_closed fd ev m s :
  (fd, ev) ∈ m → posix_get (p_table s) (as_i32 fd) = Err EBADF → ∀ u, (list_events s m).2 ≠ Ok u.
Proof.
  intros Hin Hc u. induction m as [|[i ev'] m IH]; [set_solver|]. cbn [list_events].
  destruct (poll_fd (as_i32 i) s).1 as [r|err|] eqn:Hp; [|done..]. simpl.
  apply elem_of_cons in Hin as [[= -> ->]|Hin]; [|by apply IH].
  unfold poll_fd in Hp. by rewrite Hc in Hp.
Qed.
Theorem epoll_closed_fd epfd op fd event (s : PS) e ev buf :
  in_s 32 fd → 0 ≤ fd → Epoll_from_fd epfd s = Ok e → posix_get (p_table s) fd = Err EBADF →
  (fd, ev) ∈ interest s e →
  sys_epoll_ctl epfd op fd event s = (Ok (- errno_code EBADF), s) ∧
  ∀ n, (Epoll_poll_all e (s, buf)).1 ≠ Ok n.
Proof.
  intros Hf Hf' He Hc Hin. split.
  - unfold sys_epoll_ctl, syscall_body, control, mbind, st_bind, st_get, st_lift. rewrite He.
    by rewrite posix_index, (wraps_id 32 fd), Hc by (done || lia).
  - intros n. rewrite epoll_scan_all. simpl. unfold epoll_reads, scan_result. destruct (_ <=? _); [|done].
    pose proof (list_events_closed fd ev (interest s e) s Hin ltac:(by rewrite (wraps_id 32 fd) by (done || lia))) as Hno.
    cbn [fst]. fold (epoll_ready e s) in Hno. destruct (epoll_ready e s).2 as [[]|err|]; [|done..].
    by destruct (Hno ()).
Qed.

End mpx.

(** ** Witnesses: object 0 readable from turn 1 on, object 1 always writable,
    and an epoll instance as descriptor 2 *)

#[local] Existing Instance SampleErrno.
#[local] Instance CountMpx : MpxOps nat := {|
  mpx_poll f w := (Ok {| poll_readable := (po_id f =? 0) && (1 <=? w)%nat; poll_writable := po_id f =? 1 |}, w);
  mpx_net w := w;
|}.
Definition sample_table : table PosixObj AX_FILE_LIMIT :=
  <[0 := mkObj 0 false]> (<[1 := mkObj 1 false]> (<[2 := mkObj 2 true]> ∅)).
Definition sample_ps : PS (W:=nat) :=
  mkPS sample_table {[2 := [(0, mkEvent EPOLLIN 10); (1, mkEvent EPOLLOUT 11)]]} 3 0%nat.
Definition one_word (x : Z) : list Z := x :: replicate 15 0.
(** Each turn lets the other tasks count once. *)
Definition tick {A} (_ : nat) (y : PS (W:=nat) * A) : PS (W:=nat) * A := (set_world (S (p_world y.1)) y.1, y.2).

Lemma CountMpx_pure : pure_objects (W:=nat).
Proof. done. Qed.


Lemma epoll_wait_spec_witness :
  (let x := sys_epoll_wait tick (λ _, mkDuration 0 0) (mkDuration 0 0) 5 2 2 (-1)
     (sample_ps, [mkEvent 0 0; mkEvent 0 0]) in (x.1, x.2.2)) = (Ok (Some 1), [mkEvent EPOLLOUT 11; mkEvent 0 0]).
Proof.
  refine (eq_trans (f_equal (λ x, (x.1, x.2.2)) (epoll_wait_spec CountMpx_pure tick (λ _, mkDuration 0 0)
    (mkDuration 0 0) 5 2 2 2 (-1) None sample_ps [mkEvent 0 0; mkEvent 0 0] 0 _ _ _ _ _ _)) _).
  - lia.
  - done.
  - vm_compute. reflexivity.
  - lia.
  - left. vm_compute. discriminate.
  - lia.
  - vm_compute. reflexivity.
Defined.

Lemma epoll_ctl_refines_witness :
  (sys_epoll_ctl 2 EPOLL_CTL_DEL 0 (mkEvent 0 0) sample_ps).1 = Ok 0 ∧
  as_map (interest (sys_epoll_ctl 2 EPOLL_CTL_DEL 0 (mkEvent 0 0) sample_ps).2 2) = {[1 := mkEvent EPOLLOUT 11]}.
Proof.
  pose proof (epoll_ctl_refines 2 EPOLL_CTL_DEL 0 (mkEvent 0 0) sample_ps 2 (mkObj 0 false)) as Hc.
  cbv zeta in Hc. destruct Hc as (Hr & Hm & _).
  - unfold in_s, EPOLL_CTL_DEL; lia.
  - unfold EPOLL_CTL_DEL; lia.
  - unfold in_s; lia.
  - lia.
  - vm_compute. reflexivity.
  - vm_compute. reflexivity.
  - vm_compute. repeat constructor.
  - split; [exact Hr|]. rewrite Hm. vm_compute. reflexivity.
Defined.
