(* ===== verification/Signal.v ===== *)
(** * Signals

    Model of [src/api/src/signal.rs] and [src/api/src/imp/signal.rs]: sending
    signals to threads, processes and groups, the calls on masks, actions and
    the alternate stack, and what the kernel does with a signal on its way
    back to user space. The queues and the delivery are in the [axsignal]
    crate, the classes [AxSignal] of Process and [SignalManagers] here. *)

From S2P Require Import Prelude Abi Str FdTable MemBase AddrSpace UserPtr Tasks Futex Process Time.

#[local] Open Scope Z_scope.

Definition SIGSTOP : Z := 19.
Definition SIG_BLOCK : Z := 0.
Definition SIG_UNBLOCK : Z := 1.
Definition SIG_SETMASK : Z := 2.
Definition SI_USER : Z := 0.
Definition SI_TKILL : Z := -6.

(** What the kernel has to do for a signal that was taken. *)
Inductive SignalOSAction : Type := Terminate | CoreDump | Stop | Continue | Handler.
Record SignalStack := mkStack { ss_sp : Z; ss_flags : Z; ss_size : Z }.

(** The managers of threads: the blocked mask, the pending signals and the
    alternate stack of a thread, and the table of actions, named as in
    [ProcessData]. [sig_check] takes a signal that is not blocked and prepares
    the trap frame when it has a handler; with [Some mask] it makes the mask
    the blocked one afterwards. *)
Class SignalManagers (S A TF : Type) := {
  blocked : S → Z → Z;
  set_blocked : S → Z → Z → S;
  pending : S → Z → Z;
  action : S → Z → Z → A;
  set_action : S → Z → Z → A → S;
  to_ctype : A → list Z;
  try_into : list Z → LinuxResult A;
  stack : S → Z → SignalStack;
  set_stack : S → Z → SignalStack → S;
  restore : S → Z → TF → TF * S;
  sig_check : S → Z → TF → option Z → option (SignalInfo * SignalOSAction) * (TF * S);
  tf_retval : TF → Z;
  tf_set_retval : Z → TF → TF;
  blocked_set s t m u : blocked (set_blocked s t m) u = if decide (u = t) then m else blocked s u;
  action_set s i g a j h : action (set_action s i g a) j h = if decide (j = i ∧ h = g) then a else action s j h;
  stack_set s t x u : stack (set_stack s t x) u = if decide (u = t) then x else stack s u;
  try_into_panic bs : try_into bs ≠ Panic;
}.
(** Of [axprocess]: the processes of a group, and the first process. *)
Class ProcGroups (P : Type) := {
  group_processes : P → Z → list Z;
  proc_is_init : P → Z → bool;
}.

Definition SIGSET : Layout := mkLayout 8 8.
Definition SIGINFO : Layout := mkLayout 128 8.
Definition STACK_T : Layout := mkLayout 24 8.
Definition TIMESPEC : Layout := mkLayout 16 8.

(** [siginfo] in memory: the number, four bytes, the code, and the rest. *)
Definition info_of_bytes (bs : list Z) : SignalInfo :=
  mkInfo (le_value (take 4 bs)) (as_i32 (le_value (take 4 (drop 8 bs)))) (take 4 (drop 4 bs) ++ drop 12 bs).
Definition bytes_of_info (i : SignalInfo) : list Z :=
  let rest := take 120 (si_rest i ++ replicate 120 0) in
  le_bytes 4 (si_signo i) ++ take 4 rest ++ le_bytes 4 (as_u32 (si_code i)) ++ drop 4 rest.
Definition set_signo (signo : Z) (i : SignalInfo) : SignalInfo := mkInfo signo (si_code i) (si_rest i).
Definition stack_of_bytes (bs : list Z) : SignalStack :=
  mkStack (le_value (take 8 bs)) (le_value (take 4 (drop 8 bs))) (le_value (take 8 (drop 16 bs))).
Definition bytes_of_stack (x : SignalStack) : list Z :=
  le_bytes 8 (ss_sp x) ++ le_bytes 4 (ss_flags x) ++ replicate 4 0 ++ le_bytes 8 (ss_size x).

Definition check_sigset_size (size : Z) : LinuxResult () :=
  if size =? l_size SIGSET then Ok () else Err EINVAL.

Section signal.
Context {PT FA MS P S R L D A TF : Type} `{MA : !MemoryAddr} `{HPT : !PageTable PT}
  `{HFA : !FrameAlloc FA} `{HMS : !MemorySet MS} `{FO : !FlattenObjects FileLike AX_FILE_LIMIT}
  `{HP : !ProcTree P} `{HG : !ProcGroups P} `{HS : !AxSignal S} `{HM : !SignalManagers S A TF}
  `{HR : !Scheduler R} `{HL : !TimerList L} `{AxErrno}.
Abbreviation World :=
  (World (PT:=PT) (FA:=FA) (MS:=MS) (P:=P) (S:=S) (R:=R) (L:=L) (D:=D)).
Abbreviation Kst := (st World LinuxError).

(** The layout of [kernel_sigaction] and [MINSIGSTKSZ], which depend on the
    architecture. *)
Variables (SIGACTION : Layout) (MINSIGSTKSZ : Z).

Definition current_thread : Kst Z := st_gets (λ w, current (cpu w)).

(** Loads and stores through references that the checks of user pointers
    gave out. *)
Definition load (a : Z) (n : nat) : Kst (list Z) :=
  on_user (λ sm, (Ok (AddrSpace_read sm.1 sm.2 a (replicate n 0)).2, sm)).
Definition store (a : Z) (bs : list Z) : Kst () :=
  on_user (λ sm, (Ok (), (sm.1, (AddrSpace_write sm.1 a bs sm.2).2))).
(** [if let Some(x) = nullable!(ptr.get_as_mut())? { *x = bytes }]. *)
Definition store_nullable (l : Layout) (p : Z) (bs : World → list Z) : Kst () :=
  a ← on_user (nullable p (get_as_mut l p));
  match a with Some a => w ← st_get; store a (bs w) | None => mret () end.
(** [nullable!(ptr.get_as_ref())?], with the bytes behind it. *)
Definition load_nullable (l : Layout) (p : Z) : Kst (option (list Z)) :=
  a ← on_user (nullable p (get_as_ref l p));
  match a with Some a => bs ← load a (Z.to_nat (l_size l)); mret (Some bs) | None => mret None end.

Definition parse_signo (signo : Z) : LinuxResult Z := ok_or (from_repr (S:=S) (as_u8 signo)) EINVAL.

(** ** Masks and actions *)
Definition new_mask (how old set : Z) : LinuxResult Z :=
  if as_u32 how =? SIG_BLOCK then Ok (Z.lor old set)
  else if as_u32 how =? SIG_UNBLOCK then Ok (Z.ldiff old set)
  else if as_u32 how =? SIG_SETMASK then Ok set
  else Err EINVAL.
Definition sys_rt_sigprocmask (how set oldset sigsetsize : Z) : Kst Z :=
  st_lift (check_sigset_size sigsetsize);;
  t ← current_thread;
  store_nullable SIGSET oldset (λ w, le_bytes 8 (blocked (sigs w) t));;
  s ← load_nullable SIGSET set;
  match s with
  | Some bs =>
      w ← st_get;
      m ← st_lift (new_mask how (blocked (sigs w) t) (le_value bs));
      st_mod (λ w, set_sigs (set_blocked (sigs w) t m) w)
  | None => mret ()
  end;;
  mret 0.
Definition sys_rt_sigaction (signo act oldact sigsetsize : Z) : Kst Z :=
  st_lift (check_sigset_size sigsetsize);;
  signo ← st_lift (parse_signo signo);
  if (signo =? SIGKILL) || (signo =? SIGSTOP) then st_err EINVAL else
  d ← process_data;
  store_nullable SIGACTION oldact (λ w, to_ctype (action (sigs w) (signal_actions d) signo));;
  s ← load_nullable SIGACTION act;
  match s with
  | Some bs =>
      a ← st_lift (try_into bs);
      st_mod (λ w, set_sigs (set_action (sigs w) (signal_actions d) signo a) w)
  | None => mret ()
  end;;
  mret 0.
Definition sys_rt_sigpending (set sigsetsize : Z) : Kst Z :=
  st_lift (check_sigset_size sigsetsize);;
  a ← on_user (get_as_mut SIGSET set);
  w ← st_get;
  store a (le_bytes 8 (pending (sigs w) (current (cpu w))));;
  mret 0.

(** ** Sending *)
Definition make_siginfo (signo code : Z) : LinuxResult (option SignalInfo) :=
  if signo =? 0 then Ok None else
  signo ← parse_signo signo;
  Ok (Some (SignalInfo_new signo code)).

Fixpoint send_signal_all (l : list Z) (sig : SignalInfo) (count : Z) : Kst Z :=
  match l with
  | [] => mret count
  | p :: l' =>
      r ← st_ok (send_signal_process p sig : Kst ());
      send_signal_all l' sig (count + match r with Some _ => 1 | None => 0 end)
  end.
Definition send_signal_process_group (g : Z) (sig : SignalInfo) : Kst Z :=
  w ← st_get; send_signal_all (group_processes (tree w) g) sig 0.

(** [processes]: the live entries of the table. *)
Definition processes (w : World) : list Z :=
  filter (λ p, live (tree w) (RProcess p) = true) (map_to_list (process_table w)).*2.
Fixpoint kill_all (l : list Z) (sig : SignalInfo) (count : Z) : Kst Z :=
  match l with
  | [] => mret count
  | p :: l' =>
      w ← st_get;
      if proc_is_init (tree w) p then kill_all l' sig count else
      send_signal_process p sig;;
      kill_all l' sig (count + 1)
  end.

Definition sys_kill (pid signo : Z) : Kst Z :=
  s ← st_lift (make_siginfo signo SI_USER);
  match s with
  | None => mret 0
  | Some sig =>
      w ← st_get;
      if 0 <? pid then
        p ← st_lift (get_process (as_u32 pid) w);
        send_signal_process p sig;;
        mret 1
      else if pid =? 0 then
        p ← current_process;
        send_signal_process_group (pgid (tree w) p) sig
      else if pid =? -1 then kill_all (processes w) sig 0
      else
        g ← st_lift (get_process_group (as_u32 (as_i32 (- pid))) w);
        send_signal_process_group g sig
  end.
Definition sys_tkill (tid signo : Z) : Kst Z :=
  s ← st_lift (make_siginfo signo SI_TKILL);
  match s with
  | None => mret 0
  | Some sig =>
      w ← st_get;
      t ← st_lift (get_thread tid w);
      send_signal_thread t sig;;
      mret 0
  end.
Definition find_thread_in_group (tgid tid : Z) (w : World) : LinuxResult Z :=
  t ← get_thread tid w;
  if process_of (tree w) t =? tgid then Ok t else Err ESRCH.
Definition sys_tgkill (tgid tid signo : Z) : Kst Z :=
  s ← st_lift (make_siginfo signo SI_TKILL);
  match s with
  | None => mret 0
  | Some sig =>
      w ← st_get;
      t ← st_lift (find_thread_in_group tgid tid w);
      send_signal_thread t sig;;
      mret 0
  end.
Definition make_queue_signal_info (tgid signo sig : Z) : Kst SignalInfo :=
  signo ← st_lift (parse_signo signo);
  a ← on_user (get_as_ref SIGINFO sig);
  bs ← load a 128;
  let sig := set_signo signo (info_of_bytes bs) in
  p ← current_process;
  if negb (p =? tgid) && ((0 <=? si_code sig) || (si_code sig =? SI_TKILL)) then st_err EPERM
  else mret sig.
Definition sys_rt_sigqueueinfo (tgid signo sig sigsetsize : Z) : Kst Z :=
  st_lift (check_sigset_size sigsetsize);;
  sig ← make_queue_signal_info tgid signo sig;
  w ← st_get;
  p ← st_lift (get_process tgid w);
  send_signal_process p sig;;
  mret 0.
Definition sys_rt_tgsigqueueinfo (tgid tid signo sig sigsetsize : Z) : Kst Z :=
  st_lift (check_sigset_size sigsetsize);;
  sig ← make_queue_signal_info tgid signo sig;
  w ← st_get;
  t ← st_lift (find_thread_in_group tgid tid w);
  send_signal_thread t sig;;
  mret 0.

(** ** Waiting: what comes before and after the wait of the crate *)
Definition sigtimedwait_begin (set timeout sigsetsize : Z) : Kst (Z * option Duration) :=
  st_lift (check_sigset_size sigsetsize);;
  a ← on_user (get_as_ref SIGSET set);
  bs ← load a 8;
  ts ← load_nullable TIMESPEC timeout;
  match ts with
  | Some ts =>
      d ← st_lift (timespec_to_time_value (mkTimespec (as_i64 (le_value (take 8 ts))) (as_i64 (le_value (drop 8 ts)))));
      mret (le_value bs, Some d)
  | None => mret (le_value bs, None)
  end.
Definition sigtimedwait_end (got : option SignalInfo) (info : Z) : Kst Z :=
  match got with
  | None => st_err EAGAIN
  | Some sig => store_nullable SIGINFO info (λ _, bytes_of_info sig);; mret 0
  end.

Definition sys_sigaltstack (ss old_ss : Z) : Kst Z :=
  t ← current_thread;
  store_nullable STACK_T old_ss (λ w, bytes_of_stack (stack (sigs w) t));;
  s ← load_nullable STACK_T ss;
  match s with
  | Some bs =>
      let x := stack_of_bytes bs in
      if ss_size x <=? MINSIGSTKSZ then st_err ENOMEM else
      on_user (get_as_slice (mkLayout 1 1) (ss_sp x) (ss_size x));;
      st_mod (λ w, set_sigs (set_stack (sigs w) t x) w)
  | None => mret ()
  end;;
  mret 0.

(** ** The way back to user space

    These work on the trap frame as well. [do_exit] does not return: [Exits]
    carries what it gave, and [Delivered] and [NoSignal] are the results. *)
Abbreviation Fst := (st (World * TF) LinuxError).
Definition on_world {X} (m : Kst X) : Fst X := st_zoom fst (λ w s, (w, s.2)) m.
Inductive Checked : Type := NoSignal | Delivered | Exits (yielded : bool).

Definition exit_by (code : Z) : Fst Checked := y ← on_world (do_exit code true); mret (Exits y).
Definition take_signal (mask : option Z) : Fst (option (SignalInfo * SignalOSAction)) := λ s,
  let '(r, (tf, x)) := sig_check (sigs s.1) (current (cpu s.1)) s.2 mask in
  (Ok r, (set_sigs x s.1, tf)).
Definition check_signals (mask : option Z) : Fst Checked :=
  r ← take_signal mask;
  match r with
  | None => mret NoSignal
  | Some (sig, Terminate) => exit_by (as_i32 (128 + si_signo sig))
  | Some (sig, CoreDump) => exit_by (as_i32 (128 + si_signo sig))
  | Some (_, Stop) => exit_by 1
  | Some (_, Continue) => mret Delivered
  | Some (_, Handler) => mret Delivered
  end.
Definition post_trap_callback (from_user : bool) : Fst Checked :=
  if from_user then check_signals None else mret NoSignal.

Definition sys_rt_sigreturn : Fst Z := λ s,
  let '(tf, x) := restore (sigs s.1) (current (cpu s.1)) s.2 in
  (Ok (as_isize (tf_retval tf)), (set_sigs x s.1, tf)).

(** [SignalSet::remove]. *)
Definition set_remove (m signo : Z) : Z := Z.ldiff m (Z.shiftl 1 (signo - 1)).
(** Up to the loop; the result is the mask to restore. *)
Definition sigsuspend_begin (set sigsetsize : Z) : Fst Z :=
  on_world (st_lift (check_sigset_size sigsetsize));;
  a ← on_world (on_user (get_as_ref SIGSET set));
  bs ← on_world (load a 8);
  let m := set_remove (set_remove (le_value bs) SIGKILL) SIGSTOP in
  s ← st_get;
  let t := current (cpu s.1) in
  let old := blocked (sigs s.1) t in
  st_mod (λ s, (set_sigs (set_blocked (sigs s.1) t m) s.1, tf_set_retval (as_usize (- errno_code EINTR)) s.2));;
  mret old.
(** One turn of the loop: the result, or that the thread waits for a signal. *)
Definition sigsuspend_pass (old : Z) : Fst (option Z) :=
  r ← check_signals (Some old);
  match r with
  | Delivered => mret (Some 0)
  | NoSignal => mret None
  | Exits _ => mret None
  end.

(** ** Properties *)

Lemma parse_signo_spec signo :
  parse_signo signo = if decide (1 ≤ signo mod 256 ≤ 64) then Ok (signo mod 256) else Err EINVAL.
Proof.
  unfold parse_signo, wrapu. change (2 ^ 8) with 256. case_decide.
  - by rewrite from_repr_signal.
  - by rewrite from_repr_none.
Qed.

(** Who is meant by the first argument of [kill]. *)
Definition receivers (w : World) (pid : Z) : LinuxResult (list Z) :=
  if decide (0 < pid) then p ← get_process (as_u32 pid) w; Ok [p]
  else if decide (pid = 0) then Ok (group_processes (tree w) (pgid (tree w) (process_of (tree w) (current (cpu w)))))
  else if decide (pid = -1) then Ok (filter (λ p, proc_is_init (tree w) p = false) (processes w))
  else g ← get_process_group (as_u32 (as_i32 (- pid))) w; Ok (group_processes (tree w) g).
(** The signals after one was sent to each of some processes. *)
Definition sent_to (ps : list Z) (sig : SignalInfo) (w : World) : World :=
  set_sigs (foldl (λ s p, send_process s p sig) (sigs w) ps) w.

Lemma sent_to_cons p ps sig (w : World) : sent_to ps sig (set_sigs (send_process (sigs w) p sig) w) = sent_to (p :: ps) sig w.
Proof. done. Qed.
Lemma send_signal_process_ok p sig (w : World) : is_Some (procs w !! p) →
  send_signal_process p sig w = (Ok (), set_sigs (send_process (sigs w) p sig) w).
Proof. intros [d Hd]. unfold send_signal_process. monad. by rewrite Hd. Qed.
Lemma send_signal_all_ok l sig : ∀ (w : World) c, (∀ p, p ∈ l → is_Some (procs w !! p)) →
  send_signal_all l sig c w = (Ok (c + Z.of_nat (length l)), sent_to l sig w).
Proof.
  induction l as [|p l IH]; intros w c Hl; simpl.
  { rewrite Z.add_0_r. by destruct w. }
  unfold mbind, st_bind, st_ok. rewrite send_signal_process_ok by (apply Hl; left).
  rewrite IH by (intros q Hq; apply Hl; by right). rewrite sent_to_cons. do 2 f_equal. lia.
Qed.
Lemma kill_all_ok l sig : ∀ (w : World) c, (∀ p, p ∈ l → proc_is_init (tree w) p = false → is_Some (procs w !! p)) →
  kill_all l sig c w =
    (Ok (c + Z.of_nat (length (filter (λ p, proc_is_init (tree w) p = false) l))),
     sent_to (filter (λ p, proc_is_init (tree w) p = false) l) sig w).
Proof.
  induction l as [|p l IH]; intros w c Hl; simpl.
  { rewrite Z.add_0_r. by destruct w. }
  unfold mbind, st_bind, st_get. cbv beta iota. rewrite filter_cons.
  destruct (proc_is_init (tree w) p) eqn:Hi; simpl.
  - apply IH. intros q Hq. apply Hl. by right.
  - rewrite send_signal_process_ok by (apply Hl; [left|done]).
    rewrite IH by (intros q Hq; apply Hl; by right). simpl. rewrite sent_to_cons. do 2 f_equal. lia.
Qed.


(** the number of a signal is taken modulo 256: [kill] and the calls like
    it accept every number whose low byte is a signal, and fail with EINVAL
    for all others. *)
Theorem signal_number_spec (signo code : Z) :
  make_siginfo signo code =
    if decide (signo = 0) then Ok None
    else if decide (1 ≤ signo mod 256 ≤ 64) then Ok (Some (SignalInfo_new (signo mod 256) code))
    else Err EINVAL.
Proof.
  unfold make_siginfo. destruct (Z.eqb_spec signo 0); [by rewrite decide_True|]. rewrite decide_False by done.
  rewrite parse_signo_spec. by case_decide.
Qed.

(** ** Calls that move bytes change the memory only *)
Definition mem_only {X} (m : Kst X) : Prop := ∀ w, ∃ sp mc, (m w).2 = set_memory sp mc w.

Lemma set_memory_id (w : World) : w = set_memory (spaces w) (machine w) w.
Proof. by destruct w. Qed.
Lemma mem_only_ret {X} (x : X) : mem_only (mret x).
Proof. intros w. exists (spaces w), (machine w). apply set_memory_id. Qed.
Lemma mem_only_get : mem_only st_get.
Proof. intros w. exists (spaces w), (machine w). apply set_memory_id. Qed.
Lemma mem_only_user {X} (m : st (AddrSpace PT MS * Machine FA) LinuxError X) : mem_only (on_user m).
Proof. intros w. destruct (on_user m w) as [r w'] eqn:Hm. by eapply on_user_memory. Qed.
Lemma mem_only_bind {X Y} (m : Kst X) (k : X → Kst Y) : mem_only m → (∀ x, mem_only (k x)) → mem_only (m ≫= k).
Proof.
  intros Hm Hk w. unfold mbind, st_bind. destruct (Hm w) as (sp & mc & Hw).
  destruct (m w) as [[x|e|] w1]; simpl in *; [|by exists sp, mc..]. subst w1.
  destruct (Hk x (set_memory sp mc w)) as (sp' & mc' & ->). by exists sp', mc'.
Qed.
#[local] Hint Resolve mem_only_ret mem_only_get mem_only_user mem_only_bind : kernel.

Lemma store_nullable_mem l p bs : mem_only (store_nullable l p bs).
Proof. apply mem_only_bind; [auto with kernel|]. intros [a|]; unfold store; auto with kernel. Qed.
Lemma load_nullable_mem l p : mem_only (load_nullable l p).
Proof. apply mem_only_bind; [auto with kernel|]. intros [a|]; unfold load; auto with kernel. Qed.
#[local] Hint Resolve store_nullable_mem load_nullable_mem : kernel.

Lemma mem_only_run {X} (m : Kst X) w r w' : mem_only m → m w = (r, w') → ∃ sp mc, w' = set_memory sp mc w.
Proof. intros Hm Hw. specialize (Hm w). by rewrite Hw in Hm. Qed.

Lemma on_user_Ok {X} (m : st (AddrSpace PT MS * Machine FA) LinuxError X) (w w' : World) x :
  on_user m w = (Ok x, w') → ∃ s s', m s = (Ok x, s').
Proof.
  intros Hu. unfold on_user in Hu. apply st_bind_Ok in Hu as (d & w1 & _ & Hu). unfold on_space in Hu.
  destruct (spaces w1 !! _) as [s|]; [|done]. exists (s, machine w1).
  destruct (m (s, machine w1)) as [r [s' m']]. injection Hu as -> _. by exists (s', m').
Qed.
Lemma load_nullable_None l p w w' : load_nullable l p w = (Ok None, w') → p = 0.
Proof.
  intros Hl. apply st_bind_Ok in Hl as (a & w1 & Ha & Hl). apply on_user_Ok in Ha as (s & s' & Ha).
  unfold nullable in Ha. destruct (Z.eqb_spec p 0); [done|]. apply st_bind_Ok in Ha as (b & s1 & _ & [= <- _]).
  by apply st_bind_Ok in Hl as (? & ? & _ & [= ]).
Qed.

(** What the three ways to change a mask do to each signal. *)
Definition masked (how : Z) (old new : bool) : bool :=
  if how =? SIG_BLOCK then old || new else if how =? SIG_UNBLOCK then old && negb new else new.

(** when the old mask could be stored and the bytes [bs] of the set read,
    [rt_sigprocmask] changes the mask of the calling thread, signal by signal
    as [how] says, and nobody else's; with another [how] it fails with EINVAL
    and changes no mask. The set is taken as it is: SIGKILL and SIGSTOP can be
    blocked. *)
Theorem sigprocmask_spec (w w1 w2 : World) (how set oldset : Z) (bs : list Z) :
  let t := current (cpu w) in
  0 ≤ how < 2 ^ 31 →
  store_nullable SIGSET oldset (λ w, le_bytes 8 (blocked (sigs w) t)) w = (Ok (), w1) →
  load_nullable SIGSET set w1 = (Ok (Some bs), w2) →
  match sys_rt_sigprocmask how set oldset 8 w with
  | (Ok x, w') => x = 0 ∧ how ≤ 2 ∧
      (∀ i, 0 ≤ i → Z.testbit (blocked (sigs w') t) i =
         masked how (Z.testbit (blocked (sigs w) t) i) (Z.testbit (le_value bs) i)) ∧
      ∀ u, u ≠ t → blocked (sigs w') u = blocked (sigs w) u
  | (Err e, w') => e = EINVAL ∧ 2 < how ∧ ∀ u, blocked (sigs w') u = blocked (sigs w) u
  | (Panic, _) => False
  end.
Proof.
  intros t Hhow H1 H2. unfold sys_rt_sigprocmask, current_thread, st_gets, st_lift.
  unfold mbind at 1, st_bind at 1. change (check_sigset_size 8) with (@Ok LinuxError () ()). cbv beta iota.
  unfold mbind at 1, st_bind at 1. cbv beta iota. fold t. unfold mbind at 1, st_bind at 1. rewrite H1.
  unfold mbind at 1, st_bind at 1, mbind at 1, st_bind at 1. rewrite H2.
  apply mem_only_run in H1 as (sp & mc & ->); [|auto with kernel].
  apply mem_only_run in H2 as (sp2 & mc2 & ->); [|auto with kernel].
  unfold mbind, st_bind, st_get, st_lift; simpl. unfold new_mask.
  assert (as_u32 how = how) as -> by (apply wrapu_id; unfold in_u; lia).
  unfold SIG_BLOCK, SIG_UNBLOCK, SIG_SETMASK, masked.
  destruct (Z.eqb_spec how 0) as [->|]; [|destruct (Z.eqb_spec how 1) as [->|];
    [|destruct (Z.eqb_spec how 2) as [->|]]]; simpl; [..|split_and!; [done|lia|done]];
    (split; [done|]; split; [lia|]; split;
     [intros i Hi; rewrite blocked_set, decide_True by done
     |intros u Hu; by rewrite blocked_set, decide_False]).
  - by rewrite Z.lor_spec.
  - by rewrite Z.ldiff_spec.
  - done.
Qed.

(** [rt_sigaction] can change only the action of the signal it names in
    the table of the calling process, never that of SIGKILL or SIGSTOP, and
    only when it succeeds. *)
Theorem sigaction_changes_one (w w' : World) (signo act oldact size i g : Z) (r : LinuxResult Z) :
  sys_rt_sigaction signo act oldact size w = (r, w') →
  action (sigs w') i g ≠ action (sigs w) i g →
  r = Ok 0 ∧ parse_signo signo = Ok g ∧ g ≠ SIGKILL ∧ g ≠ SIGSTOP ∧
  ∃ d, procs w !! process_of (tree w) (current (cpu w)) = Some d ∧ i = signal_actions d.
Proof.
  intros Hs Hne. unfold sys_rt_sigaction in Hs. unfold mbind at 1, st_bind at 1, st_lift in Hs.
  destruct (check_sigset_size size) as [[]|e|]; [|by injection Hs as <- <-..].
  unfold mbind at 1, st_bind at 1 in Hs. destruct (parse_signo signo) as [s|e|] eqn:Hp; [|by injection Hs as <- <-..].
  destruct ((s =? SIGKILL) || (s =? SIGSTOP)) eqn:Hk; [by injection Hs as <- <-|].
  apply orb_false_iff in Hk as [Hk1%Z.eqb_neq Hk2%Z.eqb_neq].
  unfold mbind at 1, st_bind at 1, process_data in Hs.
  unfold mbind at 1, st_bind at 1, current_process, st_gets, data_of in Hs.
  destruct (procs w !! _) as [d|] eqn:Hd; simpl in Hs; [|by injection Hs as <- <-].
  unfold mbind at 1, st_bind at 1 in Hs. destruct (store_nullable _ _ _ w) as [r1 w1] eqn:H1.
  apply mem_only_run in H1 as (sp & mc & ->); [|auto with kernel].
  destruct r1 as [[]|e|]; [|by injection Hs as <- <-..].
  unfold mbind at 1, st_bind at 1, mbind at 1, st_bind at 1 in Hs.
  destruct (load_nullable _ _ _) as [r2 w2] eqn:H2.
  apply mem_only_run in H2 as (sp2 & mc2 & ->); [|auto with kernel].
  destruct r2 as [[bs|]|e|]; [|by injection Hs as <- <-..].
  unfold mbind, st_bind in Hs. simpl in Hs. destruct (try_into bs) as [a|e|]; [|by injection Hs as <- <-..].
  injection Hs as <- <-. simpl in Hne. rewrite action_set in Hne. case_decide as Hig; [|done].
  destruct Hig as [-> ->]. split_and!; [done..|]. by exists d.
Qed.

(** [rt_sigsuspend] blocks exactly the signals of the set it reads, except
    SIGKILL and SIGSTOP, until a signal is taken, and keeps the old mask to
    restore it then. *)
Theorem sigsuspend_mask (w w1 w2 : World) (tf : TF) (set a : Z) (bs : list Z) :
  let t := current (cpu w) in
  on_user (get_as_ref SIGSET set) w = (Ok a, w1) → load a 8 w1 = (Ok bs, w2) →
  ∃ w' tf', sigsuspend_begin set 8 (w, tf) = (Ok (blocked (sigs w) t), (w', tf')) ∧
    ∀ i, 0 ≤ i → Z.testbit (blocked (sigs w') t) i =
      Z.testbit (le_value bs) i && negb (bool_decide (i + 1 = SIGKILL)) && negb (bool_decide (i + 1 = SIGSTOP)).
Proof.
  intros t H1 H2. unfold sigsuspend_begin, on_world, st_zoom, mbind, st_bind, st_get; simpl.
  rewrite H1. simpl. rewrite H2. simpl.
  apply mem_only_run in H1 as (sp & mc & ->); [|apply mem_only_user].
  apply mem_only_run in H2 as (sp2 & mc2 & ->); [|apply mem_only_user].
  do 2 eexists. split; [done|]. intros i Hi. simpl. rewrite blocked_set, decide_True by done. unfold set_remove.
  rewrite !Z.ldiff_spec, !Z.shiftl_1_l, !Z.pow2_bits_eqb by done. unfold SIGKILL, SIGSTOP.
  do 2 f_equal; [do 2 f_equal|]; apply eq_bool_prop_intro; rewrite bool_decide_spec, Is_true_true, Z.eqb_eq; lia.
Qed.

(** [rt_sigtimedwait] does not check its timeout: a time of more than
    [u64::MAX] seconds, as a negative number of seconds with a large number of
    nanoseconds is, panics. *)
Theorem sigtimedwait_panics (w w1 w2 w3 : World) (set timeout a : Z) (bs ts : list Z) :
  on_user (get_as_ref SIGSET set) w = (Ok a, w1) → load a 8 w1 = (Ok bs, w2) →
  load_nullable TIMESPEC timeout w2 = (Ok (Some ts), w3) →
  2 ^ 64 ≤ as_u64 (as_i64 (le_value (take 8 ts))) + as_u32 (as_i64 (le_value (drop 8 ts))) / NANOS_PER_SEC →
  (sigtimedwait_begin set timeout 8 w).1 = Panic.
Proof.
  intros H1 H2 H3 Hbig. unfold sigtimedwait_begin. unfold mbind at 1, st_bind at 1, st_lift.
  change (check_sigset_size 8) with (@Ok LinuxError () ()). cbv beta iota.
  unfold mbind, st_bind. rewrite H1, H2, H3.
  unfold timespec_to_time_value, Duration_new. cbn [tv_sec tv_nsec]. by rewrite (proj2 (Z.ltb_ge _ _) Hbig).
Qed.
End signal.

(** ** Instances *)
Record SimSignals := mkSimSignals {
  sim_sent : list (Z * SignalInfo); sim_blocked : Z → Z; sim_action : Z → Z → list Z; sim_stack : Z → SignalStack;
}.
#[global, program] Instance SimAxSignal : AxSignal SimSignals := {|
  from_repr z := if decide (1 ≤ z ≤ 64) then Some z else None;
  send_process s p sig := mkSimSignals (sim_sent s ++ [(p, sig)]) (sim_blocked s) (sim_action s) (sim_stack s);
  send_thread s t sig := mkSimSignals (sim_sent s ++ [(t, sig)]) (sim_blocked s) (sim_action s) (sim_stack s);
  sig_new_process s p actions := s;
  sig_new_thread s p t := s;
|}.
Next Obligation. intros z Hz. simpl. by rewrite decide_True. Qed.
Next Obligation. intros z Hz. simpl. by rewrite decide_False. Qed.
(** A trap frame is its return value; no signal is ever taken. *)
#[global, program] Instance SimManagers : SignalManagers SimSignals (list Z) Z := {|
  blocked := sim_blocked;
  set_blocked s t m :=
    mkSimSignals (sim_sent s) (λ u, if decide (u = t) then m else sim_blocked s u) (sim_action s) (sim_stack s);
  pending s t := 0;
  action := sim_action;
  set_action s i g a :=
    mkSimSignals (sim_sent s) (sim_blocked s) (λ j h, if decide (j = i ∧ h = g) then a else sim_action s j h)
      (sim_stack s);
  to_ctype a := a;
  try_into bs := Ok bs;
  stack := sim_stack;
  set_stack s t x :=
    mkSimSignals (sim_sent s) (sim_blocked s) (sim_action s) (λ u, if decide (u = t) then x else sim_stack s u);
  restore s t tf := (tf, s);
  sig_check s t tf m := (None, (tf, s));
  tf_retval tf := tf;
  tf_set_retval x tf := x;
|}.
Next Obligation. done. Qed.
Next Obligation. done. Qed.
Next Obligation. done. Qed.
Next Obligation. done. Qed.
#[global] Instance TreeGroups : ProcGroups PTree := {|
  group_processes t g := [1; 5];
  proc_is_init t p := p =? 1;
|}.

#[local] Existing Instance SampleErrno.
Abbreviation SignalWorld :=
  (World (PT:=pt_list) (FA:=counter) (MS:=ms_list) (P:=PTree) (S:=SimSignals) (R:=list Z)
    (L:=list Timer) (D:=Z)).
(** Processes 1 and 5 in one group, and memory full of 255. *)
Definition signal_world : SignalWorld :=
  mkWorld (sample_tree false 1) (mkSimSignals [] (λ _, 0) (λ _ _, []) (λ _, mkStack 0 0 0)) init_scheduler
    {[1 := sample_data; 5 := sample_data]} ∅ ∅ {[5 := 5]} {[1 := 1]} ∅
    {[0 := mem_aspace mem_mapped]} mem_machine {[0 := stdio_table]} {[0 := 7]} {[0 := []]} 1 ∅.


Lemma sigprocmask_spec_witness :
  ∃ w', sys_rt_sigprocmask SIG_SETMASK 4096 0 8 signal_world = (Ok 0, w') ∧
    Z.testbit (blocked (sigs w') init) 8 = true.
Proof.
  destruct (store_nullable SIGSET 0 (λ w : SignalWorld, le_bytes 8 (blocked (sigs w) init)) signal_world)
    as [r1 w1] eqn:H1.
  assert (r1 = Ok ()) as -> by (change r1 with (r1, w1).1; rewrite <-H1; vm_compute; reflexivity).
  destruct (load_nullable SIGSET 4096 w1) as [r2 w2] eqn:H2.
  assert (r2 = Ok (Some (replicate 8 255))) as ->.
  { change r2 with (r2, w2).1. rewrite <-H2. change w1 with (Ok () : LinuxResult (), w1).2. rewrite <-H1.
    vm_compute. reflexivity. }
  pose proof (sigprocmask_spec signal_world w1 w2 SIG_SETMASK 4096 0 (replicate 8 255) ltac:(done) H1 H2) as Hs.
  destruct (sys_rt_sigprocmask SIG_SETMASK 4096 0 8 signal_world) as [[x|e|] w'].
  - destruct Hs as (-> & _ & Hs & _). exists w'. split; [done|]. by apply (Hs 8).
  - by destruct Hs as (_ & ? & _).
  - done.
Defined.

Lemma sigaction_changes_one_witness :
  ∃ w', sys_rt_sigaction (mkLayout 32 8) 10 4096 0 8 signal_world = (Ok 0, w') ∧
    action (sigs w') 0 10 ≠ action (sigs signal_world) 0 10.
Proof.
  destruct (sys_rt_sigaction (mkLayout 32 8) 10 4096 0 8 signal_world) as [r w'] eqn:Hs.
  assert (action (sigs w') 0 10 ≠ action (sigs signal_world) 0 10) as Hne.
  { change w' with (r, w').2. rewrite <-Hs. vm_compute. discriminate. }
  exists w'. split; [|exact Hne].
  destruct (sigaction_changes_one (mkLayout 32 8) signal_world w' 10 4096 0 8 0 10 r Hs Hne) as (-> & _). reflexivity.
Defined.

(** The first eight bytes of a mapped page. *)
Lemma load_255 : ∃ w1 w2 : SignalWorld, on_user (get_as_ref SIGSET 4096) signal_world = (Ok 4096, w1) ∧
  load 4096 8 w1 = (Ok (replicate 8 255), w2) ∧ ∃ w3, load_nullable TIMESPEC 8192 w2 = (Ok (Some (replicate 16 255)), w3).
Proof.
  destruct (on_user (get_as_ref SIGSET 4096) signal_world) as [r1 w1] eqn:H1.
  assert (r1 = Ok 4096) as -> by (change r1 with (r1, w1).1; rewrite <-H1; vm_compute; reflexivity).
  destruct (load 4096 8 w1) as [r2 w2] eqn:H2. exists w1, w2. split; [done|].
  assert (w1 = (on_user (get_as_ref SIGSET 4096) signal_world).2) as Hw1 by by rewrite H1.
  assert (w2 = (load 4096 8 w1).2) as Hw2 by by rewrite H2.
  assert (r2 = Ok (replicate 8 255)) as ->.
  { change r2 with (r2, w2).1. rewrite <-H2, Hw1. vm_compute. reflexivity. }
  split; [done|]. destruct (load_nullable TIMESPEC 8192 w2) as [r3 w3] eqn:H3. exists w3. f_equal.
  change r3 with (r3, w3).1. rewrite <-H3, Hw2, Hw1. vm_compute. reflexivity.
Qed.

Lemma sigsuspend_mask_witness :
  ∃ w' tf', sigsuspend_begin 4096 8 (signal_world, 0) = (Ok 0, (w', tf')) ∧
    Z.testbit (blocked (sigs w') init) 8 = false ∧ Z.testbit (blocked (sigs w') init) 9 = true.
Proof.
  destruct load_255 as (w1 & w2 & H1 & H2 & _).
  destruct (sigsuspend_mask signal_world w1 w2 0 4096 4096 _ H1 H2) as (w' & tf' & Hs & Hb).
  exists w', tf'. split; [exact Hs|]. split; [exact (Hb 8 ltac:(lia))|exact (Hb 9 ltac:(lia))].
Defined.

Lemma sigtimedwait_panics_witness : (sigtimedwait_begin 4096 8192 8 signal_world).1 = Panic.
Proof.
  destruct load_255 as (w1 & w2 & H1 & H2 & w3 & H3).
  by apply (sigtimedwait_panics signal_world w1 w2 w3 4096 8192 4096 _ _ H1 H2 H3).
Defined.
