(* ===== verification/Syscall.v ===== *)
(** * The table of system calls

    How a trap of user code becomes a call: [handle_syscall]
    ([src/src/syscall.rs]) picks the function of a number and converts the
    registers to the types of its arguments. The [syscalls] crate names the
    numbers of an architecture; the names the table tests are [Sysno], and
    which of its lines are compiled depends on the architecture. *)

From S2P Require Import Prelude Abi.

#[local] Open Scope Z_scope.

Inductive Arch : Type := X86_64 | AArch64 | RiscV64 | LoongArch64.
Definition is_x86 (arch : Arch) : bool := match arch with X86_64 => true | _ => false end.
Definition is_loongarch (arch : Arch) : bool := match arch with LoongArch64 => true | _ => false end.

(** The argument registers of a trap frame. *)
Record TrapArgs := mkTrapArgs { arg0 : Z; arg1 : Z; arg2 : Z; arg3 : Z; arg4 : Z; arg5 : Z }.

Inductive Sysno : Type :=
  | NR_ioctl | NR_chdir | NR_mkdirat | NR_getdents64 | NR_linkat | NR_link | NR_unlinkat
  | NR_unlink | NR_getcwd | NR_openat | NR_open | NR_close | NR_dup | NR_dup2 | NR_dup3 | NR_fcntl
  | NR_read | NR_readv | NR_write | NR_writev | NR_lseek | NR_sendfile | NR_poll | NR_mount
  | NR_umount2 | NR_pipe2 | NR_pipe | NR_stat | NR_fstat | NR_lstat | NR_newfstatat | NR_fstatat
  | NR_statx | NR_brk | NR_mmap | NR_munmap | NR_mprotect | NR_getpid | NR_getppid | NR_gettid
  | NR_sched_yield | NR_nanosleep | NR_execve | NR_set_tid_address | NR_arch_prctl | NR_clone
  | NR_fork | NR_exit | NR_exit_group | NR_wait4 | NR_rt_sigprocmask | NR_rt_sigaction
  | NR_rt_sigpending | NR_rt_sigreturn | NR_rt_sigtimedwait | NR_rt_sigsuspend | NR_kill
  | NR_tkill | NR_tgkill | NR_rt_sigqueueinfo | NR_rt_tgsigqueueinfo | NR_sigaltstack | NR_futex
  | NR_getuid | NR_geteuid | NR_getgid | NR_getegid | NR_uname | NR_syslog | NR_gettimeofday
  | NR_times | NR_clock_gettime | NR_other (num : Z).

(** One constructor per function the table calls, with its arguments after
    their conversion; a pointer is its address. *)
Inductive Call : Type :=
  | C_ioctl (fd op argp : Z) | C_chdir (path : Z) | C_mkdirat (dirfd path mode : Z)
  | C_getdents64 (fd buf len : Z) | C_linkat (old_dirfd old_path new_dirfd new_path flags : Z)
  | C_link (old_path new_path : Z) | C_unlinkat (dirfd path flags : Z) | C_unlink (path : Z)
  | C_getcwd (buf size : Z) | C_openat (dirfd path flags mode : Z) | C_open (path flags mode : Z)
  | C_close (fd : Z) | C_dup (old_fd : Z) | C_dup2 (old_fd new_fd : Z) | C_fcntl (fd cmd arg : Z)
  | C_read (fd buf len : Z) | C_readv (fd iov iocnt : Z) | C_write (fd buf len : Z)
  | C_writev (fd iov iocnt : Z) | C_lseek (fd offset whence : Z)
  | C_sendfile (out_fd in_fd offset len : Z) | C_poll (fds nfds timeout : Z)
  | C_mount (source target fs_type flags data : Z) | C_umount2 (target flags : Z)
  | C_pipe2 (fds flags : Z) | C_stat (path statbuf : Z) | C_fstat (fd statbuf : Z)
  | C_lstat (path statbuf : Z) | C_fstatat (dirfd path statbuf flags : Z)
  | C_statx (dirfd path flags mask statxbuf : Z) | C_brk (addr : Z)
  | C_mmap (addr length prot flags fd offset : Z) | C_munmap (addr length : Z)
  | C_mprotect (addr length prot : Z) | C_getpid | C_getppid | C_gettid | C_sched_yield
  | C_nanosleep (req rem : Z) | C_execve (path argv envp : Z)
  | C_set_tid_address (clear_child_tid : Z) | C_arch_prctl (code addr : Z)
  | C_clone (flags stack parent_tid child_tid tls : Z) | C_fork | C_exit (exit_code : Z)
  | C_exit_group (exit_code : Z) | C_waitpid (pid exit_code_ptr options : Z)
  | C_rt_sigprocmask (how set oldset sigsetsize : Z)
  | C_rt_sigaction (signo act oldact sigsetsize : Z) | C_rt_sigpending (set sigsetsize : Z)
  | C_rt_sigreturn | C_rt_sigtimedwait (set info timeout sigsetsize : Z)
  | C_rt_sigsuspend (set sigsetsize : Z) | C_kill (pid signo : Z) | C_tkill (tid signo : Z)
  | C_tgkill (tgid tid signo : Z) | C_rt_sigqueueinfo (tgid signo sig sigsetsize : Z)
  | C_rt_tgsigqueueinfo (tgid tid signo sig sigsetsize : Z) | C_sigaltstack (ss old_ss : Z)
  | C_futex (uaddr futex_op value timeout uaddr2 value3 : Z) | C_getuid | C_geteuid | C_getgid
  | C_getegid | C_uname (name : Z) | C_gettimeofday (ts : Z) | C_times (tms : Z)
  | C_clock_gettime (clock_id ts : Z) | C_syslog.

(** A line that is compiled for some architectures only. *)
Definition on_arch (b : bool) (c : Call) : option Call := if b then Some c else None.

(** The table, in three parts: signals, system and time; memory and tasks; and
    files, which is where the match begins. *)
Definition decode_sys (arch : Arch) (no : Sysno) (a : TrapArgs) : option Call :=
  match no with
  | NR_rt_sigprocmask => Some (C_rt_sigprocmask (as_i32 (arg0 a)) (arg1 a) (arg2 a) (arg3 a))
  | NR_rt_sigaction => Some (C_rt_sigaction (as_u32 (arg0 a)) (arg1 a) (arg2 a) (arg3 a))
  | NR_rt_sigpending => Some (C_rt_sigpending (arg0 a) (arg1 a))
  | NR_rt_sigreturn => Some C_rt_sigreturn
  | NR_rt_sigtimedwait => Some (C_rt_sigtimedwait (arg0 a) (arg1 a) (arg2 a) (arg3 a))
  | NR_rt_sigsuspend => Some (C_rt_sigsuspend (arg0 a) (arg1 a))
  | NR_kill => Some (C_kill (as_i32 (arg0 a)) (as_u32 (arg1 a)))
  | NR_tkill => Some (C_tkill (as_u32 (arg0 a)) (as_u32 (arg1 a)))
  | NR_tgkill => Some (C_tgkill (as_u32 (arg0 a)) (as_u32 (arg1 a)) (as_u32 (arg2 a)))
  | NR_rt_sigqueueinfo => Some (C_rt_sigqueueinfo (as_u32 (arg0 a)) (as_u32 (arg1 a)) (arg2 a) (arg3 a))
  | NR_rt_tgsigqueueinfo =>
      Some (C_rt_tgsigqueueinfo (as_u32 (arg0 a)) (as_u32 (arg1 a)) (as_u32 (arg2 a)) (arg3 a) (arg4 a))
  | NR_sigaltstack => Some (C_sigaltstack (arg0 a) (arg1 a))
  | NR_futex =>
      Some (C_futex (arg0 a) (as_u32 (arg1 a)) (as_u32 (arg2 a)) (arg3 a) (arg4 a) (as_u32 (arg5 a)))
  | NR_getuid => Some C_getuid
  | NR_geteuid => Some C_geteuid
  | NR_getgid => Some C_getgid
  | NR_getegid => Some C_getegid
  | NR_uname => Some (C_uname (arg0 a))
  | NR_syslog => Some C_syslog
  | NR_gettimeofday => Some (C_gettimeofday (arg0 a))
  | NR_times => Some (C_times (arg0 a))
  | NR_clock_gettime => Some (C_clock_gettime (as_i32 (arg0 a)) (arg1 a))
  | _ => None
  end.

Definition decode_task (arch : Arch) (no : Sysno) (a : TrapArgs) : option Call :=
  match no with
  | NR_brk => Some (C_brk (arg0 a))
  | NR_mmap =>
      Some (C_mmap (arg0 a) (arg1 a) (as_u32 (arg2 a)) (as_u32 (arg3 a)) (as_i32 (arg4 a)) (as_isize (arg5 a)))
  | NR_munmap => Some (C_munmap (arg0 a) (arg1 a))
  | NR_mprotect => Some (C_mprotect (arg0 a) (arg1 a) (as_u32 (arg2 a)))
  | NR_getpid => Some C_getpid
  | NR_getppid => Some C_getppid
  | NR_gettid => Some C_gettid
  | NR_sched_yield => Some C_sched_yield
  | NR_nanosleep => Some (C_nanosleep (arg0 a) (arg1 a))
  | NR_execve => Some (C_execve (arg0 a) (arg1 a) (arg2 a))
  | NR_set_tid_address => Some (C_set_tid_address (arg0 a))
  | NR_arch_prctl => on_arch (is_x86 arch) (C_arch_prctl (as_i32 (arg0 a)) (arg1 a))
  | NR_clone => Some (if is_x86 arch || is_loongarch arch
            then C_clone (as_u32 (arg0 a)) (arg1 a) (arg2 a) (arg3 a) (arg4 a)
            else C_clone (as_u32 (arg0 a)) (arg1 a) (arg2 a) (arg4 a) (arg3 a))
  | NR_fork => on_arch (is_x86 arch) C_fork
  | NR_exit => Some (C_exit (as_i32 (arg0 a)))
  | NR_exit_group => Some (C_exit_group (as_i32 (arg0 a)))
  | NR_wait4 => Some (C_waitpid (as_i32 (arg0 a)) (arg1 a) (as_u32 (arg2 a)))
  | _ => decode_sys arch no a
  end.

Definition decode (arch : Arch) (no : Sysno) (a : TrapArgs) : option Call :=
  match no with
  | NR_ioctl => Some (C_ioctl (as_i32 (arg0 a)) (arg1 a) (arg2 a))
  | NR_chdir => Some (C_chdir (arg0 a))
  | NR_mkdirat => Some (C_mkdirat (as_i32 (arg0 a)) (arg1 a) (as_u32 (arg2 a)))
  | NR_getdents64 => Some (C_getdents64 (as_i32 (arg0 a)) (arg1 a) (arg2 a))
  | NR_linkat => Some (C_linkat (as_i32 (arg0 a)) (arg1 a) (as_i32 (arg2 a)) (arg3 a) (as_i32 (arg4 a)))
  | NR_link => on_arch (is_x86 arch) (C_link (arg0 a) (arg1 a))
  | NR_unlinkat => Some (C_unlinkat (as_i32 (arg0 a)) (arg1 a) (as_u32 (arg2 a)))
  | NR_unlink => on_arch (is_x86 arch) (C_unlink (arg0 a))
  | NR_getcwd => Some (C_getcwd (arg0 a) (arg1 a))
  | NR_openat => Some (C_openat (as_i32 (arg0 a)) (arg1 a) (as_i32 (arg2 a)) (as_u32 (arg3 a)))
  | NR_open => on_arch (is_x86 arch) (C_open (arg0 a) (as_i32 (arg1 a)) (as_u32 (arg2 a)))
  | NR_close => Some (C_close (as_i32 (arg0 a)))
  | NR_dup => Some (C_dup (as_i32 (arg0 a)))
  | NR_dup2 => on_arch (is_x86 arch) (C_dup2 (as_i32 (arg0 a)) (as_i32 (arg1 a)))
  | NR_dup3 => Some (C_dup2 (as_i32 (arg0 a)) (as_i32 (arg1 a)))
  | NR_fcntl => Some (C_fcntl (as_i32 (arg0 a)) (as_i32 (arg1 a)) (arg2 a))
  | NR_read => Some (C_read (as_i32 (arg0 a)) (arg1 a) (arg2 a))
  | NR_readv => Some (C_readv (as_i32 (arg0 a)) (arg1 a) (arg2 a))
  | NR_write => Some (C_write (as_i32 (arg0 a)) (arg1 a) (arg2 a))
  | NR_writev => Some (C_writev (as_i32 (arg0 a)) (arg1 a) (arg2 a))
  | NR_lseek => Some (C_lseek (as_i32 (arg0 a)) (as_isize (arg1 a)) (as_i32 (arg2 a)))
  | NR_sendfile => Some (C_sendfile (as_i32 (arg0 a)) (as_i32 (arg1 a)) (arg2 a) (arg3 a))
  | NR_poll => on_arch (is_x86 arch) (C_poll (arg0 a) (as_u32 (arg1 a)) (as_i32 (arg2 a)))
  | NR_mount => Some (C_mount (arg0 a) (arg1 a) (arg2 a) (as_i32 (arg3 a)) (arg4 a))
  | NR_umount2 => Some (C_umount2 (arg0 a) (as_i32 (arg1 a)))
  | NR_pipe2 => Some (C_pipe2 (arg0 a) (as_i32 (arg1 a)))
  | NR_pipe => on_arch (is_x86 arch) (C_pipe2 (arg0 a) 0)
  | NR_stat => on_arch (is_x86 arch) (C_stat (arg0 a) (arg1 a))
  | NR_fstat => Some (C_fstat (as_i32 (arg0 a)) (arg1 a))
  | NR_lstat => on_arch (is_x86 arch) (C_lstat (arg0 a) (arg1 a))
  | NR_newfstatat => on_arch (is_x86 arch) (C_fstatat (as_i32 (arg0 a)) (arg1 a) (arg2 a) (as_u32 (arg3 a)))
  | NR_fstatat =>
      on_arch (negb (is_x86 arch)) (C_fstatat (as_i32 (arg0 a)) (arg1 a) (arg2 a) (as_u32 (arg3 a)))
  | NR_statx => Some (C_statx (as_i32 (arg0 a)) (arg1 a) (as_u32 (arg2 a)) (as_u32 (arg3 a)) (arg4 a))
  | _ => decode_task arch no a
  end.

(** ** What user code passes *)

(** The types of the arguments. *)
Inductive Width : Type := I32 | U32 | I64 | USZ.
Definition fits (k : Width) (z : Z) : Prop :=
  match k with I32 => in_s 32 z | U32 => in_u 32 z | I64 => in_s 64 z | USZ => in_u 64 z end.

Definition call_args (c : Call) : list (Width * Z) :=
  match c with
  | C_ioctl fd op argp => [(I32, fd); (USZ, op); (USZ, argp)]
  | C_chdir path => [(USZ, path)]
  | C_mkdirat dirfd path mode => [(I32, dirfd); (USZ, path); (U32, mode)]
  | C_getdents64 fd buf len => [(I32, fd); (USZ, buf); (USZ, len)]
  | C_linkat old_dirfd old_path new_dirfd new_path flags =>
      [(I32, old_dirfd); (USZ, old_path); (I32, new_dirfd); (USZ, new_path); (I32, flags)]
  | C_link old_path new_path => [(USZ, old_path); (USZ, new_path)]
  | C_unlinkat dirfd path flags => [(I32, dirfd); (USZ, path); (U32, flags)]
  | C_unlink path => [(USZ, path)]
  | C_getcwd buf size => [(USZ, buf); (USZ, size)]
  | C_openat dirfd path flags mode => [(I32, dirfd); (USZ, path); (I32, flags); (U32, mode)]
  | C_open path flags mode => [(USZ, path); (I32, flags); (U32, mode)]
  | C_close fd => [(I32, fd)]
  | C_dup old_fd => [(I32, old_fd)]
  | C_dup2 old_fd new_fd => [(I32, old_fd); (I32, new_fd)]
  | C_fcntl fd cmd arg => [(I32, fd); (I32, cmd); (USZ, arg)]
  | C_read fd buf len => [(I32, fd); (USZ, buf); (USZ, len)]
  | C_readv fd iov iocnt => [(I32, fd); (USZ, iov); (USZ, iocnt)]
  | C_write fd buf len => [(I32, fd); (USZ, buf); (USZ, len)]
  | C_writev fd iov iocnt => [(I32, fd); (USZ, iov); (USZ, iocnt)]
  | C_lseek fd offset whence => [(I32, fd); (I64, offset); (I32, whence)]
  | C_sendfile out_fd in_fd offset len => [(I32, out_fd); (I32, in_fd); (USZ, offset); (USZ, len)]
  | C_poll fds nfds timeout => [(USZ, fds); (U32, nfds); (I32, timeout)]
  | C_mount source target fs_type flags data =>
      [(USZ, source); (USZ, target); (USZ, fs_type); (I32, flags); (USZ, data)]
  | C_umount2 target flags => [(USZ, target); (I32, flags)]
  | C_pipe2 fds flags => [(USZ, fds); (I32, flags)]
  | C_stat path statbuf => [(USZ, path); (USZ, statbuf)]
  | C_fstat fd statbuf => [(I32, fd); (USZ, statbuf)]
  | C_lstat path statbuf => [(USZ, path); (USZ, statbuf)]
  | C_fstatat dirfd path statbuf flags => [(I32, dirfd); (USZ, path); (USZ, statbuf); (U32, flags)]
  | C_statx dirfd path flags mask statxbuf =>
      [(I32, dirfd); (USZ, path); (U32, flags); (U32, mask); (USZ, statxbuf)]
  | C_brk addr => [(USZ, addr)]
  | C_mmap addr length prot flags fd offset =>
      [(USZ, addr); (USZ, length); (U32, prot); (U32, flags); (I32, fd); (I64, offset)]
  | C_munmap addr length => [(USZ, addr); (USZ, length)]
  | C_mprotect addr length prot => [(USZ, addr); (USZ, length); (U32, prot)]
  | C_getpid => []
  | C_getppid => []
  | C_gettid => []
  | C_sched_yield => []
  | C_nanosleep req rem => [(USZ, req); (USZ, rem)]
  | C_execve path argv envp => [(USZ, path); (USZ, argv); (USZ, envp)]
  | C_set_tid_address clear_child_tid => [(USZ, clear_child_tid)]
  | C_arch_prctl code addr => [(I32, code); (USZ, addr)]
  | C_clone flags stack parent_tid child_tid tls =>
      [(U32, flags); (USZ, stack); (USZ, parent_tid); (USZ, child_tid); (USZ, tls)]
  | C_fork => []
  | C_exit exit_code => [(I32, exit_code)]
  | C_exit_group exit_code => [(I32, exit_code)]
  | C_waitpid pid exit_code_ptr options => [(I32, pid); (USZ, exit_code_ptr); (U32, options)]
  | C_rt_sigprocmask how set oldset sigsetsize => [(I32, how); (USZ, set); (USZ, oldset); (USZ, sigsetsize)]
  | C_rt_sigaction signo act oldact sigsetsize =>
      [(U32, signo); (USZ, act); (USZ, oldact); (USZ, sigsetsize)]
  | C_rt_sigpending set sigsetsize => [(USZ, set); (USZ, sigsetsize)]
  | C_rt_sigreturn => []
  | C_rt_sigtimedwait set info timeout sigsetsize =>
      [(USZ, set); (USZ, info); (USZ, timeout); (USZ, sigsetsize)]
  | C_rt_sigsuspend set sigsetsize => [(USZ, set); (USZ, sigsetsize)]
  | C_kill pid signo => [(I32, pid); (U32, signo)]
  | C_tkill tid signo => [(U32, tid); (U32, signo)]
  | C_tgkill tgid tid signo => [(U32, tgid); (U32, tid); (U32, signo)]
  | C_rt_sigqueueinfo tgid signo sig sigsetsize =>
      [(U32, tgid); (U32, signo); (USZ, sig); (USZ, sigsetsize)]
  | C_rt_tgsigqueueinfo tgid tid signo sig sigsetsize =>
      [(U32, tgid); (U32, tid); (U32, signo); (USZ, sig); (USZ, sigsetsize)]
  | C_sigaltstack ss old_ss => [(USZ, ss); (USZ, old_ss)]
  | C_futex uaddr futex_op value timeout uaddr2 value3 =>
      [(USZ, uaddr); (U32, futex_op); (U32, value); (USZ, timeout); (USZ, uaddr2); (U32, value3)]
  | C_getuid => []
  | C_geteuid => []
  | C_getgid => []
  | C_getegid => []
  | C_uname name => [(USZ, name)]
  | C_gettimeofday ts => [(USZ, ts)]
  | C_times tms => [(USZ, tms)]
  | C_clock_gettime clock_id ts => [(I32, clock_id); (USZ, ts)]
  | C_syslog => []
  end.

Definition call_ok (c : Call) : Prop := Forall (λ x, fits x.1 x.2) (call_args c).

(** The number and the registers with which user code makes a call: values
    are extended to a register as the C library does. *)
Definition number (arch : Arch) (c : Call) : Sysno :=
  match c with
  | C_ioctl _ _ _ => NR_ioctl | C_chdir _ => NR_chdir | C_mkdirat _ _ _ => NR_mkdirat
  | C_getdents64 _ _ _ => NR_getdents64 | C_linkat _ _ _ _ _ => NR_linkat | C_link _ _ => NR_link
  | C_unlinkat _ _ _ => NR_unlinkat | C_unlink _ => NR_unlink | C_getcwd _ _ => NR_getcwd
  | C_openat _ _ _ _ => NR_openat | C_open _ _ _ => NR_open | C_close _ => NR_close
  | C_dup _ => NR_dup | C_dup2 _ _ => NR_dup3 | C_fcntl _ _ _ => NR_fcntl
  | C_read _ _ _ => NR_read | C_readv _ _ _ => NR_readv | C_write _ _ _ => NR_write
  | C_writev _ _ _ => NR_writev | C_lseek _ _ _ => NR_lseek | C_sendfile _ _ _ _ => NR_sendfile
  | C_poll _ _ _ => NR_poll | C_mount _ _ _ _ _ => NR_mount | C_umount2 _ _ => NR_umount2
  | C_pipe2 _ _ => NR_pipe2 | C_stat _ _ => NR_stat | C_fstat _ _ => NR_fstat
  | C_lstat _ _ => NR_lstat
  | C_fstatat _ _ _ _ => if is_x86 arch then NR_newfstatat else NR_fstatat
  | C_statx _ _ _ _ _ => NR_statx | C_brk _ => NR_brk | C_mmap _ _ _ _ _ _ => NR_mmap
  | C_munmap _ _ => NR_munmap | C_mprotect _ _ _ => NR_mprotect | C_getpid => NR_getpid
  | C_getppid => NR_getppid | C_gettid => NR_gettid | C_sched_yield => NR_sched_yield
  | C_nanosleep _ _ => NR_nanosleep | C_execve _ _ _ => NR_execve
  | C_set_tid_address _ => NR_set_tid_address | C_arch_prctl _ _ => NR_arch_prctl
  | C_clone _ _ _ _ _ => NR_clone | C_fork => NR_fork | C_exit _ => NR_exit
  | C_exit_group _ => NR_exit_group | C_waitpid _ _ _ => NR_wait4
  | C_rt_sigprocmask _ _ _ _ => NR_rt_sigprocmask | C_rt_sigaction _ _ _ _ => NR_rt_sigaction
  | C_rt_sigpending _ _ => NR_rt_sigpending | C_rt_sigreturn => NR_rt_sigreturn
  | C_rt_sigtimedwait _ _ _ _ => NR_rt_sigtimedwait | C_rt_sigsuspend _ _ => NR_rt_sigsuspend
  | C_kill _ _ => NR_kill | C_tkill _ _ => NR_tkill | C_tgkill _ _ _ => NR_tgkill
  | C_rt_sigqueueinfo _ _ _ _ => NR_rt_sigqueueinfo
  | C_rt_tgsigqueueinfo _ _ _ _ _ => NR_rt_tgsigqueueinfo | C_sigaltstack _ _ => NR_sigaltstack
  | C_futex _ _ _ _ _ _ => NR_futex | C_getuid => NR_getuid | C_geteuid => NR_geteuid
  | C_getgid => NR_getgid | C_getegid => NR_getegid | C_uname _ => NR_uname
  | C_gettimeofday _ => NR_gettimeofday | C_times _ => NR_times
  | C_clock_gettime _ _ => NR_clock_gettime | C_syslog => NR_syslog
  end.

Definition supported (arch : Arch) (c : Call) : bool :=
  match c with
  | C_link _ _ | C_unlink _ | C_open _ _ _ | C_poll _ _ _ | C_stat _ _ | C_lstat _ _
  | C_arch_prctl _ _ | C_fork => is_x86 arch
  | _ => true
  end.

Definition registers (arch : Arch) (c : Call) : TrapArgs :=
  let l := (λ x, as_usize x.2) <$> call_args c in
  let r k := default 0 (l !! k) in
  match c with
  | C_clone _ _ _ _ _ =>
      if is_x86 arch || is_loongarch arch then mkTrapArgs (r 0%nat) (r 1%nat) (r 2%nat) (r 3%nat) (r 4%nat) 0
      else mkTrapArgs (r 0%nat) (r 1%nat) (r 2%nat) (r 4%nat) (r 3%nat) 0
  | _ => mkTrapArgs (r 0%nat) (r 1%nat) (r 2%nat) (r 3%nat) (r 4%nat) (r 5%nat)
  end.

Definition regs_ok (a : TrapArgs) : Prop :=
  in_u 64 (arg0 a) ∧ in_u 64 (arg1 a) ∧ in_u 64 (arg2 a) ∧ in_u 64 (arg3 a) ∧
  in_u 64 (arg4 a) ∧ in_u 64 (arg5 a).

(** ** The table is right *)

Lemma cast_u32 z : in_u 32 z → as_u32 (as_usize z) = z.
Proof. intros Hz. unfold in_u in Hz. ints. done. Qed.
Lemma cast_usize z : in_u 64 z → as_usize z = z.
Proof. apply wrapu_id. Qed.
Lemma cast_isize z : in_s 64 z → as_isize (as_usize z) = z.
Proof. apply (wraps_wrapu 64); lia. Qed.
Lemma cast_i32 z : in_s 32 z → as_i32 (as_usize z) = z.
Proof.
  intros Hz. rewrite <-(wraps_id 32 z) at 2 by (done || lia). unfold wraps. f_equal.
  rewrite <-Zplus_mod_idemp_l, <-(Zplus_mod_idemp_l z). do 2 f_equal. unfold wrapu.
  symmetry. apply Znumtheory.Zmod_div_mod; [lia|lia|]. by exists (2 ^ 32).
Qed.

(** No register is mixed up, cut too short or extended wrongly. *)
Lemma decode_registers (arch : Arch) (c : Call) :
  call_ok c → supported arch c = true → decode arch (number arch c) (registers arch c) = Some c.
Proof.
  intros Hc Hs. unfold call_ok in Hc.
  destruct c, arch; cbn in Hs; try done; clear Hs; cbn [call_args] in Hc; decompose_Forall_hyps;
    cbn [fits fst snd] in *; cbn;
    rewrite ?cast_i32, ?cast_u32, ?cast_isize, ?cast_usize by done; done.
Qed.

(** Only calls of the architecture come out, by their number or, for two of
    them on x86, by an older one. *)
Lemma decode_supported arch no a c :
  decode arch no a = Some c →
  supported arch c = true ∧ (no = number arch c ∨ ∃ b : bool, no = if b then NR_dup2 else NR_pipe).
Proof.
  intros Hd. destruct no; cbn in Hd; destruct arch; cbn in Hd; try done; injection Hd as <-;
    (split; [done|]); first [by left | right; by exists true | right; by exists false].
Qed.

(** every argument a handler gets is a value of its type, whatever is in
    the registers. *)
Theorem decode_types (arch : Arch) (no : Sysno) (a : TrapArgs) (c : Call) :
  regs_ok a → decode arch no a = Some c → call_ok c.
Proof.
  intros (H0 & H1 & H2 & H3 & H4 & H5) Hd.
  assert (∀ z, in_s 32 (as_i32 z)) by (intros; apply wraps_range; lia).
  assert (∀ z, in_u 32 (as_u32 z)) by (intros; apply wrapu_range; lia).
  assert (∀ z, in_s 64 (as_isize z)) by (intros; apply wraps_range; lia).
  destruct no; cbn in Hd; destruct arch; cbn in Hd; try done; injection Hd as <-;
    unfold call_ok; cbn [call_args]; repeat first [apply Forall_nil_2 | apply Forall_cons_2; cbn [fits fst snd]]; auto.
  all: unfold in_s; lia.
Qed.

(** [dup3] is [dup2]: its flags are not looked at, and equal descriptors are
    accepted. *)
Lemma dup3_ignores_flags arch a f :
  decode arch NR_dup3 (mkTrapArgs (arg0 a) (arg1 a) f (arg3 a) (arg4 a) (arg5 a)) = decode arch NR_dup3 a.
Proof. done. Qed.

(** ** Examples *)

Lemma decode_types_witness : call_ok (C_dup2 3 (-1)).
Proof.
  apply (decode_types X86_64 NR_dup3 (mkTrapArgs (2 ^ 32 + 3) (2 ^ 64 - 1) 0 0 0 0)); [|by vm_compute].
  unfold regs_ok, in_u. cbn. lia.
Defined.
