(* ===== verification/Trap.v ===== *)
(** * Traps from user space

    The handler of page faults ([src/src/mm.rs]) with the mark that the kernel
    is accessing user memory ([src/core/src/mm.rs]), the handler of system
    calls ([src/src/syscall.rs]) around the table of Syscall, and the calls on
    identities and on the thread pointer ([src/api/src/imp/sys.rs],
    [imp/task/thread.rs]). *)

From S2P Require Import Prelude Abi Str FdTable MemBase AddrSpace UserPtr Mmap Tasks Futex Process Clone Time Signal Syscall.

#[local] Open Scope Z_scope.

Definition SIGSEGV : Z := 11.

(** ** The mark for accesses to user memory

    [ACCESSING_USER_MEM], before a state of any kind. *)
Definition access_user_memory {W E A} (f : st (bool * W) E A) : st (bool * W) E A := λ s,
  match f (true, s.2) with
  | (Panic, s') => (Panic, s')
  | (r, s') => (r, (false, s'.2))
  end.
Definition is_accessing_user_memory {W} (s : bool * W) : bool := s.1.

(** ** Constants of the system ([imp/sys.rs]) *)

Definition bytes_of (s : string) : list Z := (λ c, Z.of_N (Ascii.N_of_ascii c)) <$> String.list_ascii_of_string s.
Definition pad_str (info : string) : list Z :=
  bytes_of info ++ replicate (65 - length (bytes_of info)) 0.
(** [new_utsname]: six fields of 65 bytes. *)
Definition UTSNAME : list Z :=
  pad_str "Starry" ++ pad_str "Starry - machine[0]" ++ pad_str "10.0.0" ++ pad_str "10.0.0" ++
  pad_str "10.0.0" ++ pad_str "https://github.com/oscomp/starry-next".
Definition NEW_UTSNAME : Layout := mkLayout 390 1.

(** How a page fault ends: the handler returns [false] or [true], or the
    thread exits, and [yielded] is as in [do_exit]. *)
Inductive FaultEnd : Type := Refused | Retry | Dies (yielded : bool).

Section trap.
Context {PT FA MS P S R L D A TF : Type} `{MA : !MemoryAddr} `{HPT : !PageTable PT}
  `{HFA : !FrameAlloc FA} `{HMS : !MemorySet MS} `{FO : !FlattenObjects FileLike AX_FILE_LIMIT}
  `{HP : !ProcTree P} `{HG : !ProcGroups P} `{HS : !AxSignal S} `{HM : !SignalManagers S A TF}
  `{HR : !Scheduler R} `{HL : !TimerList L} `{AxErrno}.
Abbreviation AddrSpace := (AddrSpace PT MS).
Abbreviation World :=
  (World (PT:=PT) (FA:=FA) (MS:=MS) (P:=P) (S:=S) (R:=R) (L:=L) (D:=D)).
Abbreviation Kst := (st World LinuxError).

(** ** Page faults *)

Definition user_fault (vaddr access_flags : Z) : Kst FaultEnd :=
  d ← process_data;
  ok ← on_space (pd_aspace d) (st_map_err ax_to_linux (AddrSpace_handle_page_fault vaddr access_flags));
  if ok : bool then mret Retry else y ← do_exit SIGSEGV true; mret (Dies y).
Definition handle_page_fault (vaddr access_flags : Z) (is_user : bool) : st (bool * World) LinuxError FaultEnd :=
  s ← st_get;
  if negb is_user && negb (is_accessing_user_memory s) then mret Refused
  else st_zoom snd (λ w s, (s.1, w)) (user_fault vaddr access_flags).

(** ** System calls *)

(** The platform: as in Clone, Signal and Mmap. *)
Variables (kernel : AddrSpace) (copies_kernel : bool) (USER_HEAP_BASE USER_HEAP_SIZE : Z)
  (SIGACTION : Layout) (MINSIGSTKSZ : Z).

Definition sys_getuid : Kst Z := mret 0.
Definition sys_geteuid : Kst Z := mret 1.
Definition sys_getgid : Kst Z := mret 0.
Definition sys_getegid : Kst Z := mret 1.
Definition sys_uname (name : Z) : Kst Z :=
  a ← on_user (get_as_mut NEW_UTSNAME name); store a UTSNAME;; mret 0.

(** The thread pointer of the trap frame, and the base of the segment that is
    kept in a register of the CPU. *)
Record Bases := mkBases { tf_tls : Z; kernel_gsbase : Z }.
Definition sys_arch_prctl (code addr : Z) : st (World * Bases) LinuxError Z :=
  let put v : st (World * Bases) LinuxError () :=
    st_zoom fst (λ w s, (w, s.2)) (a ← on_user (get_as_mut (mkLayout 8 8) addr); store a (le_bytes 8 v)) in
  s ← st_get;
  if code =? 0x1003 then put (tf_tls s.2);; mret 0
  else if code =? 0x1002 then st_mod (λ s, (s.1, mkBases addr (kernel_gsbase s.2)));; mret 0
  else if code =? 0x1004 then put (kernel_gsbase s.2);; mret 0
  else if code =? 0x1001 then st_mod (λ s, (s.1, mkBases (tf_tls s.2) addr));; mret 0
  else if code =? 0x1011 then mret 0
  else if code =? 0x1012 then st_err ENODEV
  else st_err EINVAL.

Definition on_fds {X} (m : st (table FileLike AX_FILE_LIMIT) LinuxError X) : Kst X :=
  d ← process_data;
  (λ w, match fd_tables w !! ns_fd_table d with
        | Some t => let '(r, t') := m t in (r, set_fd_table (ns_fd_table d) t' w)
        | None => (Panic, w)
        end) : Kst X.
Definition set_heap (h : Heap) (d : ProcessData) : ProcessData :=
  mkProcessData (exe_path d) (pd_aspace d) (ns_fd_table d) (ns_current_dir d) (ns_current_dir_path d) h
    (child_exit_wq d) (exit_signal d) (signal_actions d) (futex_table d).
Definition on_heap {X} (m : Heap → LinuxResult X * Heap) : Kst X :=
  p ← current_process;
  d ← process_data;
  let '(r, h) := m (pd_heap d) in
  st_mod (set_proc p (set_heap h d));; st_lift r.

(** A call that returns now; [None] is one that went to sleep or exited. *)
Definition returns (m : Kst Z) : Kst (option Z) := x ← m; mret (Some x).
Definition never {X} (m : Kst X) : Kst (option Z) := m;; mret None.

(** The calls whose state is the one of Process; [other] are those whose
    state is modelled in the other files. *)
Variable other : Call → Kst (option Z).
Definition call (c : Call) : Kst (option Z) :=
  match c with
  | C_close fd => returns (on_fds (sys_close fd))
  | C_dup old_fd => returns (on_fds (sys_dup old_fd))
  | C_dup2 old_fd new_fd => returns (on_fds (sys_dup2 old_fd new_fd))
  | C_brk addr => returns (on_heap (sys_brk USER_HEAP_SIZE addr))
  | C_munmap addr length => returns (on_user (sys_munmap addr length))
  | C_mprotect addr length prot => returns (on_user (sys_mprotect addr length prot))
  | C_getpid => returns sys_getpid
  | C_getppid => returns sys_getppid
  | C_gettid => returns sys_gettid
  | C_set_tid_address a => returns (sys_set_tid_address a)
  | C_clone flags stack parent_tid child_tid tls =>
      returns (sys_clone kernel copies_kernel USER_HEAP_BASE flags stack parent_tid child_tid tls)
  | C_fork => returns (sys_fork kernel copies_kernel USER_HEAP_BASE)
  | C_exit code => never (sys_exit code)
  | C_exit_group code => never (sys_exit_group code)
  | C_waitpid pid exit_code_ptr options => sys_waitpid pid exit_code_ptr options
  | C_rt_sigprocmask how set oldset size => returns (sys_rt_sigprocmask how set oldset size)
  | C_rt_sigaction signo act oldact size => returns (sys_rt_sigaction SIGACTION signo act oldact size)
  | C_rt_sigpending set size => returns (sys_rt_sigpending set size)
  | C_kill pid signo => returns (sys_kill pid signo)
  | C_tkill tid signo => returns (sys_tkill tid signo)
  | C_tgkill tgid tid signo => returns (sys_tgkill tgid tid signo)
  | C_rt_sigqueueinfo tgid signo sig size => returns (sys_rt_sigqueueinfo tgid signo sig size)
  | C_rt_tgsigqueueinfo tgid tid signo sig size => returns (sys_rt_tgsigqueueinfo tgid tid signo sig size)
  | C_sigaltstack ss old_ss => returns (sys_sigaltstack MINSIGSTKSZ ss old_ss)
  | C_getuid => returns sys_getuid
  | C_geteuid => returns sys_geteuid
  | C_getgid => returns sys_getgid
  | C_getegid => returns sys_getegid
  | C_uname name => returns (sys_uname name)
  | C_syslog => returns (mret 0)
  | _ => other c
  end.

(** The times of the tasks, in [task_ext]; [enter] and [leave] are what the
    clock shows at the two switches. *)
Abbreviation Times := (gmap Z TimeStat).
Definition switch_time (f : TimeStat → TimeStat) (s : World * Times) : World * Times :=
  (s.1, alter f (current (cpu s.1)) s.2).
(** [Sysno::from] may panic for a number the architecture does not have. *)
Definition handle_syscall (arch : Arch) (sysno_from : Z → res LinuxError Sysno) (enter leave : Z)
    (a : TrapArgs) (num : Z) : st (World * Times) LinuxError (option Z) :=
  sysno ← st_lift (sysno_from (as_u32 num));
  st_mod (switch_time (switch_into_kernel_mode enter));;
  (λ s,
     let '(result, w) := match decode arch sysno a with
                         | Some c => call c s.1
                         | None => (Err ENOSYS, s.1)
                         end in
     match result with
     | Ok None => (Ok None, (w, s.2))
     | Ok (Some v) => (Ok (Some v), switch_time (switch_into_user_mode leave) (w, s.2))
     | Err e => (Ok (Some (- errno_code e)), switch_time (switch_into_user_mode leave) (w, s.2))
     | Panic => (Panic, (w, s.2))
     end) : st (World * Times) LinuxError (option Z).

(** ** Thread pointers

    What was set is what is read, as the eight bytes at the address. *)
Lemma arch_prctl_spec (w : World) (b : Bases) (addr a : Z) :
  sys_arch_prctl 0x1002 addr (w, b) = (Ok 0, (w, mkBases addr (kernel_gsbase b))) ∧
  sys_arch_prctl 0x1001 addr (w, b) = (Ok 0, (w, mkBases (tf_tls b) addr)) ∧
  let get v := (p ← on_user (get_as_mut (mkLayout 8 8) a); store p (le_bytes 8 v);; mret 0) w in
  sys_arch_prctl 0x1003 a (w, b) = ((get (tf_tls b)).1, ((get (tf_tls b)).2, b)) ∧
  sys_arch_prctl 0x1004 a (w, b) = ((get (kernel_gsbase b)).1, ((get (kernel_gsbase b)).2, b)).
Proof.
  split_and!; [done|done|]; cbv zeta; unfold sys_arch_prctl, st_zoom; unfold mbind, st_bind, st_get, mret, st_ret;
    cbn [fst snd Z.eqb Pos.eqb]; (destruct (on_user _ w) as [[p|e|] w1]; [|done..]);
    split; by destruct (store p _ w1) as [[[]|e|] w2].
Qed.

(** ** Page faults are served or kill *)

#[local] Arguments user_fault : simpl never.
#[local] Arguments do_exit : simpl never.

Lemma set_space_same (w : World) i s : spaces w !! i = Some s → set_space i s (machine w) w = w.
Proof. intros Hs. unfold set_space. rewrite insert_id by done. by destruct w. Qed.

Lemma user_fault_run (w : World) d s vaddr access :
  procs w !! process_of (tree w) (current (cpu w)) = Some d → spaces w !! pd_aspace d = Some s →
  0 ≤ vaddr →
  ∃ b s' m', AddrSpace_handle_page_fault vaddr access (s, machine w) = (Ok b, (s', m')) ∧
    (if b : bool then faulted_in s (machine w) vaddr access s' m' else True) ∧
    user_fault vaddr access w =
      (if b then mret Retry else y ← do_exit SIGSEGV true; mret (Dies y)) (set_space (pd_aspace d) s' m' w).
Proof.
  intros Hd Hs Hv. destruct (page_fault_cases s (machine w) vaddr access Hv) as (b & s' & m' & Hf & Hb).
  exists b, s', m'. split; [done|]. split; [by destruct b|].
  unfold user_fault, process_data, current_process, data_of. monad. rewrite Hd. simpl.
  unfold on_space, st_map_err. rewrite Hs, Hf. done.
Qed.


(** A thread that left no word to clear. *)
Lemma exit_clear_tid_none (w : World) :
  (exit_clear_tid w).1 = Ok false → ∃ sp mc, exit_clear_tid w = (Ok false, set_memory sp mc w).
Proof.
  unfold exit_clear_tid at 1 2. unfold mbind, st_bind, st_get, st_ok.
  destruct (on_user _ w) as [r w'] eqn:Hu. apply on_user_memory in Hu as (sp & mc & ->).
  destruct r as [a|e|]; [|by exists sp, mc|done].
  intros Hr. exfalso. revert Hr. cbn beta iota.
  destruct (store_u32 a 0 _) as [[[]|?|] w1]; [|done..]. cbv [mret st_ret st_mod].
  by repeat (case_match; simplify_eq/=).
Qed.

(** The exit of the last thread of a process, with the switch away from it. *)
Lemma do_exit_last (w : World) (status p par : Z) (group : bool) (d dp : ProcessData) :
  process_of (tree w) (current (cpu w)) = p →
  (∀ x, x ∈ threads (tree w) p → x = current (cpu w)) →
  parent (tree w) p = Some par → par ≠ p → p ∈ children (tree w) par →
  is_group_exited (tree w) p = false → procs w !! p = Some d → procs w !! par = Some dp →
  on_cpu (cpu w) → current (cpu w) ≠ idle → 0 < p < 2 ^ 31 → (exit_clear_tid w).1 = Ok false →
  ∃ w1, do_exit status group w = (Ok false, w1) ∧ on_cpu (cpu w1) ∧ procs w1 = procs w ∧
    p ∈ children (tree w1) par ∧ fd_tables w1 = alter clear (ns_fd_table d) (fd_tables w) ∧
    ∀ (w2 : World) sp cs options a, tree w2 = tree w1 → contains options WNOWAIT = false →
      p ∈ cs → (∀ c, c ∈ cs → c = p) →
      procs w2 !! process_of (tree w2) (current (cpu w2)) = Some dp → spaces w2 !! pd_aspace dp = Some sp →
      ∃ w3, waitpid_pass cs (Some a) options w2 = (Ok (Some p), w3) ∧ p ∉ children (tree w3) par ∧
        machine w3 = (AddrSpace_write sp a (le_bytes 4 (as_u32 status)) (machine w2)).2.
Proof.
  intros Hp Hlast Hpar Hne Hch Hg Hd Hdp Hon Hidle Hr Htid.
  destruct (exit_clear_tid_none w Htid) as (sp & mc & Hclear).
  destruct (exit_reaches_parent (set_memory sp mc w) status p par group d dp) as
    (w1 & Hex & Hcpu & Hpr & Hin & _ & Hfd & Hwait); [done..|apply Hon|done|].
  change (cpu (set_memory sp mc w)) with (cpu w) in Hcpu.
  destruct (notify_all_inv (child_exit_wq dp) false (cpu w) (proj1 Hon)) as (Hc1 & Hw1 & _).
  pose proof (on_cpu_woke _ _ Hon Hc1 Hw1) as Hon1. rewrite <-Hcpu in Hon1, Hw1.
  destruct (exit_current_spec status (cpu w1) Hon1) as (c' & Hc' & Honc').
  { replace (current (cpu w1)) with (current (cpu w)); [done|]. apply Hon1, (woke_running _ _ _ Hw1), Hon. done. }
  exists (set_cpu c' w1). split_and!; [|done..].
  unfold do_exit, do_exit_rest. unfold mbind, st_bind. rewrite Hclear.
  rewrite Hex. unfold on_cpu_task, st_zoom, st_map_err. by rewrite Hc'.
Qed.


(** ** System calls reach their functions *)

(** The times of a call that the clock saw from [enter] to [leave]. *)
Lemma call_times enter leave x :
  0 ≤ utime_ns x → 0 ≤ stime_ns x → 0 ≤ kernel_timestamp x → kernel_timestamp x ≤ enter → enter ≤ leave →
  leave < 2 ^ 64 → utime_ns x + enter < 2 ^ 64 → stime_ns x + leave < 2 ^ 64 →
  let x' := switch_into_user_mode leave (switch_into_kernel_mode enter x) in
  stime_ns x' = stime_ns x + (leave - enter) ∧ utime_ns x' = utime_ns x + (enter - kernel_timestamp x).
Proof.
  intros. subst x'. unfold switch_into_user_mode, switch_into_kernel_mode, update_timer.
  repeat (case_decide || case_match); simpl; ints; lia.
Qed.

Lemma handle_syscall_call arch sysno_from enter leave a num (w : World) ts no :
  sysno_from (as_u32 num) = Ok no →
  let '(r, w') := match decode arch no a with Some c => call c w | None => (Err ENOSYS, w) end in
  let ts1 := alter (switch_into_kernel_mode enter) (current (cpu w)) ts in
  let ts2 := alter (switch_into_user_mode leave) (current (cpu w')) ts1 in
  handle_syscall arch sysno_from enter leave a num (w, ts) =
    match r with
    | Ok None => (Ok None, (w', ts1))
    | Ok (Some v) => (Ok (Some v), (w', ts2))
    | Err e => (Ok (Some (- errno_code e)), (w', ts2))
    | Panic => (Panic, (w', ts1))
    end.
Proof.
  intros Hno. unfold handle_syscall, switch_time. unfold mbind, st_bind, st_lift, st_mod. rewrite Hno.
  cbn [fst snd]. destruct (match decode arch no a with Some c => _ | None => _ end) as [[[]|e|] w']; done.
Qed.

(** C13: a system call that user code makes with arguments of the declared
    types runs the function of its number with those arguments, whatever the
    architecture; what the function returns is what the call returns, and an
    error comes back as a number between -4095 and -1. The time between the two
    switches is added to the system time of the task, and no other task's times
    change. *)
Theorem syscall_spec (arch : Arch) (sysno_from : Z → res LinuxError Sysno) (enter leave num : Z) (c : Call)
    (w : World) (ts : Times) :
  call_ok c → supported arch c = true → sysno_from (as_u32 num) = Ok (number arch c) →
  let '(r, (w', ts')) := handle_syscall arch sysno_from enter leave (registers arch c) num (w, ts) in
  w' = (call c w).2 ∧
  match (call c w).1 with
  | Ok x => r = Ok x
  | Err e => r = Ok (Some (- errno_code e)) ∧ -4096 < - errno_code e < 0
  | Panic => r = Panic
  end ∧
  (∀ t, t ≠ current (cpu w) → t ≠ current (cpu w') → ts' !! t = ts !! t) ∧
  (∀ v x, r = Ok (Some v) → current (cpu w') = current (cpu w) → ts !! current (cpu w) = Some x →
    0 ≤ utime_ns x → 0 ≤ stime_ns x → 0 ≤ kernel_timestamp x → kernel_timestamp x ≤ enter → enter ≤ leave →
    leave < 2 ^ 64 → utime_ns x + enter < 2 ^ 64 → stime_ns x + leave < 2 ^ 64 →
    ∃ x', ts' !! current (cpu w) = Some x' ∧ stime_ns x' = stime_ns x + (leave - enter) ∧
      utime_ns x' = utime_ns x + (enter - kernel_timestamp x)).
Proof.
  intros Hc Hs Hno.
  pose proof (handle_syscall_call arch sysno_from enter leave (registers arch c) num w ts _ Hno) as Hh.
  rewrite decode_registers in Hh by done. destruct (call c w) as [r w']. cbn [fst snd].
  cbv zeta in Hh. set (ts2 := alter (switch_into_user_mode leave) (current (cpu w')) _ : Times) in Hh.
  assert (∀ x, current (cpu w') = current (cpu w) → ts !! current (cpu w) = Some x →
    ts2 !! current (cpu w) = Some (switch_into_user_mode leave (switch_into_kernel_mode enter x))) as H2.
  { intros x Hcur Hx. unfold ts2. by rewrite Hcur, !lookup_alter_eq, Hx. }
  assert (∀ t, t ≠ current (cpu w) → t ≠ current (cpu w') → ts2 !! t = ts !! t) as Hts2.
  { intros t Ht Ht'. unfold ts2. by rewrite !lookup_alter_ne. }
  destruct r as [[v|]|e|]; rewrite Hh; split_and!; try done.
  - intros v' x _ Hcur Hx ? ? ? ? ? ? ? ?. eexists. split; [by apply H2|]. by apply call_times.
  - intros t Ht _. by rewrite lookup_alter_ne.
  - pose proof (errno_code_range e). lia.
  - pose proof (errno_code_range e). lia.
  - intros v' x _ Hcur Hx ? ? ? ? ? ? ? ?. eexists. split; [by apply H2|]. by apply call_times.
  - intros t Ht _. by rewrite lookup_alter_ne.
Qed.

(** a number that the table of the architecture does not have fails with
    ENOSYS and changes nothing but the times of the task. *)
Theorem unknown_syscall_spec (arch : Arch) (sysno_from : Z → res LinuxError Sysno) (enter leave num : Z)
    (a : TrapArgs) (w : World) (ts : Times) (no : Sysno) :
  sysno_from (as_u32 num) = Ok no →
  (∀ c, supported arch c = true → no ≠ number arch c) → (∀ b, no ≠ if b : bool then NR_dup2 else NR_pipe) →
  ∃ ts', handle_syscall arch sysno_from enter leave a num (w, ts) =
    (Ok (Some (- errno_code ENOSYS)), (w, ts')) ∧ ∀ t, t ≠ current (cpu w) → ts' !! t = ts !! t.
Proof.
  intros Hno Hc Hb. pose proof (handle_syscall_call arch sysno_from enter leave a num w ts _ Hno) as Hh.
  destruct (decode arch no a) as [c|] eqn:Hd.
  - destruct (decode_supported arch no a c Hd) as [Hs [Hn|Hn]]; [by destruct (Hc c Hs)|].
    by destruct Hn as [b ->], (Hb b).
  - eexists. split; [done|]. intros t Ht. by rewrite !lookup_alter_ne.
Qed.

End trap.

(** ** Examples *)

#[local] Existing Instance SampleErrno.

(** The world of Process with a child, process 5, that runs. *)
Definition fault_world : SampleWorld := sample_world (sample_tree false 5).


Definition segfault_run : LinuxResult FaultEnd * (bool * SampleWorld) :=
  handle_page_fault 0 READ true (false, fault_world).

(** The numbers of three calls on x86. *)
Definition sample_sysno (num : Z) : res LinuxError Sysno :=
  if num =? 39 then Ok NR_getpid else if num =? 62 then Ok NR_kill else Ok (NR_other num).
Definition sample_trap (num : Z) (c : Call) : LinuxResult (option Z) * (SignalWorld * gmap Z TimeStat) :=
  handle_syscall (mem_aspace []) false 8192 4096 (mkLayout 32 8) 2048 (λ _, mret None) X86_64 sample_sysno 10 20
    (registers X86_64 c) num (signal_world, {[init := TimeStat_new]}).

Lemma syscall_spec_witness :
  (sample_trap 62 (C_kill 77 9)).1 = Ok (Some (-3)) ∧
  ∃ x, (sample_trap 62 (C_kill 77 9)).2.2 !! init = Some x ∧ stime_ns x = 10.
Proof.
  pose proof (syscall_spec (mem_aspace []) false 8192 4096 (mkLayout 32 8) 2048 (λ _, mret None) X86_64
    sample_sysno 10 20 62 (C_kill 77 9) signal_world {[init := TimeStat_new]}) as Hs.
  assert ((sample_trap 62 (C_kill 77 9)).1 = Ok (Some (-3))) as Hr by (vm_compute; reflexivity).
  split; [done|]. unfold sample_trap in *.
  destruct (handle_syscall _ _ _ _ _ _ _ _ _ _ _ _ _ _) as [r [w' ts']]. simpl in Hr. subst r.
  destruct Hs as (Hw & _ & _ & Ht); [|done..|].
  { repeat constructor; cbn; unfold in_u, in_s; lia. }
  destruct (Ht (-3) TimeStat_new) as (x & Hx & Hst & _); try done; [|by exists x].
  rewrite Hw. vm_compute. reflexivity.
Defined.

Lemma unknown_syscall_spec_witness : ∃ ts', sample_trap 450 C_getpid = (Ok (Some (-38)), (signal_world, ts')).
Proof.
  destruct (unknown_syscall_spec (mem_aspace []) false 8192 4096 (mkLayout 32 8) 2048 (λ _, mret None) X86_64
    sample_sysno 10 20 450 (registers X86_64 C_getpid) signal_world {[init := TimeStat_new]} (NR_other 450))
    as (ts' & Ht & _).
  - done.
  - intros [] _; done.
  - by intros [].
  - exists ts'. exact Ht.
Defined.
