(* ===== verification/Lifecycle.v ===== *)
(** * The life of a process, through system calls

    How the calls of different files work together: what a program sees that
    forks, whose child exits, and that waits for it. The states between the
    calls are arbitrary, as far as other tasks leave the tree and the data of
    the two processes alone. *)

From S2P Require Import Prelude Abi Str FdTable MemBase AddrSpace UserPtr Mmap Tasks Futex Process Clone Time Signal Syscall Trap.

#[local] Open Scope Z_scope.

Section lifecycle.
Context {PT FA MS P S R L D A TF : Type} `{MA : !MemoryAddr} `{HPT : !PageTable PT}
  `{HFA : !FrameAlloc FA} `{HMS : !MemorySet MS} `{FO : !FlattenObjects FileLike AX_FILE_LIMIT}
  `{HP : !ProcTree P} `{HG : !ProcGroups P} `{HS : !AxSignal S} `{HM : !SignalManagers S A TF}
  `{HR : !Scheduler R} `{HL : !TimerList L} `{AxErrno}.
Abbreviation AddrSpace := (AddrSpace PT MS).
Abbreviation World :=
  (World (PT:=PT) (FA:=FA) (MS:=MS) (P:=P) (S:=S) (R:=R) (L:=L) (D:=D)).
Abbreviation Times := (gmap Z TimeStat).
Variables (kernel : AddrSpace) (copies_kernel : bool) (USER_HEAP_BASE USER_HEAP_SIZE : Z)
  (SIGACTION : Layout) (MINSIGSTKSZ : Z) (other : Call → st World LinuxError (option Z)).
Variables (arch : Arch) (sysno_from : Z → res LinuxError Sysno).

Abbreviation call := (call kernel copies_kernel USER_HEAP_BASE USER_HEAP_SIZE SIGACTION MINSIGSTKSZ other).

(** User code makes the call [c]: the number is one of [c], and the clock
    shows some times at the switches. *)
Definition makes (c : Call) (w : World) (r : LinuxResult (option Z)) (w' : World) : Prop :=
  ∃ num enter leave ts ts', sysno_from (as_u32 num) = Ok (number arch c) ∧
    handle_syscall kernel copies_kernel USER_HEAP_BASE USER_HEAP_SIZE SIGACTION MINSIGSTKSZ other
      arch sysno_from enter leave (registers arch c) num (w, ts) = (r, (w', ts')).

Lemma makes_call c w r w' :
  call_ok c → supported arch c = true → makes c w r w' →
  w' = (call c w).2 ∧
  match (call c w).1 with Ok x => r = Ok x | Err e => r = Ok (Some (- errno_code e)) | Panic => r = Panic end.
Proof.
  intros Hc Hs (num & enter & leave & ts & ts' & Hno & Hh).
  pose proof (handle_syscall_call kernel copies_kernel USER_HEAP_BASE USER_HEAP_SIZE SIGACTION MINSIGSTKSZ other
    arch sysno_from enter leave (registers arch c) num w ts _ Hno) as Hr.
  rewrite decode_registers in Hr by done. destruct (call c w) as [[[v|]|e|] w1]; cbv zeta in Hr;
    rewrite Hh in Hr; by injection Hr as -> ->.
Qed.

(** A number that names the call can be used whatever the clock shows. *)
Lemma call_makes c w num :
  call_ok c → supported arch c = true → sysno_from (as_u32 num) = Ok (number arch c) →
  makes c w match (call c w).1 with
            | Ok x => Ok x
            | Err e => Ok (Some (- errno_code e))
            | Panic => Panic
            end (call c w).2.
Proof.
  intros Hc Hs Hno.
  pose proof (handle_syscall_call kernel copies_kernel USER_HEAP_BASE USER_HEAP_SIZE SIGACTION MINSIGSTKSZ other
    arch sysno_from 0 0 (registers arch c) num w ∅ _ Hno) as Hr.
  rewrite decode_registers in Hr by done.
  destruct (call c w) as [[[v|]|e|] w1]; cbv zeta in Hr; by eexists num, 0, 0, _, _.
Qed.

(** The result of a successful [fork]. *)
Lemma fork_call w d r w1 :
  procs w !! process_of (tree w) (current (cpu w)) = Some d → names_below (next_arc w) d →
  0 < next_id (cpu w) < 2 ^ 31 →
  makes (C_clone SIGCHLD 0 0 0 0) w (Ok (Some r)) w1 → 0 ≤ r →
  let cur := process_of (tree w) (current (cpu w)) in
  ∃ dc, r = next_id (cpu w) ∧ tree w1 = new_thread (fork (tree w) cur r) r r ∧
    procs w1 = <[r := dc]> (procs w) ∧ exit_signal dc = Some SIGCHLD.
Proof.
  intros Hd Hn Hid Hm Hr cur. unfold in_u in *. apply makes_call in Hm as [Hw1 Hres].
  2:{ repeat constructor; cbn; unfold in_u, SIGCHLD; lia. }
  2:{ by destruct arch. }
  cbn [Trap.call] in Hw1, Hres. unfold returns in Hw1, Hres. unfold mbind, st_bind in Hw1, Hres.
  destruct (sys_clone _ _ _ _ _ _ _ _ w) as [[v|e|] w2] eqn:Hcl; cbn in Hw1, Hres; simplify_eq.
  2:{ pose proof (errno_code_range e). lia. }
  eapply clone_makes_process in Hcl as (par & dc & sp & mc & -> & Hpar & Ht & _ & _ & Hp & Hsig & _);
    [|done|done|done|unfold in_u; lia].
  exists dc. injection Hpar as <-. split_and!; [done..|]. rewrite Hsig. by apply from_repr_signal.
Qed.

Lemma exit_makes w code num w' :
  in_s 32 code → sysno_from (as_u32 num) = Ok (number arch (C_exit code)) →
  do_exit (exit_status code) false w = (Ok false, w') → makes (C_exit code) w (Ok None) w'.
Proof.
  intros Hcode Hnum Hex. pose proof (call_makes (C_exit code) w num) as Hm.
  cbn [Trap.call] in Hm. unfold never, sys_exit, mbind, st_bind in Hm. rewrite Hex in Hm.
  apply Hm; [|by destruct arch|done]. by apply Forall_singleton.
Qed.

(** A wait for one child that is there, with a place for the status. *)
Lemma wait_makes w w1 r a num (Q : World → Prop) :
  0 < r < 2 ^ 31 → 0 < a < 2 ^ 64 → sysno_from (as_u32 num) = Ok (number arch (C_waitpid r a 0)) →
  (∃ dc, procs w !! r = Some dc ∧ exit_signal dc = Some SIGCHLD) →
  r ∈ children (tree w) (process_of (tree w) (current (cpu w))) →
  on_user (get_as_mut Process.U32 a) w = (Ok a, w1) →
  (∀ cs, r ∈ cs → (∀ c, c ∈ cs → c = r) → 
    ∃ w', waitpid_pass cs (Some a) 0 w1 = (Ok (Some r), w') ∧ Q w') →
  ∃ w', makes (C_waitpid r a 0) w (Ok (Some r)) w' ∧ Q w'.
Proof.
  intros Hr Ha Hnum (dc & Hdc & Hsig) Hch Hget Hpass.
  set (cur := process_of (tree w) (current (cpu w))) in *.
  destruct (select_children_spec (wait_target (tree w) cur r) 0 (children (tree w) cur) w) as (cs & Hcs & Hel).
  { intros c _ Hc. apply wait_target_selects in Hc; [|unfold in_s; lia].
    destruct Hc as [?|[[? _]|[[_ ->]|[? _]]]]; [lia..|by eexists|lia]. }
  assert (∀ c, c ∈ cs → c = r) as Hall.
  { intros c (_ & Hc & _)%Hel. apply wait_target_selects in Hc; [|unfold in_s; lia].
    destruct Hc as [?|[[? _]|[[_ ->]|[? _]]]]; [lia..|done|lia]. }
  assert (r ∈ cs) as Hin.
  { apply Hel. split; [done|]. split.
    - apply wait_target_selects; [unfold in_s; lia|]. right. right. left. split; [lia|done].
    - right. exists dc. split; [done|]. unfold is_clone_child. by rewrite Hsig. }
  destruct (Hpass cs Hin Hall) as (w' & Hrun & HQ). exists w'. split; [|done].
  pose proof (call_makes (C_waitpid r a 0) w num) as Hm. cbn [Trap.call] in Hm.
  assert (sys_waitpid r a 0 w = (Ok (Some r), w')) as Hw.
  { unfold sys_waitpid, waitpid_begin, current_process. unfold mbind, st_bind, st_gets, st_get.
    fold cur. change (from_bits_truncate WaitOptions_all 0) with 0. rewrite Hcs.
    destruct cs as [|c cs']; [set_solver|]. rewrite (proj2 (Z.eqb_neq a 0)) by lia. rewrite Hget.
    cbv [mret st_ret]. done. }
  rewrite Hw in Hm. apply Hm; [|by destruct arch|done].
  repeat first [apply Forall_nil_2 | apply Forall_cons_2]; cbn [fits fst snd]; unfold in_s, in_u; lia.
Qed.


End lifecycle.

(** ** Example: process 1 forks, and task 4 exits with 3 *)

#[local] Existing Instance SampleErrno.
Definition life_sysno (num : Z) : res LinuxError Sysno :=
  if num =? 56 then Ok NR_clone else if num =? 60 then Ok NR_exit
  else if num =? 61 then Ok NR_wait4 else Ok (NR_other num).
Abbreviation life_call :=
  (Trap.call (mem_aspace []) false 8192 4096 (mkLayout 32 8) 2048 (λ _, mret None)).
Abbreviation life_makes :=
  (makes (mem_aspace []) false 8192 4096 (mkLayout 32 8) 2048 (λ _, mret None) X86_64 life_sysno).

Definition forked : LinuxResult (option Z) * SignalWorld :=
  life_call (C_clone SIGCHLD 0 0 0 0) signal_world.
(** The child gets the CPU. *)
Definition child_cpu : Cpu (list Z) (list Timer) := run [OSpawn; OYield; OYield] init_scheduler.
Definition child_world : SignalWorld := set_cpu child_cpu forked.2.
(** The parent gets it back. *)
Definition parent_world : SignalWorld := set_cpu init_scheduler (life_call (C_exit 3) child_world).2.

Lemma forked_makes : life_makes (C_clone SIGCHLD 0 0 0 0) signal_world (Ok (Some 4)) forked.2.
Proof.
  pose proof (call_makes (mem_aspace []) false 8192 4096 (mkLayout 32 8) 2048 (λ _, mret None) X86_64 life_sysno
    (C_clone SIGCHLD 0 0 0 0) signal_world 56) as Hm. fold forked in Hm.
  assert (forked.1 = Ok (Some 4)) as Hr by (vm_compute; reflexivity). rewrite Hr in Hm.
  apply Hm; [|done..]. repeat first [apply Forall_nil_2 | apply Forall_cons_2]; cbn; unfold in_u, SIGCHLD; lia.
Qed.
Lemma set_cpu_tree c (w : SignalWorld) : tree (set_cpu c w) = tree w.
Proof. done. Qed.
Lemma set_cpu_procs c (w : SignalWorld) p : procs (set_cpu c w) !! p = procs w !! p.
Proof. done. Qed.
Lemma child_cpu_inv : on_cpu child_cpu.
Proof. apply reachable_inv, run_steps. by vm_compute. Qed.

