(* ===== verification/Asm.v ===== *)
(** * Straight-line assembly

    The trap entries and the context switches of axhal are written in
    assembly, as sequences of loads and stores around a few moves. This file
    has the machine they run on: registers, general and special ones, named by
    a type [R], and memory as 64-bit words by their addresses, which are
    multiples of 8 in all of it. The files on the four architectures give [R]
    and the sequences. *)

From S2P Require Import Prelude.

#[local] Open Scope Z_scope.

(** Registers are told apart by a number. *)
Class Regs (R : Type) := {
  code : R → N;
  code_inj : ∀ a b, code a = code b → a = b;
}.

Section asm.
Context {R : Type} `{HR : !Regs R}.

#[global] Instance reg_eq_dec : EqDecision R.
Proof.
  intros a b. destruct (N.eq_dec (code a) (code b)) as [H|H]; [left; by apply code_inj|right; by intros ->].
Defined.

Definition rupd (f : R → Z) (r : R) (v : Z) : R → Z := λ x, if (code x =? code r)%N then v else f x.
Definition mupd (f : Z → Z) (a v : Z) : Z → Z := λ x, if x =? a then v else f x.
Record Hart := mkHart { reg : R → Z; mem : Z → Z }.
Definition set_reg (r : R) (v : Z) (m : Hart) : Hart := mkHart (rupd (reg m) r v) (mem m).
Definition set_word (a v : Z) (m : Hart) : Hart := mkHart (reg m) (mupd (mem m) a v).

(** The address of the word [i] of an array at [base]. *)
Definition addr (base i : Z) : Z := as_usize (base + 8 * i).

(** ** Instructions *)

Inductive instr : Type :=
  | LD (rd rb : R) (off : Z)         (* load a word; the offset counts words *)
  | ST (rs rb : R) (off : Z)
  | MV (rd rs : R)
  | LI (rd : R) (v : Z)
  | ADDI (rd rs : R) (v : Z)
  | ANDI (rd rs : R) (v : Z)
  | ANDR (rd a b : R)
  | ORR (rd a b : R)
  | NOTR (rd a : R)
  | SWAP (a b : R)                   (* exchange a register with a special one *)
  | PUSH (sp rs : R)
  | POP (sp rd : R).

Definition step (m : Hart) (i : instr) : Hart :=
  match i with
  | LD rd rb off => set_reg rd (mem m (addr (reg m rb) off)) m
  | ST rs rb off => set_word (addr (reg m rb) off) (reg m rs) m
  | MV rd rs => set_reg rd (reg m rs) m
  | LI rd v => set_reg rd v m
  | ADDI rd rs v => set_reg rd (as_usize (reg m rs + v)) m
  | ANDI rd rs v => set_reg rd (Z.land (reg m rs) v) m
  | ANDR rd a b => set_reg rd (Z.land (reg m a) (reg m b)) m
  | ORR rd a b => set_reg rd (Z.lor (reg m a) (reg m b)) m
  | NOTR rd a => set_reg rd (as_usize (Z.lnot (reg m a))) m
  | SWAP a b => set_reg b (reg m a) (set_reg a (reg m b) m)
  | PUSH sp rs =>
      let p := addr (reg m sp) (-1) in set_reg sp p (set_word p (reg m rs) m)
  | POP sp rd =>
      let v := mem m (reg m sp) in let m' := set_reg sp (addr (reg m sp) 1) m in set_reg rd v m'
  end.
Definition run (l : list instr) (m : Hart) : Hart := fold_left step l m.

Lemma run_app l1 l2 m : run (l1 ++ l2) m = run l2 (run l1 m).
Proof. apply fold_left_app. Qed.
Lemma run_cons i l m : run (i :: l) m = run l (step m i).
Proof. done. Qed.
Lemma run_nil m : run [] m = m.
Proof. done. Qed.

Lemma rupd_eq f r v : rupd f r v r = v.
Proof. unfold rupd. by rewrite N.eqb_refl. Qed.
Lemma rupd_ne f r v x : x ≠ r → rupd f r v x = f x.
Proof. intros Hne. unfold rupd. destruct (N.eqb_spec (code x) (code r)) as [H|]; [by apply code_inj in H|done]. Qed.
Lemma mupd_eq f a v : mupd f a v a = v.
Proof. unfold mupd. by rewrite Z.eqb_refl. Qed.
Lemma mupd_ne f a v x : x ≠ a → mupd f a v x = f x.
Proof. unfold mupd. by destruct (Z.eqb_spec x a). Qed.

(** ** Addresses *)

Definition near (i : Z) : Prop := -1024 ≤ i < 1024.
Lemma addr_inj base i j : near i → near j → addr base i = addr base j → i = j.
Proof.
  unfold near, addr, wrapu. intros Hi Hj He.
  assert ((8 * (i - j)) mod 2 ^ 64 = 0) as Hm.
  { replace (8 * (i - j)) with ((base + 8 * i) - (base + 8 * j)) by lia.
    rewrite Zminus_mod, He, Z.sub_diag. done. }
  destruct (decide (i = j)) as [|Hne]; [done|exfalso].
  apply Z.mod_divide in Hm as [k Hk]; [|lia]. assert (k = 0) by nia. lia.
Qed.
Lemma addr_ne base i j : near i → near j → i ≠ j → addr base i ≠ addr base j.
Proof. intros Hi Hj Hne He. by apply addr_inj in He. Qed.
Lemma addr_eqb base i j : near i → near j → (addr base i =? addr base j) = (i =? j).
Proof.
  intros Hi Hj. destruct (Z.eqb_spec i j) as [->|Hne]; [apply Z.eqb_refl|]. by apply Z.eqb_neq, addr_ne.
Qed.
Lemma addr_addr base i j : addr (addr base i) j = addr base (i + j).
Proof. unfold addr, wrapu. rewrite Zplus_mod_idemp_l. f_equal. lia. Qed.
Lemma addr_0 base : in_u 64 base → addr base 0 = base.
Proof. intros Hb. unfold addr. rewrite Z.mul_0_r, Z.add_0_r. by apply wrapu_id. Qed.
Lemma addr_range base i : in_u 64 (addr base i).
Proof. by apply wrapu_range. Qed.
Lemma addr_wrap base i : addr (as_usize base) i = addr base i.
Proof. unfold addr, wrapu. by rewrite Zplus_mod_idemp_l. Qed.

(** ** Blocks: the same access for a list of registers and words *)

Abbreviation Block := (list (R * Z)).
Definition save_block (rb : R) (l : Block) : list instr := (λ p, ST p.1 rb p.2) <$> l.
Definition load_block (rb : R) (l : Block) : list instr := (λ p, LD p.1 rb p.2) <$> l.

End asm.

(** Run a concrete sequence: registers and offsets are known, values are not. *)
Ltac asm_run := cbv -[addr wrapu Z.land Z.lor Z.lnot Z.add Z.eqb].
Ltac asm_words := rewrite ?addr_eqb by (unfold near; lia); cbn [Z.eqb Pos.eqb].
