(* ===== verification/TrapPath.v ===== *)
(** * Traps from user mode, on any architecture

    What the entry and the exit of a trap, written in assembly, promise to the
    Rust code between them; the accessors of a trap frame; and the handlers
    that are registered for traps ([src/.arceos/modules/axhal/src/trap.rs]).
    The files on the architectures are instances of the classes of this one. *)

From S2P Require Import Prelude Abi Asm.

#[local] Open Scope Z_scope.

(** ** What a trap from user mode promises

    A structure in memory whose fields are registers, each in its word. *)
Class TrapPath (R : Type) := {
  (** The registers of user code, and the words of the frame they are in. *)
  visible : R → bool;
  slot : R → Z;
  frame_words : Z;
  (** The stack pointer of the kernel, and the registers it gets back. *)
  ksp : R;
  kregs : list R;
  stack_ok : Z → Prop;
  (** The CPU is set up for the next trap to use the stack. *)
  kernel_ready : Z → @Hart R → Prop;
  (** A frame that returns to user mode. *)
  user_frame : (R → Z) → Prop;
  (** The CPU runs user code; the kernel stack ends at [K], and the registers
      of the kernel are [k]. *)
  user_mode : Z → (R → Z) → @Hart R → Prop;
  enter : @Hart R → @Hart R;
  leave : @Hart R → @Hart R;
  frame_base (K : Z) : Z := addr K (- frame_words);
  outside (K a : Z) : Prop := ∀ i, 0 ≤ i < frame_words → a ≠ addr (frame_base K) i;
  frame_in (K : Z) (m : @Hart R) : R → Z := λ r, mem m (addr (frame_base K) (slot r));
  user_stack K k m : user_mode K k m → stack_ok K;
  enter_ok K k m : user_mode K k m →
    reg (enter m) ksp = frame_base K ∧ kernel_ready K (enter m) ∧
    (∀ r, visible r = true → frame_in K (enter m) r = reg m r) ∧
    user_frame (frame_in K (enter m)) ∧
    (∀ r, r ∈ kregs → reg (enter m) r = k r) ∧
    (∀ a, outside K a → mem (enter m) a = mem m a);
  leave_ok K m : stack_ok K → reg m ksp = frame_base K → kernel_ready K m → user_frame (frame_in K m) →
    (∀ r, visible r = true → reg (leave m) r = frame_in K m r) ∧
    user_mode K (reg m) (leave m) ∧
    (∀ a, outside K a → mem (leave m) a = mem m a);
}.

Section traps.
Context {R : Type} `{TP : !TrapPath R}.

(** What code of the kernel between the entry and the exit has to keep. *)
Definition kernel_keeps (m m' : @Hart R) : Prop :=
  reg m' ksp = reg m ksp ∧ ∀ r, r ∈ kregs → reg m' r = reg m r.

(** Whatever the kernel does to the frame is what user code sees, and nothing
    else. *)
Lemma user_trap K k m m2 :
  user_mode K k m → kernel_keeps (enter m) m2 → kernel_ready K m2 → user_frame (frame_in K m2) →
  (∀ r, visible r = true → frame_in K (enter m) r = reg m r) ∧ user_frame (frame_in K (enter m)) ∧
  (∀ r, visible r = true → reg (leave m2) r = frame_in K m2 r) ∧
  ∃ k', user_mode K k' (leave m2) ∧ ∀ r, r ∈ kregs → k' r = k r.
Proof.
  intros Hu [Hsp Hk] Hr2 Hf2. pose proof (user_stack _ _ _ Hu) as Hs.
  destruct (enter_ok K k m Hu) as (He & _ & Hf & Huf & Hr & _). rewrite He in Hsp.
  destruct (leave_ok K m2 Hs Hsp Hr2 Hf2) as (Hl & Hm & _). split_and!; [done..|].
  exists (reg m2). split; [done|]. intros r Hin. by rewrite Hk, Hr.
Qed.

End traps.

(** ** Accessors of a trap frame

    [TrapFrame] has a getter and a setter for each; both are for the same
    field. *)
Inductive Acc : Type := Arg0 | Arg1 | Arg2 | Arg3 | Arg4 | Arg5 | Ip | Sp | Retval | Tls.
Class Accessors (R : Type) := {
  acc : Acc → R;
  acc_inj a b : acc a = acc b → a = b ∨ (a = Arg0 ∧ b = Retval) ∨ (a = Retval ∧ b = Arg0);
}.

(** ** Handlers *)

(** The functions registered for system calls, page faults, interrupts and
    after traps, over the state of the kernel [W] and a frame [F]. [None] is a
    call or a fault from which the thread does not return. *)
Class TrapHandlers (W F : Type) := {
  on_syscall : Z → F → st W LinuxError (option (Z * F));
  on_page_fault : Z → Z → bool → st W LinuxError (option bool);
  on_irq : Z → st W LinuxError bool;
  post_trap_callback : F → bool → st W LinuxError F;
}.

(** A page fault that no handler takes panics. *)
Definition deliver_fault {W F} `{HH : !TrapHandlers W F} (vaddr flags : Z) (is_user : bool) (f : F) :
    st W LinuxError (option F) :=
  o ← on_page_fault vaddr flags is_user;
  match o with
  | Some true => mret (Some f)
  | Some false => st_panic
  | None => mret None
  end.
(** The end of every trap handler. *)
Definition after_trap {W F} `{HH : !TrapHandlers W F} (from_user : bool) (o : option F) :
    st W LinuxError (option F) :=
  match o with
  | Some f => f' ← post_trap_callback f from_user; mret (Some f')
  | None => mret None
  end.

Section accessors.
Context {R : Type} `{HR : !Regs R} `{HA : !Accessors R}.
Definition tf_get (a : Acc) (f : R → Z) : Z := f (acc a).
Definition tf_set (a : Acc) (v : Z) (f : R → Z) : R → Z := rupd f (acc a) v.

(** A setter changes what its getter returns and nothing else, but for the
    argument that shares its register with the result. *)
Lemma tf_get_set a b v (f : R → Z) :
  tf_get a (tf_set b v f) = if decide (acc a = acc b) then v else tf_get a f.
Proof.
  unfold tf_get, tf_set. case_decide as He; [rewrite He; apply rupd_eq|by apply rupd_ne].
Qed.
End accessors.

(** ** System calls

    How the trap handler of an architecture calls the handler of system
    calls: what it does to the frame before, and where the number is. *)
Class SyscallPath (R : Type) `{HR : !Regs R} `{HA : !Accessors R} := {
  sc_num : R;
  sc_step : Z;
  sc_pre : (R → Z) → R → Z;
  sc_handler W (HH : TrapHandlers W (R → Z)) : (R → Z) → st W LinuxError (option (R → Z));
  sc_num_ip : sc_num ≠ acc Ip;
  sc_pre_is f r : in_u 64 (f (acc Ip)) →
    sc_pre f r = if decide (r = acc Ip) then as_usize (f r + sc_step) else f r;
  sc_handler_is W HH f w :
    sc_handler W HH f w =
      (o ← on_syscall (sc_pre f sc_num) (sc_pre f);
       after_trap true match o with Some (v, g) => Some (tf_set Retval (as_usize v) g) | None => None end) w;
}.
