(* ===== verification/TaskSwitch.v ===== *)
(** * Switches between tasks, on any architecture

    What [context_switch], written in assembly, promises to [switch_to], and
    that tasks keep their registers over any sequence of switches. The files
    on the architectures are instances of the class. *)

From S2P Require Import Prelude Asm.

#[local] Open Scope Z_scope.

Class ContextSwitch (R : Type) := {
  (** The registers a call keeps, with the place it returns to, and the
      arguments of the call: where the context of the task that stops and the
      one of the next task are. *)
  callee : list R;
  prev_arg : R;
  next_arg : R;
  (** What a register will be after the call returns. *)
  live : @Hart R → R → Z;
  (** The value of a register in the context at an address, and the addresses
      that hold it. *)
  stored : Z → @Hart R → R → Z;
  foot : Z → @Hart R → Z → Prop;
  (** The addresses a switch writes to. *)
  switch_writes : @Hart R → Z → Prop;
  context_switch : @Hart R → @Hart R;
  stored_frame C m m' : (∀ a, foot C m a → mem m' a = mem m a) →
    (∀ r, stored C m' r = stored C m r) ∧ ∀ a, foot C m' a → foot C m a;
  switch_frame m a : ¬ switch_writes m a → mem (context_switch m) a = mem m a;
  switch_saves m r : r ∈ callee → stored (reg m prev_arg) (context_switch m) r = live m r;
  switch_loads m r : (∀ a, foot (reg m next_arg) m a → ¬ switch_writes m a) →
    r ∈ callee → reg (context_switch m) r = stored (reg m next_arg) m r;
}.

Section switching.
Context {R : Type} `{CS : !ContextSwitch R}.

(** A CPU with the contexts of the tasks that do not run, and what their
    registers were when they stopped. *)
Record Cores := mkCores { hart : @Hart R; asleep : list (Z * (R → Z)) }.
Definition apart (m : @Hart R) (l : list (Z * (R → Z))) (writes : Z → Prop) : Prop :=
  ∀ C f a, (C, f) ∈ l → foot C m a → ¬ writes a.

(** The task that runs computes, without touching the contexts of the others,
    or switches to another one. *)
Inductive tstep : Cores → Cores → Prop :=
  | t_run m m' l :
      (∀ C f a, (C, f) ∈ l → foot C m a → mem m' a = mem m a) →
      tstep (mkCores m l) (mkCores m' l)
  | t_switch m l1 f l2 :
      apart m (l1 ++ (reg m next_arg, f) :: l2) (switch_writes m) →
      tstep (mkCores m (l1 ++ (reg m next_arg, f) :: l2))
        (mkCores (context_switch m) ((reg m prev_arg, live m) :: l1 ++ l2)).

(** The contexts hold what the tasks had. *)
Definition contexts_ok (c : Cores) : Prop :=
  ∀ C f r, (C, f) ∈ asleep c → r ∈ callee → stored C (hart c) r = f r.

Lemma contexts_ok_frame m m' l :
  (∀ C f a, (C, f) ∈ l → foot C m a → mem m' a = mem m a) →
  contexts_ok (mkCores m l) → contexts_ok (mkCores m' l).
Proof.
  intros Hm Hok C f r Hin Hr. simpl in *. destruct (stored_frame C m m') as [-> _]; [intros a; by eapply Hm|].
  by eapply Hok.
Qed.

Lemma tstep_ok c c' : tstep c c' → contexts_ok c → contexts_ok c'.
Proof.
  intros [m m' l Hm|m l1 f l2 Ha] Hok; [by eapply contexts_ok_frame|].
  assert (contexts_ok (mkCores (context_switch m) (l1 ++ (reg m next_arg, f) :: l2))) as Hc.
  { eapply contexts_ok_frame; [|done]. intros C g a Hin Hf. apply switch_frame. by eapply Ha. }
  intros C g r [[= -> ->]|Hin]%elem_of_cons Hr; simpl; [by apply switch_saves|].
  apply (Hc C g r); [|done]. simpl. set_solver.
Qed.

(** A task gets its registers back when it is switched to, whatever the others
    have done meanwhile. *)
Lemma switch_resumes c m l1 f l2 r :
  rtc tstep c (mkCores m (l1 ++ (reg m next_arg, f) :: l2)) → contexts_ok c →
  apart m (l1 ++ (reg m next_arg, f) :: l2) (switch_writes m) →
  r ∈ callee → reg (context_switch m) r = f r.
Proof.
  intros Hs Hok Ha Hr. assert (contexts_ok (mkCores m (l1 ++ (reg m next_arg, f) :: l2))) as Hc.
  { clear Ha. remember (mkCores m _) as c' eqn:E. clear E. induction Hs; [done|]. by eauto using tstep_ok. }
  rewrite switch_loads; [|intros a Hf; apply (Ha (reg m next_arg) f); [set_solver|done]|done].
  apply (Hc (reg m next_arg) f r); [simpl; set_solver|done].
Qed.

End switching.

(** The proofs of the laws for a context of [n] words, by running the code. *)
Ltac switch_frame_by n P :=
  intros [rf mf] a Ha; assert (∀ i, 0 ≤ i < n → (a =? addr (rf P) i) = false) as Hf;
  [intros i Hi; apply Z.eqb_neq; intros ->; apply Ha; by exists i|asm_run; cbn [Z.add Pos.add Pos.succ]; by rewrite !Hf by lia].
Ltac switch_saves_by :=
  intros [rf mf] r Hr; simpl in Hr; rewrite !elem_of_cons, elem_of_nil in Hr;
  destruct_or! Hr; subst; try done; asm_run; cbn [Z.add Pos.add Pos.succ]; asm_words; done.
Ltac switch_loads_by n P N :=
  intros [rf mf] r Hd Hr; cbn [reg] in Hd;
  assert (∀ i j, 0 ≤ i < n → 0 ≤ j < n → (addr (rf N) i =? addr (rf P) j) = false) as Hf;
  [intros i j Hi Hj; apply Z.eqb_neq; intros He; apply (Hd (addr (rf N) i)); [exists i; split; [lia|done]|by exists j]|];
  simpl in Hr; rewrite !elem_of_cons, elem_of_nil in Hr;
  destruct_or! Hr; subst; try done; asm_run; cbn [Z.add Pos.add Pos.succ]; rewrite !Hf by lia; done.
