(* ===== verification/Riscv.v ===== *)
(** * Traps and task switches on RISC-V

    [src/.arceos/modules/axhal/src/arch/riscv]: the saved registers of a trap
    and the context of a task ([context.rs]), the entry and the exit of a trap
    ([trap.S] with [macros.rs]) and the trap handler ([trap.rs]), as compiled
    for the kernel with user space and floating point ([uspace], [fp_simd],
    [irq]); thread-local storage of the kernel ([tls]) is an argument. *)

From S2P Require Import Prelude Abi MemBase Asm TrapPath TaskSwitch.

#[local] Open Scope Z_scope.

(** The general registers, in the order of [GeneralRegisters], the special ones
    the code uses, and the registers the compiler picks for the operands of
    inline assembly. *)
Module Rv.
Inductive rv_reg : Type :=
  | ra | sp | gp | tp | t0 | t1 | t2 | s0 | s1 | a0 | a1 | a2 | a3 | a4 | a5 | a6 | a7
  | s2 | s3 | s4 | s5 | s6 | s7 | s8 | s9 | s10 | s11 | t3 | t4 | t5 | t6
  | sepc | sstatus | sscratch | satp | fcsr | in_tf | in_addr | f (n : N).
Definition rv_index (r : rv_reg) : Z :=
  match r with
  | ra => 0 | sp => 1 | gp => 2 | tp => 3 | t0 => 4 | t1 => 5 | t2 => 6 | s0 => 7 | s1 => 8
  | a0 => 9 | a1 => 10 | a2 => 11 | a3 => 12 | a4 => 13 | a5 => 14 | a6 => 15 | a7 => 16
  | s2 => 17 | s3 => 18 | s4 => 19 | s5 => 20 | s6 => 21 | s7 => 22 | s8 => 23 | s9 => 24
  | s10 => 25 | s11 => 26 | t3 => 27 | t4 => 28 | t5 => 29 | t6 => 30
  | sepc => 31 | sstatus => 32 | sscratch => 33 | satp => 34 | fcsr => 35
  | in_tf => 36 | in_addr => 37 | f n => 38 + Z.of_N n
  end.
End Rv.
Import Rv.

Definition rv_code (r : rv_reg) : N := match r with f n => (38 + n)%N | _ => Z.to_N (rv_index r) end.
Lemma rv_code_inj a b : rv_code a = rv_code b → a = b.
Proof. destruct a, b; simpl; intros He; try done; try lia. f_equal. lia. Qed.
#[global] Instance RvRegs : Regs rv_reg := {| code := rv_code; code_inj := rv_code_inj |}.

Abbreviation Rinstr := (@instr rv_reg).
Abbreviation Rhart := (@Hart rv_reg).

(** [TrapFrame]: the general registers, [sepc] and [sstatus], each a word, in
    the order of [rv_index]. *)
Definition trapframe_words : Z := 33.

(** ** Entry and exit ([trap.S]) *)

Definition PUSH_POP_GENERAL_REGS : list (rv_reg * Z) :=
  [(ra, 0); (t0, 4); (t1, 5); (t2, 6); (s0, 7); (s1, 8); (a0, 9); (a1, 10); (a2, 11);
   (a3, 12); (a4, 13); (a5, 14); (a6, 15); (a7, 16); (s2, 17); (s3, 18); (s4, 19);
   (s5, 20); (s6, 21); (s7, 22); (s8, 23); (s9, 24); (s10, 25); (s11, 26); (t3, 27);
   (t4, 28); (t5, 29); (t6, 30)].

(** [csrrw t2, sscratch, zero] is the move and the load of 0. *)
Definition SAVE_REGS (from_user : bool) : list Rinstr :=
  [ADDI sp sp (- (8 * trapframe_words))] ++
  save_block sp PUSH_POP_GENERAL_REGS ++
  [MV t0 sepc; MV t1 sstatus; MV t2 sscratch; LI sscratch 0] ++
  save_block sp [(t0, 31); (t1, 32); (t2, 1)] ++
  if from_user then
    load_block sp [(t0, 2); (t1, 3)] ++ save_block sp [(gp, 2); (tp, 3)] ++ [MV gp t0; MV tp t1]
  else [].

Definition RESTORE_REGS (from_user : bool) : list Rinstr :=
  (if from_user then
     load_block sp [(t1, 2); (t0, 3)] ++ save_block sp [(gp, 2); (tp, 3)] ++
     [MV gp t1; MV tp t0; ADDI t0 sp (8 * trapframe_words); MV sscratch t0]
   else []) ++
  [LD t0 sp 31; MV sepc t0; LD t0 sp 32; MV t1 sstatus; LI t2 0x6000; ANDR t1 t1 t2; NOTR t2 t2;
   ANDR t0 t0 t2; ORR t0 t0 t1; MV sstatus t0] ++
  load_block sp PUSH_POP_GENERAL_REGS ++
  [LD sp sp 1].

(** [trap_vector_base] up to the call of the handler, with whether the trap
    came from user mode; and from the return of the handler to [sret]. *)
Definition trap_vector_base (m : Rhart) : bool * Rhart :=
  let m := step m (SWAP sp sscratch) in
  if reg m sp =? 0 then (false, run (MV sp sscratch :: SAVE_REGS false ++ [MV a0 sp; LI a1 0]) m)
  else (true, run (SAVE_REGS true ++ [MV a0 sp; LI a1 1]) m).
Definition trap_return (from_user : bool) (m : Rhart) : Rhart := run (RESTORE_REGS from_user) m.


(** ** The entry stores the registers of the user, the exit loads them *)

(** User code runs with the top of the kernel stack in [sscratch], and the
    kernel's [gp] and [tp] where the next frame will be; the bit [SPP] says that
    the trap came, and the exit goes, to user mode. *)
Definition from_user_mode (status : Z) : Prop := Z.testbit status 8 = false.
Definition rv_user_mode (K : Z) (k : rv_reg → Z) (m : Rhart) : Prop :=
  in_u 64 K ∧ K ≠ 0 ∧ reg m sscratch = K ∧ from_user_mode (reg m sstatus) ∧
  mem m (addr (addr K (-33)) 2) = k gp ∧ mem m (addr (addr K (-33)) 3) = k tp.
Definition rv_visible (r : rv_reg) : bool :=
  match r with sstatus | sscratch | satp | fcsr | in_tf | in_addr | f _ => false | _ => true end.

Ltac rv_words := asm_run; change (as_usize (?x + -264)) with (addr x (-33)); asm_words.

Definition entry_u : list Rinstr := SWAP sp sscratch :: SAVE_REGS true ++ [MV a0 sp; LI a1 1].
Lemma trap_vector_base_u m : reg m sscratch ≠ 0 → trap_vector_base m = (true, run entry_u m).
Proof. intros Hz%Z.eqb_neq. unfold trap_vector_base. cbn. by rewrite Hz. Qed.

Lemma rv_enter K k m :
  rv_user_mode K k m →
  let m' := run entry_u m in
  reg m' sp = addr K (-33) ∧
  (∀ r, rv_visible r = true → mem m' (addr (addr K (-33)) (rv_index r)) = reg m r) ∧
  mem m' (addr (addr K (-33)) 32) = reg m sstatus ∧
  reg m' gp = k gp ∧ reg m' tp = k tp ∧
  (∀ a, (∀ i, 0 ≤ i < 33 → a ≠ addr (addr K (-33)) i) → mem m' a = mem m a).
Proof.
  destruct m as [rf mf]. intros (HK & Hnz & <- & Hspp & Hgp & Htp). cbn [reg mem] in *. cbv zeta. split_and!.
  - asm_run. done.
  - intros r Hr. destruct r; try done; rv_words; done.
  - rv_words. done.
  - rv_words. exact Hgp.
  - rv_words. exact Htp.
  - intros a Ha. assert (∀ i, 0 ≤ i < 33 → (a =? addr (addr (rf sscratch) (-33)) i) = false) as Hf.
    { intros i Hi. by apply Z.eqb_neq, Ha. }
    rv_words. rewrite !Hf by lia. done.
Qed.

Lemma fs_mask i : 0 ≤ i → Z.testbit 24576 i = (i =? 13) || (i =? 14).
Proof.
  intros Hi. change 24576 with (Z.lor (2 ^ 13) (2 ^ 14)). rewrite Z.lor_spec, !Z.pow2_bits_eqb by lia.
  f_equal; apply Z.eqb_sym.
Qed.
(** The status register comes back from the frame, but for the state of the
    floating-point unit, which is the current one. *)
Lemma trap_return_status K m :
  reg m sp = addr K (-33) →
  ∀ i, 0 ≤ i < 64 →
    Z.testbit (reg (trap_return true m) sstatus) i =
      if (i =? 13) || (i =? 14) then Z.testbit (reg m sstatus) i
      else Z.testbit (mem m (addr (addr K (-33)) 32)) i.
Proof.
  destruct m as [rf mf]. cbn [reg mem]. intros Hsp i Hi.
  assert (reg (trap_return true (mkHart rf mf)) sstatus =
    Z.lor (Z.land (mf (addr (addr K (-33)) 32)) (as_usize (Z.lnot 24576))) (Z.land (rf sstatus) 24576)) as ->.
  { rv_words. rewrite Hsp. by asm_words. }
  rewrite Z.lor_spec, !Z.land_spec.
  assert (Z.testbit (as_usize (Z.lnot 24576)) i = negb ((i =? 13) || (i =? 14))) as ->.
  { unfold wrapu. rewrite Z.mod_pow2_bits_low, Z.lnot_spec by lia. f_equal. apply fs_mask. lia. }
  rewrite (fs_mask i) by lia. destruct ((i =? 13) || (i =? 14)); simpl;
    rewrite ?andb_true_r, ?andb_false_r, ?orb_false_r; done.
Qed.

Lemma rv_leave K m :
  in_u 64 K → K ≠ 0 → reg m sp = addr K (-33) → from_user_mode (mem m (addr (addr K (-33)) 32)) →
  let m' := trap_return true m in
  (∀ r, rv_visible r = true → reg m' r = mem m (addr (addr K (-33)) (rv_index r))) ∧
  rv_user_mode K (reg m) m' ∧
  (∀ a, (∀ i, 0 ≤ i < 33 → a ≠ addr (addr K (-33)) i) → mem m' a = mem m a).
Proof.
  intros HK Hnz Hsp Hspp. pose proof (trap_return_status K m Hsp 8 ltac:(lia)) as Hst.
  destruct m as [rf mf]. cbn [reg mem] in *. cbv zeta. split_and!.
  - intros r Hr. destruct r; try done; rv_words; rewrite Hsp; asm_words; done.
  - split_and!; [done..| | | |].
    + rv_words. rewrite Hsp. change (as_usize (addr K (-33) + 264)) with (addr (addr K (-33)) 33).
      rewrite addr_addr. by apply addr_0.
    + unfold from_user_mode. by rewrite Hst.
    + rv_words. rewrite Hsp. by asm_words.
    + rv_words. rewrite Hsp. by asm_words.
  - intros a Ha. assert (∀ i, 0 ≤ i < 33 → (a =? addr (addr K (-33)) i) = false) as Hf.
    { intros i Hi. by apply Z.eqb_neq, Ha. }
    rv_words. rewrite Hsp, !Hf by lia. done.
Qed.

#[global] Program Instance RvTrap : TrapPath rv_reg := {|
  visible := rv_visible;
  slot := rv_index;
  frame_words := trapframe_words;
  ksp := sp;
  kregs := [gp; tp];
  stack_ok K := in_u 64 K ∧ K ≠ 0;
  kernel_ready K m := True;
  user_frame f := from_user_mode (f sstatus);
  user_mode := rv_user_mode;
  enter m := (trap_vector_base m).2;
  leave := trap_return true;
|}.
Next Obligation. by intros K k m (? & ? & _). Qed.
Next Obligation.
  intros K k m Hu. pose proof Hu as (_ & Hnz & Hsc & _). rewrite trap_vector_base_u by congruence.
  destruct (rv_enter K k m Hu) as (? & ? & Hst & ? & ? & ?). split_and!; [done..| | |done].
  { simpl. change (from_user_mode (mem (run entry_u m) (addr (addr K (-33)) 32))). rewrite Hst. apply Hu. }
  intros r. rewrite !elem_of_cons, elem_of_nil. by intros [->|[->|[]]].
Qed.
Next Obligation. intros K m [HK Hnz] Hsp _ Hf. by apply rv_leave. Qed.

(** A trap of the kernel itself gets every register back. *)
Lemma rv_kernel_trap m m2 :
  in_u 64 (reg m sp) → reg m sscratch = 0 →
  let m1 := (trap_vector_base m).2 in
  (trap_vector_base m).1 = false ∧
  (reg m2 sp = reg m1 sp → reg m2 gp = reg m gp → reg m2 tp = reg m tp →
   (∀ i, 0 ≤ i < 33 → mem m2 (addr (reg m1 sp) i) = mem m1 (addr (reg m1 sp) i)) →
   ∀ r, rv_visible r = true → reg (trap_return false m2) r = reg m r).
Proof.
  destruct m as [rf mf], m2 as [rf2 mf2]. cbn [reg mem]. intros Hsp Hsc.
  unfold trap_vector_base. cbn [step set_reg reg]. change (rupd (rupd rf sp (rf sscratch)) sscratch (rf sp) sp) with (rf sscratch).
  rewrite Hsc. cbn [Z.eqb fst snd]. split; [done|].
  set (m1 := run _ _). intros H2 Hgp Htp Hm r Hr.
  assert (reg m1 sp = addr (rf sp) (-33)) as Hb by (subst m1; asm_run; done).
  rewrite Hb in H2, Hm. assert (∀ x, rv_visible x = true → x ≠ gp → x ≠ tp →
    mem m1 (addr (addr (rf sp) (-33)) (rv_index x)) = rf x) as Hw.
  { intros x Hx H1 H3. subst m1. destruct x; try done; rv_words; done. }
  destruct r; try done; try (asm_run; rewrite ?Hgp, ?Htp; done);
    (asm_run; rewrite H2, Hm by lia; by apply (Hw _ Hr)).
Qed.

(** ** Accessors and user contexts ([context.rs]) *)

#[global] Program Instance RvAcc : Accessors rv_reg := {|
  acc a := match a with
           | Arg0 => a0 | Arg1 => a1 | Arg2 => a2 | Arg3 => a3 | Arg4 => a4 | Arg5 => a5
           | Ip => sepc | Sp => sp | Retval => a0 | Tls => tp
           end;
|}.
Next Obligation. intros [] []; simpl; tauto || discriminate. Qed.
Definition rv_set_ra (v : Z) (f : rv_reg → Z) : rv_reg → Z := rupd f ra v.

Definition FS_Initial : Z := 1.
Definition rv_UspaceContext_new (entry ustack_top arg0 : Z) : rv_reg → Z :=
  let BIT_SPIE := 5 in
  let BIT_SUM := 18 in
  let BIT_FS := 13 in
  let status := Z.lor (Z.lor (Z.lor 0 (Z.shiftl 1 BIT_SPIE)) (Z.shiftl 1 BIT_SUM)) (Z.shiftl FS_Initial BIT_FS) in
  λ r, match r with a0 => arg0 | sp => ustack_top | sepc => entry | sstatus => status | _ => 0 end.

(** [enter_uspace] of a context at the address [tf]: what [disable_irqs] and
    the writes of [sscratch] and [sepc] do, and then the assembly. *)
Definition SIE : Z := 2.
Definition rv_enter_uspace (tf kstack_top : Z) (m : Rhart) : Rhart :=
  let m := set_reg sstatus (Z.land (reg m sstatus) (Z.lnot SIE)) m in
  let m := set_reg sscratch kstack_top m in
  let m := set_reg sepc (mem m (addr tf (rv_index sepc))) m in
  let m := set_reg in_tf tf (set_reg in_addr (as_usize (kstack_top - 8 * trapframe_words)) m) in
  run ([MV sp in_tf; ST gp in_addr 2; LD gp sp 2; ST tp in_addr 3; LD tp sp 3;
        LD t0 sp 32; MV sstatus t0] ++ load_block sp PUSH_POP_GENERAL_REGS ++ [LD sp sp 1]) m.

(** User code starts with the registers of the context, and the next trap
    finds the kernel's stack and registers. *)
Lemma rv_enter_uspace_ok tf K m :
  in_u 64 K → K ≠ 0 → from_user_mode (mem m (addr tf 32)) →
  (∀ i, 0 ≤ i < 33 → addr tf i ≠ addr (addr K (-33)) 2 ∧ addr tf i ≠ addr (addr K (-33)) 3) →
  let m' := rv_enter_uspace tf K m in
  (∀ r, rv_visible r = true → reg m' r = mem m (addr tf (rv_index r))) ∧
  reg m' sstatus = mem m (addr tf 32) ∧ rv_user_mode K (reg m) m'.
Proof.
  destruct m as [rf mf]. intros HK Hnz Hspp Hd. cbv zeta.
  assert (∀ i, 0 ≤ i < 33 → (addr tf i =? addr (addr K (-33)) 2) = false) as H2.
  { intros i Hi. apply Z.eqb_neq, Hd, Hi. }
  assert (∀ i, 0 ≤ i < 33 → (addr tf i =? addr (addr K (-33)) 3) = false) as H3.
  { intros i Hi. apply Z.eqb_neq, Hd, Hi. }
  assert (reg (rv_enter_uspace tf K (mkHart rf mf)) sstatus = mf (addr tf 32)) as Hst.
  { rv_words. by rewrite ?H3, ?H2 by lia. }
  split_and!; [|exact Hst|].
  - intros r Hr. destruct r; try done; rv_words; rewrite ?H3, ?H2 by lia; done.
  - split_and!; [done..| | |]; [by rewrite Hst|rv_words; done..].
Qed.

(** A new context runs in user mode with interrupts and a clean
    floating-point unit. *)
Lemma rv_new_context entry top arg :
  let status := rv_UspaceContext_new entry top arg sstatus in
  Z.testbit status 8 = false ∧ Z.testbit status 5 = true ∧ Z.land (Z.shiftr status 13) 3 = FS_Initial.
Proof. done. Qed.

(** ** The trap handler ([trap.rs]) *)

Inductive rv_cause : Type :=
  | UserEnvCall | LoadPageFault | StorePageFault | InstructionPageFault | Breakpoint
  | OtherException | Interrupt | UnknownTrap.

Section handler.
Context {W : Type} `{HH : !TrapHandlers W (rv_reg → Z)}.
Abbreviation Frame := (rv_reg → Z).
Abbreviation Hst := (st W LinuxError).

Definition rv_handle_breakpoint (tf : Frame) : Frame := rupd tf sepc (as_usize (tf sepc + 2)).
Definition rv_handle_page_fault (stval : Z) (tf : Frame) (access_flags : Z) (is_user : bool) : Hst (option Frame) :=
  let access_flags := if is_user then Z.lor access_flags USER else access_flags in
  deliver_fault stval access_flags is_user tf.
Definition riscv_trap_handler (cause : rv_cause) (scause stval : Z) (tf : Frame) (from_user : bool) :
    Hst (option Frame) :=
  o ← match cause with
      | UserEnvCall =>
          let tf := rupd tf sepc (as_usize (tf sepc + 4)) in
          r ← on_syscall (tf a7) tf;
          mret match r with Some (v, tf) => Some (rupd tf a0 (as_usize v)) | None => None end
      | LoadPageFault => rv_handle_page_fault stval tf READ from_user
      | StorePageFault => rv_handle_page_fault stval tf WRITE from_user
      | InstructionPageFault => rv_handle_page_fault stval tf EXECUTE from_user
      | Breakpoint => mret (Some (rv_handle_breakpoint tf))
      | Interrupt => on_irq scause;; mret (Some tf)
      | OtherException | UnknownTrap => st_panic
      end;
  after_trap from_user o.
End handler.

#[global] Program Instance RvSyscall : SyscallPath rv_reg := {|
  sc_num := a7;
  sc_step := 4;
  sc_pre f := rupd f sepc (as_usize (f sepc + 4));
  sc_handler W HH tf := riscv_trap_handler UserEnvCall 8 0 tf true;
|}.
Next Obligation. done. Qed.
Next Obligation. intros f r _. case_decide as He; [subst; apply rupd_eq|by apply rupd_ne]. Qed.
Next Obligation.
  intros W HH f w. unfold riscv_trap_handler. unfold mbind, st_bind. cbv zeta.
  by destruct (on_syscall _ _ w) as [[[[v g]|]|e|] w'].
Qed.

(** ** Switching tasks ([context.rs]) *)

(** [TaskContext]: the words of the registers [context_switch] keeps, with the
    thread pointer and the page table after them. *)
Definition rv_saved : list (rv_reg * Z) :=
  [(ra, 0); (sp, 1); (s0, 2); (s1, 3); (s2, 4); (s3, 5); (s4, 6); (s5, 7); (s6, 8); (s7, 9); (s8, 10);
   (s9, 11); (s10, 12); (s11, 13)].
Definition rv_context_switch : list Rinstr :=
  save_block a0 rv_saved ++ load_block a1 (rev rv_saved).
Definition rv_saved_index (r : rv_reg) : Z :=
  match r with
  | ra => 0 | sp => 1 | s0 => 2 | s1 => 3 | s2 => 4 | s3 => 5 | s4 => 6 | s5 => 7 | s6 => 8 | s7 => 9
  | s8 => 10 | s9 => 11 | s10 => 12 | s11 => 13 | _ => 0
  end.
#[global] Program Instance RvSwitch : ContextSwitch rv_reg := {|
  callee := rv_saved.*1;
  prev_arg := a0;
  next_arg := a1;
  live m := reg m;
  stored C m r := mem m (addr C (rv_saved_index r));
  foot C m a := ∃ i, 0 ≤ i < 14 ∧ a = addr C i;
  switch_writes m a := ∃ i, 0 ≤ i < 14 ∧ a = addr (reg m a0) i;
  context_switch := run rv_context_switch;
|}.
Next Obligation.
  intros C m m' Hm. split; [|done]. intros r. apply Hm. exists (rv_saved_index r). by destruct r.
Qed.
Next Obligation. switch_frame_by 14 a0. Qed.
Next Obligation. switch_saves_by. Qed.
Next Obligation. switch_loads_by 14 a0 a1. Qed.
Lemma rv_context_switch_is m : context_switch m = run rv_context_switch m.
Proof. done. Qed.
