(* ===== verification/RiscvFp.v ===== *)
(** * Floating-point registers of RISC-V tasks

    [src/.arceos/modules/axhal/src/arch/riscv]: the registers are saved only
    when the task that stops has changed them, and loaded or cleared for the
    task that starts ([TaskContext::switch_to] in [context.rs]). The assembly
    for that is run on the machine of Asm. *)

From S2P Require Import Prelude Abi MemBase Asm TaskSwitch Riscv.
Import Rv.

#[local] Open Scope Z_scope.

(** The state of the floating-point unit in [sstatus]. *)
Inductive FS : Type := Off | Initial | Clean | Dirty.

(** ** Assembly *)

Definition FLOAT_REGS : list (rv_reg * Z) := (λ n, (f (N.of_nat n), Z.of_nat n)) <$> seq 0 32.
Definition save_fp_registers : list (@instr rv_reg) := save_block a0 FLOAT_REGS ++ [MV t0 fcsr; ST t0 a0 32].
Definition restore_fp_registers : list (@instr rv_reg) := load_block a0 FLOAT_REGS ++ [LD t0 a0 32; MV fcsr t0].
Definition clear_fp_registers : list (@instr rv_reg) :=
  (λ n, LI (f n) 0) <$>
  ([0; 1; 2; 3; 4; 5; 5; 6; 7; 8; 9; 10; 11; 12; 13; 14; 15; 16; 17; 18; 19; 20; 21; 22; 23; 24; 25; 26; 27;
    28; 29; 30; 31]%N).

(** [FpStatus]: an array of 32 words, [fcsr] in the word after it, and [fs]. *)
Record FpStatus := mkFp { fp : N → Z; fp_fcsr : Z; fs : FS }.
Definition fp_regs_of (m : @Hart rv_reg) : N → Z := λ n, reg m (f n).

Lemma below_32 (P : N → Prop) : (∀ k, (k < 32)%nat → P (N.of_nat k)) → ∀ n, (n < 32)%N → P n.
Proof. intros HP n Hn. rewrite <-(N2Nat.id n). apply HP. lia. Qed.
Ltac each_fp := apply below_32; intros k Hk; do 32 (destruct k as [|k]; [asm_run; asm_words; done|]); lia.

Lemma save_fp_ok m :
  let m' := run save_fp_registers m in
  (∀ n, (n < 32)%N → mem m' (addr (reg m a0) (Z.of_N n)) = reg m (f n)) ∧
  mem m' (addr (reg m a0) 32) = reg m fcsr.
Proof. destruct m as [rf mf]. cbv zeta. split; [each_fp|]. asm_run. by asm_words. Qed.
Lemma restore_fp_ok m :
  let m' := run restore_fp_registers m in
  (∀ n, (n < 32)%N → reg m' (f n) = mem m (addr (reg m a0) (Z.of_N n))) ∧
  reg m' fcsr = mem m (addr (reg m a0) 32).
Proof. destruct m as [rf mf]. cbv zeta. split; [each_fp|]. asm_run. by asm_words. Qed.
Lemma clear_fp_ok m :
  let m' := run clear_fp_registers m in
  (∀ n, (n < 32)%N → reg m' (f n) = 0) ∧ reg m' fcsr = reg m fcsr.
Proof. destruct m as [rf mf]. cbv zeta. split; [each_fp|]. done. Qed.

(** ** The switch ([switch_to])

    The unit of the CPU has the same parts as the saved status. *)
Definition fp_switch (self next cpu : FpStatus) : res LinuxError (FpStatus * FpStatus) :=
  let self := match fs cpu with Dirty => mkFp (fp cpu) (fp_fcsr cpu) Clean | _ => self end in
  match fs next with
  | Clean => Ok (self, mkFp (fp next) (fp_fcsr next) Clean)
  | Initial => Ok (self, mkFp (λ _, 0) (fp_fcsr cpu) Initial)
  | Dirty => Panic
  | Off => Ok (self, cpu)
  end.
(** The status of a new task ([TaskContext::new]). *)
Definition FpStatus_default : FpStatus := mkFp (λ _, 0) 0 Initial.

(** The tasks of a CPU, by number. *)
Record Fps := mkFps { fpu : FpStatus; contexts : N → FpStatus; running : N }.
Definition put {A} (g : N → A) (t : N) (x : A) : N → A := λ u, if (u =? t)%N then x else g u.

(** A task writes floating-point registers, which the hardware notes, or the
    CPU switches to another task. *)
Inductive fp_op : Type := Computes (regs : N → Z) (csr : Z) | Switches (t : N).
Definition fp_step (o : fp_op) (s : Fps) : res LinuxError Fps :=
  match o with
  | Computes regs csr => Ok (mkFps (mkFp regs csr Dirty) (contexts s) (running s))
  | Switches t =>
      match fp_switch (contexts s (running s)) (contexts s t) (fpu s) with
      | Ok (self, cpu) => Ok (mkFps cpu (put (contexts s) (running s) self) t)
      | Err e => Err e
      | Panic => Panic
      end
  end.

(** The specification: every task has registers of its own. *)
Record Own := mkOwn { owned : N → N → Z; who : N }.
Definition own_step (o : fp_op) (a : Own) : Own :=
  match o with
  | Computes regs _ => mkOwn (put (owned a) (who a) regs) (who a)
  | Switches t => mkOwn (owned a) t
  end.
Fixpoint fp_run (l : list fp_op) (s : Fps) : res LinuxError Fps :=
  match l with [] => Ok s | o :: l' => match fp_step o s with Ok s' => fp_run l' s' | e => e end end.
Definition own_run (l : list fp_op) (a : Own) : Own := fold_left (λ a o, own_step o a) l a.
(** A task is not switched to itself. *)
Fixpoint fp_legal (l : list fp_op) (cur : N) : bool :=
  match l with
  | [] => true
  | Computes _ _ :: l' => fp_legal l' cur
  | Switches t :: l' => negb (t =? cur)%N && fp_legal l' t
  end.

(** A saved status says what the registers of its task are. *)
Definition says (x : FpStatus) (regs : N → Z) : Prop :=
  match fs x with
  | Clean => ∀ n, (n < 32)%N → fp x n = regs n
  | Initial => ∀ n, (n < 32)%N → regs n = 0
  | Off | Dirty => False
  end.
Definition fp_ok (s : Fps) (a : Own) : Prop :=
  running s = who a ∧ fs (fpu s) ≠ Off ∧ (∀ n, (n < 32)%N → fp (fpu s) n = owned a (who a) n) ∧
  ∀ t, t ≠ running s ∨ fs (fpu s) ≠ Dirty → says (contexts s t) (owned a t).

Lemma put_eq {A} (g : N → A) t x : put g t x t = x.
Proof. unfold put. by rewrite N.eqb_refl. Qed.
Lemma put_ne {A} (g : N → A) t x u : u ≠ t → put g t x u = g u.
Proof. unfold put. by destruct (N.eqb_spec u t). Qed.

Lemma fp_step_ok o s a :
  fp_ok s a → match o with Switches t => t ≠ running s | _ => True end →
  ∃ s', fp_step o s = Ok s' ∧ fp_ok s' (own_step o a).
Proof.
  intros (Hcur & Hoff & Hcpu & Hctx) Hne. destruct o as [regs csr|t]; simpl.
  - eexists. split; [done|]. split_and!; [done..| |].
    + intros n _. simpl. by rewrite put_eq.
    + simpl. intros t [Ht|?]; [|done]. rewrite put_ne by (by rewrite <-Hcur). apply Hctx. by left.
  - pose proof (Hctx t (or_introl Hne)) as Ht.
    set (self := match fs (fpu s) with Dirty => mkFp (fp (fpu s)) (fp_fcsr (fpu s)) Clean | _ => contexts s (running s) end).
    assert (says self (owned a (running s))) as Hself.
    { subst self. destruct (fs (fpu s)) eqn:E; try (apply Hctx; by right).
      intros n Hn. simpl. by rewrite Hcpu, Hcur. }
    assert (∀ cpu, fs cpu ≠ Off → (∀ n, (n < 32)%N → fp cpu n = owned a t n) →
      fp_ok (mkFps cpu (put (contexts s) (running s) self) t) (mkOwn (owned a) t)) as Hnew.
    { intros cpu Ho Hr. split_and!; [done..|]. simpl. intros u Hu.
      destruct (decide (u = running s)) as [->|]; [by rewrite put_eq|]. rewrite put_ne by done. apply Hctx. by left. }
    unfold fp_switch. fold self. unfold says in Ht. destruct (fs (contexts s t)); try done.
    + eexists. split; [done|]. apply Hnew; [done|]. intros n Hn. simpl. by rewrite Ht.
    + eexists. split; [done|]. by apply Hnew.
Qed.

(** saving and loading the floating-point registers only when needed is
    as good as giving every task registers of its own: over any sequence of
    computations and switches, starting from new tasks, no switch panics, and
    the task that runs sees what it computed last. *)
Theorem fp_registers_private l csr cur :
  fp_legal l cur = true →
  ∃ s, fp_run l (mkFps (mkFp (λ _, 0) csr Initial) (λ _, FpStatus_default) cur) = Ok s ∧
    let a := own_run l (mkOwn (λ _ _, 0) cur) in
    running s = who a ∧ ∀ n, (n < 32)%N → fp (fpu s) n = owned a (who a) n.
Proof.
  set (s0 := mkFps _ _ cur). set (a0 := mkOwn _ cur).
  assert (fp_ok s0 a0 ∧ running s0 = cur) as [Hok Hcur] by done. clearbody s0 a0.
  revert s0 a0 cur Hok Hcur. induction l as [|o l IH]; intros s a cur Hok Hcur Hl.
  { exists s. destruct Hok as (? & ? & ? & ?). done. }
  destruct (fp_step_ok o s a Hok) as (s' & Hs & Hok').
  { destruct o as [|t]; [done|]. simpl in Hl. apply andb_true_iff in Hl as [Ht%negb_true_iff%N.eqb_neq _]. by rewrite Hcur. }
  cbn [fp_run own_run fold_left]. rewrite Hs. destruct o as [regs c|t].
  - apply (IH s' _ cur Hok'); [|done]. simpl in Hs. by injection Hs as <-.
  - apply andb_true_iff in Hl as [_ Hl]. apply (IH s' _ t Hok'); [|done]. by destruct Hok' as [-> _].
Qed.

(** The control register is not cleared for a new task: it starts with the
    rounding mode and the flags of the task before it. *)
Lemma fcsr_leaks self cpu :
  ∃ self' cpu', fp_switch self FpStatus_default cpu = Ok (self', cpu') ∧ fp_fcsr cpu' = fp_fcsr cpu.
Proof. by eexists _, _. Qed.

Lemma fp_registers_private_witness :
  ∃ s, fp_run [Computes (λ _, 7) 0; Switches 1; Computes (λ _, 8) 0; Switches 0]
    (mkFps (mkFp (λ _, 0) 0 Initial) (λ _, FpStatus_default) 0) = Ok s ∧ fp (fpu s) 5 = 7.
Proof.
  destruct (fp_registers_private [Computes (λ _, 7) 0; Switches 1; Computes (λ _, 8) 0; Switches 0] 0 0 eq_refl)
    as (s & Hs & Hw & Hr).
  exists s. split; [exact Hs|]. rewrite (Hr 5%N eq_refl). reflexivity.
Defined.

(** ** The whole switch on the machine

    [TaskContext] in memory: the registers of [context_switch] in the words 0
    to 13, the thread pointer, the page table, and [FpStatus] with the state
    as a number. *)
Definition fs_bits (m : @Hart rv_reg) : Z := Z.land (Z.shiftr (reg m sstatus) 13) 3.
Definition set_fs (v : Z) (m : @Hart rv_reg) : @Hart rv_reg :=
  set_reg sstatus (Z.lor (Z.land (reg m sstatus) (Z.lnot 0x6000)) (Z.shiftl v 13)) m.
Definition read_page_table_root (m : @Hart rv_reg) : Z := Z.shiftl (Z.land (reg m satp) (Z.ones 44)) 12.
Definition write_page_table_root (root : Z) (m : @Hart rv_reg) : @Hart rv_reg :=
  if read_page_table_root m =? root then m
  else set_reg satp (Z.lor (Z.shiftl 8 60) (Z.shiftr root 12)) m.

Definition rv_TaskContext_init (ctx entry kstack_top tls_area : Z) (m : @Hart rv_reg) : @Hart rv_reg :=
  set_word (addr ctx 14) tls_area (set_word (addr ctx 0) entry (set_word (addr ctx 1) kstack_top m)).

Definition rv_root_part (tls : bool) (self next : Z) (m : @Hart rv_reg) : @Hart rv_reg :=
  let m := if tls then let m := set_word (addr self 14) (reg m tp) m in set_reg tp (mem m (addr next 14)) m else m in
  if mem m (addr self 15) =? mem m (addr next 15) then m else write_page_table_root (mem m (addr next 15)) m.
Definition rv_fp_part (self next : Z) (m : @Hart rv_reg) : res LinuxError (@Hart rv_reg) :=
  let m := if fs_bits m =? 3
           then set_word (addr self 49) 2 (run save_fp_registers (set_reg a0 (addr self 16) m)) else m in
  let s := mem m (addr next 49) in
  if s =? 2 then Ok (set_fs 2 (run restore_fp_registers (set_reg a0 (addr next 16) m)))
  else if s =? 1 then Ok (set_fs 1 (run clear_fp_registers m))
  else if s =? 3 then Panic else Ok m.
Definition rv_switch_to (tls : bool) (self next : Z) (m : @Hart rv_reg) : res LinuxError (@Hart rv_reg) :=
  m ← rv_fp_part self next (rv_root_part tls self next m);
  Ok (run rv_context_switch (set_reg a0 self (set_reg a1 next m))).

Section switch_to.
Context (self next : Z).
Hypothesis apart : ∀ i j, 0 ≤ i < 50 → 0 ≤ j < 50 → addr next i ≠ addr self j.

Lemma apart_eqb i j : 0 ≤ i < 50 → 0 ≤ j < 50 → (addr next i =? addr self j) = false.
Proof. intros Hi Hj. by apply Z.eqb_neq, apart. Qed.

(** The registers the floating-point part does not use. *)
Definition fp_untouched (r : rv_reg) : bool := match r with t0 | a0 | sstatus | fcsr | f _ => false | _ => true end.

Lemma save_fp_frame m :
  let m' := set_word (addr self 49) 2 (run save_fp_registers (set_reg a0 (addr self 16) m)) in
  (∀ i, 0 ≤ i < 50 → mem m' (addr next i) = mem m (addr next i)) ∧
  ∀ r, fp_untouched r = true → reg m' r = reg m r.
Proof.
  destruct m as [rf mf]. cbv zeta. split.
  - intros i Hi. asm_run. rewrite ?addr_addr. cbn [Z.add Pos.add Pos.succ]. by rewrite !apart_eqb by lia.
  - intros r Hr. by destruct r.
Qed.
Lemma rv_fp_part_ok m :
  mem m (addr next 49) ≠ 3 →
  ∃ m', rv_fp_part self next m = Ok m' ∧
    (∀ i, 0 ≤ i < 50 → mem m' (addr next i) = mem m (addr next i)) ∧
    (∀ r, fp_untouched r = true → reg m' r = reg m r).
Proof.
  intros Hs. unfold rv_fp_part.
  set (m1 := if fs_bits m =? 3 then _ else m).
  assert ((∀ i, 0 ≤ i < 50 → mem m1 (addr next i) = mem m (addr next i)) ∧
    (∀ r, fp_untouched r = true → reg m1 r = reg m r)) as [Hm Hr].
  { subst m1. destruct (fs_bits m =? 3); [apply save_fp_frame|done]. }
  rewrite Hm by lia. clearbody m1. cbv zeta.
  destruct (Z.eqb_spec (mem m (addr next 49)) 2); [|destruct (Z.eqb_spec (mem m (addr next 49)) 1)].
  - eexists. split; [done|]. split; [exact Hm|]. intros r Hu. rewrite <-Hr by done. destruct m1. by destruct r.
  - eexists. split; [done|]. split; [exact Hm|]. intros r Hu. rewrite <-Hr by done. destruct m1. by destruct r.
  - rewrite (proj2 (Z.eqb_neq _ 3)) by done. by eexists.
Qed.

Lemma write_root_ok p m : 0 ≤ p < 2 ^ 44 → read_page_table_root (write_page_table_root (Z.shiftl p 12) m) = Z.shiftl p 12.
Proof.
  intros Hp. unfold write_page_table_root. destruct (Z.eqb_spec (read_page_table_root m) (Z.shiftl p 12)); [done|].
  unfold read_page_table_root, set_reg. cbn [reg]. rewrite rupd_eq. f_equal.
  rewrite Z.shiftr_shiftl_l, Z.shiftl_0_r by lia. rewrite Z.land_lor_distr_l.
  change (Z.land (Z.shiftl 8 60) (Z.ones 44)) with 0. rewrite Z.lor_0_l, Z.land_ones by lia. by apply Z.mod_small.
Qed.
Lemma rv_root_part_ok tls m :
  (∃ p, 0 ≤ p < 2 ^ 44 ∧ mem m (addr next 15) = Z.shiftl p 12) → read_page_table_root m = mem m (addr self 15) →
  let m' := rv_root_part tls self next m in
  (∀ i, 0 ≤ i < 50 → mem m' (addr next i) = mem m (addr next i)) ∧
  (∀ r, r ≠ tp → r ≠ satp → reg m' r = reg m r) ∧ read_page_table_root m' = mem m (addr next 15).
Proof.
  intros (p & Hp & Hnext) Hself. unfold rv_root_part. cbv zeta.
  set (m1 := if tls then _ else m).
  assert ((∀ i, 0 ≤ i < 50 → mem m1 (addr next i) = mem m (addr next i)) ∧ (∀ r, r ≠ tp → reg m1 r = reg m r) ∧
    mem m1 (addr self 15) = mem m (addr self 15)) as (Hm & Hr & Hs).
  { subst m1. destruct tls; [|done]. split_and!.
    - intros i Hi. simpl. apply mupd_ne, apart; lia.
    - intros r Hne. simpl. by apply rupd_ne.
    - simpl. apply mupd_ne, addr_ne; unfold near; lia. }
  rewrite Hs, Hm by lia. clearbody m1. assert (read_page_table_root m1 = read_page_table_root m) as Hroot.
  { unfold read_page_table_root. by rewrite Hr. }
  destruct (Z.eqb_spec (mem m (addr self 15)) (mem m (addr next 15))) as [He|He].
  - split_and!; [done|by auto|congruence].
  - split_and!.
    + intros i Hi. rewrite <-(Hm i) by done. unfold write_page_table_root. by destruct (_ =? _).
    + intros r H1 H2. rewrite <-(Hr r) by done. unfold write_page_table_root. destruct (_ =? _); [done|]. simpl.
      by apply rupd_ne.
    + rewrite Hnext. by apply write_root_ok.
Qed.

(** a switch to a context that is not marked dirty does not panic, and
    leaves the CPU with the registers and the page table of the next task,
    when the page table before was the one of the task that stops. *)
Theorem rv_switch_to_ok tls m :
  mem m (addr next 49) ≠ 3 →
  (∃ p, 0 ≤ p < 2 ^ 44 ∧ mem m (addr next 15) = Z.shiftl p 12) →
  read_page_table_root m = mem m (addr self 15) →
  ∃ m', rv_switch_to tls self next m = Ok m' ∧
    (∀ r i, (r, i) ∈ rv_saved → reg m' r = mem m (addr next i) ∧ mem m' (addr self i) = reg m r) ∧
    read_page_table_root m' = mem m (addr next 15).
Proof.
  intros Hfs Hroot Hself. destruct (rv_root_part_ok tls m Hroot Hself) as (Hm1 & Hr1 & Hroot1).
  destruct (rv_fp_part_ok (rv_root_part tls self next m)) as (m2 & Hfp & Hm2 & Hr2); [by rewrite Hm1 by lia|].
  set (m3 := set_reg a0 self (set_reg a1 next m2)).
  exists (run rv_context_switch m3). split; [unfold rv_switch_to; rewrite Hfp; done|].
  rewrite <-rv_context_switch_is. split.
  - intros r i Hin. assert (r ∈ rv_saved.*1 ∧ i = rv_saved_index r ∧ 0 ≤ i < 14 ∧ fp_untouched r = true ∧
      r ≠ tp ∧ r ≠ satp ∧ r ≠ a0 ∧ r ≠ a1) as (Hc & -> & Hi & Hu & Hn1 & Hn2 & Hn3 & Hn4).
    { split; [apply list_elem_of_fmap; by exists (r, i)|]. unfold rv_saved in Hin.
      rewrite !elem_of_cons, elem_of_nil in Hin. by destruct_or! Hin; simplify_eq. }
    split.
    + rewrite switch_loads; [| |done].
      * change (mem m2 (addr next (rv_saved_index r)) = mem m (addr next (rv_saved_index r))).
        by rewrite Hm2, Hm1 by lia.
      * intros a (j & Hj & ->) (j' & Hj' & He). change (addr next j = addr self j') in He.
        apply (apart j j') in He; [done|lia|lia].
    + change self with (reg m3 prev_arg) at 1. etransitivity; [exact (@switch_saves rv_reg RvSwitch m3 r Hc)|].
      change (reg m3 r = reg m r). subst m3. simpl.
      rewrite !rupd_ne by done. by rewrite Hr2, Hr1 by done.
  - rewrite <-Hroot1. unfold read_page_table_root. do 2 f_equal. rewrite <-(Hr2 satp eq_refl). by destruct m2.
Qed.
End switch_to.
