(* ===== verification/Loong.v ===== *)
(** * Traps and task switches on LoongArch

    [src/.arceos/modules/axhal/src/arch/loongarch64], as Riscv for its
    architecture. *)

From S2P Require Import Prelude Abi MemBase Asm TrapPath TaskSwitch.

#[local] Open Scope Z_scope.

(** The general registers, in the order of [GeneralRegisters], the control
    registers the code uses, the interrupt bit of the current mode, and the
    registers the compiler picks for the operands of inline assembly. *)
Module La.
Inductive la_reg : Type :=
  | zero | ra | tp | sp | a0 | a1 | a2 | a3 | a4 | a5 | a6 | a7 | t0 | t1 | t2 | t3 | t4 | t5 | t6 | t7 | t8
  | u0 | fp | s0 | s1 | s2 | s3 | s4 | s5 | s6 | s7 | s8
  | prmd | era | ksave_ksp | ksave_temp | ksave_r21 | ksave_tp | pgdl | crmd_ie | in_tf | in_ksp.
Definition la_index (r : la_reg) : Z :=
  match r with
  | zero => 0 | ra => 1 | tp => 2 | sp => 3 | a0 => 4 | a1 => 5 | a2 => 6 | a3 => 7 | a4 => 8 | a5 => 9
  | a6 => 10 | a7 => 11 | t0 => 12 | t1 => 13 | t2 => 14 | t3 => 15 | t4 => 16 | t5 => 17 | t6 => 18
  | t7 => 19 | t8 => 20 | u0 => 21 | fp => 22 | s0 => 23 | s1 => 24 | s2 => 25 | s3 => 26 | s4 => 27
  | s5 => 28 | s6 => 29 | s7 => 30 | s8 => 31 | prmd => 32 | era => 33 | ksave_ksp => 34 | ksave_temp => 35
  | ksave_r21 => 36 | ksave_tp => 37 | pgdl => 38 | crmd_ie => 39 | in_tf => 40 | in_ksp => 41
  end.
End La.
Import La.

Definition la_code (r : la_reg) : N := Z.to_N (la_index r).
Lemma la_code_inj a b : la_code a = la_code b → a = b.
Proof. by destruct a, b. Qed.
#[global] Instance LaRegs : Regs la_reg := {| code := la_code; code_inj := la_code_inj |}.
Abbreviation Linstr := (@instr la_reg).
Abbreviation Lhart := (@Hart la_reg).

(** ** Entry and exit ([trap.S]) *)

Definition la_trapframe_words : Z := 34.
Definition la_GENERAL_REGS : list (la_reg * Z) :=
  [(ra, 1); (a0, 4); (a1, 5); (a2, 6); (a3, 7); (a4, 8); (a5, 9); (a6, 10); (a7, 11); (t0, 12); (t1, 13);
   (t2, 14); (t3, 15); (t4, 16); (t5, 17); (t6, 18); (t7, 19); (t8, 20); (fp, 22); (s0, 23); (s1, 24);
   (s2, 25); (s3, 26); (s4, 27); (s5, 28); (s6, 29); (s7, 30); (s8, 31)].
Definition la_SAVE_REGS (from_user : bool) : list Linstr :=
  [MV t0 sp] ++
  (if from_user then
     [MV sp ksave_ksp; ADDI sp sp (- (8 * la_trapframe_words)); ST tp sp 2; ST u0 sp 21;
      MV tp ksave_tp; MV u0 ksave_r21]
   else [ADDI sp sp (- (8 * la_trapframe_words))]) ++
  [ST t0 sp 3; MV t0 ksave_temp] ++ save_block sp la_GENERAL_REGS ++
  [MV t1 prmd; MV t2 era; ST t1 sp 32; ST t2 sp 33].
(** [csrwr] exchanges a register with a control register. *)
Definition la_RESTORE_REGS (from_user : bool) : list Linstr :=
  (if from_user then
     [SWAP tp ksave_tp; SWAP u0 ksave_r21; LD tp sp 2; LD u0 sp 21; ADDI t1 sp (8 * la_trapframe_words);
      SWAP t1 ksave_ksp]
   else []) ++
  [LD t1 sp 33; LD t2 sp 32; SWAP t1 era; SWAP t2 prmd] ++ load_block sp la_GENERAL_REGS ++ [LD sp sp 3].

(** A trap of user code, which runs at level 3: the hardware stores the level
    and the interrupt bit in [prmd]; a trap of the kernel stores level 0. *)
Definition la_trap (level : Z) (m : Lhart) : Lhart := set_reg prmd (level + 4 * reg m crmd_ie) m.
Definition exception_entry_base (m : Lhart) : bool * Lhart :=
  let m := run [SWAP t0 ksave_temp; MV t0 prmd; ANDI t0 t0 3] m in
  if reg m t0 =? 0 then (false, run (la_SAVE_REGS false ++ [MV a0 sp; LI a1 0]) m)
  else (true, run (la_SAVE_REGS true ++ [MV a0 sp; LI a1 1]) m).
Definition la_trap_return (from_user : bool) (m : Lhart) : Lhart := run (la_RESTORE_REGS from_user) m.

(** ** The entry stores the registers of the user, the exit loads them *)

Definition la_bit (b : Z) : Prop := b = 0 ∨ b = 1.
Definition la_user_mode (K : Z) (k : la_reg → Z) (m : Lhart) : Prop :=
  in_u 64 K ∧ la_bit (reg m crmd_ie) ∧ reg m ksave_ksp = K ∧ reg m ksave_tp = k tp ∧ reg m ksave_r21 = k u0.
Definition la_visible (r : la_reg) : bool :=
  match r with
  | zero | prmd | ksave_ksp | ksave_temp | ksave_r21 | ksave_tp | pgdl | crmd_ie | in_tf | in_ksp => false
  | _ => true
  end.
(** Level 3 and the interrupt bit. *)
Definition la_user_prmd (v : Z) : Prop := v = 3 ∨ v = 7.

Ltac la_words := asm_run; change (as_usize (?x + -272)) with (addr x (-34)); asm_words.
Definition la_entry_u : list Linstr :=
  [SWAP t0 ksave_temp; MV t0 prmd; ANDI t0 t0 3] ++ la_SAVE_REGS true ++ [MV a0 sp; LI a1 1].

Lemma exception_entry_u m :
  la_bit (reg m crmd_ie) → exception_entry_base (la_trap 3 m) = (true, run la_entry_u (la_trap 3 m)).
Proof.
  destruct m as [rf mf]. intros Hie. unfold exception_entry_base.
  assert (reg (run [SWAP t0 ksave_temp; MV t0 prmd; ANDI t0 t0 3] (la_trap 3 (mkHart rf mf))) t0 = 3) as ->.
  { simpl in Hie. asm_run. by destruct Hie as [-> | ->]. }
  unfold la_entry_u. by rewrite !run_app.
Qed.

Lemma la_enter K k m :
  la_user_mode K k m →
  let m' := run la_entry_u (la_trap 3 m) in
  reg m' sp = addr K (-34) ∧
  (∀ r, la_visible r = true → mem m' (addr (addr K (-34)) (la_index r)) = reg m r) ∧
  la_user_prmd (mem m' (addr (addr K (-34)) 32)) ∧ reg m' tp = k tp ∧ reg m' u0 = k u0 ∧
  (∀ a, (∀ i, 0 ≤ i < 34 → a ≠ addr (addr K (-34)) i) → mem m' a = mem m a).
Proof.
  destruct m as [rf mf]. intros (HK & Hie & <- & Htp & Hu). cbn [reg mem] in *. cbv zeta. split_and!.
  - asm_run. done.
  - intros r Hr. destruct r; try done; la_words; done.
  - la_words. unfold la_user_prmd. destruct Hie as [-> | ->]; [by left|by right].
  - asm_run. done.
  - asm_run. done.
  - intros a Ha. assert (∀ i, 0 ≤ i < 34 → (a =? addr (addr (rf ksave_ksp) (-34)) i) = false) as Hf.
    { intros i Hi. by apply Z.eqb_neq, Ha. }
    la_words. rewrite !Hf by lia. done.
Qed.

(** [ertn] takes the level and the interrupt bit back from [prmd]. *)
Definition ertn (m : Lhart) : Lhart := set_reg crmd_ie (Z.shiftr (reg m prmd) 2) m.

Lemma la_leave K m :
  in_u 64 K → reg m sp = addr K (-34) → la_user_prmd (mem m (addr (addr K (-34)) 32)) →
  let m' := ertn (la_trap_return true m) in
  (∀ r, la_visible r = true → reg m' r = mem m (addr (addr K (-34)) (la_index r))) ∧
  la_user_mode K (reg m) m' ∧
  (∀ a, (∀ i, 0 ≤ i < 34 → a ≠ addr (addr K (-34)) i) → mem m' a = mem m a).
Proof.
  destruct m as [rf mf]. cbn [reg mem]. intros HK Hsp Hp. cbv zeta. split_and!; [|split_and!|].
  - intros r Hr. destruct r; try done; asm_run; rewrite Hsp; done.
  - done.
  - assert (reg (ertn (la_trap_return true (mkHart rf mf))) crmd_ie = Z.shiftr (mf (addr (rf sp) 32)) 2) as -> by done.
    rewrite Hsp. destruct Hp as [-> | ->]; [by left|by right].
  - asm_run. rewrite Hsp. change (as_usize (addr K (-34) + 272)) with (addr (addr K (-34)) 34).
    rewrite addr_addr. by apply addr_0.
  - done.
  - done.
  - done.
Qed.

#[global] Program Instance LaTrap : TrapPath la_reg := {|
  visible := la_visible;
  slot := la_index;
  frame_words := la_trapframe_words;
  ksp := sp;
  kregs := [tp; u0];
  stack_ok K := in_u 64 K;
  kernel_ready K m := True;
  user_frame f := la_user_prmd (f prmd);
  user_mode := la_user_mode;
  enter m := (exception_entry_base (la_trap 3 m)).2;
  leave m := ertn (la_trap_return true m);
|}.
Next Obligation. by intros K k m (? & _). Qed.
Next Obligation.
  intros K k m Hu. pose proof Hu as (_ & Hie & _). rewrite exception_entry_u by done.
  destruct (la_enter K k m Hu) as (? & ? & ? & ? & ? & ?). split_and!; [done..| |done].
  intros r. rewrite !elem_of_cons, elem_of_nil. by intros [->|[->|[]]].
Qed.
Next Obligation. intros K m HK Hsp _ Hf. by apply la_leave. Qed.

(** A trap of the kernel itself gets every register back. *)
Lemma la_kernel_trap m m2 :
  la_bit (reg m crmd_ie) →
  let m1 := (exception_entry_base (la_trap 0 m)).2 in
  (exception_entry_base (la_trap 0 m)).1 = false ∧
  (reg m2 sp = reg m1 sp → reg m2 tp = reg m tp → reg m2 u0 = reg m u0 →
   (∀ i, 0 ≤ i < 34 → mem m2 (addr (reg m1 sp) i) = mem m1 (addr (reg m1 sp) i)) →
   ∀ r, la_visible r = true → reg (la_trap_return false m2) r = reg m r).
Proof.
  destruct m as [rf mf], m2 as [rf2 mf2]. cbn [reg mem]. intros Hie. unfold exception_entry_base.
  assert (reg (run [SWAP t0 ksave_temp; MV t0 prmd; ANDI t0 t0 3] (la_trap 0 (mkHart rf mf))) t0 = 0) as ->.
  { asm_run. by destruct Hie as [-> | ->]. }
  cbn [Z.eqb fst snd]. split; [done|]. set (m1 := run _ (run _ _)). intros H2 Htp Hu Hm r Hr.
  assert (reg m1 sp = addr (rf sp) (-34)) as Hb by (subst m1; asm_run; done).
  rewrite Hb in H2, Hm. assert (∀ x, la_visible x = true → x ≠ tp → x ≠ u0 →
    mem m1 (addr (addr (rf sp) (-34)) (la_index x)) = rf x) as Hw.
  { intros x Hx H1 H3. subst m1. destruct x; try done; la_words; done. }
  destruct r; try done; try (asm_run; rewrite ?Htp, ?Hu; done);
    (asm_run; rewrite H2, Hm by lia; by apply (Hw _ Hr)).
Qed.

(** ** Accessors and user contexts ([context.rs]) *)

#[global] Program Instance LaAcc : Accessors la_reg := {|
  acc a := match a with
           | Arg0 => a0 | Arg1 => a1 | Arg2 => a2 | Arg3 => a3 | Arg4 => a4 | Arg5 => a5
           | Ip => era | Sp => sp | Retval => a0 | Tls => tp
           end;
|}.
Next Obligation. intros [] []; simpl; tauto || discriminate. Qed.
Definition la_set_ra (v : Z) (f : la_reg → Z) : la_reg → Z := rupd f ra v.

Definition la_UspaceContext_new (entry ustack_top arg0 : Z) : la_reg → Z :=
  let PPLV_UMODE := 3 in
  let PIE := Z.shiftl 1 2 in
  λ r, match r with sp => ustack_top | era => entry | prmd => Z.lor PPLV_UMODE PIE | a0 => arg0 | _ => 0 end.

Definition la_enter_uspace (tf kstack_top : Z) (m : Lhart) : Lhart :=
  let m := set_reg crmd_ie 0 m in
  let m := set_reg era (mem m (addr tf (la_index era))) m in
  let m := set_reg in_tf tf (set_reg in_ksp kstack_top m) in
  ertn (run ([MV sp in_tf; SWAP tp ksave_tp; SWAP u0 ksave_r21; LD tp sp 32; SWAP tp prmd; SWAP in_ksp ksave_ksp] ++
    load_block sp la_GENERAL_REGS ++ [LD tp sp 2; LD u0 sp 21; LD sp sp 3]) m).

(** User code starts with the registers of the context, and the next trap
    finds the kernel's stack and registers. *)
Lemma la_enter_uspace_ok tf K m :
  in_u 64 K → la_user_prmd (mem m (addr tf 32)) →
  let m' := la_enter_uspace tf K m in
  (∀ r, la_visible r = true → reg m' r = mem m (addr tf (la_index r))) ∧ la_user_mode K (reg m) m'.
Proof.
  destruct m as [rf mf]. cbn [reg mem]. intros HK Hp. cbv zeta. split.
  - intros r Hr. destruct r; try done; asm_run; done.
  - split_and!; try done.
    assert (reg (la_enter_uspace tf K (mkHart rf mf)) crmd_ie = Z.shiftr (mf (addr tf 32)) 2) as -> by done.
    destruct Hp as [-> | ->]; [by left|by right].
Qed.
Lemma la_new_context entry top arg : la_user_prmd (la_UspaceContext_new entry top arg prmd).
Proof. by right. Qed.

(** ** The trap handler ([trap.rs]) *)

Inductive la_cause : Type :=
  | La_Syscall | La_LoadPageFault | La_PageNonReadableFault | La_StorePageFault | La_PageModifyFault
  | La_FetchPageFault | La_PageNonExecutableFault | La_Breakpoint | La_Interrupt | La_Other.

(** The number of the lowest bit that is set; 64 for 0. *)
Fixpoint pos_trailing_zeros (p : positive) : Z := match p with xO q => 1 + pos_trailing_zeros q | _ => 0 end.
Definition trailing_zeros (z : Z) : Z := match z with Zpos p => pos_trailing_zeros p | _ => 64 end.

Section handler.
Context {W : Type} `{HH : !TrapHandlers W (la_reg → Z)}.
Abbreviation Frame := (la_reg → Z).
Abbreviation Hst := (st W LinuxError).

Definition la_handle_breakpoint (tf : Frame) : Frame := rupd tf era (as_usize (tf era + 4)).
Definition la_handle_page_fault (badv : Z) (tf : Frame) (access_flags : Z) (is_user : bool) : Hst (option Frame) :=
  let access_flags := if is_user then Z.lor access_flags USER else access_flags in
  deliver_fault badv access_flags is_user tf.
Definition loongarch64_trap_handler (cause : la_cause) (pending badv : Z) (tf : Frame) (from_user : bool) :
    Hst (option Frame) :=
  o ← match cause with
      | La_Syscall =>
          let tf := rupd tf era (as_usize (tf era + 4)) in
          r ← on_syscall (tf a7) tf;
          mret match r with Some (v, tf) => Some (rupd tf a0 (as_usize v)) | None => None end
      | La_LoadPageFault | La_PageNonReadableFault => la_handle_page_fault badv tf READ from_user
      | La_StorePageFault | La_PageModifyFault => la_handle_page_fault badv tf WRITE from_user
      | La_FetchPageFault | La_PageNonExecutableFault => la_handle_page_fault badv tf EXECUTE from_user
      | La_Breakpoint => mret (Some (la_handle_breakpoint tf))
      | La_Interrupt => on_irq (trailing_zeros pending);; mret (Some tf)
      | La_Other => st_panic
      end;
  after_trap from_user o.
End handler.

#[global] Program Instance LaSyscall : SyscallPath la_reg := {|
  sc_num := a7;
  sc_step := 4;
  sc_pre f := rupd f era (as_usize (f era + 4));
  sc_handler W HH tf := loongarch64_trap_handler La_Syscall 0 0 tf true;
|}.
Next Obligation. done. Qed.
Next Obligation. intros f r _. case_decide as He; [subst; apply rupd_eq|by apply rupd_ne]. Qed.
Next Obligation.
  intros W HH f w. unfold loongarch64_trap_handler. unfold mbind, st_bind. cbv zeta.
  by destruct (on_syscall _ _ w) as [[[[v g]|]|e|] w'].
Qed.

(** ** Switching tasks ([context.rs])

    [TaskContext]: the words of the registers [context_switch] keeps, with the
    thread pointer and the page table after them. *)
Definition la_saved : list (la_reg * Z) :=
  [(ra, 0); (sp, 1); (s0, 2); (s1, 3); (s2, 4); (s3, 5); (s4, 6); (s5, 7); (s6, 8); (s7, 9); (s8, 10); (fp, 11)].
Definition la_context_switch : list Linstr := save_block a0 la_saved ++ load_block a1 (rev la_saved).
Definition la_saved_index (r : la_reg) : Z :=
  match r with
  | ra => 0 | sp => 1 | s0 => 2 | s1 => 3 | s2 => 4 | s3 => 5 | s4 => 6 | s5 => 7 | s6 => 8 | s7 => 9
  | s8 => 10 | fp => 11 | _ => 0
  end.
Definition la_TaskContext_init (ctx entry kstack_top tls_area : Z) (m : Lhart) : Lhart :=
  set_word (addr ctx 12) tls_area (set_word (addr ctx 0) entry (set_word (addr ctx 1) kstack_top m)).

#[global] Program Instance LaSwitch : ContextSwitch la_reg := {|
  callee := la_saved.*1;
  prev_arg := a0;
  next_arg := a1;
  live m := reg m;
  stored C m r := mem m (addr C (la_saved_index r));
  foot C m a := ∃ i, 0 ≤ i < 12 ∧ a = addr C i;
  switch_writes m a := ∃ i, 0 ≤ i < 12 ∧ a = addr (reg m a0) i;
  context_switch := run la_context_switch;
|}.
Next Obligation.
  intros C m m' Hm. split; [|done]. intros r. apply Hm. exists (la_saved_index r). by destruct r.
Qed.
Next Obligation. switch_frame_by 12 a0. Qed.
Next Obligation. switch_saves_by. Qed.
Next Obligation. switch_loads_by 12 a0 a1. Qed.
