(* ===== verification/Aarch.v ===== *)
(** * Traps and task switches on AArch64

    [src/.arceos/modules/axhal/src/arch/aarch64], as Riscv for its
    architecture. *)

From S2P Require Import Prelude Abi MemBase Asm TrapPath TaskSwitch.

#[local] Open Scope Z_scope.

(** The registers of [TrapFrame] in its order: general ones, the stack pointer
    and the thread pointer of the user, the return address and the status; then
    the stack pointer of the kernel, the other system registers the code uses,
    the pointer to the current task of the CPU, and the registers of operands
    of inline assembly. *)
Module A64.
Inductive a64_reg : Type :=
  | x0 | x1 | x2 | x3 | x4 | x5 | x6 | x7 | x8 | x9 | x10 | x11 | x12 | x13 | x14 | x15
  | x16 | x17 | x18 | x19 | x20 | x21 | x22 | x23 | x24 | x25 | x26 | x27 | x28 | x29 | x30
  | sp_el0 | tpidr_el0 | elr_el1 | spsr_el1 | sp | tpidrro_el0 | ttbr0_el1 | task_ptr | daif
  | q (n : N) | fpcr | fpsr.
Definition a64_index (r : a64_reg) : Z :=
  match r with
  | x0 => 0 | x1 => 1 | x2 => 2 | x3 => 3 | x4 => 4 | x5 => 5 | x6 => 6 | x7 => 7 | x8 => 8 | x9 => 9
  | x10 => 10 | x11 => 11 | x12 => 12 | x13 => 13 | x14 => 14 | x15 => 15 | x16 => 16 | x17 => 17 | x18 => 18 | x19 => 19
  | x20 => 20 | x21 => 21 | x22 => 22 | x23 => 23 | x24 => 24 | x25 => 25 | x26 => 26 | x27 => 27 | x28 => 28 | x29 => 29
  | x30 => 30
  | sp_el0 => 31 | tpidr_el0 => 32 | elr_el1 => 33 | spsr_el1 => 34 | sp => 35 | tpidrro_el0 => 36
  | ttbr0_el1 => 37 | task_ptr => 38 | daif => 39 | fpcr => 40 | fpsr => 41 | q n => 42 + Z.of_N n
  end.
End A64.
Import A64.

Definition a64_code (r : a64_reg) : N := match r with q n => (42 + n)%N | _ => Z.to_N (a64_index r) end.
Lemma a64_code_inj a b : a64_code a = a64_code b → a = b.
Proof. destruct a, b; simpl; intros He; try done; try lia. f_equal. lia. Qed.
#[global] Instance A64Regs : Regs a64_reg := {| code := a64_code; code_inj := a64_code_inj |}.
Abbreviation Ainstr := (@instr a64_reg).
Abbreviation Ahart := (@Hart a64_reg).

(** ** Entry and exit ([trap.S])

    [stp] and [ldp] are two accesses; a load of the base comes last. *)
Definition a64_trapframe_words : Z := 35.
Definition STP (a b rb : a64_reg) (off : Z) : list Ainstr := [ST a rb off; ST b rb (off + 1)].
Definition LDP (a b rb : a64_reg) (off : Z) : list Ainstr := [LD b rb (off + 1); LD a rb off].
(** [cache_current_task_ptr] also uses registers that are saved already. *)
Definition a64_SAVE_REGS : list Ainstr :=
  [ADDI sp sp (- (8 * a64_trapframe_words))] ++
  STP x0 x1 sp 0 ++ STP x2 x3 sp 2 ++ STP x4 x5 sp 4 ++
  STP x6 x7 sp 6 ++ STP x8 x9 sp 8 ++ STP x10 x11 sp 10 ++
  STP x12 x13 sp 12 ++ STP x14 x15 sp 14 ++ STP x16 x17 sp 16 ++
  STP x18 x19 sp 18 ++ STP x20 x21 sp 20 ++ STP x22 x23 sp 22 ++
  STP x24 x25 sp 24 ++ STP x26 x27 sp 26 ++ STP x28 x29 sp 28 ++
  [ST x30 sp 30; MV x9 sp_el0; MV x10 tpidr_el0; MV x11 elr_el1; MV x12 spsr_el1] ++
  STP x9 x10 sp 31 ++ STP x11 x12 sp 33 ++
  [MV x1 tpidrro_el0; MV tpidr_el0 x1; MV sp_el0 task_ptr].
Definition a64_RESTORE_REGS : list Ainstr :=
  [MV x1 tpidr_el0; MV tpidrro_el0 x1] ++ LDP x11 x12 sp 33 ++ LDP x9 x10 sp 31 ++
  [MV sp_el0 x9; MV tpidr_el0 x10; MV elr_el1 x11; MV spsr_el1 x12; LD x30 sp 30] ++
  LDP x28 x29 sp 28 ++ LDP x26 x27 sp 26 ++ LDP x24 x25 sp 24 ++
  LDP x22 x23 sp 22 ++ LDP x20 x21 sp 20 ++ LDP x18 x19 sp 18 ++
  LDP x16 x17 sp 16 ++ LDP x14 x15 sp 14 ++ LDP x12 x13 sp 12 ++
  LDP x10 x11 sp 10 ++ LDP x8 x9 sp 8 ++ LDP x6 x7 sp 6 ++
  LDP x4 x5 sp 4 ++ LDP x2 x3 sp 2 ++ LDP x0 x1 sp 0 ++
  [ADDI sp sp (8 * a64_trapframe_words)].
(** The arguments of the handler: the frame and where the trap came from. *)
Definition a64_entry (source : Z) : list Ainstr := a64_SAVE_REGS ++ [MV x0 sp; LI x1 source].

(** ** The entry stores the registers of the user, the exit loads them *)

Definition EL0t (spsr : Z) : Prop := Z.land spsr 15 = 0.
Definition a64_user_mode (K : Z) (k : a64_reg → Z) (m : Ahart) : Prop :=
  in_u 64 K ∧ reg m sp = K ∧ reg m tpidrro_el0 = k tpidr_el0 ∧ EL0t (reg m spsr_el1).
Definition a64_visible (r : a64_reg) : bool :=
  match r with
  | sp | tpidrro_el0 | ttbr0_el1 | task_ptr | daif | q _ | fpcr | fpsr => false
  | _ => true
  end.

Ltac a64_words := asm_run; change (as_usize (?x + -280)) with (addr x (-35)); cbn [Z.add Pos.add Pos.succ]; asm_words.

Lemma a64_enter K k m :
  a64_user_mode K k m →
  let m' := run (a64_entry 2) m in
  reg m' sp = addr K (-35) ∧
  (∀ r, a64_visible r = true → mem m' (addr (addr K (-35)) (a64_index r)) = reg m r) ∧
  reg m' tpidr_el0 = k tpidr_el0 ∧ reg m' sp_el0 = reg m task_ptr ∧
  (∀ a, (∀ i, 0 ≤ i < 35 → a ≠ addr (addr K (-35)) i) → mem m' a = mem m a).
Proof.
  destruct m as [rf mf]. intros (HK & <- & Htp & Hel). cbn [reg mem] in *. cbv zeta. split_and!.
  - asm_run. done.
  - intros r Hr. destruct r; try done; a64_words; done.
  - asm_run. done.
  - asm_run. done.
  - intros a Ha. assert (∀ i, 0 ≤ i < 35 → (a =? addr (addr (rf sp) (-35)) i) = false) as Hf.
    { intros i Hi. by apply Z.eqb_neq, Ha. }
    a64_words. rewrite !Hf by lia. done.
Qed.
Lemma a64_leave K m :
  in_u 64 K → reg m sp = addr K (-35) → EL0t (mem m (addr (addr K (-35)) 34)) →
  let m' := run a64_RESTORE_REGS m in
  (∀ r, a64_visible r = true → reg m' r = mem m (addr (addr K (-35)) (a64_index r))) ∧
  a64_user_mode K (reg m) m' ∧ mem m' = mem m.
Proof.
  destruct m as [rf mf]. cbn [reg mem]. intros HK Hsp Hp. cbv zeta. split_and!; [|split_and!|].
  - intros r Hr. destruct r; try done; a64_words; rewrite Hsp; done.
  - done.
  - asm_run. rewrite Hsp. change (as_usize (addr K (-35) + 280)) with (addr (addr K (-35)) 35).
    rewrite addr_addr. by apply addr_0.
  - done.
  - assert (reg (run a64_RESTORE_REGS (mkHart rf mf)) spsr_el1 = mf (addr (rf sp) 34)) as ->; [|by rewrite Hsp].
    a64_words. done.
  - done.
Qed.

#[global] Program Instance A64Trap : TrapPath a64_reg := {|
  visible := a64_visible;
  slot := a64_index;
  frame_words := a64_trapframe_words;
  ksp := sp;
  kregs := [tpidr_el0];
  stack_ok K := in_u 64 K;
  kernel_ready K m := True;
  user_frame f := EL0t (f spsr_el1);
  user_mode := a64_user_mode;
  enter m := run (a64_entry 2) m;
  leave m := run a64_RESTORE_REGS m;
|}.
Next Obligation. by intros K k m (? & _). Qed.
Next Obligation.
  intros K k m Hu. destruct (a64_enter K k m Hu) as (? & Hv & ? & ? & ?). split_and!; [done..| | |done].
  - change (EL0t (mem (run (a64_entry 2) m) (addr (addr K (-35)) (a64_index spsr_el1)))).
    rewrite Hv by done. apply Hu.
  - intros r. rewrite !elem_of_cons, elem_of_nil. by intros [->|[]].
Qed.
Next Obligation.
  intros K m HK Hsp _ Hf. destruct (a64_leave K m HK Hsp Hf) as (? & ? & Hm). split_and!; [done..|].
  intros a _. by rewrite Hm.
Qed.

(** A trap of the kernel itself gets every register back. *)
Lemma a64_kernel_trap m m2 :
  in_u 64 (reg m sp) →
  let m1 := run (a64_entry 1) m in
  reg m2 sp = reg m1 sp →
  (∀ i, 0 ≤ i < 35 → mem m2 (addr (reg m1 sp) i) = mem m1 (addr (reg m1 sp) i)) →
  (∀ r, a64_visible r = true → reg (run a64_RESTORE_REGS m2) r = reg m r) ∧
  reg (run a64_RESTORE_REGS m2) sp = reg m sp.
Proof.
  destruct m as [rf mf], m2 as [rf2 mf2]. cbn [reg mem]. intros Hin. cbv zeta. intros H2 Hm.
  assert (reg (run (a64_entry 1) (mkHart rf mf)) sp = addr (rf sp) (-35)) as Hb by (asm_run; done).
  rewrite Hb in H2, Hm.
  assert (∀ x, a64_visible x = true →
    mem (run (a64_entry 1) (mkHart rf mf)) (addr (addr (rf sp) (-35)) (a64_index x)) = rf x) as Hw.
  { intros x Hx. destruct x; try done; a64_words; done. }
  split.
  - intros r Hr. rewrite <-(Hw r Hr). assert (0 ≤ a64_index r < 35) as Hi by (by destruct r).
    rewrite <-Hm by done. destruct r; try done; a64_words; rewrite H2; done.
  - asm_run. rewrite H2. change (as_usize (addr (rf sp) (-35) + 280)) with (addr (addr (rf sp) (-35)) 35).
    rewrite addr_addr. by apply addr_0.
Qed.

(** ** Accessors and user contexts ([context.rs]) *)

#[global] Program Instance A64Acc : Accessors a64_reg := {|
  acc a := match a with
           | Arg0 => x0 | Arg1 => x1 | Arg2 => x2 | Arg3 => x3 | Arg4 => x4 | Arg5 => x5
           | Ip => elr_el1 | Sp => sp_el0 | Retval => x0 | Tls => tpidr_el0
           end;
|}.
Next Obligation. intros [] []; simpl; tauto || discriminate. Qed.
Definition a64_set_ra (v : Z) (f : a64_reg → Z) : a64_reg → Z := rupd f x30 v.

(** The fields of [SPSR_EL1]. *)
Definition SPSR_D : Z := Z.shiftl 1 9.
Definition SPSR_A : Z := Z.shiftl 1 8.
Definition SPSR_F : Z := Z.shiftl 1 6.
Definition a64_UspaceContext_new (entry ustack_top arg0 : Z) : a64_reg → Z := λ r,
  match r with
  | x0 => arg0 | sp_el0 => ustack_top | elr_el1 => entry
  | spsr_el1 => Z.lor (Z.lor SPSR_D SPSR_A) SPSR_F
  | _ => 0
  end.

(** The operands are in [x0] and [x1]; [disable_irqs] sets the mask. *)
Definition a64_enter_uspace (tf kstack_top : Z) (m : Ahart) : Ahart :=
  let m := set_reg daif (Z.lor (reg m daif) 128) m in
  let m := set_reg x0 tf (set_reg x1 kstack_top m) in
  run ([MV sp x1; MV x1 tpidr_el0; MV tpidrro_el0 x1] ++ LDP x11 x12 x0 33 ++ LDP x9 x10 x0 31 ++
    [MV sp_el0 x9; MV tpidr_el0 x10; MV elr_el1 x11; MV spsr_el1 x12; LD x30 x0 30] ++
    LDP x28 x29 x0 28 ++ LDP x26 x27 x0 26 ++ LDP x24 x25 x0 24 ++ LDP x22 x23 x0 22 ++ LDP x20 x21 x0 20 ++
    LDP x18 x19 x0 18 ++ LDP x16 x17 x0 16 ++ LDP x14 x15 x0 14 ++ LDP x12 x13 x0 12 ++ LDP x10 x11 x0 10 ++
    LDP x8 x9 x0 8 ++ LDP x6 x7 x0 6 ++ LDP x4 x5 x0 4 ++ LDP x2 x3 x0 2 ++ LDP x0 x1 x0 0) m.

Lemma a64_enter_uspace_ok tf K m :
  in_u 64 K → EL0t (mem m (addr tf 34)) →
  let m' := a64_enter_uspace tf K m in
  (∀ r, a64_visible r = true → reg m' r = mem m (addr tf (a64_index r))) ∧ a64_user_mode K (reg m) m'.
Proof.
  destruct m as [rf mf]. cbn [reg mem]. intros HK Hp. cbv zeta. split.
  - intros r Hr. destruct r; try done; a64_words; done.
  - by split_and!.
Qed.
Lemma a64_new_context entry top arg : EL0t (a64_UspaceContext_new entry top arg spsr_el1).
Proof. done. Qed.

(** ** The trap handlers ([trap.rs]) *)

Inductive TrapSource : Type := CurrentSpEl0 | CurrentSpElx | LowerAArch64 | LowerAArch32.
Definition is_from_user (s : TrapSource) : bool :=
  match s with LowerAArch64 | LowerAArch32 => true | _ => false end.
Inductive a64_class : Type :=
  | SVC64 | InstrAbortLowerEL | InstrAbortCurrentEL | DataAbortLowerEL | DataAbortCurrentEL | Brk64 | OtherClass.

Section handler.
Context {W : Type} `{HH : !TrapHandlers W (a64_reg → Z)}.
Abbreviation Frame := (a64_reg → Z).
Abbreviation Hst := (st W LinuxError).

Definition handle_irq_exception (tf : Frame) (source : TrapSource) : Hst (option Frame) :=
  on_irq 0;; after_trap (is_from_user source) (Some tf).
(** Translation and permission faults. *)
Definition handled_fault (iss : Z) : bool :=
  let c := Z.land iss 0x3c in (c =? 0x4) || (c =? 0xc).
Definition handle_instruction_abort (far : Z) (tf : Frame) (iss : Z) (is_user : bool) : Hst (option Frame) :=
  let access_flags := if is_user then Z.lor EXECUTE USER else EXECUTE in
  if negb (handled_fault iss) then st_panic else deliver_fault far access_flags is_user tf.
Definition handle_data_abort (far : Z) (tf : Frame) (iss : Z) (is_user : bool) : Hst (option Frame) :=
  let wnr := negb (Z.land iss (Z.shiftl 1 6) =? 0) in
  let cm := negb (Z.land iss (Z.shiftl 1 8) =? 0) in
  let access_flags := if wnr && negb cm then WRITE else READ in
  let access_flags := if is_user then Z.lor access_flags USER else access_flags in
  if negb (handled_fault iss) then st_panic else deliver_fault far access_flags is_user tf.
Definition handle_sync_exception (class : a64_class) (iss far : Z) (tf : Frame) (source : TrapSource) :
    Hst (option Frame) :=
  o ← match class with
      | SVC64 =>
          r ← on_syscall (tf x8) tf;
          mret match r with Some (v, tf) => Some (rupd tf x0 (as_usize v)) | None => None end
      | InstrAbortLowerEL => handle_instruction_abort far tf iss true
      | InstrAbortCurrentEL => handle_instruction_abort far tf iss false
      | DataAbortLowerEL => handle_data_abort far tf iss true
      | DataAbortCurrentEL => handle_data_abort far tf iss false
      | Brk64 => mret (Some (rupd tf elr_el1 (as_usize (tf elr_el1 + 4))))
      | OtherClass => st_panic
      end;
  after_trap (is_from_user source) o.
End handler.

#[global] Program Instance A64Syscall : SyscallPath a64_reg := {|
  sc_num := x8;
  sc_step := 0;
  sc_pre f := f;
  sc_handler W HH tf := handle_sync_exception SVC64 0 0 tf LowerAArch64;
|}.
Next Obligation. done. Qed.
Next Obligation. intros f r Hf. case_decide as He; [subst; rewrite Z.add_0_r; by rewrite wrapu_id|done]. Qed.
Next Obligation.
  intros W HH f w. unfold handle_sync_exception. unfold mbind, st_bind.
  by destruct (on_syscall _ _ w) as [[[[v g]|]|e|] w'].
Qed.

(** ** Switching tasks ([context.rs])

    [TaskContext]: the stack pointer, [x19] to [x30], the thread pointer and
    the page table. *)
Definition a64_context_switch : list Ainstr :=
  STP x29 x30 x0 11 ++ STP x27 x28 x0 9 ++ STP x25 x26 x0 7 ++ STP x23 x24 x0 5 ++ STP x21 x22 x0 3 ++
  STP x19 x20 x0 1 ++ [MV x19 sp; ST x19 x0 0; LD x19 x1 0; MV sp x19] ++
  LDP x19 x20 x1 1 ++ LDP x21 x22 x1 3 ++ LDP x23 x24 x1 5 ++ LDP x25 x26 x1 7 ++ LDP x27 x28 x1 9 ++
  LDP x29 x30 x1 11.
Definition a64_saved_index (r : a64_reg) : Z :=
  match r with
  | x19 => 1 | x20 => 2 | x21 => 3 | x22 => 4 | x23 => 5 | x24 => 6 | x25 => 7 | x26 => 8 | x27 => 9
  | x28 => 10 | x29 => 11 | x30 => 12 | _ => 0
  end.
Definition a64_TaskContext_init (ctx entry kstack_top tls_area : Z) (m : Ahart) : Ahart :=
  set_word (addr ctx 13) tls_area (set_word (addr ctx 12) entry (set_word (addr ctx 0) kstack_top m)).
#[global] Program Instance A64Switch : ContextSwitch a64_reg := {|
  callee := [sp; x19; x20; x21; x22; x23; x24; x25; x26; x27; x28; x29; x30];
  prev_arg := x0;
  next_arg := x1;
  live m := reg m;
  stored C m r := mem m (addr C (a64_saved_index r));
  foot C m a := ∃ i, 0 ≤ i < 13 ∧ a = addr C i;
  switch_writes m a := ∃ i, 0 ≤ i < 13 ∧ a = addr (reg m x0) i;
  context_switch := run a64_context_switch;
|}.
Next Obligation.
  intros C m m' Hm. split; [|done]. intros r. apply Hm. exists (a64_saved_index r). by destruct r.
Qed.
Next Obligation. switch_frame_by 13 x0. Qed.
Next Obligation. switch_saves_by. Qed.
Next Obligation. switch_loads_by 13 x0 x1. Qed.

(** [fpstate_switch]: a 128-bit register is one value, at the address of its
    lower word; the control and status registers are the words 64 and 65. *)
Definition a64_fp_regs : list (a64_reg * Z) := (λ n, (q (N.of_nat n), 2 * Z.of_nat n)) <$> seq 0 32.
Definition fpstate_switch : list Ainstr :=
  [MV x9 fpcr; MV x10 fpsr] ++ save_block x0 a64_fp_regs ++ [ST x9 x0 64; ST x10 x0 65] ++
  load_block x1 a64_fp_regs ++ [LD x9 x1 64; LD x10 x1 65; MV fpcr x9; MV fpsr x10].

Lemma fpstate_switch_ok m :
  (∀ i j, 0 ≤ i < 66 → 0 ≤ j < 66 → addr (reg m x1) i ≠ addr (reg m x0) j) →
  let m' := run fpstate_switch m in
  (∀ n, (n < 32)%N → mem m' (addr (reg m x0) (2 * Z.of_N n)) = reg m (q n) ∧
    reg m' (q n) = mem m (addr (reg m x1) (2 * Z.of_N n))) ∧
  mem m' (addr (reg m x0) 64) = reg m fpcr ∧ mem m' (addr (reg m x0) 65) = reg m fpsr ∧
  reg m' fpcr = mem m (addr (reg m x1) 64) ∧ reg m' fpsr = mem m (addr (reg m x1) 65).
Proof.
  destruct m as [rf mf]. cbn [reg mem]. intros Hd. cbv zeta.
  assert (∀ i j, 0 ≤ i < 66 → 0 ≤ j < 66 → (addr (rf x1) i =? addr (rf x0) j) = false) as Hf.
  { intros i j Hi Hj. by apply Z.eqb_neq, Hd. }
  split_and!; [|asm_run; asm_words; done..|asm_run; by rewrite !Hf by lia|asm_run; by rewrite !Hf by lia].
  intros n Hn. rewrite <-(N2Nat.id n). assert (N.to_nat n < 32)%nat as Hk by lia. revert Hk.
  generalize (N.to_nat n) as k. clear n Hn. intros k Hk.
  do 32 (destruct k as [|k]; [split; [asm_run; asm_words; done|asm_run; by rewrite !Hf by lia]|]). lia.
Qed.
