(* ===== verification/X86.v ===== *)
(** * Traps and task switches on x86-64

    [src/.arceos/modules/axhal/src/arch/x86_64], as Riscv for its architecture.
    User code enters the kernel by an interrupt or exception ([trap.S]) or by
    the instruction [syscall] ([syscall.S]); what the hardware does then is
    part of the model. *)

From S2P Require Import Prelude Abi MemBase Asm TrapPath TaskSwitch.

#[local] Open Scope Z_scope.

(** The fields of [TrapFrame] in their order; then the bases of the segment
    [gs] in use and in [IA32_KERNEL_GSBASE], the stack of the task state
    segment, the other words the CPU has for itself, the page table, a register
    for immediate operands, and the operand of inline assembly. *)
Module X64.
Inductive x86_reg : Type :=
  | rax | rcx | rdx | rbx | rbp | rsi | rdi | r8 | r9 | r10 | r11 | r12 | r13 | r14 | r15
  | fs_base | pad | vector | error_code | rip | cs | rflags | rsp | ss
  | gs | kernel_gs | tss_rsp0 | user_rsp | kernel_fs | cr3 | imm | in_tf.
Definition x86_index (r : x86_reg) : Z :=
  match r with
  | rax => 0 | rcx => 1 | rdx => 2 | rbx => 3 | rbp => 4 | rsi => 5 | rdi => 6 | r8 => 7 | r9 => 8
  | r10 => 9 | r11 => 10 | r12 => 11 | r13 => 12 | r14 => 13 | r15 => 14 | fs_base => 15 | pad => 16
  | vector => 17 | error_code => 18 | rip => 19 | cs => 20 | rflags => 21 | rsp => 22 | ss => 23
  | gs => 24 | kernel_gs => 25 | tss_rsp0 => 26 | user_rsp => 27 | kernel_fs => 28 | cr3 => 29 | imm => 30
  | in_tf => 31
  end.
End X64.
Import X64.

Definition x86_code (r : x86_reg) : N := Z.to_N (x86_index r).
Lemma x86_code_inj a b : x86_code a = x86_code b → a = b.
Proof. by destruct a, b. Qed.
#[global] Instance X86Regs : Regs x86_reg := {| code := x86_code; code_inj := x86_code_inj |}.
Abbreviation Xinstr := (@instr x86_reg).
Abbreviation Xhart := (@Hart x86_reg).

(** Selectors of the descriptor table ([gdt.rs]): index and privilege level. *)
Definition selector (index rpl : Z) : Z := Z.lor (Z.shiftl index 3) rpl.
Definition KCODE64_SELECTOR : Z := selector 2 0.
Definition UDATA_SELECTOR : Z := selector 5 3.
Definition UCODE64_SELECTOR : Z := selector 6 3.

(** ** Entry and exit by interrupts ([trap.S]) *)

Definition push (r : x86_reg) : Xinstr := PUSH rsp r.
Definition pop (r : x86_reg) : Xinstr := POP rsp r.
Definition push_imm (v : Z) : list Xinstr := [LI imm v; push imm].
Definition PUSH_ALL : list Xinstr :=
  push <$> [r15; r14; r13; r12; r11; r10; r9; r8; rdi; rsi; rbp; rbx; rdx; rcx; rax].
Definition POP_ALL : list Xinstr :=
  pop <$> [rax; rcx; rdx; rbx; rbp; rsi; rdi; r8; r9; r10; r11; r12; r13; r14; r15].

(** The hardware switches to the kernel stack, whose end is a multiple of 16,
    and stores where it came from; some exceptions have an error code, for the others the code of the vector
    stores 0. *)
Definition has_error_code (v : Z) : bool := (v =? 8) || ((10 <=? v) && (v <=? 14)) || (v =? 17).
Definition x86_interrupt (v err : Z) (m : Xhart) : Xhart :=
  let m := set_reg imm (reg m rsp) m in
  let m := set_reg rsp (reg m tss_rsp0) m in
  let m := run [push ss; push imm; push rflags; push cs; push rip] m in
  let m := if has_error_code v then run (push_imm err) m else m in
  set_reg cs KCODE64_SELECTOR m.
Definition DEF_HANDLER (v : Z) : list Xinstr :=
  if has_error_code v then push_imm v else push_imm 0 ++ push_imm v.

Definition in_user_code (cs : Z) : bool := Z.land cs 3 =? 3.
(** [swapgs] when the saved code segment is one of user space: the test looks
    at the lowest two bits. *)
Definition swapgs_if_user (m : Xhart) : Xhart :=
  if Z.land (mem m (addr (reg m rsp) 3)) 3 =? 0 then m else step m (SWAP gs kernel_gs).
Definition Ltrap_common (m : Xhart) : Xhart :=
  run ([ADDI rsp rsp (-16)] ++ PUSH_ALL ++ [MV rdi rsp]) (swapgs_if_user m).
Definition iretq (m : Xhart) : Xhart :=
  let b := reg m rsp in
  let w i := mem m (addr b i) in
  set_reg rip (w 0) (set_reg cs (w 1) (set_reg rflags (w 2) (set_reg rsp (w 3) (set_reg ss (w 4) m)))).
Definition Ltrap_return (m : Xhart) : Xhart :=
  let m := run (POP_ALL ++ [ADDI rsp rsp 16]) m in
  iretq (step (swapgs_if_user m) (ADDI rsp rsp 16)).

(** ** Entry and exit by [syscall] ([syscall.S]) *)

(** The hardware leaves the address of the next instruction in [rcx] and the
    flags in [r11], and [sysretq] takes them from there. *)
Definition x86_syscall (m : Xhart) : Xhart :=
  set_reg rcx (reg m rip) (set_reg r11 (reg m rflags) (set_reg cs KCODE64_SELECTOR m)).
Definition syscall_entry : list Xinstr :=
  [SWAP gs kernel_gs; MV user_rsp rsp; MV rsp tss_rsp0; ADDI rsp rsp (-8); push user_rsp; push r11] ++
  push_imm UCODE64_SELECTOR ++ [push rcx; ADDI rsp rsp (-32)] ++ PUSH_ALL ++ [MV rdi rsp].
Definition syscall_return : list Xinstr :=
  POP_ALL ++ [ADDI rsp rsp 72; LD rcx rsp (-5); LD r11 rsp (-3); LD rsp rsp (-2); SWAP gs kernel_gs].
Definition sysretq (m : Xhart) : Xhart :=
  set_reg rip (reg m rcx) (set_reg rflags (Z.lor (Z.land (reg m r11) 0x3c7fd7) 2)
    (set_reg cs UCODE64_SELECTOR (set_reg ss UDATA_SELECTOR m))).

(** ** The thread pointer ([tls.rs])

    The handlers store the user's in the frame, at the address in [rdi], before
    anything else, and load it back last; with [tls] the kernel has its own. *)
Definition switch_to_kernel_fs_base (tls : bool) (tf : Z) (m : Xhart) : Xhart :=
  if in_user_code (mem m (addr tf (x86_index cs))) then
    let m := set_word (addr tf (x86_index fs_base)) (reg m fs_base) m in
    if tls then set_reg fs_base (reg m kernel_fs) m else m
  else m.
Definition switch_to_user_fs_base (tls : bool) (tf : Z) (m : Xhart) : Xhart :=
  if in_user_code (mem m (addr tf (x86_index cs))) then
    let m := if tls then set_reg kernel_fs (reg m fs_base) m else m in
    set_reg fs_base (mem m (addr tf (x86_index fs_base))) m
  else m.

(** ** The entries store the registers of the user, the exits load them *)

Ltac x86_words :=
  asm_run;
  repeat match goal with
         | |- context [as_usize (?x + -8)] => change (as_usize (x + -8)) with (addr x (-1))
         | |- context [as_usize (?x + -16)] => change (as_usize (x + -16)) with (addr x (-2))
         | |- context [as_usize (?x + -32)] => change (as_usize (x + -32)) with (addr x (-4))
         | |- context [as_usize (?x + 16)] => change (as_usize (x + 16)) with (addr x 2)
         | |- context [as_usize (?x + 72)] => change (as_usize (x + 72)) with (addr x 9)
         end;
  rewrite ?addr_addr;
  cbn [Z.add Z.pos_sub Pos.add Pos.succ Pos.pred_double Pos.add_carry Z.succ_double Z.pred_double Z.double].

Section paths.
Context (tls : bool).
Definition x86_user_mode (K : Z) (k : x86_reg → Z) (m : Xhart) : Prop :=
  in_u 64 K ∧ reg m tss_rsp0 = K ∧ reg m kernel_gs = k gs ∧ in_user_code (reg m cs) = true ∧
  (tls = true → reg m kernel_fs = k fs_base).
Definition x86_visible (r : x86_reg) : bool :=
  match r with
  | pad | vector | error_code | gs | kernel_gs | tss_rsp0 | user_rsp | kernel_fs | cr3 | imm | in_tf => false
  | _ => true
  end.

Definition arrive (v err : Z) (m : Xhart) : Xhart := run (DEF_HANDLER v) (x86_interrupt v err m).
Definition trap_entry (v err : Z) (m : Xhart) : Xhart := Ltrap_common (arrive v err m).

Definition x86_general (r : x86_reg) : bool :=
  match r with
  | vector | error_code | rip | cs | rflags | rsp | ss | pad | imm => false
  | _ => true
  end.
Lemma arrive_ok v err m :
  let K := reg m tss_rsp0 in
  let m' := arrive v err m in
  reg m' rsp = addr K (-7) ∧ (∀ r, x86_general r = true → reg m' r = reg m r) ∧
  mem m' (addr K (-7)) = v ∧ mem m' (addr K (-6)) = (if has_error_code v then err else 0) ∧
  mem m' (addr K (-5)) = reg m rip ∧ mem m' (addr K (-4)) = reg m cs ∧ mem m' (addr K (-3)) = reg m rflags ∧
  mem m' (addr K (-2)) = reg m rsp ∧ mem m' (addr K (-1)) = reg m ss ∧
  (∀ a, (∀ i, -7 ≤ i < 0 → a ≠ addr K i) → mem m' a = mem m a).
Proof.
  destruct m as [rf mf]. cbn [reg mem]. cbv zeta. unfold arrive, DEF_HANDLER, x86_interrupt.
  destruct (has_error_code v); split_and!; try (x86_words; asm_words; done); try (intros r Hr; by destruct r).
  all: intros a Ha; assert (∀ i, -7 ≤ i < 0 → (a =? addr (rf tss_rsp0) i) = false) as Hf
    by (intros i Hi; by apply Z.eqb_neq, Ha).
  all: x86_words; by rewrite !Hf by lia.
Qed.

Definition x86_pushed (r : x86_reg) : bool := x86_index r <? 15.
(** The general registers go on the stack in the order of the frame. *)
Lemma PUSH_ALL_ok K m :
  reg m rsp = addr K (-9) →
  let m' := run (PUSH_ALL ++ [MV rdi rsp]) m in
  reg m' rsp = addr K (-24) ∧ reg m' rdi = addr K (-24) ∧
  (∀ r, r ≠ rsp → r ≠ rdi → reg m' r = reg m r) ∧
  (∀ r, x86_pushed r = true → mem m' (addr K (-24 + x86_index r)) = reg m r) ∧
  (∀ i, -9 ≤ i < 0 → mem m' (addr K i) = mem m (addr K i)) ∧
  (∀ a, (∀ i, -24 ≤ i < 0 → a ≠ addr K i) → mem m' a = mem m a).
Proof.
  destruct m as [rf mf]. cbn [reg mem]. intros Hsp. cbv zeta. split_and!.
  - x86_words. rewrite Hsp, ?addr_addr. done.
  - x86_words. rewrite Hsp, ?addr_addr. done.
  - intros r H1 H2. destruct r; done.
  - intros r Hr. destruct r; try discriminate Hr; x86_words; rewrite Hsp, ?addr_addr; x86_words; asm_words; done.
  - intros i Hi. x86_words. rewrite Hsp, ?addr_addr. x86_words. rewrite !addr_eqb by (unfold near; lia).
    repeat match goal with |- context [i =? ?k] => rewrite (proj2 (Z.eqb_neq i k)) by lia end. done.
  - intros a Ha. assert (∀ i, -24 ≤ i < 0 → (a =? addr K i) = false) as Hf
      by (intros i Hi; by apply Z.eqb_neq, Ha).
    x86_words. rewrite Hsp, ?addr_addr. x86_words. by rewrite !Hf by lia.
Qed.

Lemma Ltrap_common_ok K m :
  reg m rsp = addr K (-7) → Z.land (mem m (addr K (-4))) 3 = 3 →
  let m' := Ltrap_common m in
  reg m' rsp = addr K (-24) ∧ reg m' rdi = addr K (-24) ∧ reg m' gs = reg m kernel_gs ∧
  reg m' kernel_gs = reg m gs ∧ reg m' fs_base = reg m fs_base ∧ reg m' kernel_fs = reg m kernel_fs ∧
  reg m' tss_rsp0 = reg m tss_rsp0 ∧
  (∀ r, x86_pushed r = true → mem m' (addr K (-24 + x86_index r)) = reg m r) ∧
  (∀ i, -7 ≤ i < 0 → mem m' (addr K i) = mem m (addr K i)) ∧
  (∀ a, (∀ i, -24 ≤ i < 0 → a ≠ addr K i) → mem m' a = mem m a).
Proof.
  destruct m as [rf mf]. cbn [reg mem]. intros Hsp Hcs. cbv zeta.
  assert (Ltrap_common (mkHart rf mf) =
    run ([ADDI rsp rsp (-16)] ++ PUSH_ALL ++ [MV rdi rsp]) (step (mkHart rf mf) (SWAP gs kernel_gs))) as ->.
  { unfold Ltrap_common, swapgs_if_user. cbn [reg mem]. rewrite Hsp, addr_addr. change (-7 + 3) with (-4). by rewrite Hcs. }
  rewrite run_app. set (m1 := run [ADDI rsp rsp (-16)] _).
  assert (reg m1 rsp = addr K (-9)) as Hsp1 by (subst m1; x86_words; by rewrite Hsp, addr_addr).
  assert (mem m1 = mf ∧ reg m1 gs = rf kernel_gs ∧ reg m1 kernel_gs = rf gs ∧
    ∀ r, r ≠ gs → r ≠ kernel_gs → r ≠ rsp → reg m1 r = rf r) as (Hm & Hg & Hkg & Hr).
  { split_and!; [done..|]. intros r ???. by destruct r. }
  clearbody m1. destruct (PUSH_ALL_ok K m1 Hsp1) as (H1 & H2 & H3 & H4 & H5 & H6).
  set (m2 := run _ m1) in *. clearbody m2. rewrite Hm in H5, H6. split_and!; [done|done| | | | | | | |done].
  - by rewrite H3.
  - by rewrite H3.
  - by rewrite H3, Hr.
  - by rewrite H3, Hr.
  - by rewrite H3, Hr.
  - intros r Hp. rewrite H4 by done. apply Hr; by intros ->.
  - intros i Hi. apply H5. lia.
Qed.

Definition x86_enter (v err : Z) (m : Xhart) : Xhart :=
  let m := trap_entry v err m in switch_to_kernel_fs_base tls (reg m rdi) m.
Definition x86_leave (m : Xhart) : Xhart := Ltrap_return (switch_to_user_fs_base tls (reg m rsp) m).

(** The frame as a function of the registers. *)
Definition x86_word (K : Z) (m : Xhart) (r : x86_reg) : Z := mem m (addr (addr K (-24)) (x86_index r)).
Lemma x86_word_is K m r : x86_word K m r = mem m (addr K (-24 + x86_index r)).
Proof. unfold x86_word. by rewrite addr_addr. Qed.

Lemma kernel_fs_ok K m :
  in_user_code (x86_word K m cs) = true →
  let m' := switch_to_kernel_fs_base tls (addr K (-24)) m in
  (∀ r, x86_word K m' r = if decide (x86_index r = 15) then reg m fs_base else x86_word K m r) ∧
  (∀ r, r ≠ fs_base → reg m' r = reg m r) ∧
  (tls = true → reg m' fs_base = reg m kernel_fs) ∧
  (∀ a, a ≠ addr K (-9) → mem m' a = mem m a).
Proof.
  intros Hu. unfold switch_to_kernel_fs_base. fold (x86_word K m cs). rewrite Hu. cbv zeta.
  assert (∀ b, mem (if tls then set_reg fs_base b (set_word (addr (addr K (-24)) 15) (reg m fs_base) m)
    else set_word (addr (addr K (-24)) 15) (reg m fs_base) m) = mupd (mem m) (addr (addr K (-24)) 15) (reg m fs_base)) as Hm
    by (by destruct tls).
  split_and!.
  - intros r. unfold x86_word at 1. rewrite Hm. case_decide as Hi; [rewrite Hi; apply mupd_eq|].
    rewrite mupd_ne; [done|]. apply addr_ne; [by destruct r|by unfold near|done].
  - intros r Hr. destruct tls; simpl; [by apply rupd_ne|done].
  - intros ->. simpl. apply rupd_eq.
  - intros a Ha. rewrite Hm. apply mupd_ne. by rewrite addr_addr.
Qed.

Lemma x86_enter_ok v err K k m :
  x86_user_mode K k m →
  let m' := x86_enter v err m in
  reg m' rsp = addr K (-24) ∧
  (∀ r, x86_visible r = true → x86_word K m' r = reg m r) ∧
  x86_word K m' vector = v ∧ x86_word K m' error_code = (if has_error_code v then err else 0) ∧
  reg m' gs = k gs ∧ (tls = true → reg m' fs_base = k fs_base) ∧ reg m' tss_rsp0 = K ∧
  (∀ a, (∀ i, -24 ≤ i < 0 → a ≠ addr K i) → mem m' a = mem m a).
Proof.
  intros (HK & HtK & Hgs & Hcs & Hfs). unfold x86_enter, trap_entry. cbv zeta.
  destruct (arrive_ok v err m) as (Hsp & Hg & Hv & He & H5 & H4 & H3 & H2 & H1 & Hout).
  set (m1 := arrive v err m) in *. rewrite HtK in *.
  destruct (Ltrap_common_ok K m1 Hsp) as (Hsp' & Hdi & Hgs' & _ & Hfb & Hkf & Htss & Hp & Hk & Hout').
  { rewrite H4. unfold in_user_code in Hcs. by apply Z.eqb_eq. }
  set (m2 := Ltrap_common m1) in *. rewrite Hdi. clearbody m2. clearbody m1.
  assert (∀ r, x86_visible r = true → r ≠ fs_base → x86_word K m2 r = reg m r) as Hw.
  { intros r Hr Hne. rewrite x86_word_is.
    destruct r; try done; try (rewrite Hp by done; by apply Hg); (rewrite Hk by (simpl; lia)); done. }
  destruct (kernel_fs_ok K m2) as (Hw' & Hr & Ht & Ho); [by rewrite Hw|].
  set (m3 := switch_to_kernel_fs_base _ _ _) in *. clearbody m3.
  split_and!.
  - by rewrite Hr.
  - intros r Hv'. rewrite Hw'. case_decide as Hi.
    + assert (r = fs_base) as -> by (by destruct r). by rewrite Hfb, Hg.
    + apply Hw; [done|]. by intros ->.
  - rewrite Hw', decide_False, x86_word_is, Hk by (simpl; lia). done.
  - rewrite Hw', decide_False, x86_word_is, Hk by (simpl; lia). done.
  - rewrite Hr, Hgs', Hg by done. done.
  - intros H'. rewrite Ht, Hkf, Hg by done. by apply Hfs.
  - rewrite Hr, Htss, Hg by done. done.
  - intros a Ha. rewrite Ho, Hout', Hout; [done| |done|apply Ha; lia]. intros i Hi. apply Ha. lia.
Qed.

(** The general registers come off the stack in the order of the frame. *)
Lemma POP_ALL_ok K m :
  reg m rsp = addr K (-24) →
  let m' := run POP_ALL m in
  reg m' rsp = addr K (-9) ∧ mem m' = mem m ∧
  (∀ r, x86_pushed r = true → reg m' r = x86_word K m r) ∧
  (∀ r, x86_pushed r = false → r ≠ rsp → reg m' r = reg m r).
Proof.
  destruct m as [rf mf]. cbn [reg mem]. intros Hsp. cbv zeta. split_and!.
  - x86_words. by rewrite Hsp, addr_addr.
  - done.
  - intros r Hr. rewrite x86_word_is. destruct r; try done; x86_words; rewrite Hsp, ?addr_addr; done.
  - intros r Hr Hne. by destruct r.
Qed.
Lemma user_fs_ok K m :
  in_user_code (x86_word K m cs) = true →
  let m' := switch_to_user_fs_base tls (addr K (-24)) m in
  mem m' = mem m ∧ reg m' fs_base = x86_word K m fs_base ∧
  (∀ r, r ≠ fs_base → r ≠ kernel_fs → reg m' r = reg m r) ∧ (tls = true → reg m' kernel_fs = reg m fs_base).
Proof.
  intros Hu. unfold switch_to_user_fs_base. fold (x86_word K m cs). rewrite Hu. cbv zeta.
  split_and!.
  - by destruct tls.
  - destruct tls; simpl; rewrite rupd_eq; done.
  - intros r H1 H2. destruct tls; simpl; by rewrite ?rupd_ne.
  - intros ->. simpl. rewrite rupd_ne, rupd_eq by done. done.
Qed.

Lemma x86_leave_ok K m :
  in_u 64 K → reg m rsp = addr K (-24) → in_user_code (x86_word K m cs) = true → reg m tss_rsp0 = K →
  let m' := x86_leave m in
  (∀ r, x86_visible r = true → reg m' r = x86_word K m r) ∧ x86_user_mode K (reg m) m' ∧ mem m' = mem m.
Proof.
  intros HK Hsp Hu HtK. unfold x86_leave. rewrite Hsp.
  destruct (user_fs_ok K m Hu) as (Hm1 & Hfs & Hr1 & Ht1).
  set (m1 := switch_to_user_fs_base _ _ _) in *. clearbody m1.
  destruct (POP_ALL_ok K m1) as (Hsp2 & Hm2 & Hp & Hr2); [by rewrite Hr1|].
  unfold Ltrap_return. rewrite run_app. set (m2 := run POP_ALL m1) in *. clearbody m2. cbv zeta.
  assert (swapgs_if_user (run [ADDI rsp rsp 16] m2) = step (run [ADDI rsp rsp 16] m2) (SWAP gs kernel_gs)) as ->.
  { unfold swapgs_if_user. destruct m2 as [rf mf]. cbn in *. change (as_usize (rf rsp + 16)) with (addr (rf rsp) 2).
    rewrite Hsp2, !addr_addr. change (-9 + (2 + 3)) with (-4). rewrite Hm2, Hm1. rewrite x86_word_is in Hu.
    unfold in_user_code in Hu. apply Z.eqb_eq in Hu. change (-24 + x86_index cs) with (-4) in Hu. by rewrite Hu. }
  assert (∀ r, x86_word K m2 r = x86_word K m r) as Hw by (intros r; unfold x86_word; by rewrite Hm2, Hm1).
  set (m3 := iretq _). assert (mem m3 = mem m2 ∧
    (∀ r, x86_pushed r = true → reg m3 r = reg m2 r) ∧ reg m3 fs_base = reg m2 fs_base ∧
    reg m3 rip = x86_word K m2 rip ∧ reg m3 cs = x86_word K m2 cs ∧ reg m3 rflags = x86_word K m2 rflags ∧
    reg m3 rsp = x86_word K m2 rsp ∧ reg m3 ss = x86_word K m2 ss ∧ reg m3 kernel_gs = reg m2 gs ∧
    reg m3 tss_rsp0 = reg m2 tss_rsp0 ∧ reg m3 kernel_fs = reg m2 kernel_fs)
    as (Hm3 & Hp3 & Hf3 & H19 & H20 & H21 & H22 & H23 & Hg3 & Ht3 & Hk3).
  { subst m3. destruct m2 as [rf mf]. cbn [reg mem] in *. split_and!; try (intros r Hr; by destruct r); try done;
      rewrite x86_word_is; x86_words; rewrite Hsp2, ?addr_addr; done. }
  clearbody m3. split_and!.
  - intros r Hv. rewrite <-Hw. destruct r; try done;
      try (rewrite Hp3, Hp by done; unfold x86_word; by rewrite Hm1, Hm2, Hm1).
    rewrite Hf3, Hr2, Hfs by done. by rewrite Hw.
  - split_and!; [done|by rewrite Ht3, Hr2, Hr1|by rewrite Hg3, Hr2, Hr1|by rewrite H20, Hw|].
    intros H'. rewrite Hk3, Hr2 by done. by apply Ht1.
  - by rewrite Hm3, Hm2.
Qed.

Lemma outside_24 K a : (∀ i, 0 ≤ i < 24 → a ≠ addr (addr K (-24)) i) → ∀ i, -24 ≤ i < 0 → a ≠ addr K i.
Proof.
  intros Ha i Hi. replace i with (-24 + (i + 24)) by lia. rewrite <-addr_addr. apply Ha. lia.
Qed.

#[local] Opaque x86_enter x86_leave.
(** The trap path of a vector. *)
Program Definition X86Trap (v err : Z) : TrapPath x86_reg := {|
  visible := x86_visible;
  slot := x86_index;
  frame_words := 24;
  ksp := rsp;
  kregs := if tls then [gs; fs_base] else [gs];
  stack_ok K := in_u 64 K;
  kernel_ready K m := reg m tss_rsp0 = K;
  user_frame f := in_user_code (f cs) = true;
  user_mode := x86_user_mode;
  enter := x86_enter v err;
  leave := x86_leave;
|}.
Next Obligation. by intros v err K k m (? & _). Qed.
Next Obligation.
  intros v err K k m Hu. destruct (x86_enter_ok v err K k m Hu) as (Hsp & Hw & _ & _ & Hgs & Hfs & Ht & Ho).
  refine (conj Hsp (conj Ht (conj Hw (conj _ (conj _ _))))).
  - change (in_user_code (x86_word K (x86_enter v err m) cs) = true). rewrite Hw by done. apply Hu.
  - intros r Hr. destruct tls; rewrite ?elem_of_cons, elem_of_nil in Hr; destruct_or! Hr; subst; by auto.
  - intros a Ha. apply Ho. by apply outside_24.
Qed.
Next Obligation.
  intros v err K m HK Hsp Hready Hf. destruct (x86_leave_ok K m HK Hsp Hf Hready) as (Hw & Hu & Hm).
  refine (conj Hw (conj Hu _)). intros a _. by rewrite Hm.
Qed.

(** ** The path of [syscall] *)

Definition sys_enter (m : Xhart) : Xhart :=
  let m := run syscall_entry (x86_syscall m) in switch_to_kernel_fs_base tls (reg m rdi) m.
Definition sys_leave (m : Xhart) : Xhart :=
  sysretq (run syscall_return (switch_to_user_fs_base tls (reg m rsp) m)).
(** User code loses [rcx] and [r11], and its flags are partly reset. *)
Definition sys_visible (r : x86_reg) : bool :=
  x86_visible r && match r with rcx | r11 | rflags | cs | ss => false | _ => true end.

(** The words above the general registers. *)
Definition sys_stack : list Xinstr :=
  [SWAP gs kernel_gs; MV user_rsp rsp; MV rsp tss_rsp0; ADDI rsp rsp (-8); push user_rsp; push r11] ++
  push_imm UCODE64_SELECTOR ++ [push rcx; ADDI rsp rsp (-32)].
Lemma sys_stack_ok m :
  let K := reg m tss_rsp0 in
  let m' := run sys_stack (x86_syscall m) in
  reg m' rsp = addr K (-9) ∧ reg m' gs = reg m kernel_gs ∧
  (∀ r, x86_visible r || match r with tss_rsp0 | kernel_fs => true | _ => false end = true →
    r ≠ rsp → r ≠ rcx → r ≠ r11 → r ≠ cs → reg m' r = reg m r) ∧
  mem m' (addr K (-5)) = reg m rip ∧ mem m' (addr K (-4)) = UCODE64_SELECTOR ∧
  mem m' (addr K (-3)) = reg m rflags ∧ mem m' (addr K (-2)) = reg m rsp ∧
  (∀ a, (∀ i, -5 ≤ i < 0 → a ≠ addr K i) → mem m' a = mem m a).
Proof.
  destruct m as [rf mf]. cbn [reg mem]. cbv zeta. split_and!.
  - by x86_words.
  - by x86_words.
  - intros r Hr ????. by destruct r.
  - x86_words. asm_words. done.
  - x86_words. asm_words. done.
  - x86_words. asm_words. done.
  - x86_words. asm_words. done.
  - intros a Ha. assert (∀ i, -5 ≤ i < 0 → (a =? addr (rf tss_rsp0) i) = false) as Hf
      by (intros i Hi; by apply Z.eqb_neq, Ha).
    x86_words. by rewrite !Hf by lia.
Qed.

Lemma syscall_entry_ok K k m :
  x86_user_mode K k m →
  let m' := run syscall_entry (x86_syscall m) in
  reg m' rsp = addr K (-24) ∧ reg m' rdi = addr K (-24) ∧ reg m' gs = k gs ∧
  reg m' fs_base = reg m fs_base ∧ reg m' kernel_fs = reg m kernel_fs ∧ reg m' tss_rsp0 = K ∧
  (∀ r, sys_visible r = true → r ≠ fs_base → x86_word K m' r = reg m r) ∧
  x86_word K m' cs = UCODE64_SELECTOR ∧ x86_word K m' rflags = reg m rflags ∧
  (∀ a, (∀ i, -24 ≤ i < 0 → a ≠ addr K i) → mem m' a = mem m a).
Proof.
  intros (HK & HtK & Hgs & Hcs & Hfs). cbv zeta.
  assert (syscall_entry = sys_stack ++ (PUSH_ALL ++ [MV rdi rsp])) as -> by done.
  rewrite run_app. destruct (sys_stack_ok m) as (Hsp & Hg & Hr & Hm5 & Hm4 & Hm3 & Hm2 & Hout).
  set (m1 := run sys_stack _) in *. clearbody m1. rewrite HtK in *.
  destruct (PUSH_ALL_ok K m1 Hsp) as (H1 & H2 & H3 & H4 & H5 & H6).
  set (m2 := run _ m1) in *. clearbody m2.
  split_and!; [done|done|by rewrite H3, Hg|by rewrite H3, Hr|by rewrite H3, Hr|by rewrite H3, Hr| | | |].
  - intros r Hv Hne. rewrite x86_word_is. destruct r; try discriminate Hv; try done;
      try (rewrite H4, Hr by done; done); (rewrite H5 by (simpl; lia)); done.
  - rewrite x86_word_is, H5 by (simpl; lia). done.
  - rewrite x86_word_is, H5 by (simpl; lia). done.
  - intros a Ha. rewrite H6, Hout; [done| |done]. intros i Hi. apply Ha. lia.
Qed.

Lemma sys_enter_ok K k m :
  x86_user_mode K k m →
  let m' := sys_enter m in
  reg m' rsp = addr K (-24) ∧ (∀ r, sys_visible r = true → x86_word K m' r = reg m r) ∧
  x86_word K m' cs = UCODE64_SELECTOR ∧ x86_word K m' rflags = reg m rflags ∧
  reg m' gs = k gs ∧ (tls = true → reg m' fs_base = k fs_base) ∧ reg m' tss_rsp0 = K ∧
  (∀ a, (∀ i, -24 ≤ i < 0 → a ≠ addr K i) → mem m' a = mem m a).
Proof.
  intros Hu. pose proof Hu as (HK & HtK & Hgs & Hcs & Hfs). unfold sys_enter. cbv zeta.
  destruct (syscall_entry_ok K k m Hu) as (Hsp & Hdi & Hg & Hfb & Hkf & Ht & Hw & Hc & Hfl & Ho).
  set (m1 := run syscall_entry _) in *. clearbody m1. rewrite Hdi.
  destruct (kernel_fs_ok K m1) as (Hw' & Hr & Htls & Ho'); [by rewrite Hc|].
  set (m2 := switch_to_kernel_fs_base _ _ _) in *. clearbody m2. split_and!.
  - by rewrite Hr.
  - intros r Hv. rewrite Hw'. case_decide as Hi; [by assert (r = fs_base) as -> by (by destruct r)|].
    apply Hw; [done|]. by intros ->.
  - by rewrite Hw', decide_False by (simpl; lia).
  - by rewrite Hw', decide_False by (simpl; lia).
  - by rewrite Hr.
  - intros H'. rewrite Htls, Hkf by done. by apply Hfs.
  - by rewrite Hr.
  - intros a Ha. rewrite Ho', Ho; [done|done|]. apply Ha. lia.
Qed.

Definition sys_tail : list Xinstr :=
  [ADDI rsp rsp 72; LD rcx rsp (-5); LD r11 rsp (-3); LD rsp rsp (-2); SWAP gs kernel_gs].
Lemma sys_tail_ok K m :
  reg m rsp = addr K (-9) →
  let m' := sysretq (run sys_tail m) in
  mem m' = mem m ∧ reg m' rip = x86_word K m rip ∧ reg m' rsp = x86_word K m rsp ∧
  reg m' cs = UCODE64_SELECTOR ∧ reg m' kernel_gs = reg m gs ∧
  (∀ r, x86_visible r || match r with tss_rsp0 | kernel_fs => true | _ => false end = true →
    match r with rip | rsp | rcx | r11 | rflags | cs | ss => false | _ => true end = true → reg m' r = reg m r).
Proof.
  destruct m as [rf mf]. cbn [reg mem]. intros Hsp. cbv zeta. split_and!.
  1,4,5: done.
  - rewrite x86_word_is. x86_words. by rewrite Hsp, ?addr_addr.
  - rewrite x86_word_is. x86_words. by rewrite Hsp, ?addr_addr.
  - intros r H1 H2. by destruct r.
Qed.

Lemma sys_leave_ok K m :
  in_u 64 K → reg m rsp = addr K (-24) → in_user_code (x86_word K m cs) = true → reg m tss_rsp0 = K →
  let m' := sys_leave m in
  (∀ r, sys_visible r = true → reg m' r = x86_word K m r) ∧ x86_user_mode K (reg m) m' ∧ mem m' = mem m.
Proof.
  intros HK Hsp Hu HtK. unfold sys_leave. rewrite Hsp.
  destruct (user_fs_ok K m Hu) as (Hm1 & Hfs & Hr1 & Ht1).
  set (m1 := switch_to_user_fs_base _ _ _) in *. clearbody m1.
  destruct (POP_ALL_ok K m1) as (Hsp2 & Hm2 & Hp & Hr2); [by rewrite Hr1|].
  assert (syscall_return = POP_ALL ++ sys_tail) as -> by done. rewrite run_app.
  set (m2 := run POP_ALL m1) in *. clearbody m2. cbv zeta.
  destruct (sys_tail_ok K m2 Hsp2) as (Hm3 & Hip & Hsp3 & Hcs3 & Hg3 & Hr3).
  set (m3 := sysretq _) in *. clearbody m3.
  assert (∀ r, x86_word K m2 r = x86_word K m r) as Hw by (intros r; unfold x86_word; by rewrite Hm2, Hm1).
  assert (∀ r, x86_word K m1 r = x86_word K m r) as Hw1 by (intros r; unfold x86_word; by rewrite Hm1).
  split_and!.
  - intros r Hv. destruct r; try discriminate Hv; try (rewrite Hr3, Hp by done; apply Hw1).
    + rewrite Hr3, Hr2 by done. exact Hfs.
    + rewrite Hip. apply Hw.
    + rewrite Hsp3. apply Hw.
  - split_and!; [done|by rewrite Hr3, Hr2, Hr1|by rewrite Hg3, Hr2, Hr1|by rewrite Hcs3|].
    intros H'. rewrite Hr3, Hr2 by done. by apply Ht1.
  - by rewrite Hm3, Hm2.
Qed.

#[local] Opaque sys_enter sys_leave.
Program Definition X86SysTrap : TrapPath x86_reg := {|
  visible := sys_visible;
  slot := x86_index;
  frame_words := 24;
  ksp := rsp;
  kregs := if tls then [gs; fs_base] else [gs];
  stack_ok K := in_u 64 K;
  kernel_ready K m := reg m tss_rsp0 = K;
  user_frame f := in_user_code (f cs) = true;
  user_mode := x86_user_mode;
  enter := sys_enter;
  leave := sys_leave;
|}.
Next Obligation. by intros K k m (? & _). Qed.
Next Obligation.
  intros K k m Hu. destruct (sys_enter_ok K k m Hu) as (Hsp & Hw & Hc & _ & Hgs & Hfs & Ht & Ho).
  refine (conj Hsp (conj Ht (conj Hw (conj _ (conj _ _))))).
  - change (in_user_code (x86_word K (sys_enter m) cs) = true). by rewrite Hc.
  - intros r Hr. destruct tls; rewrite ?elem_of_cons, elem_of_nil in Hr; destruct_or! Hr; subst; by auto.
  - intros a Ha. apply Ho. by apply outside_24.
Qed.
Next Obligation.
  intros K m HK Hsp Hready Hf. destruct (sys_leave_ok K m HK Hsp Hf Hready) as (Hw & Hu & Hm).
  refine (conj Hw (conj Hu _)). intros a _. by rewrite Hm.
Qed.
End paths.
