(* ===== verification/SockAddr.v ===== *)
(** * Socket addresses

    Model of [src/api/src/sockaddr.rs]: the kernel's [sockaddr] bytes and the
    conversions from and to the address types of [core::net]. The machine is
    little endian; addresses are in network order in memory. *)

From S2P Require Import Prelude Abi.

#[local] Open Scope Z_scope.

Definition AF_INET : Z := 2.
Definition AF_INET6 : Z := 10.
(** Sizes of [__kernel_sa_family_t], [sockaddr], [sockaddr_in] and
    [sockaddr_in6]. *)
Definition SIZE_FAMILY : Z := 2.
Definition SIZE_SOCKADDR : Z := 128.
Definition SIZE_IN : Z := 16.
Definition SIZE_IN6 : Z := 28.

(** [len], and the bytes of [storage] that were initialised. *)
Record SockAddr := mkSockAddr { sa_len : Z; sa_storage : list Z }.

(** [SocketAddrV4] and [SocketAddrV6]; an address is its octets. *)
Record SocketAddrV4 := mkV4 { v4_ip : list Z; v4_port : Z }.
Record SocketAddrV6 := mkV6 { v6_ip : list Z; v6_port : Z; v6_flowinfo : Z; v6_scope_id : Z }.
Inductive SocketAddr : Type := V4 (a : SocketAddrV4) | V6 (a : SocketAddrV6).

(** [SockAddr::read] of the bytes in memory. *)
Definition SockAddr_read (mem : list Z) (len : Z) : LinuxResult SockAddr :=
  if (SIZE_FAMILY <? len) || (SIZE_SOCKADDR <? len) then Err EINVAL
  else Ok (mkSockAddr len (take (Z.to_nat len) mem)).

(** A field of the structure at an offset. *)
Definition field (off size : nat) (l : list Z) : list Z := take size (drop off l).

Definition family (a : SockAddr) : Z := le_value (field 0 2 (sa_storage a)).
Definition addr_len (a : SockAddr) : Z := sa_len a.
Definition SockAddr_bytes (a : SockAddr) : list Z := take (Z.to_nat (sa_len a)) (sa_storage a).

(** Byte swap of an integer of [n] bytes: [to_be] and [from_be]. *)
Definition swap_bytes (n : nat) (x : Z) : Z := le_value (rev (le_bytes n x)).

(** The bytes of the structures the conversions build. *)
Definition sockaddr_in (a : SocketAddrV4) : list Z :=
  le_bytes 2 AF_INET ++ le_bytes 2 (swap_bytes 2 (v4_port a)) ++ le_bytes 4 (le_value (v4_ip a)) ++
  repeat 0 8.
Definition sockaddr_in6 (a : SocketAddrV6) : list Z :=
  le_bytes 2 AF_INET6 ++ le_bytes 2 (swap_bytes 2 (v6_port a)) ++
  le_bytes 4 (swap_bytes 4 (v6_flowinfo a)) ++ v6_ip a ++ le_bytes 4 (v6_scope_id a).

Definition SockAddr_from_v4 (a : SocketAddrV4) : LinuxResult SockAddr :=
  unwrap (SockAddr_read (sockaddr_in a) SIZE_IN).
Definition SockAddr_from_v6 (a : SocketAddrV6) : LinuxResult SockAddr :=
  unwrap (SockAddr_read (sockaddr_in6 a) SIZE_IN6).
Definition SockAddr_from (a : SocketAddr) : LinuxResult SockAddr :=
  match a with V4 a => SockAddr_from_v4 a | V6 a => SockAddr_from_v6 a end.

(** [Ipv4Addr::from_bits]: the octets of a number in network order. *)
Definition from_bits (x : Z) : list Z := rev (le_bytes 4 x).

Definition v4_try_from (a : SockAddr) : LinuxResult SocketAddrV4 :=
  if negb (family a =? AF_INET) then Err EAFNOSUPPORT
  else if SIZE_IN <? addr_len a then Err EINVAL
  else Ok (mkV4 (from_bits (swap_bytes 4 (le_value (field 4 4 (sa_storage a)))))
                (swap_bytes 2 (le_value (field 2 2 (sa_storage a))))).
Definition v6_try_from (a : SockAddr) : LinuxResult SocketAddrV6 :=
  if negb (family a =? AF_INET6) then Err EAFNOSUPPORT
  else if SIZE_IN6 <? addr_len a then Err EINVAL
  else Ok (mkV6 (field 8 16 (sa_storage a)) (swap_bytes 2 (le_value (field 2 2 (sa_storage a))))
                (swap_bytes 4 (le_value (field 4 4 (sa_storage a))))
                (le_value (field 24 4 (sa_storage a)))).
Definition try_from (a : SockAddr) : LinuxResult SocketAddr :=
  if family a =? AF_INET then x ← v4_try_from a; mret (V4 x)
  else if family a =? AF_INET6 then x ← v6_try_from a; mret (V6 x)
  else Err EAFNOSUPPORT.

(** ** Bytes *)

Definition is_bytes (l : list Z) : Prop := Forall (λ b, 0 ≤ b < 256) l.

Lemma le_bytes_value l : is_bytes l → le_bytes (length l) (le_value l) = l.
Proof.
  induction 1 as [|b l Hb _ IH]; [done|]. cbn [length le_value le_bytes].
  rewrite (Z.mul_comm 256), Z.mod_add, Z.div_add by done.
  rewrite Z.mod_small, Z.div_small, Z.add_0_l, IH by done. done.
Qed.
Lemma le_bytes_is_bytes n x : is_bytes (le_bytes n x).
Proof. revert x. induction n as [|n IH]; intros x; constructor; [by apply Z.mod_pos_bound|apply IH]. Qed.
Lemma le_value_range l : is_bytes l → 0 ≤ le_value l < 256 ^ Z.of_nat (length l).
Proof.
  induction 1 as [|b l Hb _ IH]; [done|]. cbn [length le_value].
  rewrite Nat2Z.inj_succ, Z.pow_succ_r by lia. lia.
Qed.

Lemma swap_bytes_range n x : 0 ≤ swap_bytes n x < 256 ^ Z.of_nat n.
Proof.
  unfold swap_bytes. pose proof (le_value_range (rev (le_bytes n x))) as H.
  rewrite length_rev, length_le_bytes in H. apply H. apply Forall_rev, le_bytes_is_bytes.
Qed.
Lemma le_bytes_swap n x : le_bytes n (swap_bytes n x) = rev (le_bytes n x).
Proof.
  unfold swap_bytes. pose proof (le_bytes_value (rev (le_bytes n x))) as H.
  rewrite length_rev, length_le_bytes in H. apply H, Forall_rev, le_bytes_is_bytes.
Qed.
Lemma swap_swap n x : 0 ≤ x < 256 ^ Z.of_nat n → swap_bytes n (swap_bytes n x) = x.
Proof. intros Hx. unfold swap_bytes at 1. by rewrite le_bytes_swap, rev_involutive, le_value_bytes. Qed.

Lemma field_app off size (l1 l2 l3 : list Z) :
  length l1 = off → length l2 = size → field off size (l1 ++ l2 ++ l3) = l2.
Proof.
  intros <- <-. unfold field. by rewrite drop_app_length, take_app_length.
Qed.

Definition v4_ok (a : SocketAddrV4) : Prop :=
  is_bytes (v4_ip a) ∧ length (v4_ip a) = 4%nat ∧ 0 ≤ v4_port a < 2 ^ 16.
Definition v6_ok (a : SocketAddrV6) : Prop :=
  is_bytes (v6_ip a) ∧ length (v6_ip a) = 16%nat ∧ 0 ≤ v6_port a < 2 ^ 16 ∧
  0 ≤ v6_flowinfo a < 2 ^ 32 ∧ 0 ≤ v6_scope_id a < 2 ^ 32.

Definition addr_ok (a : SocketAddr) : Prop := match a with V4 x => v4_ok x | V6 x => v6_ok x end.
(** The structure of an address in full. *)
Definition sockaddr_of (a : SocketAddr) : SockAddr :=
  match a with
  | V4 x => mkSockAddr SIZE_IN (sockaddr_in x)
  | V6 x => mkSockAddr SIZE_IN6 (sockaddr_in6 x)
  end.

(** reading back the structure of an address gives the address: the byte
    orders of port, address and flow label agree in both directions. *)
Theorem sockaddr_roundtrip (a : SocketAddr) : addr_ok a → try_from (sockaddr_of a) = Ok a.
Proof.
  destruct a as [[ip port]|[ip port fl sc]]; unfold addr_ok, v4_ok, v6_ok, sockaddr_of; simpl.
  - intros (Hb & Hl & Hp). set (s := sockaddr_in _).
    assert (family (mkSockAddr SIZE_IN s) = AF_INET) as Hf by done.
    assert (field 2 2 s = le_bytes 2 (swap_bytes 2 port)) as H2 by by apply (field_app 2 2 (le_bytes 2 AF_INET)).
    assert (field 4 4 s = le_bytes 4 (le_value ip)) as H4.
    { unfold s, sockaddr_in. rewrite app_assoc. by apply field_app. }
    unfold try_from, v4_try_from. rewrite Hf. cbn [sa_storage]. rewrite H2, H4.
    assert (le_bytes 4 (le_value ip) = ip) as Hip by by rewrite <- Hl at 1; apply le_bytes_value.
    rewrite Hip. rewrite le_value_bytes by apply swap_bytes_range. rewrite swap_swap by done.
    unfold from_bits. rewrite le_bytes_swap, rev_involutive, Hip. done.
  - intros (Hb & Hl & Hp & Hfl & Hsc). set (s := sockaddr_in6 _).
    assert (family (mkSockAddr SIZE_IN6 s) = AF_INET6) as Hf by done.
    assert (field 2 2 s = le_bytes 2 (swap_bytes 2 port)) as H2 by by apply (field_app 2 2 (le_bytes 2 AF_INET6)).
    assert (field 4 4 s = le_bytes 4 (swap_bytes 4 fl)) as H4.
    { unfold s, sockaddr_in6. rewrite app_assoc. by apply field_app. }
    assert (field 8 16 s = ip) as H8.
    { unfold s, sockaddr_in6. rewrite !(app_assoc (le_bytes 2 _)), app_assoc. by apply field_app. }
    assert (field 24 4 s = le_bytes 4 sc) as H24.
    { unfold s, sockaddr_in6. cbn [v6_scope_id v6_ip v6_port v6_flowinfo].
      rewrite <- (app_nil_r (le_bytes 4 sc)), !app_assoc, <- (app_assoc _ (le_bytes 4 sc)).
      apply field_app; [|done]. by rewrite !length_app, !length_le_bytes, Hl. }
    unfold try_from, v6_try_from. rewrite Hf. cbn [sa_storage]. rewrite H2, H4, H8, H24.
    rewrite !le_value_bytes by (try apply swap_bytes_range; done). by rewrite !swap_swap by done.
Qed.

(** the test of the length is the wrong way round: [read] accepts a length
    of at most two bytes only, the size of the family, so every conversion of
    an address into a [SockAddr] panics. *)
Theorem sockaddr_conversions_panic (a : SocketAddr) :
  SockAddr_from a = Panic ∧
  ∀ mem len, 0 ≤ len → SockAddr_read mem len
    = (if decide (len ≤ SIZE_FAMILY) then Ok (mkSockAddr len (take (Z.to_nat len) mem)) else Err EINVAL).
Proof.
  split; [by destruct a|]. intros mem len Hlen. unfold SockAddr_read, SIZE_FAMILY, SIZE_SOCKADDR.
  destruct (Z.ltb_spec 2 len), (Z.ltb_spec 128 len); simpl; case_decide; try done; lia.
Qed.

Lemma sockaddr_roundtrip_witness :
  try_from (sockaddr_of (V4 (mkV4 [127; 0; 0; 1] 8080))) = Ok (V4 (mkV4 [127; 0; 0; 1] 8080)).
Proof. apply sockaddr_roundtrip. by split; [repeat constructor|]. Defined.
