(* ===== verification/Net.v ===== *)
(** * The network interface and the table of listening ports

    Model of [src/.arceos/modules/axnet/src/smoltcp_impl]: the conversions of
    addresses ([addr.rs]), the set of sockets and the polling of the interface
    ([mod.rs]), and the table of listening TCP ports ([listen_table.rs]). The
    protocol itself is the [smoltcp] crate, which is the class [Smoltcp]. *)

From S2P Require Import Prelude Abi SockAddr.

#[local] Open Scope Z_scope.

(** ** Addresses ([addr.rs]) *)

Definition IpAddress : Type := list Z.
Record IpEndpoint := mkEndpoint { ep_addr : IpAddress; ep_port : Z }.
Record IpListenEndpoint := mkListen { le_addr : option IpAddress; le_port : Z }.

#[global] Instance IpEndpoint_eq_dec : EqDecision IpEndpoint.
Proof. solve_decision. Defined.

Definition UNSPECIFIED_IP : IpAddress := [0; 0; 0; 0].
Definition UNSPECIFIED_ENDPOINT : IpEndpoint := mkEndpoint UNSPECIFIED_IP 0.

Definition is_unspecified (ip : IpAddress) : bool := bool_decide (ip = UNSPECIFIED_IP).
(** An address of IPv6 is a panic. *)
Definition from_core_sockaddr {E} (a : SocketAddr) : res E IpEndpoint :=
  match a with
  | V4 a => Ok (mkEndpoint (v4_ip a) (v4_port a))
  | V6 _ => Panic
  end.
Definition into_core_sockaddr (e : IpEndpoint) : SocketAddr := V4 (mkV4 (ep_addr e) (ep_port e)).

(** ** The crate below

    A TCP socket has the states of the protocol. [get] of a [SocketSet] panics
    on a handle that is not in the set or names a socket of the other kind;
    [add] returns a handle that was not in the set. Receiving a frame and
    sending what is queued change sockets, but not which are there. *)
Inductive TcpState : Type :=
  | Closed | Listen | SynSent | SynReceived | Established | FinWait1 | FinWait2
  | CloseWait | Closing | LastAck | TimeWait.
#[global] Instance TcpState_eq_dec : EqDecision TcpState.
Proof. solve_decision. Defined.
Inductive ConnectError : Type := ConnInvalidState | ConnUnaddressable.

Record Ipv4Packet := mkIpv4 {
  ip_src : IpAddress; ip_dst : IpAddress; ip_next_header : Z; ip_payload : list Z;
}.
Record TcpPacket := mkTcpPacket { tcp_src : Z; tcp_dst : Z; tcp_syn : bool; tcp_ack : bool }.
Definition IPPROTO_TCP : Z := 6.

Section kinds.
Context {T U : Type}.
Abbreviation SocketSet := (gmap Z (T + U)).

Definition is_tcp (s : SocketSet) (h : Z) : Prop := ∃ t, s !! h = Some (inl t).
Definition is_udp (s : SocketSet) (h : Z) : Prop := ∃ u, s !! h = Some (inr u).
(** The sets hold the same handles for the same kinds of sockets. *)
Definition same_kinds (s s' : SocketSet) : Prop :=
  ∀ h, (is_tcp s h ↔ is_tcp s' h) ∧ (is_udp s h ↔ is_udp s' h).
End kinds.

Class Smoltcp (T U I : Type) := {
  fresh_handle : gmap Z (T + U) → Z;
  ether_payload : list Z → option (list Z);
  ipv4_packet : list Z → option Ipv4Packet;
  tcp_packet : list Z → option TcpPacket;
  (** Processing of one received frame, and the rest of a poll. *)
  ingress : list Z → I → gmap Z (T + U) → I * gmap Z (T + U);
  egress : I → gmap Z (T + U) → I * gmap Z (T + U);
  (** TCP sockets. *)
  t_new : T;
  t_state : T → TcpState;
  t_listen : T → IpListenEndpoint → option T;
  t_connect : T → I → IpEndpoint → IpListenEndpoint → res ConnectError () * (T * I);
  t_local : T → option IpEndpoint;
  t_remote : T → option IpEndpoint;
  t_close : T → T;
  t_is_active : T → bool;
  t_may_recv : T → bool;
  t_can_recv : T → bool;
  t_recv_queue : T → Z;
  t_recv_slice : T → nat → option (list Z) * T;
  t_may_send : T → bool;
  t_can_send : T → bool;
  t_send_slice : T → list Z → option Z * T;
  (** UDP sockets; a datagram is received with its sender. *)
  u_new : U;
  u_bind : U → IpListenEndpoint → res bool U;
  u_close : U → U;
  u_can_recv : U → bool;
  u_can_send : U → bool;
  u_recv_slice : U → nat → option (list Z * IpEndpoint) * U;
  u_peek_slice : U → nat → option (list Z * IpEndpoint);
  u_send_slice : U → list Z → IpEndpoint → res bool () * U;
  (** The datagrams a socket has received. *)
  u_queue : U → list (list Z * IpEndpoint);
  (** Laws. *)
  fresh_handle_fresh s : s !! fresh_handle s = None;
  ingress_kinds f i s : same_kinds s (ingress f i s).2;
  egress_kinds i s : same_kinds s (egress i s).2;
  t_connect_endpoints t i r l t' i' :
    t_connect t i r l = (Ok (), (t', i')) → is_Some (t_local t') ∧ is_Some (t_remote t');
  t_connect_panic t i r l : (t_connect t i r l).1 ≠ Panic;
  u_bind_panic u e : u_bind u e ≠ Panic;
  u_send_slice_panic u bs e : (u_send_slice u bs e).1 ≠ Panic;
  u_can_recv_queue u : u_can_recv u = negb (bool_decide (u_queue u = []));
  u_recv_slice_queue u n bs e q : u_queue u = (bs, e) :: q → (length bs ≤ n)%nat →
    (u_recv_slice u n).1 = Some (bs, e) ∧ u_queue (u_recv_slice u n).2 = q;
}.

Definition LISTEN_QUEUE_SIZE : nat := 512.
#[global] Opaque LISTEN_QUEUE_SIZE.
Definition PORT_START : Z := 0xc000.
Definition PORT_END : Z := 0xffff.

Section net.
Context {T U I : Type} `{Smoltcp T U I}.

(** ** State: the sockets, the interface, the listening ports and the next
    ephemeral port of each protocol *)
Record ListenTableEntry := mkEntry { listen_endpoint : IpListenEndpoint; syn_queue : list Z }.
Record Net := mkNet {
  sockets : gmap Z (T + U);
  eth0 : I;
  tcp : gmap Z ListenTableEntry;
  tcp_port : Z;
  udp_port : Z;
}.
Definition Nst : Type → Type := st Net AxError.
(** [init]: no sockets, and no port listens. *)
Definition Net_init (i : I) : Net := mkNet ∅ i ∅ PORT_START PORT_START.

Definition set_sockets (s : gmap Z (T + U)) (n : Net) : Net := mkNet s (eth0 n) (tcp n) (tcp_port n) (udp_port n).
Definition set_eth (x : I * gmap Z (T + U)) (n : Net) : Net := mkNet x.2 x.1 (tcp n) (tcp_port n) (udp_port n).
Definition set_table (t : gmap Z ListenTableEntry) (n : Net) : Net := mkNet (sockets n) (eth0 n) t (tcp_port n) (udp_port n).
Definition set_tcp_port (p : Z) (n : Net) : Net := mkNet (sockets n) (eth0 n) (tcp n) p (udp_port n).
Definition set_udp_port (p : Z) (n : Net) : Net := mkNet (sockets n) (eth0 n) (tcp n) (tcp_port n) p.

(** ** The set of sockets ([SocketSetWrapper]) *)
Definition add (x : T + U) : Nst Z := λ n,
  let h := fresh_handle (sockets n) in (Ok h, set_sockets (<[h := x]> (sockets n)) n).
Definition remove (h : Z) : Nst () := λ n,
  match sockets n !! h with
  | Some _ => (Ok (), set_sockets (delete h (sockets n)) n)
  | None => (Panic, n)
  end.
Definition with_tcp {A} (h : Z) (f : T → A) : Nst A := λ n,
  match sockets n !! h with Some (inl t) => (Ok (f t), n) | _ => (Panic, n) end.
(** The closure also sees the interface. *)
Definition with_tcp_mut {A} (h : Z) (f : T → I → AxResult A * (T * I)) : Nst A := λ n,
  match sockets n !! h with
  | Some (inl t) =>
      let '(r, (t', i')) := f t (eth0 n) in (r, set_eth (i', <[h := inl t']> (sockets n)) n)
  | _ => (Panic, n)
  end.
Definition with_udp_mut {A} (h : Z) (f : U → AxResult A * U) : Nst A := λ n,
  match sockets n !! h with
  | Some (inr u) => let '(r, u') := f u in (r, set_sockets (<[h := inr u']> (sockets n)) n)
  | _ => (Panic, n)
  end.

(** ** Listening ports ([listen_table.rs]) *)
Definition is_connected (h : Z) : Nst bool :=
  with_tcp h (λ t, negb (bool_decide (t_state t = Listen) || bool_decide (t_state t = SynReceived))).
Definition get_addr_tuple (h : Z) : Nst (IpEndpoint * IpEndpoint) :=
  '(l, r) ← with_tcp h (λ t, (t_local t, t_remote t));
  l ← st_lift (unwrap_opt l);
  r ← st_lift (unwrap_opt r);
  mret (l, r).

Definition ListenTableEntry_new (e : IpListenEndpoint) : ListenTableEntry := mkEntry e [].
Definition entry_can_accept (e : ListenTableEntry) (dst : IpAddress) : bool :=
  match le_addr (listen_endpoint e) with Some addr => bool_decide (addr = dst) | None => true end.
Fixpoint remove_all (l : list Z) : Nst () :=
  match l with [] => mret () | h :: l' => remove h;; remove_all l' end.

(** A port is an index into the table, which has an entry for every [u16]. *)
Definition ListenTable_can_listen (port : Z) (n : Net) : bool :=
  match tcp n !! port with None => true | Some _ => false end.
Definition ListenTable_listen (e : IpListenEndpoint) : Nst () := λ n,
  if le_port e =? 0 then (Panic, n) else
  match tcp n !! le_port e with
  | None => (Ok (), set_table (<[le_port e := ListenTableEntry_new e]> (tcp n)) n)
  | Some _ => (Err AddrInUse, n)
  end.
(** The entry is dropped, and with it its sockets. *)
Definition ListenTable_unlisten (port : Z) : Nst () :=
  n ← st_get;
  st_put (set_table (delete port (tcp n)) n);;
  match tcp n !! port with Some e => remove_all (syn_queue e) | None => mret () end.
Fixpoint any_connected (l : list Z) : Nst bool :=
  match l with
  | [] => mret false
  | h :: l' => b ← is_connected h; if b : bool then mret true else any_connected l'
  end.
Definition ListenTable_can_accept (port : Z) : Nst bool :=
  n ← st_get;
  match tcp n !! port with
  | Some e => any_connected (syn_queue e)
  | None => st_err InvalidInput
  end.
(** [find_map] over the queue: the index, and the addresses. *)
Fixpoint find_connected (idx : nat) (l : list Z) : Nst (nat * (IpEndpoint * IpEndpoint)) :=
  match l with
  | [] => st_err WouldBlock
  | h :: l' =>
      b ← is_connected h;
      if b : bool then a ← get_addr_tuple h; mret (idx, a) else find_connected (S idx) l'
  end.
(** [VecDeque::swap_remove_front]: the first element takes the place of the
    one removed. *)
Definition swap_remove_front (idx : nat) (l : list Z) : option (Z * list Z) :=
  match l !! idx, l with
  | Some x, front :: _ => Some (x, drop 1 (<[idx := front]> l))
  | _, _ => None
  end.
Definition ListenTable_accept (port : Z) : Nst (Z * (IpEndpoint * IpEndpoint)) :=
  n ← st_get;
  match tcp n !! port with
  | Some e =>
      '(idx, addrs) ← find_connected 0 (syn_queue e);
      '(h, q) ← st_lift (unwrap_opt (swap_remove_front idx (syn_queue e)));
      st_mod (set_table (<[port := mkEntry (listen_endpoint e) q]> (tcp n)));;
      mret (h, addrs)
  | None => st_err InvalidInput
  end.
Definition incoming_tcp_packet (dst : IpEndpoint) : Nst () :=
  n ← st_get;
  match tcp n !! ep_port dst with
  | None => mret ()
  | Some e =>
      if negb (entry_can_accept e (ep_addr dst)) then mret () else
      if (LISTEN_QUEUE_SIZE <=? length (syn_queue e))%nat then mret () else
      match t_listen t_new (listen_endpoint e) with
      | None => mret ()
      | Some t =>
          h ← add (inl t);
          st_mod (set_table (<[ep_port dst := mkEntry (listen_endpoint e) (syn_queue e ++ [h])]> (tcp n)))
      end
  end.

(** ** Polling ([mod.rs])

    The first packet of a connection makes the socket that will answer it,
    before the frame goes to the crate; a frame that does not parse is left to
    the crate. *)
Definition snoop_tcp_packet (buf : list Z) : Nst (res () ()) :=
  match ether_payload buf ≫= ipv4_packet with
  | None => mret (Err ())
  | Some ip =>
      if negb (ip_next_header ip =? IPPROTO_TCP) then mret (Ok ()) else
      match tcp_packet (ip_payload ip) with
      | None => mret (Err ())
      | Some p =>
          (if tcp_syn p && negb (tcp_ack p)
           then incoming_tcp_packet (mkEndpoint (ip_dst ip) (tcp_dst p)) else mret ());;
          mret (Ok ())
      end
  end.
(** The frames that arrive while the interface is polled are an argument. *)
Fixpoint poll_frames (frames : list (list Z)) : Nst () :=
  match frames with
  | [] => mret ()
  | f :: frames' =>
      snoop_tcp_packet f;;
      st_mod (λ n, set_eth (ingress f (eth0 n) (sockets n)) n);;
      poll_frames frames'
  end.
Definition poll_interfaces (frames : list (list Z)) : Nst () :=
  poll_frames frames;; st_mod (λ n, set_eth (egress (eth0 n) (sockets n)) n).

(** ** The invariant

    [O] are the handles that belong to sockets of the users. Each of them and
    each handle in a queue names a TCP socket, no handle is in two places, an
    entry is at its port, and a queue has at most [LISTEN_QUEUE_SIZE] sockets. *)
Record net_ok (O : Z → Prop) (n : Net) : Prop := {
  no_entry p e : tcp n !! p = Some e →
    le_port (listen_endpoint e) = p ∧ p ≠ 0 ∧ (length (syn_queue e) ≤ LISTEN_QUEUE_SIZE)%nat;
  no_unique p q e f i j h : tcp n !! p = Some e → tcp n !! q = Some f →
    syn_queue e !! i = Some h → syn_queue f !! j = Some h → p = q ∧ i = j;
  no_queued p e h : tcp n !! p = Some e → h ∈ syn_queue e → is_tcp (sockets n) h ∧ ¬ O h;
  no_owned h : O h → is_tcp (sockets n) h;
  no_port : PORT_START ≤ tcp_port n ≤ PORT_END;
}.

Definition plus (O : Z → Prop) (o : option Z) : Z → Prop := λ h, O h ∨ o = Some h.

(** Two networks with the same table and the same kinds of sockets. *)
Record like (n n' : Net) : Prop := {
  like_table : tcp n' = tcp n;
  like_port : tcp_port n' = tcp_port n;
  like_kinds : same_kinds (sockets n) (sockets n');
}.
#[global] Instance like_preorder : PreOrder like.
Proof.
  split; [intros n; by split|]. intros n1 n2 n3 [H1 H2 H3] [H4 H5 H6].
  split; [congruence|congruence|]. intros h. specialize (H3 h). specialize (H6 h). tauto.
Qed.

Lemma net_ok_like O n n' : like n n' → net_ok O n → net_ok O n'.
Proof.
  intros [Ht Hp Hk] [He Hu Hq Ho Hr]. split; rewrite ?Ht, ?Hp; [done..| | |done].
  - intros p e h Hl Hin. destruct (Hq p e h Hl Hin). split; [by apply Hk|done].
  - intros h Hh. by apply Hk, Ho.
Qed.
Lemma net_ok_mono (O O' : Z → Prop) n : (∀ h, O' h → O h) → net_ok O n → net_ok O' n.
Proof.
  intros Hs [He Hu Hq Ho Hr]. split; [done..| | |done]; [|by auto].
  intros p e h Hl Hin. destruct (Hq p e h Hl Hin) as [? Hn]. split; [done|]. intros ?. by apply Hn, Hs.
Qed.
Lemma net_ok_iff (O O' : Z → Prop) n : (∀ h, O' h ↔ O h) → net_ok O n → net_ok O' n.
Proof. intros Hs. apply net_ok_mono. intros h. apply Hs. Qed.

Lemma kinds_insert_tcp s h t : is_tcp s h → same_kinds s (<[h := inl t]> s : gmap Z (T + U)).
Proof.
  intros [t0 H0] k. unfold is_tcp, is_udp. destruct (decide (k = h)) as [->|].
  - rewrite H0, lookup_insert_eq. split; split; intros [? ?]; naive_solver.
  - by rewrite lookup_insert_ne.
Qed.
Lemma kinds_insert_udp s h u : is_udp s h → same_kinds s (<[h := inr u]> s : gmap Z (T + U)).
Proof.
  intros [t0 H0] k. unfold is_tcp, is_udp. destruct (decide (k = h)) as [->|].
  - rewrite H0, lookup_insert_eq. split; split; intros [? ?]; naive_solver.
  - by rewrite lookup_insert_ne.
Qed.

Lemma with_tcp_spec {A} h (f : T → A) n : is_tcp (sockets n) h →
  ∃ t, sockets n !! h = Some (inl t) ∧ with_tcp h f n = (Ok (f t), n).
Proof. intros [t Ht]. exists t. unfold with_tcp. by rewrite Ht. Qed.
Lemma with_tcp_mut_spec {A} h (f : T → I → AxResult A * (T * I)) n : is_tcp (sockets n) h →
  ∃ t, sockets n !! h = Some (inl t) ∧
    (with_tcp_mut h f n).1 = (f t (eth0 n)).1 ∧ like n (with_tcp_mut h f n).2.
Proof.
  intros Ht. pose proof Ht as [t Hl]. exists t. unfold with_tcp_mut. rewrite Hl.
  destruct (f t (eth0 n)) as [r [t' i']]. split; [done|split; [done|]]. split; [done..|].
  by apply kinds_insert_tcp.
Qed.

(** A socket that is added belongs to the one who adds it. *)
Lemma add_tcp_ok O t n : net_ok O n →
  ∃ h, (add (inl t) n).1 = Ok h ∧ ¬ O h ∧ (∀ p e, tcp n !! p = Some e → h ∉ syn_queue e) ∧
    tcp (add (inl t) n).2 = tcp n ∧ net_ok (plus O (Some h)) (add (inl t) n).2.
Proof.
  intros [He Hu Hq Ho Hr]. unfold add. set (h := fresh_handle (sockets n)).
  assert (sockets n !! h = None) as Hf by apply fresh_handle_fresh. exists h. simpl.
  assert (¬ O h) as Hno. { intros [? Hh]%Ho. congruence. }
  assert (∀ p e, tcp n !! p = Some e → h ∉ syn_queue e) as Hnq.
  { intros p e Hp Hin. destruct (Hq p e h Hp Hin) as [[? Hh] _]. congruence. }
  split_and!; [done..|]. split; simpl; [done..| | |done].
  - intros p e k Hp Hin. destruct (Hq p e k Hp Hin) as [[t0 Ht0] Hk].
    assert (k ≠ h) by (intros ->; congruence). split.
    + exists t0. by rewrite lookup_insert_ne.
    + intros [?|[= ->]]; done.
  - intros k [Hk|[= <-]]; [|by exists t; rewrite lookup_insert_eq].
    destruct (Ho k Hk) as [t0 Ht0]. exists t0. rewrite lookup_insert_ne; [done|]. intros ->; congruence.
Qed.

Lemma remove_ok (O O' : Z → Prop) h n : net_ok O n → O h → (∀ k, O' k ↔ O k ∧ k ≠ h) →
  (remove h n).1 = Ok () ∧ tcp (remove h n).2 = tcp n ∧ net_ok O' (remove h n).2.
Proof.
  intros [He Hu Hq Ho Hr] Hh HO. unfold remove. destruct (Ho h Hh) as [t ->]. simpl.
  split_and!; [done..|]. split; simpl; [done..| | |done].
  - intros p e k Hp Hin. destruct (Hq p e k Hp Hin) as [[t0 Ht0] Hk].
    assert (k ≠ h) by (intros ->; done). split; [|rewrite HO; tauto].
    exists t0. by rewrite lookup_delete_ne.
  - intros k [Hk Hne]%HO. destruct (Ho k Hk) as [t0 Ht0]. exists t0. by rewrite lookup_delete_ne.
Qed.
Lemma remove_all_ok (O : Z → Prop) l : ∀ n, NoDup l →
  net_ok (λ k, O k ∨ k ∈ l) n → (∀ h, h ∈ l → ¬ O h) →
  (remove_all l n).1 = Ok () ∧ tcp (remove_all l n).2 = tcp n ∧ net_ok O (remove_all l n).2.
Proof.
  induction l as [|h l IH]; intros n Hnd Hok Hd; simpl.
  { split_and!; [done..|]. revert Hok. apply net_ok_iff. set_solver. }
  apply NoDup_cons in Hnd as [Hh Hnd].
  destruct (remove_ok _ (λ k, O k ∨ k ∈ l) h n Hok) as (Hr & Ht & Hn); [set_solver..|].
  unfold mbind, st_bind. destruct (remove h n) as [r n1]; simpl in *; subst r.
  destruct (IH n1 Hnd Hn) as (H1 & H2 & H3); [set_solver|]. split_and!; [done|congruence|done].
Qed.

Lemma queue_NoDup O n p e : net_ok O n → tcp n !! p = Some e → NoDup (syn_queue e).
Proof. intros Hok Hp. apply NoDup_alt. intros i j h Hi Hj. by apply (no_unique _ _ Hok p p e e i j h). Qed.

(** Changing the queue of one entry to handles that are TCP sockets of nobody
    else. *)
Lemma net_ok_queue (O O' : Z → Prop) n p e q :
  net_ok O n → tcp n !! p = Some e → (∀ h, O' h → is_tcp (sockets n) h) →
  (length q ≤ LISTEN_QUEUE_SIZE)%nat → NoDup q →
  (∀ h, h ∈ q → is_tcp (sockets n) h ∧ ¬ O' h ∧ ∀ p' e', p' ≠ p → tcp n !! p' = Some e' → h ∉ syn_queue e') →
  (∀ p' e' h, p' ≠ p → tcp n !! p' = Some e' → h ∈ syn_queue e' → ¬ O' h) →
  net_ok O' (set_table (<[p := mkEntry (listen_endpoint e) q]> (tcp n)) n).
Proof.
  intros [He Hu Hq Ho Hr] Hp HO' Hlen Hnd Hin Hrest. split; simpl; [| | |done|done].
  - intros p' e'. rewrite lookup_insert. case_decide; [|apply He]. intros [= <-]. subst p'.
    destruct (He p e Hp) as (? & ? & ?). done.
  - intros p1 p2 e1 e2 i j h. rewrite !lookup_insert. repeat case_decide; subst.
    + intros [= <-] [= <-] Hi Hj. split; [done|]. by eapply NoDup_lookup.
    + intros [= <-] H2 Hi Hj. apply list_elem_of_lookup_2 in Hi, Hj. destruct (Hin h Hi) as (_ & _ & Hx).
      destruct (Hx p2 e2); [congruence|done|done].
    + intros H2 [= <-] Hi Hj. apply list_elem_of_lookup_2 in Hi, Hj. destruct (Hin h Hj) as (_ & _ & Hx).
      destruct (Hx p1 e1); [congruence|done|done].
    + apply Hu.
  - intros p' e' h. rewrite lookup_insert. case_decide; subst.
    + intros [= <-] Hh. destruct (Hin h Hh) as (? & ? & _). done.
    + intros Hp' Hh. split; [by destruct (Hq p' e' h Hp' Hh)|]. by eapply Hrest; [| |exact Hh]; eauto.
Qed.

Lemma listen_ok O e n : net_ok O n → le_port e ≠ 0 → tcp n !! le_port e = None →
  ListenTable_listen e n = (Ok (), set_table (<[le_port e := ListenTableEntry_new e]> (tcp n)) n) ∧
  net_ok O (set_table (<[le_port e := ListenTableEntry_new e]> (tcp n)) n).
Proof.
  intros [He Hu Hq Ho Hr] Hz Hn. unfold ListenTable_listen. rewrite (proj2 (Z.eqb_neq _ _) Hz), Hn.
  split; [done|]. split; simpl; [| | |done|done].
  - intros p f. rewrite lookup_insert. case_decide; [|apply He]. intros [= <-]. subst. simpl.
    split_and!; [done|done|lia].
  - intros p q e1 e2 i j h. rewrite !lookup_insert.
    repeat case_decide; subst; [..|apply Hu]; try intros [= <-]; try intros ?; try intros [= <-]; done.
  - intros p f h. rewrite lookup_insert. case_decide; [|apply Hq]. intros [= <-]. by intros ?%elem_of_nil.
Qed.

Lemma unlisten_ok O p n : net_ok O n →
  (ListenTable_unlisten p n).1 = Ok () ∧ tcp (ListenTable_unlisten p n).2 = delete p (tcp n) ∧
  net_ok O (ListenTable_unlisten p n).2.
Proof.
  intros Hok. pose proof Hok as [He Hu Hq Ho Hr]. unfold ListenTable_unlisten, mbind, st_bind; simpl.
  set (n1 := set_table (delete p (tcp n)) n).
  assert (∀ q : list Z, (∀ h, h ∈ q → ∃ e, tcp n !! p = Some e ∧ h ∈ syn_queue e) → net_ok (λ k, O k ∨ k ∈ q) n1) as Hok1.
  { intros q Hqs. split; simpl; [| | | |done].
    - intros p' e. rewrite lookup_delete. case_decide; [done|]. apply He.
    - intros p1 p2 e1 e2 i j h. rewrite !lookup_delete. repeat case_decide; [done..|]. apply Hu.
    - intros p' e h. rewrite lookup_delete. case_decide; [done|]. intros Hp' Hh.
      destruct (Hq p' e h Hp' Hh) as [? Hno]. split; [done|]. intros [?|Hin]; [done|].
      destruct (Hqs h Hin) as (f & Hf & Hhf). apply list_elem_of_lookup in Hh as [i Hi], Hhf as [j Hj].
      destruct (Hu p' p e f i j h); done.
    - intros h [Hh|Hin]; [by apply Ho|]. destruct (Hqs h Hin) as (f & Hf & Hhf). by destruct (Hq p f h Hf Hhf). }
  destruct (tcp n !! p) as [e|] eqn:Hp.
  - assert (net_ok (λ k, O k ∨ k ∈ syn_queue e) n1) as Hok2 by (apply Hok1; intros h Hh; by exists e).
    destruct (remove_all_ok O (syn_queue e) n1) as (H1 & H2 & H3); [exact (queue_NoDup O n p e Hok Hp)|done| |done].
    intros h Hh. by destruct (Hq p e h Hp Hh).
  - split_and!; [done..|]. apply (net_ok_mono (λ k, O k ∨ k ∈ []) O); [by left|].
    apply Hok1. by intros h ?%elem_of_nil.
Qed.

Lemma any_connected_ok l n : (∀ h, h ∈ l → is_tcp (sockets n) h) →
  ∃ b, any_connected l n = (Ok b, n).
Proof.
  induction l as [|h l IH]; intros Hl; [by eexists|]. simpl. unfold mbind, st_bind, is_connected.
  destruct (with_tcp_spec h (λ t, negb (bool_decide (t_state t = Listen) || bool_decide (t_state t = SynReceived)))
    n) as (t & _ & ->); [set_solver|]. destruct (negb _); [by eexists|]. apply IH. set_solver.
Qed.

(** What [accept] finds: the first socket of the queue that left the states
    before the connection; its addresses must be there. *)
Definition connected (s : gmap Z (T + U)) (h : Z) : Prop :=
  ∃ t, s !! h = Some (inl t) ∧ t_state t ≠ Listen ∧ t_state t ≠ SynReceived.
Definition has_addrs (s : gmap Z (T + U)) (h : Z) (a : IpEndpoint * IpEndpoint) : Prop :=
  ∃ t, s !! h = Some (inl t) ∧ t_local t = Some a.1 ∧ t_remote t = Some a.2.

Lemma is_connected_spec h n t : sockets n !! h = Some (inl t) →
  ∃ b, is_connected h n = (Ok b, n) ∧ (b = true ↔ connected (sockets n) h).
Proof.
  intros Ht. unfold is_connected, with_tcp. rewrite Ht. eexists. split; [done|]. unfold connected.
  rewrite negb_true_iff, orb_false_iff, !bool_decide_eq_false. split; [naive_solver|].
  intros (t' & ? & ? & ?). by simplify_eq.
Qed.

Lemma find_connected_spec l : ∀ k n, (∀ h, h ∈ l → is_tcp (sockets n) h) →
  (find_connected k l n = (Err WouldBlock, n) ∧ ∀ h, h ∈ l → ¬ connected (sockets n) h) ∨
  ∃ i h, l !! i = Some h ∧ connected (sockets n) h ∧
    (∀ j h', (j < i)%nat → l !! j = Some h' → ¬ connected (sockets n) h') ∧
    ((∃ a, has_addrs (sockets n) h a ∧ find_connected k l n = (Ok ((k + i)%nat, a), n)) ∨
     (¬ (∃ a, has_addrs (sockets n) h a) ∧ find_connected k l n = (Panic, n))).
Proof.
  induction l as [|h l IH]; intros k n Hl; simpl.
  { left. split; [done|]. by intros ? ?%elem_of_nil. }
  destruct (Hl h) as [t Ht]; [left|]. destruct (is_connected_spec h n t Ht) as (b & Hb & Hc).
  unfold mbind, st_bind. rewrite Hb. destruct b.
  - right. exists 0%nat, h. split; [done|]. split; [by apply Hc|]. split; [intros; lia|].
    unfold get_addr_tuple, mbind, st_bind, with_tcp. rewrite Ht. simpl.
    destruct (t_local t) as [x|] eqn:Hx; simpl.
    2:{ right. split; [|done]. intros (a & t' & ? & ? & ?). congruence. }
    destruct (t_remote t) as [y|] eqn:Hy; simpl.
    2:{ right. split; [|done]. intros (a & t' & ? & ? & ?). congruence. }
    left. exists (x, y). split; [by exists t|]. by rewrite Nat.add_0_r.
  - assert (¬ connected (sockets n) h) as Hnc by (intros ?%Hc; done).
    destruct (IH (S k) n) as [[Hf Hall]|(i & h' & Hi & Hch & Hmin & Hf)]; [set_solver| |].
    + left. split; [done|]. intros x [->|?]%elem_of_cons; auto.
    + right. exists (S i), h'. split; [done|]. split; [done|]. split.
      { intros [|j] x Hj; simpl; [by intros [= <-]|]. apply Hmin. lia. }
      by rewrite Nat.add_succ_r.
Qed.

Lemma swap_remove_front_spec idx l x : l !! idx = Some x →
  ∃ q, swap_remove_front idx l = Some (x, q) ∧ l ≡ₚ x :: q.
Proof.
  intros Hx. unfold swap_remove_front. rewrite Hx. destruct l as [|a l]; [done|]. eexists. split; [done|].
  destruct idx as [|i]; simpl in *; [by injection Hx as ->|]. rewrite drop_0.
  pose proof (lookup_lt_Some _ _ _ Hx). rewrite insert_take_drop by done.
  rewrite <-Permutation_middle. rewrite <-(take_drop_middle l i x Hx) at 1.
  rewrite <-Permutation_middle. apply Permutation_swap.
Qed.

(** [accept] of the table. *)
Lemma table_accept_ok O p e n : net_ok O n → tcp n !! p = Some e →
  (ListenTable_accept p n = (Err WouldBlock, n) ∧ ∀ h, h ∈ syn_queue e → ¬ connected (sockets n) h) ∨
  ∃ i h, syn_queue e !! i = Some h ∧ connected (sockets n) h ∧
    (∀ j h', (j < i)%nat → syn_queue e !! j = Some h' → ¬ connected (sockets n) h') ∧
    ((¬ (∃ a, has_addrs (sockets n) h a) ∧ ListenTable_accept p n = (Panic, n)) ∨
     ∃ a q, has_addrs (sockets n) h a ∧ syn_queue e ≡ₚ h :: q ∧
       ListenTable_accept p n = (Ok (h, a), set_table (<[p := mkEntry (listen_endpoint e) q]> (tcp n)) n) ∧
       net_ok (plus O (Some h)) (set_table (<[p := mkEntry (listen_endpoint e) q]> (tcp n)) n)).
Proof.
  intros Hok Hp. pose proof Hok as [He Hu Hq Ho Hr].
  unfold ListenTable_accept, mbind, st_bind; simpl. rewrite Hp.
  destruct (find_connected_spec (syn_queue e) 0 n) as [[Hf Hall]|(i & h & Hi & Hc & Hmin & Hf)].
  { intros h Hh. by destruct (Hq p e h Hp Hh). }
  { left. by rewrite Hf. }
  right. exists i, h. split_and!; [done..|]. destruct Hf as [(a & Ha & Hf)|[Hno Hf]].
  2:{ left. by rewrite Hf. }
  right. destruct (swap_remove_front_spec i (syn_queue e) h Hi) as (q & Hs & Hperm).
  exists a, q. rewrite Hf, Nat.add_0_l, Hs. split_and!; [done..|].
  pose proof (queue_NoDup O n p e Hok Hp) as Hnd. rewrite Hperm in Hnd. apply NoDup_cons in Hnd as [Hhq Hnd].
  assert (∀ x, x ∈ h :: q → x ∈ syn_queue e) as Hsub by (intros x; by rewrite <-Hperm).
  apply (net_ok_queue O _ n p e); [done..| | | | |].
  - intros k [Hk|[= <-]]; [by apply Ho|]. destruct (Hq p e h Hp); [|done]. apply Hsub. by left.
  - destruct (He p e Hp) as (_ & _ & Hl). apply Permutation_length in Hperm. simpl in Hperm. lia.
  - done.
  - intros k Hk. destruct (Hq p e k Hp) as [Hkt Hko]; [by apply Hsub; right|]. split; [done|].
    split; [intros [?|[= ->]]; done|]. intros p' e' Hne Hp' Hin.
    assert (k ∈ syn_queue e) as Hke by (by apply Hsub; right).
    apply list_elem_of_lookup in Hin as [a1 Ha1], Hke as [a2 Ha2]. destruct (Hu p' p e' e a1 a2 k); done.
  - intros p' e' k Hne Hp' Hin [HO|[= <-]].
    + by destruct (Hq p' e' k Hp' Hin).
    + apply list_elem_of_lookup in Hin as [a1 Ha1]. by destruct (Hu p' p e' e a1 i h).
Qed.

Lemma incoming_ok O dst n : net_ok O n →
  (incoming_tcp_packet dst n).1 = Ok () ∧ net_ok O (incoming_tcp_packet dst n).2 ∧
  (∀ p, is_Some (tcp (incoming_tcp_packet dst n).2 !! p) ↔ is_Some (tcp n !! p)).
Proof.
  intros Hok. unfold incoming_tcp_packet, mbind, st_bind, st_get. cbv beta iota.
  destruct (tcp n !! ep_port dst) as [e|] eqn:Hp; [|done]. destruct (negb _); [done|].
  destruct (LISTEN_QUEUE_SIZE <=? length (syn_queue e))%nat eqn:Hl; [done|]. apply Nat.leb_gt in Hl.
  destruct (t_listen t_new (listen_endpoint e)) as [t|]; [|done].
  destruct (add_tcp_ok O t n Hok) as (h & Ha & Hno & Hnq & Ht & Hok1). destruct (add (inl t) n) as [r n1].
  simpl in *. subst r. simpl. split; [done|]. split.
  - rewrite <-Ht in *. eapply net_ok_queue; [exact Hok1|done|..].
    + intros k Hk. apply (no_owned _ _ Hok1). by left.
    + rewrite length_app. simpl. lia.
    + apply NoDup_app. split; [by eapply queue_NoDup|]. split; [|apply NoDup_singleton].
      intros x Hx ->%list_elem_of_singleton. by apply (Hnq (ep_port dst) e).
    + intros k [Hk| ->%list_elem_of_singleton]%elem_of_app.
      * destruct (no_queued _ _ Hok1 _ e k Hp Hk) as [? Hn]. split; [done|]. split; [intros ?; apply Hn; by left|].
        intros p' e' Hne Hp' Hin. apply list_elem_of_lookup in Hin as [a1 Ha1], Hk as [a2 Ha2].
        by destruct (no_unique _ _ Hok1 p' (ep_port dst) e' e a1 a2 k).
      * split; [apply (no_owned _ _ Hok1); by right|]. split; [done|]. intros p' e' _ Hp'. by apply (Hnq p' e').
    + intros p' e' k _ Hp' Hin HO. destruct (no_queued _ _ Hok1 p' e' k Hp' Hin) as [_ Hn]. apply Hn. by left.
  - intros p. rewrite lookup_insert. case_decide; subst; [|done]. rewrite Hp. split; by eexists.
Qed.

(** Polling the interface keeps the invariant, does not panic, and opens or
    closes no listening port. *)
Lemma poll_frames_ok O frames : ∀ n, net_ok O n →
  (poll_frames frames n).1 = Ok () ∧ net_ok O (poll_frames frames n).2 ∧
  (∀ p, is_Some (tcp (poll_frames frames n).2 !! p) ↔ is_Some (tcp n !! p)).
Proof.
  induction frames as [|f frames IH]; intros n Hok; [done|]. simpl. unfold mbind, st_bind.
  assert (∃ r, (snoop_tcp_packet f n).1 = Ok r ∧ net_ok O (snoop_tcp_packet f n).2 ∧
    (∀ p, is_Some (tcp (snoop_tcp_packet f n).2 !! p) ↔ is_Some (tcp n !! p))) as (r & Hr & Hok1 & Hd1).
  { unfold snoop_tcp_packet. destruct (ether_payload f ≫= ipv4_packet) as [ip|]; [|by eexists].
    destruct (negb _); [by eexists|]. destruct (tcp_packet (ip_payload ip)) as [p|]; [|by eexists].
    unfold mbind, st_bind. destruct (tcp_syn p && negb (tcp_ack p)); [|by eexists].
    destruct (incoming_ok O (mkEndpoint (ip_dst ip) (tcp_dst p)) n Hok) as (Hi & Hn & Hd).
    destruct (incoming_tcp_packet _ n) as [r n1]. simpl in *. subst r. by eexists. }
  destruct (snoop_tcp_packet f n) as [r' n1]. simpl in *. subst r'. simpl.
  destruct (IH (set_eth (ingress f (eth0 n1) (sockets n1)) n1)) as (H1 & H2 & H3).
  { eapply net_ok_like; [|exact Hok1]. split; [done..|]. apply ingress_kinds. }
  split_and!; [done..|]. intros p. rewrite H3. apply Hd1.
Qed.
Lemma poll_interfaces_ok O frames n : net_ok O n →
  ∃ n', poll_interfaces frames n = (Ok (), n') ∧ net_ok O n' ∧
    (∀ p, is_Some (tcp n' !! p) ↔ is_Some (tcp n !! p)).
Proof.
  intros Hok. unfold poll_interfaces, mbind, st_bind.
  destruct (poll_frames_ok O frames n Hok) as (H1 & H2 & H3). destruct (poll_frames frames n) as [r n1].
  simpl in *. subst r. eexists. split; [done|]. split; [|done].
  eapply net_ok_like; [|exact H2]. split; [done..|]. apply egress_kinds.
Qed.

(** Polling removes no UDP socket. *)
Lemma incoming_keeps_udp dst n h : is_udp (sockets n) h → is_udp (sockets (incoming_tcp_packet dst n).2) h.
Proof.
  intros [u Hu]. unfold incoming_tcp_packet, mbind, st_bind; simpl. repeat case_match; simplify_eq/=; try by exists u.
  exists u. rewrite lookup_insert_ne; [done|]. intros Heq. rewrite <-Heq, fresh_handle_fresh in Hu. done.
Qed.
Lemma poll_keeps_udp frames n h : is_udp (sockets n) h → is_udp (sockets (poll_interfaces frames n).2) h.
Proof.
  assert (∀ n, is_udp (sockets n) h → is_udp (sockets (poll_frames frames n).2) h) as Hf.
  { induction frames as [|f frames IH]; intros m Hm; [done|]. simpl. unfold mbind, st_bind.
    assert (is_udp (sockets (snoop_tcp_packet f m).2) h) as Hs.
    { unfold snoop_tcp_packet. destruct (ether_payload f ≫= ipv4_packet) as [ip|]; [|done].
      destruct (negb _); [done|]. destruct (tcp_packet (ip_payload ip)) as [p|]; [|done].
      unfold mbind, st_bind. destruct (tcp_syn p && negb (tcp_ack p)); [|done].
      pose proof (incoming_keeps_udp (mkEndpoint (ip_dst ip) (tcp_dst p)) m h Hm).
      by destruct (incoming_tcp_packet _ m) as [[]]. }
    destruct (snoop_tcp_packet f m) as [[a|e|] m1]; [|done..]. simpl. apply IH. by apply ingress_kinds. }
  intros Hn. specialize (Hf n Hn). unfold poll_interfaces, mbind, st_bind.
  destruct (poll_frames frames n) as [[a|e|] m1]; [|done..]. simpl. by apply egress_kinds.
Qed.
End net.
Arguments Net : clear implicits.

(** ** An instance

    Sockets that hold a state, addresses and queues; a frame changes nothing.
    A frame is five numbers: two addresses, two ports and the flags. *)
Record SimTcp := mkSimTcp {
  sim_state : TcpState; sim_local : option IpEndpoint; sim_remote : option IpEndpoint; sim_in : list Z;
}.
Record SimUdp := mkSimUdp { sim_bound : bool; sim_queue : list (list Z * IpEndpoint) }.
Definition next_key {A} (m : gmap Z A) : Z := map_fold (λ k _ x, Z.max x (k + 1)) 0 m.
Lemma next_key_above {A} (m : gmap Z A) : ∀ k a, m !! k = Some a → k < next_key m.
Proof.
  unfold next_key. apply (map_fold_weak_ind (λ x m, ∀ k a, m !! k = Some a → k < x)).
  - intros k a. by rewrite lookup_empty.
  - intros i x m' r _ IH k a [[<- <-]|[? Hk]]%lookup_insert_Some; [lia|]. specialize (IH k a Hk). lia.
Qed.
Definition sim_ipv4 (f : list Z) : option Ipv4Packet :=
  match f with
  | src :: dst :: rest => Some (mkIpv4 [10; 0; 0; src] [10; 0; 0; dst] IPPROTO_TCP rest)
  | _ => None
  end.
Definition sim_segment (f : list Z) : option TcpPacket :=
  match f with
  | [sport; dport; flags] => Some (mkTcpPacket sport dport (contains flags 1) (contains flags 2))
  | _ => None
  end.
Definition sim_recv (u : SimUdp) (n : nat) : option (list Z * IpEndpoint) * SimUdp :=
  match sim_queue u with
  | [] => (None, u)
  | (bs, e) :: q => (Some (take n bs, e), mkSimUdp (sim_bound u) q)
  end.
#[global, program] Instance SimNet : Smoltcp SimTcp SimUdp () := {|
  fresh_handle := next_key;
  ether_payload f := Some f;
  ipv4_packet := sim_ipv4;
  tcp_packet := sim_segment;
  ingress f i s := (i, s);
  egress i s := (i, s);
  t_new := mkSimTcp Closed None None [];
  t_state := sim_state;
  t_listen t e := Some (mkSimTcp Listen None None (sim_in t));
  t_connect t i r l :=
    if ep_port r =? 0 then (Err ConnUnaddressable, (t, i)) else
    if bool_decide (sim_state t = Closed)
    then (Ok (), (mkSimTcp SynSent (Some (mkEndpoint [10; 0; 0; 1] (le_port l))) (Some r) (sim_in t), i))
    else (Err ConnInvalidState, (t, i));
  t_local := sim_local;
  t_remote := sim_remote;
  t_close t := mkSimTcp Closed None None [];
  t_is_active t := bool_decide (sim_state t = Established);
  t_may_recv t := bool_decide (sim_state t = Established);
  t_can_recv t := negb (bool_decide (sim_in t = []));
  t_recv_queue t := Z.of_nat (length (sim_in t));
  t_recv_slice t n := (Some (take n (sim_in t)), mkSimTcp (sim_state t) (sim_local t) (sim_remote t) (drop n (sim_in t)));
  t_may_send t := bool_decide (sim_state t = Established);
  t_can_send t := bool_decide (sim_state t = Established);
  t_send_slice t bs := (Some (Z.of_nat (length bs)), t);
  u_new := mkSimUdp false [];
  u_bind u e := if sim_bound u then Err true else if le_port e =? 0 then Err false else Ok (mkSimUdp true (sim_queue u));
  u_close u := mkSimUdp false [];
  u_can_recv u := negb (bool_decide (sim_queue u = []));
  u_can_send u := true;
  u_recv_slice := sim_recv;
  u_peek_slice u n := (sim_recv u n).1;
  u_queue := sim_queue;
  u_send_slice u bs e := ((if sim_bound u then Ok () else Err false), u);
|}.
Next Obligation.
  intros s. destruct (s !! next_key s) eqn:Hs; [|done]. apply next_key_above in Hs. lia.
Qed.
Next Obligation. done. Qed.
Next Obligation. done. Qed.
Next Obligation. intros t i r l t' i'. cbv beta. destruct (ep_port r =? 0); [done|]. case_bool_decide; intros [= <- <-]; split; by eexists. Qed.
Next Obligation. intros t i r l. cbv beta. destruct (ep_port r =? 0); [done|]. by case_bool_decide. Qed.
Next Obligation. intros u e. cbv beta. by destruct (sim_bound u), (le_port e =? 0). Qed.
Next Obligation. intros u bs e. simpl. by destruct (sim_bound u). Qed.
Next Obligation. done. Qed.
Next Obligation.
  intros u n bs e q Hq Hn. unfold sim_recv. rewrite Hq. simpl. split; [|done]. by rewrite take_ge.
Qed.
