(* ===== verification/Tcp.v ===== *)
(** * TCP sockets

    Model of [src/.arceos/modules/axnet/src/smoltcp_impl/tcp.rs]. A call on a
    socket acts on the socket and on the network; the calls of one socket are
    serialised by the lock around it ([api/src/file/net.rs]), so that its word
    [state] is changed by one call at a time. A call that may wait is one pass
    of its loop. *)

From S2P Require Import Prelude Abi Pipe SockAddr Net.

#[local] Open Scope Z_scope.

Definition STATE_CLOSED : Z := 0.
Definition STATE_BUSY : Z := 1.
Definition STATE_CONNECTING : Z := 2.
Definition STATE_CONNECTED : Z := 3.
Definition STATE_LISTENING : Z := 4.

Record TcpSocket := mkTcp {
  t_word : Z;
  handle : option Z;
  local_addr : IpEndpoint;
  peer_addr : IpEndpoint;
  nonblock : bool;
}.
Definition TcpSocket_new : TcpSocket :=
  mkTcp STATE_CLOSED None UNSPECIFIED_ENDPOINT UNSPECIFIED_ENDPOINT false.
Definition new_connected (h : Z) (l p : IpEndpoint) : TcpSocket := mkTcp STATE_CONNECTED (Some h) l p false.
Definition set_word (x : Z) (t : TcpSocket) : TcpSocket :=
  mkTcp x (handle t) (local_addr t) (peer_addr t) (nonblock t).
Definition set_addrs (l p : IpEndpoint) (t : TcpSocket) : TcpSocket :=
  mkTcp (t_word t) (handle t) l p (nonblock t).
Definition set_handle (h : Z) (t : TcpSocket) : TcpSocket :=
  mkTcp (t_word t) (Some h) (local_addr t) (peer_addr t) (nonblock t).
Definition set_nonblocking (b : bool) (t : TcpSocket) : TcpSocket :=
  mkTcp (t_word t) (handle t) (local_addr t) (peer_addr t) b.

Section tcp.
Context {T U I : Type} `{Smoltcp T U I}.
Abbreviation Net := (Net T U I).
Abbreviation Nst := (Net.Nst (T:=T) (U:=U) (I:=I)).

Definition Tst : Type → Type := st (TcpSocket * Net) AxError.
Definition on_net {A} (m : Nst A) : Tst A := st_zoom snd (λ n s, (s.1, n)) m.
Definition on_sock (f : TcpSocket → TcpSocket) : Tst () := st_mod (λ s, (f s.1, s.2)).
Definition sock : Tst TcpSocket := st_gets fst.

(** ** Private functions *)

(** The compare and exchange to [STATE_BUSY] around a closure; [busy] is what
    the caller makes of the state found instead. *)
Definition update_state {A} (expect new : Z) (f busy : Tst A) : Tst A := λ s,
  if t_word s.1 =? expect then
    match f (set_word STATE_BUSY s.1, s.2) with
    | (Ok a, s') => (Ok a, (set_word new s'.1, s'.2))
    | (Err e, s') => (Err e, (set_word expect s'.1, s'.2))
    | (Panic, s') => (Panic, s')
    end
  else busy s.

(** [while tries <= PORT_END - PORT_START] *)
Fixpoint port_loop (tries : nat) : Nst Z :=
  match tries with
  | O => st_err AddrInUse
  | S k =>
      n ← st_get;
      let port := tcp_port n in
      st_put (set_tcp_port (if port =? PORT_END then PORT_START else port + 1) n);;
      if ListenTable_can_listen port n then mret port else port_loop k
  end.
Definition get_ephemeral_port : Nst Z := port_loop (Z.to_nat (PORT_END - PORT_START + 1)).

Definition bound_endpoint : Tst IpListenEndpoint :=
  t ← sock;
  port ← (if ep_port (local_addr t) =? 0 then on_net get_ephemeral_port
          else mret (ep_port (local_addr t)));
  if port =? 0 then st_panic else
  mret (mkListen (if is_unspecified (ep_addr (local_addr t)) then None
                  else Some (ep_addr (local_addr t))) port).

(** The handle of a socket that must have one. *)
Definition the_handle : Tst Z := t ← sock; st_lift (unwrap_opt (handle t)).

Definition poll_connect : Tst PollState :=
  h ← the_handle;
  x ← on_net (with_tcp h t_state);
  w ← match x with
      | SynSent => mret false
      | Established => on_sock (set_word STATE_CONNECTED);; mret true
      | _ =>
          on_sock (λ t, set_word STATE_CLOSED (set_addrs UNSPECIFIED_ENDPOINT UNSPECIFIED_ENDPOINT t));;
          mret true
      end;
  mret {| poll_readable := false; poll_writable := w |}.
Definition poll_stream : Tst PollState :=
  h ← the_handle;
  on_net (with_tcp h (λ t, {| poll_readable := negb (t_may_recv t) || t_can_recv t;
                              poll_writable := negb (t_may_send t) || t_can_send t |})).
Definition poll_listener : Tst PollState :=
  t ← sock;
  r ← on_net (ListenTable_can_accept (ep_port (local_addr t)));
  mret {| poll_readable := r; poll_writable := false |}.

(** One turn of the loop of [block_on]: [None] when the task yields. The
    frames are those that arrive while the interface is polled. *)
Definition retry {A} (f : Tst A) : Tst (option A) := λ s,
  match f s with
  | (Ok a, s') => (Ok (Some a), s')
  | (Err WouldBlock, s') => (Ok None, s')
  | (Err e, s') => (Err e, s')
  | (Panic, s') => (Panic, s')
  end.
Definition block_on {A} (frames : list (list Z)) (f : Tst A) : Tst (option A) :=
  t ← sock;
  if nonblock t then a ← f; mret (Some a)
  else on_net (poll_interfaces frames);; retry f.

(** ** Connecting *)
Definition connect_socket (remote : IpEndpoint) (bound : IpListenEndpoint) (t : T) (i : I) :
    AxResult (IpEndpoint * IpEndpoint) * (T * I) :=
  match t_connect t i remote bound with
  | (Ok _, (t', i')) =>
      (l ← unwrap_opt (t_local t'); r ← unwrap_opt (t_remote t'); Ok (l, r), (t', i'))
  | (Err ConnInvalidState, x) => (Err BadState, x)
  | (Err ConnUnaddressable, x) => (Err ConnectionRefused, x)
  | (Panic, x) => (Panic, x)
  end.
Definition connect_begin (remote : SocketAddr) : Tst () :=
  update_state STATE_CLOSED STATE_CONNECTING
    (t ← sock;
     h ← match handle t with Some h => mret h | None => on_net (add (inl t_new)) end;
     remote ← st_lift (from_core_sockaddr remote);
     bound ← bound_endpoint;
     '(l, r) ← on_net (with_tcp_mut h (connect_socket remote bound));
     on_sock (λ t, set_handle h (set_addrs l r t)))
    (st_err AlreadyExists).
Definition connect_pass (frames : list (list Z)) : Tst (option ()) :=
  block_on frames
    (p ← poll_connect;
     t ← sock;
     if negb (poll_writable p) then st_err WouldBlock
     else if t_word t =? STATE_CONNECTED then mret ()
     else st_err ConnectionRefused).
Definition connect (remote : SocketAddr) (frames : list (list Z)) : Tst (option ()) :=
  connect_begin remote;;
  t ← sock;
  if nonblock t then st_err WouldBlock else connect_pass frames.

(** ** Binding, listening and accepting *)
Definition port_of (a : SocketAddr) : Z := match a with V4 a => v4_port a | V6 a => v6_port a end.
Definition set_port (p : Z) (a : SocketAddr) : SocketAddr :=
  match a with
  | V4 a => V4 (mkV4 (v4_ip a) p)
  | V6 a => V6 (mkV6 (v6_ip a) p (v6_flowinfo a) (v6_scope_id a))
  end.
Definition bind (local : SocketAddr) : Tst () :=
  update_state STATE_CLOSED STATE_CLOSED
    (local ← (if port_of local =? 0 then p ← on_net get_ephemeral_port; mret (set_port p local)
              else mret local);
     t ← sock;
     if bool_decide (local_addr t = UNSPECIFIED_ENDPOINT)
     then e ← st_lift (from_core_sockaddr local); on_sock (λ t, set_addrs e (peer_addr t) t)
     else st_err InvalidInput)
    (st_err InvalidInput).
Definition listen : Tst () :=
  update_state STATE_CLOSED STATE_LISTENING
    (bound ← bound_endpoint;
     on_sock (λ t, set_addrs (mkEndpoint (ep_addr (local_addr t)) (le_port bound)) (peer_addr t) t);;
     on_net (ListenTable_listen bound))
    (mret ()).
Definition accept (frames : list (list Z)) : Tst (option TcpSocket) :=
  t ← sock;
  if negb (t_word t =? STATE_LISTENING) then st_err InvalidInput else
  block_on frames
    ('(h, (l, p)) ← on_net (ListenTable_accept (ep_port (local_addr t)));
     mret (new_connected h l p)).

(** ** Closing *)
Definition shutdown (frames : list (list Z)) : Tst () :=
  update_state STATE_CONNECTED STATE_CLOSED
    (h ← the_handle;
     on_net (with_tcp_mut h (λ t i, (Ok (), (t_close t, i))));;
     on_sock (λ t, set_addrs UNSPECIFIED_ENDPOINT (peer_addr t) t);;
     on_net (poll_interfaces frames))
    (mret ());;
  update_state STATE_LISTENING STATE_CLOSED
    (t ← sock;
     on_sock (λ t, set_addrs UNSPECIFIED_ENDPOINT (peer_addr t) t);;
     on_net (ListenTable_unlisten (ep_port (local_addr t)));;
     on_net (poll_interfaces frames))
    (mret ()).
Definition TcpSocket_drop (frames : list (list Z)) : Tst () :=
  st_ok (F:=AxError) (shutdown frames);;
  t ← sock;
  match handle t with Some h => on_net (remove h) | None => mret () end.

(** ** Data: what is received goes to the front of a buffer of [n] bytes *)
Definition check_connected : Tst Z :=
  t ← sock;
  if t_word t =? STATE_CONNECTING then st_err WouldBlock
  else if negb (t_word t =? STATE_CONNECTED) then st_err NotConnected
  else the_handle.
Definition recv_socket (n : nat) (t : T) (i : I) : AxResult (list Z) * (T * I) :=
  if negb (t_is_active t) then (Err ConnectionRefused, (t, i))
  else if negb (t_may_recv t) then (Ok [], (t, i))
  else if 0 <? t_recv_queue t then
    match t_recv_slice t n with
    | (Some bs, t') => (Ok bs, (t', i))
    | (None, t') => (Err BadState, (t', i))
    end
  else (Err WouldBlock, (t, i)).
Definition recv (n : nat) (frames : list (list Z)) : Tst (option (list Z)) :=
  h ← check_connected;
  block_on frames (on_net (with_tcp_mut h (recv_socket n))).
Definition send_socket (buf : list Z) (t : T) (i : I) : AxResult Z * (T * I) :=
  if negb (t_is_active t) || negb (t_may_send t) then (Err ConnectionReset, (t, i))
  else if t_can_send t then
    match t_send_slice t buf with
    | (Some len, t') => (Ok len, (t', i))
    | (None, t') => (Err BadState, (t', i))
    end
  else (Err WouldBlock, (t, i)).
Definition send (buf : list Z) (frames : list (list Z)) : Tst (option Z) :=
  h ← check_connected;
  block_on frames (on_net (with_tcp_mut h (send_socket buf))).
Definition poll : Tst PollState :=
  t ← sock;
  if t_word t =? STATE_CONNECTING then poll_connect
  else if t_word t =? STATE_CONNECTED then poll_stream
  else if t_word t =? STATE_LISTENING then poll_listener
  else mret {| poll_readable := false; poll_writable := false |}.
(** The addresses, for a socket that is connected or listens. *)
Definition socket_addr (which : TcpSocket → IpEndpoint) (t : TcpSocket) : AxResult SocketAddr :=
  if (t_word t =? STATE_CONNECTED) || (t_word t =? STATE_LISTENING)
  then Ok (into_core_sockaddr (which t)) else Err NotConnected.

(** ** Ephemeral ports *)

(** The port after [i] steps from [c]. *)
Definition port_at (c i : Z) : Z := PORT_START + (c - PORT_START + i) mod (PORT_END - PORT_START + 1).

Lemma port_at_range c i : PORT_START ≤ port_at c i ≤ PORT_END.
Proof. unfold port_at, PORT_START, PORT_END. change (0xffff - 0xc000 + 1) with 0x4000.
  pose proof (Z.mod_pos_bound (c - 0xc000 + i) 0x4000). lia. Qed.
Lemma port_at_0 c : PORT_START ≤ c ≤ PORT_END → port_at c 0 = c.
Proof. unfold port_at, PORT_START, PORT_END. intros. rewrite Z.mod_small; lia. Qed.
Lemma port_at_1 c : PORT_START ≤ c ≤ PORT_END →
  (if c =? PORT_END then PORT_START else c + 1) = port_at c 1.
Proof.
  unfold port_at, PORT_START, PORT_END. intros. destruct (Z.eqb_spec c 0xffff) as [->|]; [done|].
  rewrite Z.mod_small; lia.
Qed.
Lemma port_at_step c i : port_at (port_at c 1) i = port_at c (i + 1).
Proof.
  unfold port_at. rewrite Z.add_simpl_l, Z.add_mod_idemp_l by done. do 2 f_equal. lia.
Qed.
Lemma port_at_all c p : PORT_START ≤ c ≤ PORT_END → PORT_START ≤ p ≤ PORT_END →
  ∃ i, 0 ≤ i < PORT_END - PORT_START + 1 ∧ port_at c i = p.
Proof.
  intros Hc Hp. exists ((p - c) mod (PORT_END - PORT_START + 1)). split; [by apply Z.mod_pos_bound|].
  unfold port_at. rewrite Z.add_mod_idemp_r by done.
  replace (c - PORT_START + (p - c)) with (p - PORT_START) by lia.
  unfold PORT_START, PORT_END in *. rewrite Z.mod_small; lia.
Qed.

Lemma port_loop_spec k : ∀ n, PORT_START ≤ tcp_port n ≤ PORT_END →
  wp (port_loop k) (λ r n', (∃ q, n' = set_tcp_port q n ∧ PORT_START ≤ q ≤ PORT_END) ∧
    match r with
    | Ok p => PORT_START ≤ p ≤ PORT_END ∧ tcp n !! p = None
    | Err e => e = AddrInUse ∧ ∀ i, 0 ≤ i < Z.of_nat k → is_Some (tcp n !! port_at (tcp_port n) i)
    | Panic => False
    end) n.
Proof.
  induction k as [|k IH]; intros n Hr; unfold wp; simpl.
  { split; [exists (tcp_port n); by destruct n|]. split; [done|]. lia. }
  unfold mbind, st_bind, ListenTable_can_listen; simpl. rewrite port_at_1 by done.
  destruct (tcp n !! tcp_port n) as [e|] eqn:Ht; simpl.
  2:{ split; [|done]. eexists. split; [done|]. apply port_at_range. }
  specialize (IH (set_tcp_port (port_at (tcp_port n) 1) n) (port_at_range _ _)). unfold wp in IH.
  destruct (port_loop k _) as [r n1]. simpl in *. destruct IH as [(q & -> & Hq) IH]. split; [by exists q|].
  destruct r as [p|e'|]; [done| |done]. destruct IH as [-> IH]. split; [done|]. intros i Hi.
  destruct (decide (i = 0)) as [->|]; [rewrite port_at_0 by done; by rewrite Ht|].
  specialize (IH (i - 1)). rewrite port_at_step in IH. replace (i - 1 + 1) with i in IH by lia. apply IH. lia.
Qed.

Lemma get_ephemeral_port_ok n : PORT_START ≤ tcp_port n ≤ PORT_END →
  wp get_ephemeral_port (λ r n', (∃ q, n' = set_tcp_port q n ∧ PORT_START ≤ q ≤ PORT_END) ∧
    match r with
    | Ok p => PORT_START ≤ p ≤ PORT_END ∧ tcp n !! p = None
    | Err e => e = AddrInUse ∧ ∀ p, PORT_START ≤ p ≤ PORT_END → is_Some (tcp n !! p)
    | Panic => False
    end) n.
Proof.
  intros Hr. eapply wp_mono; [by apply port_loop_spec|]. intros [p|e|] n'; [done| |done].
  intros [Hq [-> Hall]]. split; [done|]. split; [done|]. intros p Hp.
  destruct (port_at_all (tcp_port n) p Hr Hp) as (i & Hi & <-). apply Hall. rewrite Z2Nat.id; [done|]. done.
Qed.

(** ** What a call keeps

    [O] are the handles of the other sockets. Between calls the word is not
    [STATE_BUSY], a socket that connects or is connected has a handle, which
    belongs to it alone, and a socket that listens has its port in the table. *)
Definition listens (t : TcpSocket) (p : Z) : Prop :=
  t_word t = STATE_LISTENING ∧ ep_port (local_addr t) = p.
Definition word_ok (t : TcpSocket) : Prop :=
  t_word t = STATE_CLOSED ∨ t_word t = STATE_LISTENING ∨
  ((t_word t = STATE_CONNECTING ∨ t_word t = STATE_CONNECTED) ∧ is_Some (handle t)).
Record owns (O : Z → Prop) (s : TcpSocket * Net) : Prop := {
  own_net : net_ok (plus O (handle s.1)) s.2;
  own_alone h : handle s.1 = Some h → ¬ O h;
}.
Record sock_inv (O : Z → Prop) (s : TcpSocket * Net) : Prop := {
  si_owns : owns O s;
  si_word : word_ok s.1;
  si_listens p : listens s.1 p → is_Some (tcp s.2 !! p);
}.
(** Which ports listen after a call: the port of the socket, when it listens,
    and those of the others; a port that is taken was free. *)
Record ports_kept (s0 s : TcpSocket * Net) : Prop := {
  pk_dom p : is_Some (tcp s.2 !! p) ↔ listens s.1 p ∨ (is_Some (tcp s0.2 !! p) ∧ ¬ listens s0.1 p);
  pk_new p : listens s.1 p → ¬ listens s0.1 p → tcp s0.2 !! p = None;
}.
Definition call_ok {A} (may_panic : Prop) (O : Z → Prop) (s0 : TcpSocket * Net)
    (r : AxResult A) (s : TcpSocket * Net) : Prop :=
  match r with Panic => may_panic | _ => sock_inv O s ∧ ports_kept s0 s end.

#[local] Arguments call_ok : simpl never.

Definition same_ports (n n' : Net) : Prop := ∀ p, is_Some (tcp n' !! p) ↔ is_Some (tcp n !! p).

Lemma ports_kept_same O s0 s : sock_inv O s0 → same_ports s0.2 s.2 →
  (∀ p, listens s.1 p ↔ listens s0.1 p) → ports_kept s0 s.
Proof.
  intros [_ _ Hl] Hd Hw. split.
  - intros p. rewrite (Hd p), (Hw p). specialize (Hl p).
    destruct (decide (listens s0.1 p)) as [?|?]; tauto.
  - intros p Hp Hn. by destruct Hn; apply Hw.
Qed.

(** A call that leaves the socket's word and address alone. *)
Lemma call_kept {A} P O s0 s (r : AxResult A) : sock_inv O s0 → owns O s → same_ports s0.2 s.2 →
  t_word s.1 = t_word s0.1 → handle s.1 = handle s0.1 → local_addr s.1 = local_addr s0.1 →
  r ≠ Panic → call_ok P O s0 r s.
Proof.
  intros Hs0 Ho Hd Hw Hh Hl Hr.
  assert (∀ p, listens s.1 p ↔ listens s0.1 p) as Hli by (intros p; unfold listens; by rewrite Hw, Hl).
  pose proof Hs0 as [Ho0 Hw0 Hl0].
  assert (sock_inv O s ∧ ports_kept s0 s); [|by destruct r].
  split; [|by eapply ports_kept_same]. split; [done| |].
  - unfold word_ok. by rewrite Hw, Hh.
  - intros p Hp%Hli. apply Hd. by apply Hl0.
Qed.
(** A call between states in which the socket does not listen. *)
Lemma call_not_listening {A} P O s0 s (r : AxResult A) : sock_inv O s0 → owns O s → same_ports s0.2 s.2 →
  t_word s0.1 ≠ STATE_LISTENING → t_word s.1 ≠ STATE_LISTENING → word_ok s.1 → r ≠ Panic → call_ok P O s0 r s.
Proof.
  intros Hs0 Ho Hd Hw0 Hw Hk Hr.
  assert (sock_inv O s ∧ ports_kept s0 s); [|by destruct r].
  assert (∀ p, listens s.1 p ↔ listens s0.1 p) as Hli by (intros p; unfold listens; tauto).
  split; [|by eapply ports_kept_same]. split; [done..|]. intros p [? ?]. done.
Qed.

Lemma wp_update_state {A} expect new (f busy : Tst A) (Q : AxResult A → TcpSocket * Net → Prop) s :
  (t_word s.1 = expect →
     wp f (λ r s', Q r match r with
                       | Ok _ => (set_word new s'.1, s'.2)
                       | Err _ => (set_word expect s'.1, s'.2)
                       | Panic => s'
                       end) (set_word STATE_BUSY s.1, s.2)) →
  (t_word s.1 ≠ expect → wp busy Q s) → wp (update_state expect new f busy) Q s.
Proof.
  intros Hf Hb. unfold wp, update_state in *. destruct (Z.eqb_spec (t_word s.1) expect) as [He|He]; [|by auto].
  specialize (Hf He). by destruct (f _) as [[a|e|] s'].
Qed.

Lemma update_state_Ok {A} expect new (f busy : Tst A) s a s' :
  update_state expect new f busy s = (Ok a, s') →
  t_word s'.1 = new ∨ t_word s.1 ≠ expect ∧ busy s = (Ok a, s').
Proof.
  unfold update_state. destruct (Z.eqb_spec (t_word s.1) expect); [|by right]. left.
  destruct (f _) as [[b|e'|] s1]; simplify_eq; done.
Qed.

Lemma owns_word O t (n : Net) x : owns O (t, n) → owns O (set_word x t, n).
Proof. intros [H1 H2]. split; [done|]. apply H2. Qed.
Lemma owns_net O t (n n' : Net) : owns O (t, n) → net_ok (plus O (handle t)) n' → owns O (t, n').
Proof. intros [H1 H2] Hn. split; [done|]. apply H2. Qed.

Lemma set_tcp_port_ok O (n : Net) q : PORT_START ≤ q ≤ PORT_END → net_ok O n → net_ok O (set_tcp_port q n).
Proof. intros Hq [? ? ? ? ?]. by split. Qed.

Lemma bound_endpoint_ok O (s : TcpSocket * Net) : net_ok O s.2 →
  wp bound_endpoint (λ r s', s'.1 = s.1 ∧ tcp s'.2 = tcp s.2 ∧ sockets s'.2 = sockets s.2 ∧ net_ok O s'.2 ∧
    match r with
    | Ok e => le_port e ≠ 0 ∧ (ep_port (local_addr s.1) = 0 → tcp s.2 !! le_port e = None) ∧
        (ep_port (local_addr s.1) ≠ 0 → le_port e = ep_port (local_addr s.1))
    | Err e => e = AddrInUse
    | Panic => False
    end) s.
Proof.
  intros Hok. destruct s as [t n]; simpl in *. unfold bound_endpoint. apply wp_bind. unfold wp at 1. simpl.
  apply wp_bind. destruct (Z.eqb_spec (ep_port (local_addr t)) 0) as [Hz|Hz].
  - apply wp_zoom. eapply wp_mono; [apply get_ephemeral_port_ok, Hok|]. simpl.
    intros r n' [(q & -> & Hq) Hr]. assert (net_ok O (set_tcp_port q n)) by by apply set_tcp_port_ok.
    destruct r as [p|e|]; [|by destruct Hr|done]. destruct Hr as [Hp Hn].
    unfold PORT_START in Hp. destruct (Z.eqb_spec p 0); [lia|]. unfold wp; simpl. split_and!; done.
  - unfold wp. simpl. rewrite (proj2 (Z.eqb_neq _ _) Hz). simpl. split_and!; done.
Qed.

(** ** The calls, one by one *)

(** An address of the IPv6 family. *)
Definition is_v6 (a : SocketAddr) : Prop := match a with V6 _ => True | V4 _ => False end.

Lemma same_ports_refl (n : Net) : same_ports n n.
Proof. done. Qed.
Lemma same_ports_eq (n n' : Net) : tcp n' = tcp n → same_ports n n'.
Proof. intros Ht p. by rewrite Ht. Qed.

(** A call that returns at once. *)
Lemma call_returns {A} P O s (r : AxResult A) : sock_inv O s → r ≠ Panic → call_ok P O s r s.
Proof. intros Hs Hr. by apply call_kept; [|apply Hs|..]. Qed.

Lemma connect_socket_panic remote bound t i : (connect_socket remote bound t i).1 ≠ Panic.
Proof.
  unfold connect_socket. pose proof (t_connect_panic t i remote bound) as Hp.
  destruct (t_connect t i remote bound) as [[[]|[]|] [t' i']] eqn:Hc; [|done..].
  destruct (t_connect_endpoints _ _ _ _ _ _ Hc) as [[l ->] [r ->]]. done.
Qed.

(** The handle the call uses: the socket's own, or one it makes. *)
Lemma connect_handle_ok O t n : owns O (t, n) →
  wp (match handle t with Some h => mret h | None => on_net (add (inl t_new)) end : Tst Z)
    (λ r s', ∃ h, r = Ok h ∧ s'.1 = t ∧ tcp s'.2 = tcp n ∧ ¬ O h ∧ net_ok (plus O (Some h)) s'.2 ∧
       (handle t = None ∨ handle t = Some h)) (t, n).
Proof.
  intros [Hn Ha]. simpl in *. destruct (handle t) as [h|] eqn:Hh.
  - exists h. simpl. split_and!; [done..|by apply Ha|done|by right].
  - apply wp_zoom. unfold wp. cbn [fst snd].
    destruct (add_tcp_ok (plus O None) t_new n Hn) as (h & Hr & Hno & _ & Ht & Hok).
    destruct (add _ n) as [r n1]. simpl in *. exists h. split_and!; [done..| | |by left].
    + intros HO. apply Hno. by left.
    + revert Hok. apply net_ok_iff. unfold plus. naive_solver.
Qed.

Lemma connect_begin_ok O remote s : sock_inv O s →
  wp (connect_begin remote) (call_ok (is_v6 remote) O s) s.
Proof.
  intros Hs. apply wp_update_state; [|intros _; by apply call_returns]. intros Hw.
  destruct s as [t n]. simpl in *. pose proof Hs as [Ho _ _].
  assert (t_word t ≠ STATE_LISTENING) as Hnl by (by rewrite Hw).
  apply wp_bind. unfold wp at 1. simpl. apply wp_bind.
  eapply wp_mono; [apply (connect_handle_ok O (set_word STATE_BUSY t) n); by apply owns_word|]. simpl.
  intros ? [t1 n1] (h & -> & Ht1 & Ht & Hno & Hok & Hh). simpl in *. subst t1.
  (* whatever fails from here on leaves the socket closed *)
  assert (∀ n2 x, tcp n2 = tcp n → net_ok (plus O (Some h)) n2 →
    call_ok (A:=()) (is_v6 remote) O (t, n) (Err x) (set_word STATE_CLOSED (set_word STATE_BUSY t), n2)) as Herr.
  { intros n2 x Ht2 Hok2. apply call_not_listening; [done| |by apply same_ports_eq|done|done|by left|done].
    split; [|simpl; intros ? ?; by apply Ho]. revert Hok2. apply net_ok_mono. simpl. unfold plus. intros k.
    destruct Hh as [->| ->]; naive_solver. }
  apply wp_bind. destruct remote as [a|a]; unfold wp at 1; simpl; [|done].
  apply wp_bind. eapply wp_mono; [apply (bound_endpoint_ok _ (set_word STATE_BUSY t, n1) Hok)|]. simpl.
  intros r [t2 n2] (Heq & Ht2 & _ & Hok2 & Hr). simpl in *. subst t2. rewrite Ht in Ht2.
  destruct r as [b|e|]; [|by apply Herr|done].
  apply wp_bind, wp_zoom. unfold wp at 1. simpl.
  destruct (with_tcp_mut_spec h (connect_socket (mkEndpoint (v4_ip a) (v4_port a)) b) n2) as (x & _ & Hr1 & Hlike).
  { apply (no_owned _ _ Hok2). by right. }
  pose proof (connect_socket_panic (mkEndpoint (v4_ip a) (v4_port a)) b x (eth0 n2)) as Hp. rewrite <-Hr1 in Hp.
  destruct (with_tcp_mut h _ n2) as [[[l r]|e|] n3]; [| |done].
  - pose proof (like_table _ _ Hlike) as Ht3. simpl in *.
    apply call_not_listening; [done| |apply same_ports_eq; simpl; congruence|done|done|right; right; naive_solver|done].
    split; simpl; [by eapply net_ok_like|naive_solver].
  - simpl in Hlike. pose proof (like_table _ _ Hlike). apply (Herr n3 e); [congruence|by eapply net_ok_like].
Qed.

Lemma bind_ok O local s : sock_inv O s → wp (bind local) (call_ok (is_v6 local) O s) s.
Proof.
  intros Hs. apply wp_update_state; [|intros _; by apply call_returns]. intros Hw.
  destruct s as [t n]. simpl in *. pose proof Hs as [Ho _ _].
  assert (t_word t ≠ STATE_LISTENING) as Hnl by (by rewrite Hw).
  assert (∀ (r : AxResult ()) q l, PORT_START ≤ q ≤ PORT_END → r ≠ Panic →
    call_ok (is_v6 local) O (t, n) r
      (set_word STATE_CLOSED (set_addrs l (peer_addr t) (set_word STATE_BUSY t)), set_tcp_port q n)) as Hall.
  { intros r q l Hq Hr. apply call_not_listening; [done| |done|done|done|by left|done].
    split; simpl; [apply set_tcp_port_ok; [done|]; apply Ho|apply Ho]. }
  assert (∀ q local', PORT_START ≤ q ≤ PORT_END → (is_v6 local' ↔ is_v6 local) →
    wp (t0 ← sock; if bool_decide (local_addr t0 = UNSPECIFIED_ENDPOINT)
        then e ← st_lift (from_core_sockaddr local'); on_sock (λ t, set_addrs e (peer_addr t) t)
        else st_err InvalidInput)
      (λ r s', call_ok (is_v6 local) O (t, n) r match r with
         | Ok _ => (set_word STATE_CLOSED s'.1, s'.2)
         | Err _ => (set_word STATE_CLOSED s'.1, s'.2)
         | Panic => s' end) (set_word STATE_BUSY t, set_tcp_port q n)) as Hrest.
  { intros q local' Hq H6. unfold wp, mbind, st_bind; simpl. case_bool_decide.
    - destruct local' as [a|a]; simpl; [by apply (Hall (Ok ()))|by apply H6].
    - simpl. specialize (Hall (Err InvalidInput) q (local_addr t) Hq). destruct t. by apply Hall. }
  apply wp_bind. destruct (port_of local =? 0).
  - apply wp_bind, wp_zoom. eapply wp_mono; [apply get_ephemeral_port_ok, Ho|]. simpl.
    intros r n' [(q & -> & Hq) Hr]. destruct r as [p|e|]; [| |done].
    + apply (Hrest q (set_port p local) Hq). by destruct local.
    + specialize (Hall (Err e) q (local_addr t) Hq). destruct t. by apply Hall.
  - specialize (Hrest (tcp_port n) local). destruct n. by apply Hrest; [apply Ho|].
Qed.

Lemma ports_kept_trans s0 s1 s2 : ports_kept s0 s1 → ports_kept s1 s2 → ports_kept s0 s2.
Proof.
  intros [Hd1 Hn1] [Hd2 Hn2]. split.
  - intros p. specialize (Hd1 p). specialize (Hd2 p). specialize (Hn1 p). rewrite Hd2, Hd1.
    destruct (decide (listens s1.1 p)) as [Hl|Hl]; [|tauto]. split; [tauto|].
    intros [?|[[? Hs] Hl0]]; [by left|]. rewrite Hn1 in Hs by done. done.
  - intros p Hp Hn. destruct (decide (listens s1.1 p)) as [Hl|Hl]; [by apply Hn1|].
    specialize (Hn2 p Hp Hl). apply eq_None_not_Some. intros Hs.
    apply (eq_None_not_Some (tcp s1.2 !! p)); [done|]. apply Hd1. by right.
Qed.
Lemma call_trans {A} P O s0 s1 s (r : AxResult A) : ports_kept s0 s1 → call_ok P O s1 r s → call_ok P O s0 r s.
Proof. intros Hp. destruct r; [| |done]; intros [? ?]; split; try done; by eapply ports_kept_trans. Qed.
Lemma call_bind {A B} P O s (m : Tst A) (k : A → Tst B) :
  wp m (call_ok P O s) s →
  (∀ a s', m s = (Ok a, s') → sock_inv O s' → wp (k a) (call_ok P O s') s') →
  wp (m ≫= k) (call_ok P O s) s.
Proof.
  intros Hm Hk. apply wp_bind. unfold wp in *. destruct (m s) as [[a|e|] s1] eqn:Hms; [|done..].
  destruct Hm as [Hs Hp]. eapply call_trans; [exact Hp|]. by apply Hk.
Qed.

Lemma poll_call_ok O frames s : sock_inv O s →
  wp (on_net (poll_interfaces frames)) (λ r s', r = Ok () ∧ s'.1 = s.1 ∧ same_ports s.2 s'.2 ∧
    sock_inv O s' ∧ ports_kept s s') s.
Proof.
  intros Hs. destruct s as [t n]. pose proof Hs as [[Hn Ha] Hw Hl]. apply wp_zoom. unfold wp. simpl in *.
  destruct (poll_interfaces_ok _ frames n Hn) as (n' & -> & Hn' & Hd). simpl.
  assert (call_ok (A:=()) False O (t, n) (Ok ()) (t, n')) as [? ?]; [|done].
  apply call_kept; [done| |done..]. by split.
Qed.

Lemma block_on_ok {A} P O s frames (f : Tst A) : sock_inv O s →
  (∀ n', sock_inv O (s.1, n') → wp f (call_ok P O (s.1, n')) (s.1, n')) →
  wp (block_on frames f) (call_ok P O s) s.
Proof.
  intros Hs Hf. destruct s as [t n]. apply wp_bind. unfold wp at 1. cbn [fst snd sock st_gets].
  destruct (nonblock t).
  - apply call_bind; [by apply Hf|]. intros a s' _ Hs'. by apply call_returns.
  - apply wp_bind. eapply wp_mono; [by apply poll_call_ok|].
    intros r [t1 n1] (-> & Ht & Hd & Hs1 & Hp). simpl in *. subst t1.
    eapply wp_mono; [|intros r s' Hc; by eapply call_trans, Hc].
    specialize (Hf n1 Hs1). unfold wp, retry in *. destruct (f (t, n1)) as [[a|e|] s2]; [done| |done].
    by destruct e.
Qed.

Lemma handle_of O s : sock_inv O s → t_word s.1 = STATE_CONNECTING ∨ t_word s.1 = STATE_CONNECTED →
  ∃ h, handle s.1 = Some h ∧ is_tcp (sockets s.2) h.
Proof.
  intros [[Hn _] Hw _] Hc. destruct Hw as [Hw|[Hw|[_ [h Hh]]]]; [rewrite Hw in Hc; by destruct Hc..|].
  exists h. split; [done|]. apply (no_owned _ _ Hn). by right.
Qed.
Lemma mut_call_ok {A} P O s h (f : T → I → AxResult A * (T * I)) : sock_inv O s → handle s.1 = Some h →
  (∀ t i, (f t i).1 ≠ Panic) → wp (on_net (with_tcp_mut h f)) (call_ok P O s) s.
Proof.
  intros Hs Hh Hf. destruct s as [t n]. pose proof Hs as [[Hn Ha] Hw Hl]. apply wp_zoom. unfold wp. simpl in *.
  destruct (with_tcp_mut_spec h f n) as (x & _ & Hr & Hlike); [apply (no_owned _ _ Hn); by right|].
  apply call_kept; [done| |apply same_ports_eq, Hlike|done..|rewrite Hr; apply Hf].
  split; [by eapply net_ok_like|done].
Qed.

Lemma poll_connect_ok P O s : sock_inv O s → t_word s.1 = STATE_CONNECTING →
  wp poll_connect (call_ok P O s) s.
Proof.
  intros Hs Hc. destruct (handle_of O s Hs) as (h & Hh & Ht); [by left|]. destruct s as [t n]. simpl in *.
  destruct (with_tcp_spec h t_state n Ht) as (x & Hx & Hwx).
  unfold poll_connect, the_handle, wp, mbind, st_bind; simpl. rewrite Hh. simpl. rewrite Hwx. simpl.
  pose proof Hs as [[Hn Ha] _ _]. simpl in *.
  assert (t_word t ≠ STATE_LISTENING) as Hnl by (by rewrite Hc).
  destruct (t_state x); simpl; apply call_not_listening; try done; try by split.
  all: first [by left | right; right; split; [by auto|by eexists]].
Qed.
Lemma connect_pass_ok P O s frames : sock_inv O s → t_word s.1 = STATE_CONNECTING →
  wp (connect_pass frames) (call_ok P O s) s.
Proof.
  intros Hs Hc. apply block_on_ok; [done|]. intros n' Hs'. apply call_bind; [by apply poll_connect_ok|].
  intros p s1 _ Hs1. apply call_bind; [by apply call_returns|]. intros t s2 [= _ <-] _.
  destruct (negb _); [by apply call_returns|]. destruct (_ =? _); by apply call_returns.
Qed.
Lemma connect_ok O s remote frames : sock_inv O s →
  wp (connect remote frames) (call_ok (is_v6 remote) O s) s.
Proof.
  intros Hs. apply call_bind; [by apply connect_begin_ok|]. intros [] s1 Hb Hs1.
  apply call_bind; [by apply call_returns|]. intros t s2 [= <- <-] _.
  destruct (nonblock s1.1); [by apply call_returns|]. apply connect_pass_ok; [done|].
  by apply update_state_Ok in Hb as [?|[_ ?]].
Qed.

Lemma listen_call_ok P O s : sock_inv O s → wp listen (call_ok P O s) s.
Proof.
  intros Hs. apply wp_update_state; [|intros _; by apply call_returns]. intros Hw.
  destruct s as [t n]. simpl in *. pose proof Hs as [[Hn Ha] _ _]. simpl in *.
  assert (t_word t ≠ STATE_LISTENING) as Hnl by (by rewrite Hw).
  apply wp_bind. eapply wp_mono; [apply (bound_endpoint_ok _ (set_word STATE_BUSY t, n) Hn)|].
  intros r [t1 n1] (Heq & Ht & _ & Hn1 & Hr). simpl in *. subst t1.
  assert (∀ (x : AxResult ()) l, x ≠ Panic →
    call_ok P O (t, n) x (set_word STATE_CLOSED (set_addrs l (peer_addr t) (set_word STATE_BUSY t)), n1)) as Hall.
  { intros x l Hx. apply call_not_listening; [done| |by apply same_ports_eq|done|done|by left|done]. by split. }
  destruct r as [b|e|]; [| |done].
  2:{ specialize (Hall (Err e) (local_addr t)). destruct t. by apply Hall. }
  destruct Hr as (Hz & _). unfold wp, mbind, st_bind, on_net, st_zoom; simpl.
  destruct (tcp n1 !! le_port b) as [e0|] eqn:Hp.
  { unfold ListenTable_listen. rewrite (proj2 (Z.eqb_neq _ _) Hz), Hp. simpl. by apply Hall. }
  destruct (listen_ok _ b n1 Hn1 Hz Hp) as [-> Hn2]. simpl. rewrite Ht in *. split; split; simpl.
  - by split.
  - right. by left.
  - intros p [_ Hpp]. simpl in *. subst p. rewrite lookup_insert_eq. by eexists.
  - intros p. unfold listens. simpl. rewrite lookup_insert. case_decide as Hd.
    + split; [by left|]. intros _. by eexists.
    + split; [|intros [[_ ?]|[? _]]; done]. intros ?. right. split; [done|]. tauto.
  - intros p [_ Hpp] _. simpl in *. by subst p.
Qed.

Lemma check_connected_ok P O s : sock_inv O s →
  wp check_connected (λ r s', call_ok P O s r s' ∧ ∀ h, r = Ok h → s' = s ∧ handle s.1 = Some h) s.
Proof.
  intros Hs. destruct s as [t n]. unfold check_connected, the_handle, wp, mbind, st_bind; simpl.
  destruct (Z.eqb_spec (t_word t) STATE_CONNECTING); [split; [by apply call_returns|done]|].
  destruct (Z.eqb_spec (t_word t) STATE_CONNECTED) as [Hc|]; simpl; [|split; [by apply call_returns|done]].
  destruct (handle_of O (t, n) Hs) as (h & Hh & _); [by right|]. simpl in *. rewrite Hh. simpl.
  split; [by apply call_returns|]. by intros ? [= <-].
Qed.
Lemma data_call_ok {A} P O s frames (f : T → I → AxResult A * (T * I)) : sock_inv O s →
  (∀ t i, (f t i).1 ≠ Panic) →
  wp (h ← check_connected; block_on frames (on_net (with_tcp_mut h f))) (call_ok P O s) s.
Proof.
  intros Hs Hf. pose proof (check_connected_ok P O s Hs) as Hc. unfold wp in Hc.
  apply call_bind; [apply Hc|]. intros h s' Heq Hs'. rewrite Heq in Hc. destruct Hc as [_ Hc].
  destruct (Hc h eq_refl) as [Heq' Hh]. simpl in Heq'. subst s'. apply block_on_ok; [done|]. intros n' Hn'. by apply mut_call_ok.
Qed.
Lemma recv_ok P O s n frames : sock_inv O s → wp (recv n frames) (call_ok P O s) s.
Proof.
  intros Hs. apply data_call_ok; [done|]. intros t i. unfold recv_socket.
  destruct (negb _); [done|]. destruct (negb _); [done|]. destruct (_ <? _); [|done].
  by destruct (t_recv_slice t n) as [[]].
Qed.
Lemma send_ok P O s buf frames : sock_inv O s → wp (send buf frames) (call_ok P O s) s.
Proof.
  intros Hs. apply data_call_ok; [done|]. intros t i. unfold send_socket.
  destruct (_ || _); [done|]. destruct (t_can_send t); [|done]. by destruct (t_send_slice t buf) as [[]].
Qed.

Lemma poll_ok P O s : sock_inv O s → wp poll (call_ok P O s) s.
Proof.
  intros Hs. destruct s as [t n]. apply wp_bind. unfold wp at 1. cbn [fst snd sock st_gets].
  destruct (Z.eqb_spec (t_word t) STATE_CONNECTING); [by apply poll_connect_ok|].
  destruct (Z.eqb_spec (t_word t) STATE_CONNECTED) as [Hc|].
  { destruct (handle_of O (t, n) Hs) as (h & Hh & Ht); [by right|]. simpl in *.
    unfold poll_stream, the_handle, wp, mbind, st_bind, on_net, st_zoom; simpl. rewrite Hh. simpl.
    destruct Ht as [x Hx]. unfold with_tcp. rewrite Hx. by apply call_returns. }
  destruct (Z.eqb_spec (t_word t) STATE_LISTENING) as [Hl|]; [|by apply call_returns].
  pose proof Hs as [[Hn _] _ Hp]. simpl in *. destruct (Hp (ep_port (local_addr t))) as [e He]; [by split|].
  unfold poll_listener, wp, mbind, st_bind, on_net, st_zoom, ListenTable_can_accept, mbind, st_bind; simpl.
  rewrite He. destruct (any_connected_ok (syn_queue e) n) as [b ->].
  { intros h Hh. by destruct (no_queued _ _ Hn _ e h He Hh). }
  by apply call_returns.
Qed.

Lemma shutdown_ok P O s frames : sock_inv O s →
  wp (shutdown frames) (λ r s', r = Ok () ∧ t_word s'.1 ≠ STATE_LISTENING ∧ call_ok P O s r s') s.
Proof.
  intros Hs. unfold shutdown. apply wp_bind. eapply (wp_mono _ (λ r s', r = Ok () ∧ call_ok P O s r s')).
  - apply wp_update_state; [|intros _; split; [done|by apply call_returns]]. intros Hw.
    destruct (handle_of O s Hs) as (h & Hh & Ht); [by right|]. destruct s as [t n]. simpl in *.
    pose proof Hs as [[Hn Ha] _ _]. unfold wp, the_handle, mbind, st_bind, on_net, st_zoom; simpl in *.
    rewrite Hh. simpl. destruct (with_tcp_mut_spec h (λ t i, (Ok (), (t_close t, i))) n Ht) as (x & _ & Hr & Hlike).
    destruct (with_tcp_mut h _ n) as [r n1]. simpl in *. subst r. simpl.
    destruct (poll_interfaces_ok (plus O (handle t)) frames n1) as (n2 & -> & Hn2 & Hd2); [by eapply net_ok_like|].
    simpl. split; [done|].
    apply call_not_listening; [done|by split| |by simpl; rewrite Hw|done|by left|done].
    intros p. simpl. rewrite Hd2. by rewrite (like_table _ _ Hlike).
  - intros r s1 [-> [Hs1 Hp1]]. eapply (wp_mono _ (λ r s', r = Ok () ∧ t_word s'.1 ≠ STATE_LISTENING ∧ call_ok P O s1 r s')).
    2:{ intros r s2 (-> & Hw2 & Hc). split_and!; [done..|]. by eapply call_trans. }
    clear s Hs Hp1. apply wp_update_state; [|intros ?; split_and!; [done..|by apply call_returns]]. intros Hw.
    destruct s1 as [t n]. simpl in *. pose proof Hs1 as [[Hn Ha] _ Hl].
    unfold wp, mbind, st_bind, on_net, st_zoom; simpl in *.
    destruct (unlisten_ok (plus O (handle t)) (ep_port (local_addr t)) n Hn) as (Hr & Ht & Hn1).
    destruct (ListenTable_unlisten _ n) as [r n1]. simpl in *. subst r. simpl.
    destruct (poll_interfaces_ok (plus O (handle t)) frames n1) as (n2 & -> & Hn2 & Hd2); [done|]. simpl.
    split_and!; [done..|]. split; split; simpl; [by split|by left|by intros ? [? ?]| |by intros ? [? ?]].
    intros p. rewrite Hd2, Ht, lookup_delete. unfold listens. simpl. case_decide as Hp; subst.
    + split; [by intros [? ?]|]. intros [[? ?]|[? Hno]]; [done|]. by destruct Hno.
    + split; [|by intros [[? ?]|[? _]]]. intros ?. right. split; [done|]. tauto.
Qed.

(** Dropping a socket gives back its handle and its port. *)
Lemma drop_ok O s frames : sock_inv O s →
  wp (TcpSocket_drop frames) (λ r s', r = Ok () ∧ net_ok O s'.2 ∧
    ∀ p, is_Some (tcp s'.2 !! p) ↔ is_Some (tcp s.2 !! p) ∧ ¬ listens s.1 p) s.
Proof.
  intros Hs. pose proof (shutdown_ok False O s frames Hs) as Hsh. unfold wp in *.
  unfold TcpSocket_drop, mbind, st_bind, st_ok. destruct (shutdown frames s) as [r s1].
  destruct Hsh as (Hr & Hw & Hc). simpl in *. subst r. destruct Hc as [[[Hn Ha] _ _] [Hd _]].
  assert (∀ p, is_Some (tcp s1.2 !! p) ↔ is_Some (tcp s.2 !! p) ∧ ¬ listens s.1 p) as Hd'.
  { intros p. rewrite Hd. unfold listens at 1. tauto. }
  destruct s1 as [t n]. simpl in *. destruct (handle t) as [h|] eqn:Hh.
  - unfold on_net, st_zoom. simpl.
    destruct (remove_ok _ O h n Hn) as (H1 & H2 & H3); [by right| |].
    { intros k. unfold plus. specialize (Ha h eq_refl). split; [intros ?; split; [by left|naive_solver]|naive_solver]. }
    split; [done|]. split; [done|]. by rewrite H2.
  - simpl. split; [done|]. split; [|done]. revert Hn. apply net_ok_iff. unfold plus. naive_solver.
Qed.

(** ** Accepting *)

(** A socket of the queue of [port] that is past the handshake but has no
    addresses, since its connection is gone. *)
Definition reset_in_queue (n : Net) (port : Z) : Prop :=
  ∃ e h, tcp n !! port = Some e ∧ h ∈ syn_queue e ∧ connected (sockets n) h ∧
    ¬ ∃ a, has_addrs (sockets n) h a.
(** A new connection: a socket that was in the queue. *)
Definition accepted (O : Z → Prop) (s s' : TcpSocket * Net) (t' : TcpSocket) : Prop :=
  ∃ h l p, t' = new_connected h l p ∧ s'.1 = s.1 ∧ ¬ plus O (handle s.1) h ∧
    net_ok (plus (plus O (handle s.1)) (Some h)) s'.2 ∧ same_ports s.2 s'.2.

Lemma accept_ok O s frames : sock_inv O s →
  wp (accept frames) (λ r s', match r with
    | Ok (Some t') => accepted O s s' t'
    | Ok None | Err _ => sock_inv O s' ∧ ports_kept s s'
    | Panic => ∃ n, (n = s.2 ∨ poll_interfaces frames s.2 = (Ok (), n)) ∧
        reset_in_queue n (ep_port (local_addr s.1))
    end) s.
Proof.
  intros Hs. destruct s as [t n]. apply wp_bind. unfold wp at 1. cbn [fst snd sock st_gets].
  destruct (Z.eqb_spec (t_word t) STATE_LISTENING) as [Hl|]; simpl.
  2:{ by apply (call_returns False O (t, n) (Err InvalidInput : AxResult ())). }
  set (port := ep_port (local_addr t)).
  set (f := (on_net (ListenTable_accept port) ≫= λ '(h, (l, p)), mret (new_connected h l p)) : Tst TcpSocket).
  assert (∀ n', sock_inv O (t, n') → same_ports n n' →
    wp f (λ r s', match r with
      | Ok t' => accepted O (t, n) s' t'
      | Err e => e = WouldBlock ∧ s' = (t, n')
      | Panic => reset_in_queue n' port
      end) (t, n')) as Hacc.
  { intros n' Hs' Hd. pose proof Hs' as [[Hn Ha] _ Hp]. simpl in *. destruct (Hp port) as [e He]; [done|].
    apply wp_bind, wp_zoom. unfold wp at 1. simpl.
    destruct (table_accept_ok _ port e n' Hn He) as [[-> _]|(i & h & Hi & Hc & _ & Hx)]; [done|].
    destruct Hx as [[Hno ->]|(a & q & Ha' & Hq & -> & Hn')]; simpl.
    - exists e, h. split_and!; [done| |done..]. by eapply list_elem_of_lookup_2.
    - destruct a as [l p]. exists h, l, p. simpl. split_and!; [done..| |done|].
      + apply list_elem_of_lookup_2 in Hi. by destruct (no_queued _ _ Hn port e h He Hi).
      + intros x. simpl. rewrite <-(Hd x), lookup_insert. case_decide; subst; [|done]. rewrite He.
        split; by eexists. }
  apply wp_bind. unfold wp at 1. cbn [fst snd sock st_gets]. destruct (nonblock t).
  - apply wp_bind. eapply wp_mono; [by apply Hacc|]. intros [t'|e|] s'; [done| |].
    + intros [-> ->]. by apply (call_returns False O (t, n) (Err WouldBlock : AxResult ())).
    + intros Hr. exists n. split; [by left|done].
  - apply wp_bind. pose proof (poll_call_ok O frames (t, n) Hs) as Hpoll. unfold wp in Hpoll |- *.
    unfold on_net, st_zoom in Hpoll |- *. simpl in *. destruct (poll_interfaces frames n) as [r n1]. simpl in *.
    destruct Hpoll as (-> & _ & Hd & Hs1 & Hk). specialize (Hacc n1 Hs1 Hd). unfold wp in Hacc.
    unfold retry. destruct (f (t, n1)) as [[t'|e|] s2]; simpl in *; [done| |].
    + destruct Hacc as [-> ->]. done.
    + exists n1. split; [by right|done].
Qed.

(** ** The system: any number of sockets over one network

    Calls on different sockets and polls of the interface in any order; a
    panic stops the kernel, so that a step has another outcome. *)
Inductive Call : Type :=
  | CConnect (remote : SocketAddr) (frames : list (list Z))
  | CConnectAgain (frames : list (list Z))
  | CBind (local : SocketAddr)
  | CListen
  | CShutdown (frames : list (list Z))
  | CRecv (n : nat) (frames : list (list Z))
  | CSend (buf : list Z) (frames : list (list Z))
  | CPoll
  | CNonblocking (b : bool).

Definition run (c : Call) : Tst () :=
  match c with
  | CConnect remote frames => connect remote frames;; mret ()
  | CConnectAgain frames => connect_pass frames;; mret ()
  | CBind local => bind local
  | CListen => listen
  | CShutdown frames => shutdown frames
  | CRecv n frames => recv n frames;; mret ()
  | CSend buf frames => send buf frames;; mret ()
  | CPoll => poll;; mret ()
  | CNonblocking b => on_sock (set_nonblocking b)
  end.
(** The loop of [connect] goes on only while it has the socket locked. *)
Definition allowed (c : Call) (t : TcpSocket) : Prop :=
  match c with CConnectAgain _ => t_word t = STATE_CONNECTING | _ => True end.
(** The one reason for a panic of these calls. *)
Definition wants_v6 (c : Call) : Prop :=
  match c with CConnect a _ | CBind a => is_v6 a | _ => False end.

Record Sys := mkSys { s_net : Net; s_socks : gmap Z TcpSocket }.
Inductive sys_step : Sys → Sys → Prop :=
  | StNew s id : s_socks s !! id = None →
      sys_step s (mkSys (s_net s) (<[id := TcpSocket_new]> (s_socks s)))
  | StCall s id t c r t' n' : s_socks s !! id = Some t → allowed c t →
      run c (t, s_net s) = (r, (t', n')) → r ≠ Panic →
      sys_step s (mkSys n' (<[id := t']> (s_socks s)))
  | StAccept s id id' t frames t1 t' n' : s_socks s !! id = Some t → s_socks s !! id' = None →
      accept frames (t, s_net s) = (Ok (Some t1), (t', n')) →
      sys_step s (mkSys n' (<[id' := t1]> (<[id := t']> (s_socks s))))
  | StAcceptNone s id t frames r t' n' : s_socks s !! id = Some t →
      accept frames (t, s_net s) = (r, (t', n')) → r = Ok None ∨ (∃ e, r = Err e) →
      sys_step s (mkSys n' (<[id := t']> (s_socks s)))
  | StDrop s id t frames r t' n' : s_socks s !! id = Some t →
      TcpSocket_drop frames (t, s_net s) = (r, (t', n')) →
      sys_step s (mkSys n' (delete id (s_socks s)))
  | StPoll s frames r n' : poll_interfaces frames (s_net s) = (r, n') →
      sys_step s (mkSys n' (s_socks s)).

Definition owned (m : gmap Z TcpSocket) (h : Z) : Prop := ∃ id t, m !! id = Some t ∧ handle t = Some h.
Record sys_ok (s : Sys) : Prop := {
  sk_net : net_ok (owned (s_socks s)) (s_net s);
  sk_word id t : s_socks s !! id = Some t → word_ok t;
  sk_handles id id' t t' h : s_socks s !! id = Some t → s_socks s !! id' = Some t' →
    handle t = Some h → handle t' = Some h → id = id';
  sk_ports p : is_Some (tcp (s_net s) !! p) ↔ ∃ id t, s_socks s !! id = Some t ∧ listens t p;
  sk_listener id id' t t' p : s_socks s !! id = Some t → s_socks s !! id' = Some t' →
    listens t p → listens t' p → id = id';
}.

Lemma owned_split m id t h : m !! id = Some t →
  (owned m h ↔ plus (owned (delete id m)) (handle t) h).
Proof.
  intros Hid. unfold plus, owned. split.
  - intros (i & u & Hi & Hu). destruct (decide (i = id)) as [->|Hne]; [right; congruence|].
    left. exists i, u. by rewrite lookup_delete_ne.
  - intros [(i & u & Hi & Hu)|Hh]; [|by exists id, t]. apply lookup_delete_Some in Hi as [_ Hi]. by exists i, u.
Qed.
Lemma sys_sock s id t : sys_ok s → s_socks s !! id = Some t →
  sock_inv (owned (delete id (s_socks s))) (t, s_net s).
Proof.
  intros [Hn Hw Hh Hp Hl] Hid. split; [split; simpl| |].
  - revert Hn. apply net_ok_iff. intros h. symmetry. by apply owned_split.
  - intros h Ht (i & u & Hi & Hu). apply lookup_delete_Some in Hi as [Hne Hi]. by apply Hne, (Hh id i t u h).
  - by apply (Hw id).
  - intros p Hlp. simpl in *. apply Hp. by exists id, t.
Qed.
(** A call on one socket keeps the system in order. *)
Lemma sys_call s id t t' n' : sys_ok s → s_socks s !! id = Some t →
  sock_inv (owned (delete id (s_socks s))) (t', n') → ports_kept (t, s_net s) (t', n') →
  sys_ok (mkSys n' (<[id := t']> (s_socks s))).
Proof.
  intros [Hn Hw Hh Hp Hl] Hid [[Hn' Ha'] Hw' Hl'] [Hd Hnew]. simpl in *.
  assert (∀ i u, i ≠ id → s_socks s !! i = Some u → ∀ p, listens u p → ¬ listens t' p) as Hother.
  { intros i u Hne Hi p Hu Ht'. destruct (decide (listens t p)) as [Ht|Ht]; [by apply Hne, (Hl i id u t p)|].
    specialize (Hnew p Ht' Ht). assert (is_Some (tcp (s_net s) !! p)) as [? ?]; [|congruence].
    apply Hp. by exists i, u. }
  split; simpl.
  - revert Hn'. apply net_ok_iff. intros h. rewrite (owned_split _ id t' h) by apply lookup_insert_eq.
    by rewrite delete_insert_eq.
  - intros i u. rewrite lookup_insert. case_decide; [by intros [= <-]|]. apply Hw.
  - intros i j u v h. rewrite !lookup_insert. repeat case_decide; subst; [done| | |by apply Hh].
    + intros [= <-] Hj Hu Hv. destruct (Ha' h Hu). exists j, v. by rewrite lookup_delete_ne.
    + intros Hi [= <-] Hu Hv. destruct (Ha' h Hv). exists i, u. by rewrite lookup_delete_ne.
  - intros p. rewrite Hd. split.
    + intros [Hlt|[Hs Hlt]]; [exists id, t'; by rewrite lookup_insert_eq|].
      apply Hp in Hs as (i & u & Hi & Hu). exists i, u. split; [|done]. rewrite lookup_insert_ne; [done|].
      intros <-. congruence.
    + intros (i & u & Hi & Hu). apply lookup_insert_Some in Hi as [[<- <-]|[Hne Hi]]; [by left|]. right.
      split; [apply Hp; by exists i, u|]. intros Ht. by apply Hne, (Hl id i t u p).
  - intros i j u v p. rewrite !lookup_insert. repeat case_decide; subst; [done| | |by apply Hl].
    + intros [= <-] Hj Hu Hv. by destruct (Hother j v) with p.
    + intros Hi [= <-] Hu Hv. by destruct (Hother i u) with p.
Qed.

Lemma run_ok O s c : sock_inv O s → allowed c s.1 → wp (run c) (call_ok (wants_v6 c) O s) s.
Proof.
  intros Hs Hc. destruct c; simpl in *;
    try (apply call_bind; [|by intros; apply call_returns]).
  - by apply connect_ok.
  - by apply connect_pass_ok.
  - by apply bind_ok.
  - by apply listen_call_ok.
  - eapply wp_mono; [by apply (shutdown_ok False)|]. by intros r s' (-> & _ & ?).
  - by apply recv_ok.
  - by apply send_ok.
  - by apply poll_ok.
  - destruct s as [t n]. pose proof Hs as [[? ?] _ _]. by apply call_kept; [|split|..].
Qed.

Lemma sys_step_ok s s' : sys_step s s' → sys_ok s → sys_ok s'.
Proof.
  intros Hst Hs. destruct Hst as [s id Hid|s id t c r t' n' Hid Hc Hrun Hr|s id id' t frames t1 t' n' Hid Hid' Hacc
    |s id t frames r t' n' Hid Hacc Hr|s id t frames r t' n' Hid Hdr|s frames r n' Hpoll].
  - destruct Hs as [Hn Hw Hh Hp Hl]. split; simpl.
    + revert Hn. apply net_ok_iff. intros h. rewrite (owned_split _ id TcpSocket_new h) by apply lookup_insert_eq.
      rewrite delete_insert_id by done. unfold plus. naive_solver.
    + intros i u. rewrite lookup_insert. case_decide; [intros [= <-]; by left|]. apply Hw.
    + intros i j u v h. rewrite !lookup_insert. repeat case_decide; subst; [done|by intros [= <-]|by intros ? [= <-]|apply Hh].
    + intros p. rewrite Hp. split; intros (i & u & Hi & Hu).
      * exists i, u. split; [|done]. rewrite lookup_insert_ne; [done|]. intros <-. congruence.
      * apply lookup_insert_Some in Hi as [[_ <-]|[_ Hi]]; [by destruct Hu|]. by exists i, u.
    + intros i j u v p. rewrite !lookup_insert. repeat case_decide; subst;
        [done|by intros [= <-] _ [? _]|by intros _ [= <-] _ [? _]|apply Hl].
  - pose proof (run_ok _ _ c (sys_sock s id t Hs Hid) Hc) as Hok. unfold wp in Hok. rewrite Hrun in Hok.
    destruct r; [| |done]; destruct Hok; by eapply sys_call.
  - pose proof (accept_ok _ _ frames (sys_sock s id t Hs Hid)) as Hok. unfold wp in Hok. rewrite Hacc in Hok.
    destruct Hok as (h & l & p & -> & Heq & Hno & Hn' & Hd). simpl in Heq, Hno, Hn', Hd. subst t'.
    rewrite (insert_id (s_socks s) id t Hid). destruct Hs as [Hn Hw Hh Hp Hl].
    assert (¬ owned (s_socks s) h) as Hfree by (by rewrite (owned_split _ id t)).
    split; simpl.
    + revert Hn'. apply net_ok_iff. intros k.
      rewrite (owned_split _ id' (new_connected h l p) k) by apply lookup_insert_eq.
      rewrite delete_insert_id by done. unfold plus at 1 2. rewrite (owned_split _ id t k) by done. done.
    + intros i u. rewrite lookup_insert. case_decide; [intros [= <-]; right; right; split; [by right|by eexists]|apply Hw].
    + intros i j u v k. rewrite !lookup_insert. repeat case_decide; subst; [done| | |apply Hh].
      * intros [= <-] Hj [= <-] Hv. destruct Hfree. by exists j, v.
      * intros Hi [= <-] Hu [= <-]. destruct Hfree. by exists i, u.
    + intros q. rewrite (Hd q), Hp. split; intros (i & u & Hi & Hu).
      * exists i, u. split; [|done]. rewrite lookup_insert_ne; [done|]. intros <-. congruence.
      * apply lookup_insert_Some in Hi as [[_ <-]|[_ Hi]]; [by destruct Hu|]. by exists i, u.
    + intros i j u v q. rewrite !lookup_insert. repeat case_decide; subst;
        [done|by intros [= <-] _ [? _]|by intros _ [= <-] _ [? _]|apply Hl].
  - pose proof (accept_ok _ _ frames (sys_sock s id t Hs Hid)) as Hok. unfold wp in Hok. rewrite Hacc in Hok.
    destruct Hr as [->|[e ->]]; destruct Hok; by eapply sys_call.
  - pose proof (drop_ok _ _ frames (sys_sock s id t Hs Hid)) as Hok. unfold wp in Hok. rewrite Hdr in Hok.
    destruct Hok as (_ & Hn' & Hd). destruct Hs as [Hn Hw Hh Hp Hl]. simpl in *. split; simpl; [done|..].
    + intros i u [_ Hi]%lookup_delete_Some. by apply (Hw i).
    + intros i j u v h [_ Hi]%lookup_delete_Some [_ Hj]%lookup_delete_Some. by apply (Hh i j u v h).
    + intros p. rewrite (Hd p), (Hp p). split.
      * intros [(i & u & Hi & Hu) Hnt]. exists i, u. split; [|done]. apply lookup_delete_Some. split; [|done].
        intros <-. congruence.
      * intros (i & u & [Hne Hi]%lookup_delete_Some & Hu). split; [by exists i, u|]. intros Ht.
        by apply Hne, (Hl id i t u p).
    + intros i j u v p [_ Hi]%lookup_delete_Some [_ Hj]%lookup_delete_Some. by apply (Hl i j u v p).
  - destruct Hs as [Hn Hw Hh Hp Hl]. destruct (poll_interfaces_ok _ frames (s_net s) Hn) as (n1 & Heq & Hn1 & Hd).
    rewrite Heq in Hpoll. injection Hpoll as _ <-. split; simpl; [done..| |done]. intros p. by rewrite Hd.
Qed.

(** ** Properties *)

(** C14: in every state that any sequence of calls on any number of TCP sockets
    and polls of the interface reaches, every handle in use names a TCP socket
    and belongs to one user socket or one place in one queue, queues hold at
    most 512 sockets, a port is in the table exactly when one socket listens
    on it, and that socket is unique; and no call on IPv4 addresses other than
    [accept] panics in such a state. *)
Theorem tcp_system_invariant (i : I) (s : Sys) :
  rtc sys_step (mkSys (Net_init i) ∅) s →
  sys_ok s ∧
  ∀ id t c, s_socks s !! id = Some t → allowed c t → ¬ wants_v6 c → (run c (t, s_net s)).1 ≠ Panic.
Proof.
  intros Hr. assert (sys_ok s) as Hs.
  { eapply (rtc_preserved sys_step sys_ok); [intros ? ? ? ?; by eapply sys_step_ok| |exact Hr].
    split; simpl; try by intros; simplify_map_eq.
    - split; simpl; try by intros; simplify_map_eq.
      by intros h (? & ? & ? & _).
    - intros p. rewrite lookup_empty. split; [by intros [? ?]|]. intros (? & ? & ? & _). by simplify_map_eq. }
  split; [done|]. intros id t c Hid Hc H6 Hp.
  pose proof (run_ok _ _ c (sys_sock s id t Hs Hid) Hc) as Hok. unfold wp in Hok. rewrite Hp in Hok. done.
Qed.



(** [accept] panics when the first connection of the queue that is past
    the handshake has been reset before: the crate reports no addresses for a
    closed socket, and [get_addr_tuple] unwraps them. *)
Theorem accept_panics_on_reset (t : TcpSocket) (n : Net) (e : ListenTableEntry) (h : Z) (q : list Z) (x : T)
    (frames : list (list Z)) :
  t_word t = STATE_LISTENING → nonblock t = true → tcp n !! ep_port (local_addr t) = Some e →
  syn_queue e = h :: q → sockets n !! h = Some (inl x) → t_state x = Closed → t_local x = None →
  (accept frames (t, n)).1 = Panic.
Proof.
  intros Hw Hnb He Hq Hh Hx Hl. unfold accept, block_on, ListenTable_accept, mbind, st_bind, on_net, st_zoom; simpl.
  rewrite Hw. simpl. rewrite Hnb. simpl. rewrite He, Hq. simpl.
  unfold mbind, st_bind, is_connected, get_addr_tuple, mbind, st_bind, with_tcp. rewrite !Hh, Hx. simpl.
  by rewrite Hh, Hl.
Qed.

(** a first [connect] that fails leaves the socket it made in the set of
    sockets, while the user socket does not know it: nothing removes it. *)
Theorem failed_connect_leaks_socket (t t' : TcpSocket) (n n' : Net) (a : SocketAddrV4) (e : AxError) (O : Z → Prop) :
  net_ok O n → t_word t = STATE_CLOSED → handle t = None →
  connect_begin (V4 a) (t, n) = (Err e, (t', n')) →
  handle t' = None ∧ ∃ h, sockets n !! h = None ∧ is_tcp (sockets n') h ∧ ¬ O h.
Proof.
  intros Hn Hw Hh Hc. unfold connect_begin, update_state in Hc. simpl in Hc. rewrite Hw in Hc. simpl in Hc.
  unfold mbind at 1, st_bind at 1 in Hc. simpl in Hc. rewrite Hh in Hc.
  set (h := fresh_handle (sockets n)).
  assert (sockets n !! h = None) as Hfresh by apply fresh_handle_fresh.
  destruct (add_tcp_ok O t_new n Hn) as (h' & Hh' & Hno & _ & Ht & Hok). injection Hh' as <-. fold h in Hno, Hok.
  unfold mbind at 1, st_bind at 1 in Hc. simpl in Hc. unfold mbind at 1, st_bind at 1 in Hc. simpl in Hc.
  fold h in Hc. set (n1 := set_sockets _ _) in Hc.
  pose proof (bound_endpoint_ok _ (set_word STATE_BUSY t, n1) Hok) as Hb. unfold wp in Hb.
  unfold mbind at 1, st_bind at 1 in Hc. destruct (bound_endpoint _) as [[b|x|] [t2 n2]]; [| |by destruct Hb as (_&_&_&_&?)].
  - destruct Hb as (Ht2 & Htb & Hsk & Hok2 & _). simpl in Ht2, Htb, Hsk, Hok2. subst t2.
    unfold mbind at 1, st_bind at 1 in Hc. unfold on_net, st_zoom in Hc. simpl in Hc.
    destruct (with_tcp_mut_spec h (connect_socket (mkEndpoint (v4_ip a) (v4_port a)) b) n2) as (y & _ & Hr & Hlike).
    { apply (no_owned _ _ Hok2). by right. }
    destruct (with_tcp_mut h _ n2) as [[[l r]|x|] n3]; [done| |done]. simpl in Hc. injection Hc as <- <- <-.
    split; [done|]. exists h. split_and!; [done| |done]. apply (like_kinds _ _ Hlike).
    apply (no_owned _ _ Hok2). by right.
  - destruct Hb as (Ht2 & _ & Hsk & Hok2 & _). simpl in Ht2, Hsk, Hok2. subst t2. injection Hc as <- <- <-.
    split; [done|]. exists h. split_and!; [done| |done]. apply (no_owned _ _ Hok2). by right.
Qed.
End tcp.

(** ** Examples on the simulated network *)
Definition sample_net : Net SimTcp SimUdp () := Net_init ().
Definition any_addr (port : Z) : SocketAddr := V4 (mkV4 UNSPECIFIED_IP port).
Definition web : TcpSocket := mkTcp STATE_LISTENING None (mkEndpoint UNSPECIFIED_IP 80) UNSPECIFIED_ENDPOINT true.
Definition client : IpEndpoint := mkEndpoint [10; 0; 0; 2] 4000.
Definition server : IpEndpoint := mkEndpoint [10; 0; 0; 1] 80.
(** Port 80 listens, and its queue has one connection in the given state. *)
Definition web_net (x : SimTcp) : Net SimTcp SimUdp () :=
  mkNet {[7 := inl x]} () {[80 := mkEntry (mkListen None 80) [7]]} PORT_START PORT_START.
Definition no_handles : Z → Prop := λ _, False.

Lemma web_net_ok x : net_ok no_handles (web_net x).
Proof.
  split; simpl; [| | |done|done].
  - intros p e [<- <-]%lookup_singleton_Some. simpl. split_and!; [done|done|].
    apply Nat.leb_le. by vm_compute.
  - intros p q e f i j h [<- <-]%lookup_singleton_Some [<- <-]%lookup_singleton_Some.
    by destruct i as [|[]], j as [|[]].
  - intros p e h [<- <-]%lookup_singleton_Some ->%list_elem_of_singleton. split; [|by intros []].
    exists x. apply lookup_singleton_eq.
Qed.

(** A socket is made, bound to port 80 and listens. *)
Lemma tcp_system_invariant_witness :
  let t1 := mkTcp STATE_CLOSED None (mkEndpoint UNSPECIFIED_IP 80) UNSPECIFIED_ENDPOINT false in
  ∃ s : Sys (T:=SimTcp) (U:=SimUdp) (I:=()), sys_ok s ∧ s_socks s !! 1 = Some (set_word STATE_LISTENING t1) ∧
    is_Some (tcp (s_net s) !! 80).
Proof.
  intros t1. eexists. split; [|split].
  - apply (tcp_system_invariant () _).
    eapply rtc_l; [apply (StNew (mkSys sample_net ∅) 1); reflexivity|].
    eapply rtc_l; [eapply (StCall _ 1 TcpSocket_new (CBind (any_addr 80)) (Ok ())); [done..|reflexivity|done]|].
    eapply rtc_l; [|apply rtc_refl].
    eapply (StCall _ 1 t1 CListen (Ok ())); [done..|reflexivity|done].
  - reflexivity.
  - by eexists.
Defined.



Lemma accept_panics_on_reset_witness :
  (accept [] (web, web_net (mkSimTcp Closed None None []))).1 = Panic.
Proof.
  by apply (accept_panics_on_reset web (web_net (mkSimTcp Closed None None [])) (mkEntry (mkListen None 80) [7]) 7 []
    (mkSimTcp Closed None None []) []).
Defined.

Lemma failed_connect_leaks_socket_witness :
  ∃ t' n', connect_begin (V4 (mkV4 [10; 0; 0; 2] 0)) (TcpSocket_new, web_net (mkSimTcp Listen None None [])) =
      (Err ConnectionRefused, (t', n')) ∧ handle t' = None ∧ ∃ h, is_tcp (sockets n') h ∧ h ≠ 7.
Proof.
  set (x := mkSimTcp Listen None None []). set (a := mkV4 [10; 0; 0; 2] 0).
  destruct (connect_begin (V4 a) (TcpSocket_new, web_net x)) as [r [t' n']] eqn:Hc.
  assert (r = Err ConnectionRefused) as -> by (vm_compute in Hc; congruence).
  exists t', n'. split; [reflexivity|].
  destruct (failed_connect_leaks_socket TcpSocket_new t' (web_net x) n' a ConnectionRefused no_handles (web_net_ok _)
    eq_refl eq_refl Hc) as (Hh & h & Hn & Ht & _).
  split; [exact Hh|]. exists h. split; [exact Ht|]. intros ->. simpl in Hn. by rewrite lookup_singleton_eq in Hn.
Defined.
