(* ===== verification/Udp.v ===== *)
(** * UDP sockets and the sockets of the system calls

    Model of [src/.arceos/modules/axnet/src/smoltcp_impl/udp.rs] and of the
    [Socket] of [src/api/src/file/net.rs], which is one of the two kinds of
    sockets. Calls on one socket are serialised by its lock, so that
    [try_read] succeeds. A call that may wait is one pass of its loop. *)

From S2P Require Import Prelude Abi Pipe SockAddr Net Tcp.

#[local] Open Scope Z_scope.

Record UdpSocket := mkUdp {
  u_handle : Z;
  u_local : option IpEndpoint;
  u_peer : option IpEndpoint;
  u_nonblock : bool;
}.

Section udp.
Context {T U I : Type} `{Smoltcp T U I}.
Abbreviation Net := (Net T U I).
Abbreviation Nst := (Net.Nst (T:=T) (U:=U) (I:=I)).

Definition Ust : Type → Type := st (UdpSocket * Net) AxError.
Definition on_unet {A} (m : Nst A) : Ust A := st_zoom snd (λ n s, (s.1, n)) m.
Definition on_usock (f : UdpSocket → UdpSocket) : Ust () := st_mod (λ s, (f s.1, s.2)).
Definition usock : Ust UdpSocket := st_gets fst.
Definition set_local (e : IpEndpoint) (u : UdpSocket) : UdpSocket := mkUdp (u_handle u) (Some e) (u_peer u) (u_nonblock u).
Definition set_peer (e : IpEndpoint) (u : UdpSocket) : UdpSocket := mkUdp (u_handle u) (u_local u) (Some e) (u_nonblock u).
Definition udp_set_nonblocking (b : bool) (u : UdpSocket) : UdpSocket := mkUdp (u_handle u) (u_local u) (u_peer u) b.

Definition UdpSocket_new : Nst UdpSocket := h ← add (inr u_new); mret (mkUdp h None None false).
Definition udp_local_addr (u : UdpSocket) : AxResult SocketAddr :=
  ok_or (into_core_sockaddr <$> u_local u) NotConnected.
Definition remote_endpoint (u : UdpSocket) : AxResult IpEndpoint := ok_or (u_peer u) NotConnected.
Definition udp_peer_addr (u : UdpSocket) : AxResult SocketAddr := into_core_sockaddr <$> remote_endpoint u.

Definition udp_ephemeral_port : Nst Z := λ n,
  let port := udp_port n in
  (Ok port, set_udp_port (if port =? PORT_END then PORT_START else port + 1) n).

Definition udp_bind (local : SocketAddr) : Ust () :=
  local ← (if port_of local =? 0 then p ← on_unet udp_ephemeral_port; mret (set_port p local) else mret local);
  u ← usock;
  match u_local u with
  | Some _ => st_err InvalidInput
  | None =>
      e ← st_lift (from_core_sockaddr local);
      let endpoint := mkListen (if is_unspecified (ep_addr e) then None else Some (ep_addr e)) (ep_port e) in
      on_unet (with_udp_mut (u_handle u) (λ x,
        match u_bind x endpoint with
        | Ok x' => (Ok (), x')
        | Err true => (Err AlreadyExists, x)
        | Err false => (Err InvalidInput, x)
        | Panic => (Panic, x)
        end));;
      on_usock (set_local e)
  end.

(** [block_on], as for TCP. *)
Definition udp_retry {A} (f : Ust A) : Ust (option A) := λ s,
  match f s with
  | (Ok a, s') => (Ok (Some a), s')
  | (Err WouldBlock, s') => (Ok None, s')
  | (Err e, s') => (Err e, s')
  | (Panic, s') => (Panic, s')
  end.
Definition udp_block_on {A} (frames : list (list Z)) (f : Ust A) : Ust (option A) :=
  u ← usock;
  if u_nonblock u then a ← f; mret (Some a)
  else on_unet (poll_interfaces frames);; udp_retry f.

Definition send_impl (buf : list Z) (remote : IpEndpoint) (frames : list (list Z)) : Ust (option Z) :=
  u ← usock;
  match u_local u with
  | None => st_err NotConnected
  | Some _ =>
      udp_block_on frames (on_unet (with_udp_mut (u_handle u) (λ x,
        if u_can_send x then
          match u_send_slice x buf remote with
          | (Ok _, x') => (Ok (Z.of_nat (length buf)), x')
          | (Err true, x') => (Err WouldBlock, x')
          | (Err false, x') => (Err ConnectionRefused, x')
          | (Panic, x') => (Panic, x')
          end
        else (Err WouldBlock, x))))
  end.
Definition recv_impl {A} (op : U → AxResult A * U) (frames : list (list Z)) : Ust (option A) :=
  u ← usock;
  match u_local u with
  | None => st_err NotConnected
  | Some _ =>
      udp_block_on frames (on_unet (with_udp_mut (u_handle u) (λ x,
        if u_can_recv x then op x else (Err WouldBlock, x))))
  end.

Definition ip_is_unspecified (a : SocketAddr) : bool :=
  match a with V4 a => bool_decide (v4_ip a = replicate 4 0) | V6 a => bool_decide (v6_ip a = replicate 16 0) end.
Definition send_to (buf : list Z) (remote : SocketAddr) (frames : list (list Z)) : Ust (option Z) :=
  if (port_of remote =? 0) || ip_is_unspecified remote then st_err InvalidInput else
  e ← st_lift (from_core_sockaddr remote);
  send_impl buf e frames.
(** The bytes that go to the front of a buffer of [n] bytes, and the sender. *)
Definition recv_from (n : nat) (frames : list (list Z)) : Ust (option (list Z * SocketAddr)) :=
  recv_impl (λ x, match u_recv_slice x n with
                  | (Some (bs, e), x') => (Ok (bs, into_core_sockaddr e), x')
                  | (None, x') => (Err BadState, x')
                  end) frames.
Definition peek_from (n : nat) (frames : list (list Z)) : Ust (option (list Z * SocketAddr)) :=
  recv_impl (λ x, match u_peek_slice x n with
                  | Some (bs, e) => (Ok (bs, into_core_sockaddr e), x)
                  | None => (Err BadState, x)
                  end) frames.
Definition udp_connect (a : SocketAddr) : Ust () :=
  u ← usock;
  match u_local u with
  | None => udp_bind (into_core_sockaddr UNSPECIFIED_ENDPOINT)
  | Some _ => mret ()
  end;;
  e ← st_lift (from_core_sockaddr a);
  on_usock (set_peer e).
Definition udp_send (buf : list Z) (frames : list (list Z)) : Ust (option Z) :=
  u ← usock;
  e ← st_lift (remote_endpoint u);
  send_impl buf e frames.
(** A datagram of another sender is taken out of the queue and dropped. *)
Definition from_peer (peer from : IpEndpoint) : bool :=
  (is_unspecified (ep_addr peer) || bool_decide (ep_addr peer = ep_addr from)) &&
  ((ep_port peer =? 0) || (ep_port peer =? ep_port from)).
Definition udp_recv (n : nat) (frames : list (list Z)) : Ust (option (list Z)) :=
  u ← usock;
  peer ← st_lift (remote_endpoint u);
  recv_impl (λ x, match u_recv_slice x n with
                  | (Some (bs, e), x') => ((if from_peer peer e then Ok bs else Err WouldBlock), x')
                  | (None, x') => (Err BadState, x')
                  end) frames.
Definition udp_shutdown (frames : list (list Z)) : Ust () :=
  u ← usock;
  on_unet (with_udp_mut (u_handle u) (λ x, (Ok (), u_close x)));;
  on_unet (poll_interfaces frames).
Definition udp_poll : Ust PollState :=
  u ← usock;
  match u_local u with
  | None => mret {| poll_readable := false; poll_writable := false |}
  | Some _ => on_unet (with_udp_mut (u_handle u) (λ x,
      (Ok {| poll_readable := u_can_recv x; poll_writable := u_can_send x |}, x)))
  end.
Definition UdpSocket_drop (frames : list (list Z)) : Ust () :=
  st_ok (F:=AxError) (udp_shutdown frames);;
  u ← usock;
  on_unet (remove (u_handle u)).

(** ** What a call keeps: the handle names a UDP socket, and the invariant of
    the network holds for the TCP sockets with handles [O]. *)
Record udp_inv (O : Z → Prop) (s : UdpSocket * Net) : Prop := {
  ui_handle : is_udp (sockets s.2) (u_handle s.1);
  ui_net : net_ok O s.2;
}.
Definition udp_ok {A} (may_panic : Prop) (O : Z → Prop) (h : Z) (r : AxResult A) (s : UdpSocket * Net) : Prop :=
  match r with Panic => may_panic | _ => udp_inv O s ∧ u_handle s.1 = h end.

Lemma udp_returns {A} P O s (r : AxResult A) : udp_inv O s → r ≠ Panic → udp_ok P O (u_handle s.1) r s.
Proof. intros Hs Hr. by destruct r. Qed.
Lemma udp_call_bind {A B} P O h s (m : Ust A) (k : A → Ust B) :
  wp m (udp_ok P O h) s →
  (∀ a s', m s = (Ok a, s') → udp_inv O s' → u_handle s'.1 = h → wp (k a) (udp_ok P O h) s') →
  wp (m ≫= k) (udp_ok P O h) s.
Proof.
  intros Hm Hk. apply wp_bind. unfold wp in *. destruct (m s) as [[a|e|] s1] eqn:Hms; [|done..].
  destruct Hm as [Hs Hh]. by apply Hk.
Qed.
Lemma udp_sock_bind {B} P O s (k : UdpSocket → Ust B) :
  wp (k s.1) (udp_ok P O (u_handle s.1)) s → wp (usock ≫= k) (udp_ok P O (u_handle s.1)) s.
Proof. intros Hk. by apply wp_bind. Qed.

Lemma udp_like O u n n' : like n n' → udp_inv O (u, n) → udp_inv O (u, n').
Proof. intros Hl [Hh Hn]. split; [by apply (like_kinds _ _ Hl)|by eapply net_ok_like]. Qed.
Lemma udp_mut_ok {A} P O s (f : U → AxResult A * U) : udp_inv O s → (∀ x, (f x).1 ≠ Panic) →
  wp (on_unet (with_udp_mut (u_handle s.1) f)) (udp_ok P O (u_handle s.1)) s.
Proof.
  intros Hs Hf. destruct s as [u n]. pose proof Hs as [[x Hx] Hn]. simpl in *. apply wp_zoom. unfold wp, with_udp_mut. simpl.
  rewrite Hx. specialize (Hf x). destruct (f x) as [r x']. simpl in *.
  assert (udp_inv O (u, set_sockets (<[u_handle u := inr x']> (sockets n)) n)) as Hinv.
  { apply (udp_like O u n); [|done]. split; [done..|]. apply kinds_insert_udp. by exists x. }
  by destruct r.
Qed.
Lemma udp_poll_interfaces_ok P O s frames : udp_inv O s →
  wp (on_unet (poll_interfaces frames)) (udp_ok P O (u_handle s.1)) s.
Proof.
  intros [Hh Hn]. destruct s as [u n]. apply wp_zoom. unfold wp. simpl in *.
  destruct (poll_interfaces_ok O frames n Hn) as (n' & Hp & Hn' & _). rewrite Hp. simpl. split; [|done].
  split; [|done]. simpl. apply (poll_keeps_udp frames) in Hh. by rewrite Hp in Hh.
Qed.

Lemma udp_block_on_ok {A} P O s frames (f : Ust A) : udp_inv O s →
  (∀ n', udp_inv O (s.1, n') → wp f (udp_ok P O (u_handle s.1)) (s.1, n')) →
  wp (udp_block_on frames f) (udp_ok P O (u_handle s.1)) s.
Proof.
  intros Hs Hf. destruct s as [u n]. apply udp_sock_bind. simpl in *. destruct (u_nonblock u).
  - apply udp_call_bind; [by apply Hf|]. intros a s' _ Hs' <-. by apply udp_returns.
  - apply udp_call_bind; [by apply (udp_poll_interfaces_ok P O (u, n))|]. intros [] [u' n'] Hp Hs' _.
    unfold on_unet, st_zoom in Hp. injection Hp as _ <- _. specialize (Hf n' Hs').
    unfold wp, udp_retry in *.
    destruct (f _) as [[a|e|] s2]; [done| |done]. by destruct e.
Qed.

Lemma udp_bind_ok P O s local : udp_inv O s →
  wp (udp_bind local) (udp_ok (is_v6 local ∨ P) O (u_handle s.1)) s.
Proof.
  intros Hs. destruct s as [u n]. apply udp_call_bind.
  - destruct (port_of local =? 0); [|by apply (udp_returns _ O (u, n))]. simpl. split; [|done].
    destruct Hs as [? [? ? ? ? ?]]. by split; [|split].
  - intros local' [u' n'] Hl Hs' Hh. simpl in Hh. apply wp_bind. unfold wp at 1. simpl.
    assert (is_v6 local' ↔ is_v6 local) as H6.
    { destruct (port_of local =? 0); [|by injection Hl as <- _ _]. injection Hl as <- _ _. by destruct local. }
    rewrite <-Hh in *. destruct (u_local u'); [by apply (udp_returns _ O (u', n'))|].
    destruct local' as [a|a]; [|left; by apply H6].
    apply wp_bind. unfold wp at 1. simpl. apply udp_call_bind.
    + apply (udp_mut_ok _ O (u', n')); [done|]. intros x.
      pose proof (u_bind_panic x (mkListen (if is_unspecified (v4_ip a) then None else Some (v4_ip a)) (v4_port a))) as Hp.
      by destruct (u_bind x _) as [|[]|].
    + intros [] [u2 n2] _ [Hu2 Hn2] Hh2. simpl in *. split; [|done]. by split.
Qed.

Lemma send_impl_ok P O s buf e frames : udp_inv O s →
  wp (send_impl buf e frames) (udp_ok P O (u_handle s.1)) s.
Proof.
  intros Hs. apply udp_sock_bind. destruct (u_local s.1); [|by apply udp_returns].
  apply udp_block_on_ok; [done|]. intros n' Hs'. apply (udp_mut_ok P O (s.1, n')); [done|]. intros x.
  destruct (u_can_send x); [|done]. pose proof (u_send_slice_panic x buf e) as Hp.
  by destruct (u_send_slice x buf e) as [[|[]|] x'].
Qed.
Lemma recv_impl_ok {A} P O s (op : U → AxResult A * U) frames : udp_inv O s → (∀ x, (op x).1 ≠ Panic) →
  wp (recv_impl op frames) (udp_ok P O (u_handle s.1)) s.
Proof.
  intros Hs Hop. apply udp_sock_bind. destruct (u_local s.1); [|by apply udp_returns].
  apply udp_block_on_ok; [done|]. intros n' Hs'. apply (udp_mut_ok P O (s.1, n')); [done|]. intros x.
  destruct (u_can_recv x); [apply Hop|done].
Qed.

(** ** The calls of a UDP socket *)
Inductive UdpCall : Type :=
  | UBind (a : SocketAddr)
  | UConnect (a : SocketAddr)
  | USendTo (buf : list Z) (a : SocketAddr) (frames : list (list Z))
  | USend (buf : list Z) (frames : list (list Z))
  | URecvFrom (n : nat) (frames : list (list Z))
  | UPeekFrom (n : nat) (frames : list (list Z))
  | URecv (n : nat) (frames : list (list Z))
  | UShutdown (frames : list (list Z))
  | UPoll
  | UNonblocking (b : bool).
Definition udp_run (c : UdpCall) : Ust () :=
  match c with
  | UBind a => udp_bind a
  | UConnect a => udp_connect a
  | USendTo buf a frames => send_to buf a frames;; mret ()
  | USend buf frames => udp_send buf frames;; mret ()
  | URecvFrom n frames => recv_from n frames;; mret ()
  | UPeekFrom n frames => peek_from n frames;; mret ()
  | URecv n frames => udp_recv n frames;; mret ()
  | UShutdown frames => udp_shutdown frames
  | UPoll => udp_poll;; mret ()
  | UNonblocking b => on_usock (udp_set_nonblocking b)
  end.
Definition udp_wants_v6 (c : UdpCall) : Prop :=
  match c with UBind a | UConnect a | USendTo _ a _ => is_v6 a | _ => False end.

(** no call of a UDP socket on IPv4 addresses panics, and every call leaves
    the handle of the socket valid and the invariant of the network, on which
    the TCP sockets rely, intact; an IPv6 address is the only way to a panic. *)
Theorem udp_calls_keep_network (O : Z → Prop) (s : UdpSocket * Net) (c : UdpCall) :
  udp_inv O s →
  match udp_run c s with
  | (Panic, _) => udp_wants_v6 c
  | (_, s') => udp_inv O s' ∧ u_handle s'.1 = u_handle s.1
  end.
Proof.
  intros Hs. assert (wp (udp_run c) (udp_ok (udp_wants_v6 c) O (u_handle s.1)) s) as Hok.
  2:{ unfold wp in Hok. by destruct (udp_run c s) as [[]]. }
  assert (∀ {A} (m : Ust A) P, wp m (udp_ok P O (u_handle s.1)) s → wp (m;; mret ()) (udp_ok P O (u_handle s.1)) s) as Hret.
  { intros A m P Hm. apply udp_call_bind; [done|]. intros _ s' _ Hs' <-. by apply udp_returns. }
  destruct c; simpl.
  - eapply wp_mono; [by apply (udp_bind_ok False)|]. intros [] s'; try done. simpl. tauto.
  - apply udp_sock_bind. apply udp_call_bind.
    + destruct (u_local s.1); [by apply udp_returns|]. eapply wp_mono; [by apply (udp_bind_ok False)|].
      intros [] s'; try done. simpl. tauto.
    + intros [] s' _ [Hh Hn] Heq. destruct a; unfold wp; simpl; [|done]. split; [by split|done].
  - apply Hret. unfold send_to. destruct (_ || _); [by apply udp_returns|].
    destruct a; [|done]. by apply send_impl_ok.
  - apply Hret, udp_sock_bind. destruct (u_peer s.1) eqn:Hp; unfold remote_endpoint; rewrite Hp; [|by apply udp_returns].
    by apply send_impl_ok.
  - apply Hret, recv_impl_ok; [done|]. intros x. by destruct (u_recv_slice x n) as [[[]|]].
  - apply Hret, recv_impl_ok; [done|]. intros x. by destruct (u_peek_slice x n) as [[]|].
  - apply Hret, udp_sock_bind. unfold remote_endpoint. destruct (u_peer s.1) as [p|]; [|by apply udp_returns].
    apply recv_impl_ok; [done|]. intros x. destruct (u_recv_slice x n) as [[[bs e]|]]; [|done]. simpl. by destruct (from_peer p e).
  - apply udp_sock_bind, udp_call_bind; [by apply udp_mut_ok|]. intros [] s' _ Hs' <-. by apply udp_poll_interfaces_ok.
  - apply Hret, udp_sock_bind. destruct (u_local s.1); [|by apply udp_returns]. by apply udp_mut_ok.
  - split; [|done]. by destruct Hs; split.
Qed.

(** Repeated calls of [recv] on a nonblocking socket. *)
Fixpoint recv_passes (k n : nat) (s : UdpSocket * Net) : list (list Z) * (UdpSocket * Net) :=
  match k with
  | O => ([], s)
  | S k' =>
      match udp_recv n [] s with
      | (Ok (Some bs), s') => let '(l, s2) := recv_passes k' n s' in (bs :: l, s2)
      | (_, s') => recv_passes k' n s'
      end
  end.

End udp.

(** ** The socket behind a descriptor ([api/src/file/net.rs]) *)

Inductive Socket : Type := SkUdp (u : UdpSocket) | SkTcp (t : TcpSocket).

Section socket.
Context {T U I : Type} `{Smoltcp T U I} `{AxErrno}.
Abbreviation Net := (Net T U I).
Definition Sst : Type → Type := st (Socket * Net) LinuxError.

(** A call on the socket of either kind, or the error for one of them. *)
Definition by_kind {A} (fu : Ust A + LinuxError) (ft : Tst A + LinuxError) : Sst A := λ s,
  match s.1 with
  | SkUdp u =>
      match fu with
      | inl f => let '(r, (u', n)) := f (u, s.2) in (into_linux r, (SkUdp u', n))
      | inr e => (Err e, s)
      end
  | SkTcp t =>
      match ft with
      | inl f => let '(r, (t', n)) := f (t, s.2) in (into_linux r, (SkTcp t', n))
      | inr e => (Err e, s)
      end
  end.

Definition Socket_recv (n : nat) (frames : list (list Z)) : Sst (option (list Z)) :=
  by_kind (inl (r ← recv_from n frames; mret (fst <$> r))) (inl (recv n frames)).
Definition Socket_sendto (buf : list Z) (a : SocketAddr) (frames : list (list Z)) : Sst (option Z) :=
  by_kind (inl (send_to buf a frames)) (inr EISCONN).
Definition Socket_recvfrom (n : nat) (frames : list (list Z)) : Sst (option (list Z * option SocketAddr)) :=
  by_kind (inl (r ← recv_from n frames; mret ((λ x, (x.1, Some x.2)) <$> r)))
          (inl (r ← recv n frames; mret ((λ x, (x, None)) <$> r))).
Definition Socket_listen : Sst () := by_kind (inr EOPNOTSUPP) (inl listen).
Definition Socket_accept (frames : list (list Z)) : Sst (option TcpSocket) :=
  by_kind (inr EOPNOTSUPP) (inl (accept frames)).
(** The calls the macro [impl_socket] makes. *)
Definition Socket_send (buf : list Z) (frames : list (list Z)) : Sst (option Z) :=
  by_kind (inl (udp_send buf frames)) (inl (send buf frames)).
Definition Socket_poll : Sst PollState := by_kind (inl udp_poll) (inl poll).
Definition Socket_local_addr : Sst SocketAddr :=
  by_kind (inl (u ← usock; st_lift (udp_local_addr u))) (inl (t ← sock; st_lift (socket_addr local_addr t))).
Definition Socket_peer_addr : Sst SocketAddr :=
  by_kind (inl (u ← usock; st_lift (udp_peer_addr u))) (inl (t ← sock; st_lift (socket_addr peer_addr t))).
Definition Socket_bind (a : SocketAddr) : Sst () := by_kind (inl (udp_bind a)) (inl (bind a)).
Definition Socket_connect (a : SocketAddr) (frames : list (list Z)) : Sst (option ()) :=
  by_kind (inl (udp_connect a;; mret (Some ()))) (inl (connect a frames)).
Definition Socket_shutdown (frames : list (list Z)) : Sst () :=
  by_kind (inl (udp_shutdown frames)) (inl (shutdown frames)).
Definition Socket_set_nonblocking (b : bool) : Sst () :=
  by_kind (inl (on_usock (udp_set_nonblocking b))) (inl (on_sock (set_nonblocking b))).

(** The network is in order for a socket and the others with handles [O]. *)
Definition socket_inv (O : Z → Prop) (s : Socket * Net) : Prop :=
  match s.1 with SkUdp u => udp_inv O (u, s.2) | SkTcp t => sock_inv O (t, s.2) end.

(** The outcome of a call on an open socket. *)
Definition socket_ok {A} (may_panic : Prop) (O : Z → Prop) (r : LinuxResult A) (s : Socket * Net) : Prop :=
  match r with Panic => may_panic | _ => socket_inv O s end.

Lemma by_kind_ok {A} P O (fu : Ust A) (ft : Tst A) s :
  socket_inv O s →
  (∀ u, udp_inv O (u, s.2) → wp fu (udp_ok P O (u_handle u)) (u, s.2)) →
  (∀ t, sock_inv O (t, s.2) → wp ft (call_ok P O (t, s.2)) (t, s.2)) →
  wp (by_kind (inl fu) (inl ft)) (socket_ok P O) s.
Proof.
  intros Hs Hu Ht. destruct s as [[u|t] n]; unfold wp, by_kind, socket_inv in *; simpl in *.
  - specialize (Hu u Hs). destruct (fu (u, n)) as [[x|e|] [u' n']]; [by destruct Hu..|done].
  - specialize (Ht t Hs). destruct (ft (t, n)) as [[x|e|] [t' n']]; [by destruct Ht..|done].
Qed.

(** whatever its kind, a call to bind, shut down, poll or receive on an open
    socket leaves the network in order for it and all others, and only an IPv6
    address makes one panic; [listen] and [accept] on a UDP socket fail with
    EOPNOTSUPP and [sendto] on a TCP socket with EISCONN, without effect. *)
Theorem socket_calls_keep_network (O : Z → Prop) (s : Socket * Net) (a : SocketAddr) (n : nat)
    (buf : list Z) (frames : list (list Z)) :
  socket_inv O s →
  wp (Socket_bind a) (socket_ok (is_v6 a) O) s ∧
  wp (Socket_shutdown frames) (socket_ok False O) s ∧
  wp Socket_poll (socket_ok False O) s ∧
  wp (Socket_recv n frames) (socket_ok False O) s ∧
  match s.1 with
  | SkUdp _ => Socket_listen s = (Err EOPNOTSUPP, s) ∧ Socket_accept frames s = (Err EOPNOTSUPP, s)
  | SkTcp _ => Socket_sendto buf a frames s = (Err EISCONN, s) ∧ wp Socket_listen (socket_ok False O) s
  end.
Proof.
  intros Hs. split_and!.
  - apply by_kind_ok; [done| |intros t Ht; by apply bind_ok]. intros u Hu.
    eapply wp_mono; [by apply (udp_bind_ok False O (u, s.2))|]. intros [] s'; try done. simpl. tauto.
  - apply by_kind_ok; [done| |].
    + intros u Hu. apply (udp_sock_bind _ _ (u, s.2)), udp_call_bind; [by apply (udp_mut_ok _ _ (u, s.2))|].
      intros [] s' _ Hs' <-. by apply udp_poll_interfaces_ok.
    + intros t Ht. eapply wp_mono; [by apply (shutdown_ok False)|]. by intros r s' (-> & _ & ?).
  - apply by_kind_ok; [done| |intros t Ht; by apply poll_ok]. intros u Hu.
    apply (udp_sock_bind _ _ (u, s.2)). simpl. destruct (u_local u); [|by apply (udp_returns _ O (u, s.2))].
    by apply (udp_mut_ok _ _ (u, s.2)).
  - apply by_kind_ok; [done| |intros t Ht; by apply recv_ok]. intros u Hu. apply udp_call_bind.
    + apply (recv_impl_ok _ _ (u, s.2)); [done|]. intros x. by destruct (u_recv_slice x n) as [[[]|]].
    + intros x s' _ Hs' <-. by apply udp_returns.
  - destruct s as [[u|t] net]; simpl in *; split; try done. unfold wp, Socket_listen, by_kind; simpl.
    pose proof (listen_call_ok False O (t, net) Hs) as Hl. unfold wp in Hl.
    destruct (listen (t, net)) as [[x|e|] [t' n']]; [by destruct Hl..|done].
Qed.
End socket.

(** A datagram of another sender before one of the peer, and the peer's. *)
Definition udp_sample : Net SimTcp SimUdp () :=
  mkNet {[3 := inr (mkSimUdp true [([1], server); ([2; 3], client)])]} () ∅ PORT_START PORT_START.
Definition udp_sock : UdpSocket := mkUdp 3 (Some server) (Some client) true.

Lemma udp_sample_ok : udp_inv no_handles (udp_sock, udp_sample).
Proof. split; [eexists; apply lookup_singleton_eq|]. split; simpl; try by intros; simplify_map_eq. Qed.

Lemma udp_calls_keep_network_witness : udp_inv no_handles (udp_sock, udp_sample).
Proof. exact (proj1 (udp_calls_keep_network no_handles (udp_sock, udp_sample) UPoll udp_sample_ok)). Defined.


#[local] Existing Instance SampleErrno.
Lemma socket_calls_keep_network_witness : (Socket_listen (SkUdp udp_sock, udp_sample)).1 = Err EOPNOTSUPP.
Proof.
  destruct (socket_calls_keep_network no_handles (SkUdp udp_sock, udp_sample) (any_addr 80) 0 [] []
    udp_sample_ok) as (_ & _ & _ & _ & -> & _).
  reflexivity.
Defined.
