(* ===== verification/NetLocks.v ===== *)
(** * The order of the locks of the network stack

    Model of how [poll], [connect], [accept] and [unlisten] of
    [src/.arceos/modules/axnet/src/smoltcp_impl] take the locks of the device,
    the interface, the set of sockets and the entry of a port. Each is the
    sequence of its lock operations; tasks on several CPUs run them step by
    step, and a task that wants a lock another one holds waits. *)

From S2P Require Import Prelude.

Inductive Lock : Type := LDev | LIface | LSockets | LPort.
#[global] Instance Lock_eq_dec : EqDecision Lock.
Proof. solve_decision. Defined.
Inductive LockOp : Type := Acq (l : Lock) | Rel (l : Lock).

(** Nested critical sections: the locks in the order they are taken. *)
Definition nested (ls : list Lock) : list LockOp := (Acq <$> ls) ++ (Rel <$> rev ls).

(** [InterfaceWrapper::poll], when the first packet of a connection to [port]
    arrives: [snoop_tcp_packet] looks into the table while the set is locked. *)
Definition poll_locks : list LockOp := nested [LDev; LIface; LSockets; LPort].
(** [ListenTable::accept] and [can_accept]: [is_connected] locks the set while
    the entry is locked. *)
Definition accept_locks : list LockOp := nested [LPort; LSockets].
(** [ListenTable::unlisten]: dropping the entry removes its sockets. *)
Definition unlisten_locks : list LockOp := nested [LPort; LSockets].
(** [TcpSocket::connect]: the closure that has the set locks the interface. *)
Definition connect_locks : list LockOp := nested [LSockets; LIface].
(** [recv], [send], [poll_stream], [add], [remove]: the set alone. *)
Definition data_locks : list LockOp := nested [LSockets].

(** ** Tasks *)

(** What each task still has to do, and the locks each of them holds. *)
Record LockTasks := mkLockTasks { todo : list (list LockOp); held : list (list Lock) }.
Definition start (ps : list (list LockOp)) : LockTasks := mkLockTasks ps (replicate (length ps) []).

Definition is_free (s : LockTasks) (l : Lock) : bool := forallb (λ ls, negb (bool_decide (l ∈ ls))) (held s).
(** The next step of task [i], if it has one. *)
Definition next (i : nat) (s : LockTasks) : option LockTasks :=
  match todo s !! i, held s !! i with
  | Some (Acq l :: p), Some ls =>
      if is_free s l then Some (mkLockTasks (<[i := p]> (todo s)) (<[i := l :: ls]> (held s))) else None
  | Some (Rel l :: p), Some ls =>
      Some (mkLockTasks (<[i := p]> (todo s)) (<[i := filter (λ k, k ≠ l) ls]> (held s)))
  | _, _ => None
  end.
Definition lock_step (s s' : LockTasks) : Prop := ∃ i, next i s = Some s'.
Definition finished (s : LockTasks) : Prop := Forall (λ p, p = []) (todo s).
(** A state from which the tasks never finish: one of them has work left and
    none can move. *)
Definition deadlock (s : LockTasks) : Prop := ¬ finished s ∧ ∀ s', ¬ lock_step s s'.

Lemma next_steps (sched : list nat) s s' :
  foldl (λ o i, o ≫= next i) (Some s) sched = Some s' → rtc lock_step s s'.
Proof.
  revert s. induction sched as [|i sched IH]; intros s; simpl; [by intros [= ->]|].
  destruct (next i s) as [s1|] eqn:Hi; simpl.
  - intros Hf. eapply rtc_l; [by exists i|]. by apply IH.
  - intros Hf. exfalso. clear -Hf. induction sched as [|j sched IH]; simpl in *; [done|]. by apply IH.
Qed.
Lemma stuck s : (length (todo s) ≤ 2)%nat → next 0 s = None → next 1 s = None → ∀ s', ¬ lock_step s s'.
Proof.
  intros Hlen H0 H1 s' [[|[|i]] Hi]; [congruence..|]. unfold next in Hi.
  rewrite (lookup_ge_None_2 (todo s)) in Hi by lia. done.
Qed.
(** Two tasks reach a deadlock by a given schedule. *)
Lemma deadlock_by (sched : list nat) p q s :
  foldl (λ o i, o ≫= next i) (Some (start [p; q])) sched = Some s →
  (length (todo s) ≤ 2)%nat → next 0 s = None → next 1 s = None → ¬ finished s →
  ∃ s, rtc lock_step (start [p; q]) s ∧ deadlock s.
Proof. intros Hf Hl H0 H1 Hn. exists s. split; [by eapply next_steps|]. split; [done|]. by apply stuck. Qed.

(** the locks are not always taken in the same order: a poll that receives
    a connection and an [accept] or a [shutdown] on the same port can wait for
    each other forever, and so can a poll and a [connect]. *)
Theorem network_lock_order :
  (∃ s, rtc lock_step (start [poll_locks; accept_locks]) s ∧ deadlock s) ∧
  (∃ s, rtc lock_step (start [poll_locks; unlisten_locks]) s ∧ deadlock s) ∧
  (∃ s, rtc lock_step (start [poll_locks; connect_locks]) s ∧ deadlock s).
Proof.
  split_and!; [eapply (deadlock_by [0; 0; 0; 1]%nat)..|eapply (deadlock_by [0; 0; 1]%nat)];
    try reflexivity; try (simpl; lia).
  all: intros Hf; apply Forall_inv in Hf; discriminate.
Qed.
