(* ===== verification/Io.v ===== *)
(** * Reading and writing by descriptor

    Model of [src/api/src/imp/fs/io.rs]: [read], [write], [readv], [writev],
    [lseek] and [sendfile], over the interface the kernel's objects offer
    ([FileLike] of [src/api/src/file/mod.rs]). *)

From S2P Require Import Prelude Abi Str Vfs FdTable Fops.

#[local] Open Scope Z_scope.

(** What the calls rely on in a [FileLike]: [read] delivers at most as many
    bytes as asked for; [write] takes a prefix of the buffer and reports its
    length, and takes nothing when it fails. [fl_taken] is everything the
    object has taken so far. *)
Class FileOps (W : Type) := {
  fl_read : FileLike → nat → st W LinuxError (list Z);
  fl_write : FileLike → list Z → st W LinuxError Z;
  fl_taken : FileLike → W → list Z;
  fl_read_len o n w bs w' : fl_read o n w = (Ok bs, w') → (length bs ≤ n)%nat;
  fl_read_taken o n w o' : fl_taken o' (fl_read o n w).2 = fl_taken o' w;
  fl_write_Ok o buf w n w' : fl_write o buf w = (Ok n, w') →
    0 ≤ n ≤ Z.of_nat (length buf) ∧ fl_taken o w' = fl_taken o w ++ take (Z.to_nat n) buf;
  fl_write_fail o buf w r w' : fl_write o buf w = (r, w') → (∀ n, r ≠ Ok n) →
    fl_taken o w' = fl_taken o w;
}.

Section io.
Context {W : Type} `{FIO : !FileOps W} `{FO : FlattenObjects FileLike AX_FILE_LIMIT}.
Context (t : table FileLike AX_FILE_LIMIT).

(** An [iovec]: its length and the outcome of the check of its buffer, with
    the bytes the buffer holds. *)
Record iovec := mkIovec { iov_len : Z; iov_buf : LinuxResult (list Z) }.

Definition sys_read (fd : Z) (buf : LinuxResult nat) : st W LinuxError (Z * list Z) :=
  len ← st_lift buf;
  f ← st_lift (get_file_like t fd);
  bs ← fl_read f len;
  mret (Z.of_nat (length bs), bs).

Definition sys_write (fd : Z) (buf : LinuxResult (list Z)) : st W LinuxError Z :=
  buf ← st_lift buf;
  f ← st_lift (get_file_like t fd);
  n ← fl_write f buf;
  mret (as_isize n).

(** The loops. [readv] also yields what was stored in each buffer. *)
Fixpoint readv_loop (fd : Z) (iovs : list iovec) (ret : Z) (got : list (list Z)) :
    st W LinuxError (Z * list (list Z)) :=
  match iovs with
  | [] => mret (ret, got)
  | iov :: rest =>
      if iov_len iov =? 0 then readv_loop fd rest ret got else
      buf ← st_lift (iov_buf iov);
      f ← st_lift (get_file_like t fd);
      bs ← fl_read f (length buf);
      let ret := as_isize (ret + Z.of_nat (length bs)) in
      let got := got ++ [bs] in
      if (length bs <? length buf)%nat then mret (ret, got) else readv_loop fd rest ret got
  end.
Definition sys_readv (fd : Z) (iovs : LinuxResult (list iovec)) (iocnt : Z) :
    st W LinuxError (Z * list (list Z)) :=
  if negb ((0 <=? iocnt) && (iocnt <=? 1024)) then st_err EINVAL else
  iovs ← st_lift iovs;
  readv_loop fd iovs 0 [].

Fixpoint writev_loop (fd : Z) (iovs : list iovec) (ret : Z) : st W LinuxError Z :=
  match iovs with
  | [] => mret ret
  | iov :: rest =>
      if iov_len iov =? 0 then writev_loop fd rest ret else
      buf ← st_lift (iov_buf iov);
      f ← st_lift (get_file_like t fd);
      written ← fl_write f buf;
      let ret := as_isize (ret + written) in
      if written <? Z.of_nat (length buf) then mret ret else writev_loop fd rest ret
  end.
Definition sys_writev (fd : Z) (iovs : LinuxResult (list iovec)) (iocnt : Z) : st W LinuxError Z :=
  if negb ((0 <=? iocnt) && (iocnt <=? 1024)) then st_err EINVAL else
  iovs ← st_lift iovs;
  writev_loop fd iovs 0.

(** [do_sendfile] with a buffer of 0x4000 bytes. Each turn reads at least a
    byte, so the loop ends with the source. *)
Fixpoint sendfile_loop (fuel : nat) (read : st W LinuxError (list Z)) (dest : FileLike)
    (total_written : Z) : st W LinuxError Z :=
  match fuel with
  | O => st_panic
  | S fuel' =>
      bs ← read;
      if Z.of_nat (length bs) =? 0 then mret total_written else
      bytes_written ← fl_write dest bs;
      if bytes_written <? Z.of_nat (length bs) then mret total_written
      else sendfile_loop fuel' read dest (as_usize (total_written + bytes_written))
  end.
Definition do_sendfile (fuel : nat) (read : st W LinuxError (list Z)) (dest : FileLike) :
    st W LinuxError Z := sendfile_loop fuel read dest 0.
Definition SENDFILE_BUF : nat := Z.to_nat 16384.

(** [sys_sendfile]. [offset] is the outcome of the check of the pointer, and
    [read_at] the closure that reads the source at the offset it holds; the
    argument [len] is not used. *)
Definition sys_sendfile (fuel : nat) (out_fd in_fd : Z) (offset : LinuxResult (option ()))
    (read_at : FileLike → st W LinuxError (list Z)) (len : Z) : st W LinuxError Z :=
  src ← st_lift (get_file_like t in_fd);
  dest ← st_lift (get_file_like t out_fd);
  offset ← st_lift offset;
  n ← match offset with
      | Some _ => if is_KFile (obj_kind src) then do_sendfile fuel (read_at src) dest else st_err ESPIPE
      | None => do_sendfile fuel (fl_read src SENDFILE_BUF) dest
      end;
  mret (as_isize n).

(** ** Scattered writes *)

Definition iov_ok (iov : iovec) : Prop :=
  ∃ buf, iov_buf iov = Ok buf ∧ Z.of_nat (length buf) = iov_len iov.
Definition iov_bytes (iov : iovec) : list Z := match iov_buf iov with Ok buf => buf | _ => [] end.
Definition all_bytes (iovs : list iovec) : list Z := concat (map iov_bytes iovs).

Lemma iov_ok_empty iov : iov_ok iov → iov_len iov = 0 → iov_bytes iov = [].
Proof.
  intros (buf & Hb & Hl) Hz. unfold iov_bytes. rewrite Hb. destruct buf; [done|simpl in Hl; lia].
Qed.

(** The object takes a prefix of all the bytes, of the length the loop adds
    to its sum when it returns one. *)
Lemma writev_loop_spec fd f iovs ret w :
  get_file_like t fd = Ok f → Forall iov_ok iovs → 0 ≤ ret →
  ret + Z.of_nat (length (all_bytes iovs)) < 2 ^ 63 →
  ∃ n, fl_taken f (writev_loop fd iovs ret w).2 = fl_taken f w ++ take n (all_bytes iovs) ∧
    (n ≤ length (all_bytes iovs))%nat ∧
    ∀ r, (writev_loop fd iovs ret w).1 = Ok r → r = ret + Z.of_nat n.
Proof.
  intros Hf Hall. revert ret w. induction Hall as [|iov iovs Hiov Hall IH]; intros ret w Hr Hlt.
  { exists O. simpl. rewrite app_nil_r. split_and!; [done|lia|]. intros r [= <-]. lia. }
  unfold all_bytes in *. cbn [map concat writev_loop] in *. rewrite length_app in Hlt.
  destruct (Z.eqb_spec (iov_len iov) 0) as [Hz|Hz].
  { rewrite (iov_ok_empty iov Hiov Hz) in *. apply IH; [done|simpl in Hlt; lia]. }
  destruct Hiov as (buf & Hb & Hl).
  assert (iov_bytes iov = buf) as Hib by (unfold iov_bytes; by rewrite Hb). rewrite Hib in *.
  rewrite Hb. unfold mbind, st_bind, st_lift. rewrite Hf.
  destruct (fl_write f buf w) as [[n|e|] w'] eqn:Hw.
  2,3: exists O; simpl; rewrite app_nil_r, (fl_write_fail _ _ _ _ _ Hw) by done;
    (split_and!; [done|lia|done]).
  apply fl_write_Ok in Hw as [Hn Htk]. ints.
  destruct (Z.ltb_spec n (Z.of_nat (length buf))) as [Hs|Hs].
  - exists (Z.to_nat n). cbn [fst snd mret st_ret].
    rewrite length_app, take_app_le by lia. split_and!; [done|lia|]. intros r [= <-]. lia.
  - assert (n = Z.of_nat (length buf)) as -> by lia. rewrite Nat2Z.id, firstn_all in Htk.
    destruct (IH (ret + Z.of_nat (length buf)) w') as (k & Htk' & Hk & Hret); [lia|lia|].
    exists (length buf + k)%nat. rewrite Htk', Htk, <- app_assoc, take_app_add, length_app.
    split_and!; [done|lia|]. intros r Hr'. apply Hret in Hr'. lia.
Qed.

(** [writev] writes a prefix of the buffers, in order and without a gap,
    and returns its length. When an error comes up after a part was written,
    the part stays written and the error is returned. *)
Theorem writev_spec (fd iocnt : Z) (f : FileLike) (iovs : list iovec) (w : W) :
  get_file_like t fd = Ok f → Forall iov_ok iovs → 0 ≤ iocnt ≤ 1024 →
  Z.of_nat (length (all_bytes iovs)) < 2 ^ 63 →
  ∃ n, fl_taken f (sys_writev fd (Ok iovs) iocnt w).2 = fl_taken f w ++ take n (all_bytes iovs) ∧
    (n ≤ length (all_bytes iovs))%nat ∧
    ∀ r, (sys_writev fd (Ok iovs) iocnt w).1 = Ok r → r = Z.of_nat n.
Proof.
  intros Hf Hall Hc Hlt. unfold sys_writev.
  destruct (Z.leb_spec 0 iocnt), (Z.leb_spec iocnt 1024); [|lia..].
  apply (writev_loop_spec fd f iovs 0 w Hf Hall); lia.
Qed.

(** ** Copying from descriptor to descriptor *)

(** A source that holds the bytes [src w], read in chunks of at most a
    buffer, and that writing to the destination does not change. *)
Record source (read : st W LinuxError (list Z)) (dest : FileLike) (src : W → list Z) : Prop := {
  src_read w : ∃ w', read w = (Ok (take SENDFILE_BUF (src w)), w') ∧ src w' = drop SENDFILE_BUF (src w) ∧
    fl_taken dest w' = fl_taken dest w;
  src_write w buf r w' : fl_write dest buf w = (r, w') → src w' = src w;
}.

(** With a destination that takes everything, the loop ends and copies the
    rest of the source. *)
Lemma sendfile_loop_all read dest src fuel total w :
  source read dest src →
  (∀ w buf, ∃ w', fl_write dest buf w = (Ok (Z.of_nat (length buf)), w')) →
  (length (src w) < fuel)%nat → 0 ≤ total → total + Z.of_nat (length (src w)) < 2 ^ 64 →
  ∃ w', sendfile_loop fuel read dest total w = (Ok (total + Z.of_nat (length (src w))), w') ∧
    fl_taken dest w' = fl_taken dest w ++ src w ∧ src w' = [].
Proof.
  intros [Hread Hwr] Hall. revert total w. induction fuel as [|fuel IH]; intros total w Hf Ht Hlt; [lia|].
  cbn [sendfile_loop]. unfold mbind, st_bind. destruct (Hread w) as (w1 & -> & Hs1 & Ht1).
  destruct (src w) as [|b l] eqn:Hsrc.
  { rewrite take_nil. simpl. exists w1. rewrite drop_nil in Hs1. rewrite Ht1, app_nil_r, Z.add_0_r. done. }
  set (chunk := take SENDFILE_BUF (b :: l)) in *.
  assert (0 < length chunk)%nat as Hc.
  { unfold chunk. rewrite length_take. simpl length. unfold SENDFILE_BUF. lia. }
  destruct (Z.eqb_spec (Z.of_nat (length chunk)) 0); [lia|].
  destruct (Hall w1 chunk) as [w2 Hw2]. rewrite Hw2, Z.ltb_irrefl.
  pose proof (Hwr _ _ _ _ Hw2) as Hs2. apply fl_write_Ok in Hw2 as [_ Ht2].
  rewrite Nat2Z.id, firstn_all in Ht2.
  assert (length (b :: l) = length chunk + length (src w2))%nat as Hlen.
  { rewrite Hs2, Hs1. unfold chunk. rewrite <- length_app, take_drop. done. }
  ints.
  destruct (IH (total + Z.of_nat (length chunk)) w2) as (w3 & -> & Ht3 & Hs3); [lia..|].
  exists w3. split; [do 2 f_equal; lia|]. split; [|done].
  rewrite Ht3, Ht2, Ht1, Hs2, Hs1, <- app_assoc. unfold chunk. by rewrite take_drop.
Qed.

(** [sendfile] copies the whole rest of the source, in order, however
    small the length it is called with, and ends. *)
Theorem sendfile_copies_everything (out_fd in_fd len : Z) (srcf dest : FileLike) (src : W → list Z)
    (read_at : FileLike → st W LinuxError (list Z)) (w : W) :
  get_file_like t in_fd = Ok srcf → get_file_like t out_fd = Ok dest →
  source (fl_read srcf SENDFILE_BUF) dest src →
  (∀ w buf, ∃ w', fl_write dest buf w = (Ok (Z.of_nat (length buf)), w')) →
  Z.of_nat (length (src w)) < 2 ^ 63 →
  ∃ w', sys_sendfile (S (length (src w))) out_fd in_fd (Ok None) read_at len w
      = (Ok (Z.of_nat (length (src w))), w') ∧
    fl_taken dest w' = fl_taken dest w ++ src w ∧ src w' = [].
Proof.
  intros Hi Ho Hsrc Hall Hlt. unfold sys_sendfile, mbind, st_bind, st_lift. rewrite Hi, Ho.
  destruct (sendfile_loop_all (fl_read srcf SENDFILE_BUF) dest src (S (length (src w))) 0 w Hsrc Hall)
    as (w' & Hr & Ht & Hs); [lia..|].
  exists w'. unfold do_sendfile. rewrite Hr. split; [|done].
  by ints.
Qed.

(** the bytes of a short write are not counted: when the destination takes
    a part of the first chunk only, the part is written and [sendfile] returns
    0. *)
Theorem sendfile_drops_short_write (fuel : nat) (read : st W LinuxError (list Z)) (dest : FileLike)
    (bs : list Z) (n : Z) (w w1 w2 : W) :
  read w = (Ok bs, w1) → fl_taken dest w1 = fl_taken dest w →
  fl_write dest bs w1 = (Ok n, w2) → 0 < n < Z.of_nat (length bs) →
  do_sendfile (S fuel) read dest w = (Ok 0, w2) ∧
  fl_taken dest w2 = fl_taken dest w ++ take (Z.to_nat n) bs.
Proof.
  intros Hr Ht Hw Hn. split.
  - unfold do_sendfile. cbn [sendfile_loop]. unfold mbind, st_bind. rewrite Hr.
    destruct (Z.eqb_spec (Z.of_nat (length bs)) 0); [lia|]. rewrite Hw.
    destruct (Z.ltb_spec n (Z.of_nat (length bs))); [done|lia].
  - apply fl_write_Ok in Hw as [_ ->]. by rewrite Ht.
Qed.

End io.

(** ** Seeking *)

Section lseek.
Context {D FS N A : Type} `{V : !AxfsVfs D FS N A} `{AE : AxErrno}.
Context `{FO : FlattenObjects FileLike AX_FILE_LIMIT}.

(** [sys_lseek]; the state is the file behind the descriptor. *)
Definition sys_lseek (t : table FileLike AX_FILE_LIMIT) (fd offset whence : Z) :
    st (File N * D) LinuxError Z :=
  pos ← st_lift (if whence =? 0 then Ok (SeekStart (as_u64 offset))
                 else if whence =? 1 then Ok (SeekCurrent offset)
                 else if whence =? 2 then Ok (SeekEnd offset) else Err EINVAL);
  _ ← st_lift (File_from_fd t fd);
  off ← st_map_err ax_to_linux (File_seek pos);
  mret (as_isize off).

(** a negative offset from the start is not refused: the cursor goes to
    the offset taken as an unsigned number, and the call returns the negative
    offset itself, which its caller takes for an error number. *)
Theorem lseek_accepts_negative_start (t : table FileLike AX_FILE_LIMIT) (fd offset : Z) (o : FileLike)
    (f : File N) (d : D) (a : A) :
  File_from_fd t fd = Ok o → node_get_attr (f_node f) d = Ok a → - 2 ^ 63 ≤ offset < 0 →
  sys_lseek t fd offset 0 (f, d) = (Ok offset, (set_offset (2 ^ 64 + offset) f, d)).
Proof.
  intros Hfd Ha Ho. unfold sys_lseek, mbind, st_bind, st_lift. rewrite Hfd. cbn [Z.eqb].
  assert (contains (f_cap f) 0 = true) as H0 by (unfold contains; by rewrite Z.land_0_r).
  unfold st_map_err, File_seek, File_get_attr, File_access. monad. rewrite H0, Ha. simpl.
  assert (as_u64 offset = 2 ^ 64 + offset) as ->.
  { unfold wrapu. rewrite <- (Z_mod_plus_full offset 1), Z.mod_small; lia. }
  do 2 f_equal. unfold wraps.
  replace (2 ^ 64 + offset + 2 ^ (64 - 1)) with (offset + 2 ^ 63 + 1 * 2 ^ 64) by lia.
  rewrite Z_mod_plus_full, Z.mod_small; lia.
Qed.

End lseek.

(** ** Witnesses: an input and an output *)

Record Wires := mkWires { w_in : list Z; w_out : list Z }.

(** An output that takes at most [limit] bytes at a time, if there is a limit. *)
Definition wires_write (limit : option nat) (o : FileLike) (buf : list Z) : st Wires LinuxError Z := λ w,
  let n := match limit with Some k => (length buf `min` k)%nat | None => length buf end in
  (Ok (Z.of_nat n), mkWires (w_in w) (w_out w ++ take n buf)).

#[program] Definition WiresFile (limit : option nat) : FileOps Wires := {|
  fl_read o n := λ w, (Ok (take n (w_in w)), mkWires (drop n (w_in w)) (w_out w));
  fl_write := wires_write limit;
  fl_taken o w := w_out w;
|}.
Next Obligation. intros _ o n w bs w' [= <- <-]. rewrite length_take. lia. Qed.
Next Obligation. done. Qed.
Next Obligation.
  intros limit o buf w n w' [= <- <-]. simpl. rewrite Nat2Z.id. split; [|done].
  destruct limit; lia.
Qed.
Next Obligation. intros limit o buf w r w' [= <- <-] Hr. by destruct (Hr _ eq_refl). Qed.

Definition stdin_obj : FileLike := {| obj_id := 10; obj_kind := KStdin |}.
Definition stdout_obj : FileLike := {| obj_id := 11; obj_kind := KStdout |}.

Lemma writev_spec_witness :
  let F := WiresFile (Some 2%nat) in
  ∃ n, w_out (sys_writev stdio_table 1 (Ok [mkIovec 3 (Ok [1; 2; 3]); mkIovec 1 (Ok [4])]) 2
                (mkWires [] [])).2 = take n [1; 2; 3; 4] ∧ n = 2%nat.
Proof.
  intros F. destruct (writev_spec stdio_table 1 2 stdout_obj
    [mkIovec 3 (Ok [1; 2; 3]); mkIovec 1 (Ok [4])] (mkWires [] [])) as (n & Ht & _ & Hr).
  - by vm_compute.
  - repeat constructor; by eexists.
  - done.
  - done.
  - exists n. split; [exact Ht|]. specialize (Hr 2 ltac:(by vm_compute)). lia.
Defined.

Lemma sendfile_copies_everything_witness :
  let F := WiresFile None in
  ∃ w', sys_sendfile stdio_table 4 1 0 (Ok None) (λ _, st_panic) 0 (mkWires [7; 8; 9] [5]) = (Ok 3, w') ∧
    w_out w' = [5; 7; 8; 9].
Proof.
  intros F. destruct (sendfile_copies_everything stdio_table 1 0 0 stdin_obj stdout_obj w_in
    (λ _, st_panic) (mkWires [7; 8; 9] [5])) as (w' & Hr & Ht & _).
  - by vm_compute.
  - by vm_compute.
  - split; [intros w; by eexists|]. by intros w buf r w' [= <- <-].
  - intros w buf. by eexists.
  - done.
  - exists w'. by split.
Defined.

Lemma sendfile_drops_short_write_witness :
  let F := WiresFile (Some 2%nat) in
  do_sendfile 1 (fl_read stdin_obj SENDFILE_BUF) stdout_obj (mkWires [7; 8; 9] [])
    = (Ok 0, mkWires [] [7; 8]).
Proof.
  intros F. apply (sendfile_drops_short_write 0 (fl_read stdin_obj SENDFILE_BUF) stdout_obj [7; 8; 9] 2
    (mkWires [7; 8; 9] []) (mkWires [] [])); done.
Defined.

#[local] Existing Instance SampleErrno.

(** Descriptor 3 is a regular file. *)
Definition file_table : table FileLike AX_FILE_LIMIT :=
  match fo_add stdio_table {| obj_id := 13; obj_kind := KFile $"/a" |} with
  | Some (_, t) => t
  | None => stdio_table
  end.

Lemma lseek_accepts_negative_start_witness :
  (sys_lseek file_table 3 (-5) 0 (mem_opened O_RDONLY, disk mem_boot_a)).1 = Ok (-5).
Proof.
  rewrite (lseek_accepts_negative_start file_table 3 (-5) {| obj_id := 13; obj_kind := KFile $"/a" |}
    (mem_opened O_RDONLY) (disk mem_boot_a) (NodeFile, [104; 105])); [done|by vm_compute|by vm_compute|lia].
Defined.
